(* ===== verification/_CoqProject ===== *)
-Q . S2P
Prelude.v
PyDecimal.v
PyUuid.v
World.v
Metrics.v
Config.v
AuditLogger.v
Determined.v
BudgetEnforcer.v
LoopDetector.v
PyCrypto.v
ReplayStore.v
Regex.v
Guardrails.v
SessionMgr.v
TokenLibrary.v
PolicyEngine.v
AccessPolicy.v
Adapters.v
Orchestrator.v
AuditTrace.v
PipelineExamples.v
Workflow.v
WorkflowSafety.v
Activities.v
MetricsSafety.v
DurableLoop.v
System.v
SystemExamples.v
ApprovalService.v
Router.v
DeployedPolicy.v
DataConverter.v
Main.v
AgentScheduler.v
Worker.v
Demo.v
Compliance.v
ServiceExamples.v
DeploymentExamples.v
