(* ===== verification/Prelude.v ===== *)
(** * Aegis-OS: a verification of the control plane

    Aegis-OS runs LLM tasks for agents under governance: prompts are scrubbed of
    personal data, a policy server decides, short-lived tokens authorise, spending and
    loops are watched, people approve expensive tasks, and every step leaves an audit
    event.  This library models the Python sources under src/ as Rocq functions and
    proves what they promise.  This file holds the shared vocabulary: exceptions with
    Python's inheritance, JSON values, association lists, time, and the general
    lemmas and tactics.

    ** The program and its model

    A synchronous request goes from the router through the orchestrator: guardrails,
    policy engine, session manager, budget enforcer, adapter, loop detector,
    guardrails.  A durable task is a Temporal workflow whose stages are activities that
    use the same components on a worker; an approval service lets people signal it.

    - Python itself: PyDecimal (decimal arithmetic in the default 28-digit context,
      parsing and printing), PyUuid, PyCrypto (base64url, SHA-256 with its constants
      computed, canonical JSON), Regex (the regular expressions the guardrails use, with
      a matching relation that the matcher is proved to decide).
    - World: a computation [M S A] gets its object's state and the outside world (log
      lines, metrics, spans, HTTP requests sent, readings of clocks and random ids) and
      returns a value or an exception, with both; the class [Env] is what the
      environment answers, and is arbitrary in every theorem.  [wp], [preserves],
      [returns], [quiet] and [never_ok], [determined] in Determined, [emits] in Metrics and
      [accounts] in AuditTrace are the program logics used; the structural ones have a
      hint database and a tactic that walks through a computation.
    - Config: src/config.py.  AuditLogger: src/audit_vault/logger.py.
      Metrics: src/watchdog/metrics.py, with what a series shows after a list of calls.
      BudgetEnforcer: src/watchdog/budget_enforcer.py.  LoopDetector:
      src/watchdog/loop_detector.py.  ReplayStore: src/governance/replay_store.py, as a
      class with the in-memory and the Redis store as instances.  Guardrails:
      src/governance/guardrails.py.  SessionMgr: src/governance/session_mgr.py.
      PolicyEngine: src/governance/policy_engine/opa_client.py.  Adapters: src/adapters/,
      an adapter being a record of its operations.  Orchestrator:
      src/control_plane/orchestrator.py, one definition per stage.  AuditTrace: what its
      stages leave in the log when they fail.
    - AccessPolicy: policies/agent_access.rego and policies/budget.rego rule by rule, over
      Rego's defined and undefined values; the class [ServesPolicy] says that an OPA
      server has loaded the first.  DeployedPolicy puts the components that ask OPA in
      front of such a server.
    - Workflow: the workflow of src/control_plane/scheduler.py as a coroutine suspended
      at its awaits ([step]), its signal and query handlers, and what a server may do to
      it ([wstep], [execs]).  WorkflowSafety: its specification and proof.  Activities:
      AegisActivities and WorkflowAuditActivities, with [perform] for the worker's
      dispatch.  MetricsSafety: the metric calls of requests and activities.
      DurableLoop: the loop detector carried through checkpoints.  System:
      workflow, activities and server together.  AgentScheduler: the in-memory scheduler
      of the same file.
    - ApprovalService: src/control_plane/approval_service.py over a class of Temporal
      clients.  Router: src/control_plane/router.py.  DataConverter:
      src/control_plane/data_converter.py.  Main: src/main.py.  Worker:
      src/control_plane/worker.py.  Demo: scripts/verify_pending_approval_demo.py.
      Compliance: src/audit_vault/compliance.py.
    - TokenLibrary, PipelineExamples, SystemExamples, ServiceExamples and
      DeploymentExamples instantiate the parameters (a JWT library that meets the laws of
      [JoseLaws], a policy server, a model, a cluster, a demo stack) and run the code on
      concrete inputs.

    ** What the theorems show

    - Governance end to end: whatever the server and other tasks do, only masked prompts
      of injection-free tasks that OPA granted and people approved reach a model, at most
      five times, and only masked answers leave ([llm_attempts_governed],
      [task_answer_governed], [llm_attempts_bounded], System); the same for a request
      through the orchestrator, which consults its adapter once at most ([run_success],
      [refused_without_llm], [exhausted_budget_blocks]) and whose failures are in the log
      ([stage_failure_audited], AuditTrace).  "Prompt" is the user prompt: the code
      passes the system prompt on as it comes.
    - The deployment: the policy document decides exactly as its declarative reading
      ([policy_decides], AccessPolicy, where masking does not decide); with it loaded, only
      registered agent types call a model and sensitive ones with a prompt masked twice ([deployed_governance]), only
      administrators decide ([only_admins_decide]), and their decisions go through
      ([admin_decision_delivered], DeployedPolicy), the demo script's too
      ([demo_decision_accepted], Demo).
    - Metrics: every call is one the declared metrics accept ([metric_calls_typed]), the
      budget gauge shows what is left of every session ([budget_gauge_faithful],
      MetricsSafety), GET /metrics shows the pending tasks ([metrics_show_pending],
      Main); the waits of the demo end ([demo_waits_end], Demo).
    - The workflow: what every result and every error means, that the approval state is
      an abstract gate automaton, that every run is finite, which ends leave the
      workflow open, and that approved work completes (WorkflowSafety); human decisions are authorised ([decision_authorized], Router).
    - Budgets are exact, idempotent ledgers that survive replay and retries
      (BudgetEnforcer, Activities); the loop breakers trip exactly when they should, in
      memory and across activities (LoopDetector, DurableLoop).
    - Tokens: round trip, rotation, revocation and its gaps, proof of possession and
      single use (SessionMgr, ReplayStore, Adapters); the policy client fails closed
      (PolicyEngine); masking and injection detection are exact for their patterns
      (Guardrails); the audit trail of a task is gapless and ordered (AuditLogger); the
      encrypted history reads back (DataConverter).

    ** Parameters, bounds and fuel

    Code outside the repository is a parameter: python-jose, cryptography, Fernet,
    pydantic's text conversions and messages, Unicode tables, Redis, the Temporal client
    and server, OPA and the model providers.  Where a theorem relies on them, the laws are
    a class ([JoseLaws], [RedisLaws], [FernetLaws], [TemporalLaws], [DemoClock]), each
    with an instance; that OPA evaluates the repository's policy is [ServesPolicy], that
    the libraries raise exceptions of their own classes is [foreign_errors].
    [TemporalLaws] makes a query and a signal atomic: the workflow does not move while the
    approval service queries it and then signals it.  On a live server it may, so that a
    signal can come after the gate has closed, and is then ignored by the workflow while
    the service reports success; the theorems on decisions speak of the order of the
    checks, and of delivery when nothing intervenes.
    Where an exception ends the coroutine of a workflow, temporalio closes the workflow
    only for its own [FailureError]s and cancellations ([closes], Workflow); other
    exceptions make it retry the workflow task.
    An adapter shares the session manager and the audit logger of the orchestrator or the
    activities that call it, as in the deployment; the constructors would allow others.
    Polling loops of the demo have fuel: one round per interval of the timeout and one
    more are proved enough when time passes while the script sleeps.
    [issubclass] looks up six levels, one more than the longest inheritance chain; a
    starred regular expression has the length of the remaining text as fuel, enough
    because its body consumes; the first 64 primes of SHA-256 lie below the search bound
    of 310.  Integers of Python are unbounded and are [Z]; float times are integers in
    ticks of 2^-22 s, exact for the operations the sources do on them.

    ** Not modelled

    The polling of a running worker and the server behind it (the Temporal SDK; what the
    server may do to a workflow is the relation [wstep]); the set-up of OpenTelemetry and
    of the FastAPI application; JSON rendering of log lines (structlog) and of the metrics
    page (prometheus_client, an argument of [metrics]); the parsing of the demo's command
    line (argparse; its result and the defaults are modelled); budget.rego on ill-typed
    inputs; _fix_e501.py, a formatting helper; Decimal NaN and infinity (the parser refuses
    them; Python's comparison would raise for NaN and would ask for approval for an
    infinite projected spend). *)
From Stdlib Require Import ZArith Lia Ascii String.
From stdpp Require Import base gmap strings list list_numbers sorting.

Global Open Scope Z_scope.
Set Warnings "-register-all".

(** The [detail] of an [HTTPException]: a text, or the body
    [{"error": {"code", "message", "task_id"}}]. *)
Inductive http_detail : Type :=
  | Detail (text : string)
  | ErrorDetail (code message task_id : string).
#[global] Instance http_detail_eq_dec : EqDecision http_detail.
Proof. solve_decision. Defined.

(** ** Python exceptions

    An exception is its class, its message ([str(exc)]) and the exception it
    was raised from ([__cause__]).  The classes are those the repository
    defines, raises or catches; [parent] is Python's inheritance, so that an
    [except C] clause is [isinstance e C]. *)
Inductive exc_class : Type :=
  | BaseException | Exception | CancelledError
  | KeyError | ValueError | RuntimeError | PermissionError | LookupError
  | TypeError | AssertionError | ArithmeticError | InvalidOperation
  | DivisionByZero | TimeoutError
  (* src/governance *)
  | TokenScopeError | TokenExpiredError | TokenRevokedError | TokenActionError
  | TokenBindingError | DPoPProofError | DPoPReplayError
  | PromptInjectionError | OpaUnavailableError
  (* src/watchdog *)
  | BudgetExceededError | LoopDetectedError | TokenVelocityError
  | PendingApprovalError
  (* src/control_plane *)
  | PolicyDeniedError | BudgetLimitError | LoopHaltError | LoopVelocityError
  | LoopApprovalError | MissingTaskIdError | HITLEscalationError
  | RateLimitError | PendingApprovalNotFoundError
  | PendingApprovalConflictError | DataConverterError
  (* src/adapters, src/audit_vault *)
  | AdapterSecurityError | AuditOrderingError
  (* third-party classes the sources name *)
  | JWTError | ExpiredSignatureError | ValidationError
  | ConnectError | TimeoutException | HTTPStatusError
  | HTTPException (status_code : Z) (detail : http_detail)
  | ApplicationError (type : string)   (* always raised with non_retryable=True *)
  | ActivityError | InvalidToken
  | OtherException (name : string).

#[global] Instance exc_class_eq_dec : EqDecision exc_class.
Proof. solve_decision. Defined.

Definition parent (c : exc_class) : option exc_class :=
  match c with
  | BaseException => None
  | Exception | CancelledError => Some BaseException
  | KeyError => Some LookupError
  | InvalidOperation | DivisionByZero => Some ArithmeticError
  | TokenScopeError | TokenExpiredError | TokenRevokedError | TokenActionError
  | TokenBindingError | DPoPProofError | PolicyDeniedError
  | AdapterSecurityError => Some PermissionError
  | DPoPReplayError => Some DPoPProofError
  | PromptInjectionError | MissingTaskIdError | ValidationError =>
      Some ValueError
  | OpaUnavailableError | PendingApprovalConflictError | DataConverterError
  | AuditOrderingError => Some RuntimeError
  | PendingApprovalNotFoundError => Some LookupError
  | ExpiredSignatureError => Some JWTError
  | _ => Some Exception
  end.

(** The longest inheritance chain above has five classes, so six levels of
    look-up reach the root from every class. *)
Fixpoint subclass_fuel (n : nat) (c d : exc_class) : bool :=
  bool_decide (c = d) ||
  match n with
  | O => false
  | S n => match parent c with Some p => subclass_fuel n p d | None => false end
  end.

Definition issubclass (c d : exc_class) : bool := subclass_fuel 6 c d.

Inductive exn : Type :=
  Exn (cls : exc_class) (msg : string) (cause : option exn).

Definition exn_class (e : exn) : exc_class := let 'Exn c _ _ := e in c.
Definition exn_str (e : exn) : string := let 'Exn _ m _ := e in m.
Definition exn_cause (e : exn) : option exn := let 'Exn _ _ k := e in k.
Definition isinstance (e : exn) (c : exc_class) : bool := issubclass (exn_class e) c.

(** ** JSON-like values: log fields, JWT payloads, HTTP bodies *)
Inductive json : Type :=
  | JNull
  | JBool (b : bool)
  | JInt (z : Z)
  | JTime (t : Z)                       (* a float number of seconds, in ticks *)
  | JStr (s : string)
  | JList (l : list json)
  | JObj (fields : list (string * json)).

(** [d.get(k)] on a JSON object held as an association list in insertion
    order (keys are distinct in every object the sources build). *)
Fixpoint assoc {A} (k : string) (l : list (string * A)) : option A :=
  match l with
  | [] => None
  | (k', v) :: l => if bool_decide (k = k') then Some v else assoc k l
  end.

(** Python's [d[k] = v]: overwrite in place, or append. *)
Fixpoint assoc_set {A} (k : string) (v : A) (l : list (string * A))
    : list (string * A) :=
  match l with
  | [] => [(k, v)]
  | (k', v') :: l =>
      if bool_decide (k = k') then (k, v) :: l else (k', v') :: assoc_set k v l
  end.

(** [repr(s)] of a string without quotes, backslashes or control characters. *)
Definition repr_str (s : string) : string := "'" +:+ s +:+ "'".

Definition jstr_opt (o : option string) : json :=
  match o with Some s => JStr s | None => JNull end.
Definition jstrs (l : list string) : json := JList (JStr <$> l).

(** Code-point order of strings, for [sorted]. *)
Definition string_le (a b : string) : Prop := String.leb a b = true.
#[global] Instance string_le_dec : RelDecision string_le.
Proof. intros a b. unfold string_le. apply _. Defined.

(** ** Time

    [time.time()] is a double.  Between 2004 and 2038 its value lies in
    [2^30, 2^31), where doubles are the multiples of 2^-22 s, and adding or
    subtracting a whole number of seconds inside that range is exact.  Epoch
    times are therefore integers that count ticks of 2^-22 s. *)
Definition tick_rate : Z := 2 ^ 22.
Definition secs (n : Z) : Z := n * tick_rate.
(** [int(t)] for a non-negative float time. *)
Definition whole_secs (t : Z) : Z := t / tick_rate.

(** ** Generic lemmas *)

Lemma assoc_set_eq {A} k (v : A) l : assoc k (assoc_set k v l) = Some v.
Proof.
  induction l as [|[k' v'] l IH]; simpl.
  - by rewrite bool_decide_true.
  - destruct (bool_decide (k = k')) eqn:E; simpl.
    + by rewrite bool_decide_true.
    + by rewrite E.
Qed.

Lemma assoc_set_ne {A} k k' (v : A) l :
  k <> k' -> assoc k (assoc_set k' v l) = assoc k l.
Proof.
  intros Hne. induction l as [|[k'' v'] l IH]; simpl.
  - by rewrite bool_decide_false.
  - case_bool_decide; subst; simpl.
    + by rewrite !bool_decide_false.
    + by rewrite IH.
Qed.

Lemma issubclass_refl c : issubclass c c = true.
Proof. unfold issubclass; simpl. by rewrite bool_decide_true. Qed.

(** Case analysis on every boolean test, decision or match of the goal. *)
Ltac split_matches :=
  repeat match goal with
         | |- context [match ?x with _ => _ end] => destruct x eqn:?
         end.

(** Turn boolean integer tests in hypotheses into [Prop]s that [lia] reads. *)
Ltac bool_to_prop :=
  repeat match goal with
         | H : (_ <? _) = true |- _ => apply Z.ltb_lt in H
         | H : (_ <? _) = false |- _ => apply Z.ltb_ge in H
         | H : (_ <=? _) = true |- _ => apply Z.leb_le in H
         | H : (_ <=? _) = false |- _ => apply Z.leb_gt in H
         | H : (_ =? _) = true |- _ => apply Z.eqb_eq in H
         | H : (_ =? _) = false |- _ => apply Z.eqb_neq in H
         | H : bool_decide _ = true |- _ => apply bool_decide_eq_true_1 in H
         | H : bool_decide _ = false |- _ => apply bool_decide_eq_false_1 in H
         | H : _ && _ = true |- _ => apply andb_true_iff in H as [? ?]
         | H : _ || _ = false |- _ => apply orb_false_iff in H as [? ?]
         | H : negb _ = true |- _ => apply negb_true_iff in H
         | H : negb _ = false |- _ => apply negb_false_iff in H
         end.
