(* ===== verification/PyDecimal.v ===== *)
(** * Python's [decimal.Decimal]

    The finite values of the standard library's [Decimal] and the operations
    the sources use, under the default context (28 digits of precision,
    [ROUND_HALF_EVEN]): [+], [-], [*], [/], comparisons, [max], [str] and the
    constructor from a string.  NaN and infinities are not values of the model
    (the parser rejects their spellings), and the context's exponent limits
    (+-999999) are not modelled.

    [valAt e d] is the value of [d] as an integer multiple of [10^e]: all
    statements about values are integer statements at a common scale. *)
From Stdlib Require Import ZArith Lia Ascii String.
From stdpp Require Import base list strings sets.
From S2P Require Import Prelude.

Record Decimal : Type := mkDec {
  d_sign : bool;                        (* [true] for a minus sign *)
  d_coef : Z;                           (* the digits [_int], non-negative *)
  d_exp : Z
}.

#[global] Instance Decimal_eq_dec : EqDecision Decimal.
Proof. solve_decision. Defined.

Definition dec_wf (d : Decimal) : Prop := 0 <= d_coef d.

Definition prec : Z := 28.

(** ** Digits *)

(** The decimal digits of [n >= 0], most significant first, no leading zero
    (but ["0"] for zero); [fuel] bounds the number of digits. *)
Fixpoint digits_fuel (fuel : nat) (n : Z) : list Z :=
  match fuel with
  | O => [n]
  | S f => if n <? 10 then [n] else digits_fuel f (n / 10) ++ [n mod 10]
  end.

Definition digits (n : Z) : list Z := digits_fuel (Z.to_nat (Z.log2 n)) n.
Definition ndigits (n : Z) : Z := Z.of_nat (length (digits n)).
Definition undigits (l : list Z) : Z := fold_left (fun a d => 10 * a + d) l 0.

(** ** Rounding to the context precision ([Decimal._fix]) *)

(** Round-half-even of the non-negative integer [n] divided by [10^k]. *)
Definition round_half_even (n k : Z) : Z :=
  let q := n / 10 ^ k in
  let r := n mod 10 ^ k in
  if 2 * r <? 10 ^ k then q
  else if 10 ^ k <? 2 * r then q + 1
  else if Z.even q then q else q + 1.

Definition fix_ (d : Decimal) : Decimal :=
  let k := ndigits (d_coef d) - prec in
  if k <=? 0 then d
  else
    let c := round_half_even (d_coef d) k in
    if prec <? ndigits c
    then mkDec (d_sign d) (c / 10) (d_exp d + k + 1)
    else mkDec (d_sign d) c (d_exp d + k).

(** ** Arithmetic *)

Definition signed (d : Decimal) : Z := if d_sign d then - d_coef d else d_coef d.

Definition valAt (e : Z) (d : Decimal) : Z := signed d * 10 ^ (d_exp d - e).

Definition dec_add (a b : Decimal) : Decimal :=
  let e := Z.min (d_exp a) (d_exp b) in
  let s := valAt e a + valAt e b in
  let sg := if s =? 0 then d_sign a && d_sign b else s <? 0 in
  fix_ (mkDec sg (Z.abs s) e).

Definition dec_neg (a : Decimal) : Decimal :=
  mkDec (negb (d_sign a)) (d_coef a) (d_exp a).

Definition dec_sub (a b : Decimal) : Decimal := dec_add a (dec_neg b).

Definition dec_mul (a b : Decimal) : Decimal :=
  fix_ (mkDec (xorb (d_sign a) (d_sign b)) (d_coef a * d_coef b) (d_exp a + d_exp b)).

(** Strip factors of ten while the exponent is below the ideal one. *)
Fixpoint strip_zeros (fuel : nat) (c e ideal : Z) : Z * Z :=
  match fuel with
  | O => (c, e)
  | S f => if (e <? ideal) && (c mod 10 =? 0)
           then strip_zeros f (c / 10) (e + 1) ideal else (c, e)
  end.

Definition dec_div (a b : Decimal) : option Decimal :=
  if d_coef b =? 0 then None
  else
    let sg := xorb (d_sign a) (d_sign b) in
    let ideal := d_exp a - d_exp b in
    if d_coef a =? 0 then Some (fix_ (mkDec sg 0 ideal))
    else
      let shift := ndigits (d_coef b) - ndigits (d_coef a) + prec + 1 in
      let e := ideal - shift in
      let '(num, den) :=
        if 0 <=? shift then (d_coef a * 10 ^ shift, d_coef b)
        else (d_coef a, d_coef b * 10 ^ (- shift)) in
      let q := num / den in
      if negb (num mod den =? 0)
      then Some (fix_ (mkDec sg (if q mod 5 =? 0 then q + 1 else q) e))
      else let '(c, e') := strip_zeros (Z.to_nat (ndigits q)) q e ideal in
           Some (fix_ (mkDec sg c e')).

Definition dec_of_int (n : Z) : Decimal := mkDec (n <? 0) (Z.abs n) 0.

Definition dec_compare (a b : Decimal) : comparison :=
  let e := Z.min (d_exp a) (d_exp b) in
  Z.compare (valAt e a) (valAt e b).

Definition dec_ltb (a b : Decimal) : bool :=
  match dec_compare a b with Lt => true | _ => false end.
Definition dec_leb (a b : Decimal) : bool :=
  match dec_compare a b with Gt => false | _ => true end.

(** [max(a, b)] keeps its first argument on a tie. *)
Definition dec_max (a b : Decimal) : Decimal := if dec_ltb a b then b else a.

Definition dec_zero : Decimal := mkDec false 0 0.

(** ** Text *)

Definition digit_char (d : Z) : ascii := ascii_of_nat (48 + Z.to_nat d).
Definition char_digit (c : ascii) : option Z :=
  let n := Z.of_nat (nat_of_ascii c) in
  if (48 <=? n) && (n <=? 57) then Some (n - 48) else None.

Definition digit_chars (n : Z) : list ascii := digit_char <$> digits n.
Definition zeros (n : Z) : list ascii := repeat "0"%char (Z.to_nat n).

(** ["%+d" % n] *)
Definition signed_int_chars (n : Z) : list ascii :=
  (if n <? 0 then "-"%char else "+"%char) :: digit_chars (Z.abs n).

Definition dec_chars (d : Decimal) : list ascii :=
  let ds := digit_chars (d_coef d) in
  let len := ndigits (d_coef d) in
  let leftdigits := d_exp d + len in
  let dotplace :=
    if (d_exp d <=? 0) && (-6 <? leftdigits) then leftdigits else 1 in
  let '(intpart, fracpart) :=
    if dotplace <=? 0 then (["0"%char], "."%char :: zeros (- dotplace) ++ ds)
    else if len <=? dotplace then (ds ++ zeros (dotplace - len), [])
    else (take (Z.to_nat dotplace) ds, "."%char :: drop (Z.to_nat dotplace) ds) in
  let e := if leftdigits =? dotplace then []
           else "E"%char :: signed_int_chars (leftdigits - dotplace) in
  (if d_sign d then ["-"%char] else []) ++ intpart ++ fracpart ++ e.

Definition dec_str (d : Decimal) : string := string_of_list_ascii (dec_chars d).

(** *** Parsing ([Decimal(s)])

    Surrounding whitespace and underscores are dropped, then
    [[-+]? (digits [. digits*] | . digits) ([eE] [-+]? digits)?]. *)
Definition is_space (c : ascii) : bool :=
  let n := Z.of_nat (nat_of_ascii c) in
  (n =? 32) || ((9 <=? n) && (n <=? 13)) || ((28 <=? n) && (n <=? 31)).

Fixpoint drop_spaces (l : list ascii) : list ascii :=
  match l with
  | c :: l' => if is_space c then drop_spaces l' else l
  | [] => []
  end.

Definition strip (l : list ascii) : list ascii :=
  reverse (drop_spaces (reverse (drop_spaces l))).

Fixpoint span_digits (l : list ascii) : list Z * list ascii :=
  match l with
  | c :: l' =>
      match char_digit c with
      | Some d => let '(ds, rest) := span_digits l' in (d :: ds, rest)
      | None => ([], l)
      end
  | [] => ([], [])
  end.

Definition take_sign (l : list ascii) : bool * list ascii :=
  match l with
  | c :: l' => if bool_decide (c = "-"%char) then (true, l')
               else if bool_decide (c = "+"%char) then (false, l') else (false, l)
  | [] => (false, [])
  end.

Definition parse_exponent (l : list ascii) : option Z :=
  match l with
  | [] => Some 0
  | c :: l =>
      if bool_decide (c = "E"%char) || bool_decide (c = "e"%char) then
        let '(neg, l) := take_sign l in
        match span_digits l with
        | ([], _) => None
        | (ds, []) => Some (if neg then - undigits ds else undigits ds)
        | (_, _ :: _) => None
        end
      else None
  end.

Definition dec_parse_chars (l : list ascii) : option Decimal :=
  let '(neg, l) := take_sign l in
  let '(ip, l) := span_digits l in
  let '(fp, l) :=
    match l with
    | c :: l' => if bool_decide (c = "."%char) then span_digits l' else ([], l)
    | [] => ([], [])
    end in
  match ip ++ fp with
  | [] => None
  | ds => e ← parse_exponent l;
          Some (mkDec neg (undigits ds) (e - Z.of_nat (length fp)))
  end.

Definition dec_parse (s : string) : option Decimal :=
  dec_parse_chars
    (filter (fun c => c <> "_"%char) (strip (list_ascii_of_string s))).

Example dec_str_1 : dec_str (mkDec false 2 (-6)) = "0.000002"%string.
Proof. reflexivity. Qed.
Example dec_str_2 : dec_str (mkDec true 123 (-9)) = "-1.23E-7"%string.
Proof. reflexivity. Qed.
Example dec_str_3 : dec_str (mkDec false 0 3) = "0E+3"%string.
Proof. reflexivity. Qed.
Example dec_parse_1 : dec_parse " 50.00"%string = Some (mkDec false 5000 (-2)).
Proof. reflexivity. Qed.
Example dec_parse_2 : dec_parse "1_0.5e-3"%string = Some (mkDec false 105 (-4)).
Proof. reflexivity. Qed.
Example dec_parse_3 : dec_parse "ten"%string = None.
Proof. reflexivity. Qed.
(** One third at 28 digits, and three times it: not 1. *)
Example dec_third :
  (d ← dec_div (dec_of_int 1) (dec_of_int 3); Some (dec_str (dec_mul d (dec_of_int 3))))
  = Some "0.9999999999999999999999999999"%string.
Proof. vm_compute. reflexivity. Qed.
Example dec_div_exact :
  (d ← dec_div (mkDec false 100 (-2)) (dec_of_int 8); Some (dec_str d)) = Some "0.125"%string.
Proof. vm_compute. reflexivity. Qed.

Create HintDb decimal.

Arguments char_digit : simpl never.
Arguments digit_char : simpl never.
Arguments Z.pow : simpl never.

(** ** Facts about digits *)

Lemma undigits_snoc l d : undigits (l ++ [d]) = 10 * undigits l + d.
Proof. unfold undigits. by rewrite fold_left_app. Qed.

Lemma undigits_zeros k l : undigits (replicate k 0 ++ l) = undigits l.
Proof. unfold undigits. induction k; simpl; auto. Qed.

Lemma pow10_pos k : 0 <= k -> 0 < 10 ^ k.
Proof. intros. apply Z.pow_pos_nonneg; lia. Qed.

Lemma pow10_succ k : 0 <= k -> 10 ^ (k + 1) = 10 * 10 ^ k.
Proof. intros. rewrite Z.pow_add_r by lia. lia. Qed.

Lemma digits_fuel_spec fuel n :
  0 <= n < 10 ^ (Z.of_nat fuel + 1) ->
  let l := digits_fuel fuel n in
  undigits l = n /\ Forall (fun d => 0 <= d <= 9) l /\
  1 <= Z.of_nat (length l) /\ n < 10 ^ Z.of_nat (length l) /\
  (10 ^ (Z.of_nat (length l) - 1) <= n \/ n = 0 /\ length l = 1%nat).
Proof.
  revert n. induction fuel as [|f IH]; intros n Hn; simpl.
  - change (10 ^ (Z.of_nat 0 + 1)) with 10 in Hn.
    unfold undigits; simpl. repeat split; try lia.
    repeat constructor; lia.
  - destruct (Z.ltb_spec n 10) as [Hlt|Hge].
    + unfold undigits; simpl. repeat split; try lia. repeat constructor; lia.
    + assert (Hq : 0 <= n / 10 < 10 ^ (Z.of_nat f + 1)).
      { rewrite Nat2Z.inj_succ in Hn.
        replace (Z.succ (Z.of_nat f) + 1) with ((Z.of_nat f + 1) + 1) in Hn by lia.
        rewrite pow10_succ in Hn by lia.
        split; [apply Z.div_pos; lia | apply Z.div_lt_upper_bound; lia]. }
      destruct (IH _ Hq) as (Hv & Hd & Hl & Hu & Hlo).
      rewrite undigits_snoc, Hv, length_app; simpl.
      pose proof (Z.div_mod n 10 ltac:(lia)).
      pose proof (Z.mod_pos_bound n 10 ltac:(lia)).
      set (len := length (digits_fuel f (n / 10))) in *.
      replace (Z.of_nat (len + 1)) with (Z.of_nat len + 1) by lia.
      rewrite pow10_succ by lia.
      assert (1 <= n / 10) by (apply Z.div_le_lower_bound; lia).
      repeat split; try lia.
      * apply Forall_app; split; [done | repeat constructor; lia].
      * left. destruct Hlo as [Hlo|[? _]]; [|lia].
        replace (Z.of_nat len + 1 - 1) with ((Z.of_nat len - 1) + 1) by lia.
        rewrite pow10_succ by lia. lia.
Qed.

Lemma digits_spec n :
  0 <= n ->
  undigits (digits n) = n /\ Forall (fun d => 0 <= d <= 9) (digits n) /\
  1 <= ndigits n /\ n < 10 ^ ndigits n /\
  (10 ^ (ndigits n - 1) <= n \/ n = 0 /\ ndigits n = 1).
Proof.
  intros Hn. unfold ndigits, digits.
  assert (Hlt : n < 10 ^ (Z.of_nat (Z.to_nat (Z.log2 n)) + 1)).
  { rewrite Z2Nat.id by apply Z.log2_nonneg.
    destruct (Z.eq_dec n 0) as [->|]; [done|].
    pose proof (Z.log2_spec n ltac:(lia)) as [_ Hs].
    eapply Z.lt_le_trans; [exact Hs|].
    unfold Z.succ. apply Z.pow_le_mono_l. pose proof (Z.log2_nonneg n); lia. }
  destruct (digits_fuel_spec _ n (conj Hn Hlt)) as (H1 & H2 & H3 & H4 & H5).
  repeat split; auto. destruct H5 as [?|[? ->]]; [by left|by right].
Qed.

Lemma undigits_digits n : 0 <= n -> undigits (digits n) = n.
Proof. apply digits_spec. Qed.
Lemma digits_range n : 0 <= n -> Forall (fun d => 0 <= d <= 9) (digits n).
Proof. apply digits_spec. Qed.
Lemma ndigits_pos n : 0 <= n -> 1 <= ndigits n.
Proof. apply digits_spec. Qed.
Lemma ndigits_upper n : 0 <= n -> n < 10 ^ ndigits n.
Proof. apply digits_spec. Qed.
Lemma ndigits_lower n : 0 < n -> 10 ^ (ndigits n - 1) <= n.
Proof. intros. destruct (digits_spec n) as (_&_&_&_&[?|[? _]]); lia. Qed.

Lemma ndigits_le n k : 0 <= n < 10 ^ k -> 1 <= k -> ndigits n <= k.
Proof.
  intros Hn Hk. destruct (Z.eq_dec n 0) as [->|]; [done|].
  pose proof (ndigits_lower n ltac:(lia)).
  assert (~ k < ndigits n); [|lia]. intros Hlt.
  assert (10 ^ k <= 10 ^ (ndigits n - 1)); [|lia].
  apply Z.pow_le_mono_r; lia.
Qed.

Lemma ndigits_gt n k : 0 <= n -> 0 <= k -> k < ndigits n -> n = 0 \/ 10 ^ k <= n.
Proof.
  intros. destruct (Z.eq_dec n 0); [by left|right].
  pose proof (ndigits_lower n ltac:(lia)).
  assert (10 ^ k <= 10 ^ (ndigits n - 1)); [|lia].
  apply Z.pow_le_mono_r; lia.
Qed.

(** ** [Decimal(str(d)) == d], representation included *)

Lemma char_digit_char d : 0 <= d <= 9 -> char_digit (digit_char d) = Some d.
Proof.
  intros. unfold char_digit, digit_char.
  rewrite nat_ascii_embedding by lia.
  replace (Z.of_nat (48 + Z.to_nat d)) with (48 + d) by lia.
  rewrite (proj2 (Z.leb_le _ _)), (proj2 (Z.leb_le _ _)) by lia.
  simpl. f_equal; lia.
Qed.

Definition no_digit (l : list ascii) : Prop :=
  match l with [] => True | c :: _ => char_digit c = None end.

Lemma span_digits_app ds rest :
  Forall (fun d => 0 <= d <= 9) ds -> no_digit rest ->
  span_digits ((digit_char <$> ds) ++ rest) = (ds, rest).
Proof.
  induction 1 as [|d ds Hd _ IH]; intros Hr.
  - destruct rest as [|c rest]; [done|]. simpl in *. by rewrite Hr.
  - rewrite fmap_cons. cbn [app span_digits]. by rewrite char_digit_char, IH.
Qed.

Lemma zeros_digits n : zeros n = digit_char <$> replicate (Z.to_nat n) 0.
Proof. unfold zeros. induction (Z.to_nat n); simpl; [done|by f_equal]. Qed.

(** The characters a [Decimal] prints. *)
Definition num_char (c : ascii) : Prop :=
  is_Some (char_digit c) \/ c ∈ ["-"; "+"; "."; "E"]%char.

Lemma num_char_ok c : num_char c -> is_space c = false /\ c <> "_"%char.
Proof.
  intros [[d Hd]|Hc].
  - split; [|by intros ->].
    unfold char_digit in Hd. case_match; [|done]. unfold is_space. clear Hd. lia.
  - set_unfold. destruct Hc as [->|[->|[->|[->|?]]]]; try done.
Qed.

Lemma digit_chars_num ds :
  Forall (fun d => 0 <= d <= 9) ds -> Forall num_char (digit_char <$> ds).
Proof.
  induction 1; [constructor|]. rewrite fmap_cons. constructor; [|done].
  left. rewrite char_digit_char; eauto.
Qed.

Lemma drop_spaces_id l :
  Forall (fun c => is_space c = false) l -> drop_spaces l = l.
Proof. intros []; simpl; [done|]. by rewrite H. Qed.

Lemma strip_filter_id l :
  Forall num_char l ->
  filter (fun c => c <> "_"%char) (strip l) = l.
Proof.
  intros H. assert (Hs : Forall (fun c => is_space c = false) l)
    by (eapply Forall_impl; [exact H|]; intros; by apply num_char_ok).
  unfold strip. rewrite (drop_spaces_id l), drop_spaces_id, reverse_involutive; auto.
  - clear Hs. induction H; [done|]. rewrite filter_cons_True, IHForall; [done|].
    by apply num_char_ok.
  - by apply Forall_reverse.
Qed.

Lemma take_sign_digit d l :
  0 <= d <= 9 -> take_sign (digit_char d :: l) = (false, digit_char d :: l).
Proof.
  intros Hd. cbn [take_sign].
  rewrite !bool_decide_false; [done|..];
    intros E; pose proof (char_digit_char d Hd) as H; by rewrite E in H.
Qed.

Lemma digits_cons n :
  0 <= n -> exists d ds, digits n = d :: ds /\ 0 <= d <= 9.
Proof.
  intros Hn. pose proof (digits_range n Hn) as Hr.
  pose proof (ndigits_pos n Hn) as Hl. unfold ndigits in Hl.
  destruct (digits n) as [|d ds]; simpl in Hl; [lia|].
  inversion Hr; eauto.
Qed.

Lemma parse_signed_exponent n :
  parse_exponent ("E"%char :: signed_int_chars n) = Some n.
Proof.
  unfold signed_int_chars, digit_chars. cbn [parse_exponent].
  rewrite bool_decide_true by done. cbn [orb].
  pose proof (span_digits_app (digits (Z.abs n)) [] (digits_range _ (Z.abs_nonneg n)) I) as Hs.
  rewrite app_nil_r in Hs.
  destruct (digits_cons (Z.abs n) (Z.abs_nonneg n)) as (d & ds & Hd & _).
  destruct (Z.ltb_spec n 0); cbn [take_sign]; rewrite ?bool_decide_true by done;
    rewrite ?bool_decide_false by done; rewrite ?bool_decide_true by done;
    rewrite Hs, Hd, <- Hd, undigits_digits by lia; f_equal; lia.
Qed.

(** The characters of a numeral [[-] ip [. fp] tail]. *)
Definition numeral (neg : bool) (ip fp : list Z) (tail : list ascii) : list ascii :=
  (if neg then ["-"%char] else []) ++ (digit_char <$> ip)
  ++ (match fp with [] => [] | _ => "."%char :: (digit_char <$> fp) end) ++ tail.

Definition exponent_tail (e : Z) : list ascii :=
  if e =? 0 then [] else "E"%char :: signed_int_chars e.

Lemma exponent_tail_spec e :
  parse_exponent (exponent_tail e) = Some e /\ no_digit (exponent_tail e) /\
  match exponent_tail e with c :: _ => c <> "."%char | [] => True end.
Proof.
  unfold exponent_tail. destruct (Z.eqb_spec e 0) as [->|]; [done|].
  split; [apply parse_signed_exponent|done].
Qed.

(** What the parser reads from a numeral. *)
Lemma parse_numeral neg ip fp e :
  Forall (fun d => 0 <= d <= 9) ip -> Forall (fun d => 0 <= d <= 9) fp ->
  ip <> [] ->
  dec_parse_chars (numeral neg ip fp (exponent_tail e))
  = Some (mkDec neg (undigits (ip ++ fp)) (e - Z.of_nat (length fp))).
Proof.
  intros Hip Hfp Hne. unfold dec_parse_chars, numeral.
  destruct (exponent_tail_spec e) as (He & Htail & Hdot).
  set (tail := exponent_tail e) in *. clearbody tail.
  destruct ip as [|d ip]; [done|]. inversion Hip as [|? ? Hd Hip']; subst.
  assert (Hs : forall l, take_sign ((if neg then ["-"%char] else [])
    ++ (digit_char <$> d :: ip) ++ l) = (neg, (digit_char <$> d :: ip) ++ l)).
  { intros l. destruct neg; [done|]. rewrite fmap_cons. by apply take_sign_digit. }
  rewrite Hs. clear Hs. destruct fp as [|f fp].
  - cbn [app]. rewrite span_digits_app by done.
    destruct tail as [|c tail]; [|rewrite bool_decide_false by done];
      rewrite app_nil_r, He; cbn [app]; by rewrite app_nil_r.
  - rewrite span_digits_app by done.
    rewrite <- app_comm_cons, bool_decide_true by done.
    rewrite span_digits_app by done. cbn [app]. by rewrite He.
Qed.

(** Every [Decimal] prints as a numeral whose digits are those of its
    coefficient, possibly after leading zeros. *)
Lemma dec_chars_numeral d :
  dec_wf d ->
  exists z ip fp e,
    dec_chars d = numeral (d_sign d) ip fp (exponent_tail e) /\ ip <> [] /\
    ip ++ fp = replicate z 0 ++ digits (d_coef d) /\
    e - Z.of_nat (length fp) = d_exp d.
Proof.
  destruct d as [sg c e]; unfold dec_wf; simpl; intros Hwf.
  pose proof (ndigits_pos c Hwf) as Hn.
  destruct (digits_cons c Hwf) as (d0 & ds & Hds & _).
  unfold dec_chars; cbn [d_sign d_coef d_exp]. set (left := e + ndigits c).
  assert (Hsplit : forall k, 0 < k < ndigits c ->
    (take (Z.to_nat k) (digit_chars c) ++ "."%char :: drop (Z.to_nat k) (digit_chars c))
    = (digit_char <$> take (Z.to_nat k) (digits c))
      ++ match drop (Z.to_nat k) (digits c) with
         | [] => [] | _ => "."%char :: (digit_char <$> drop (Z.to_nat k) (digits c)) end).
  { intros k Hk. unfold digit_chars. rewrite fmap_take, fmap_drop.
    destruct (drop (Z.to_nat k) (digits c)) eqn:E; [|done].
    apply (f_equal length) in E. rewrite length_drop in E. unfold ndigits in Hk.
    simpl in E. lia. }
  destruct ((e <=? 0) && (-6 <? left)) eqn:Eplain; bool_to_prop.
  - rewrite Z.eqb_refl. destruct (Z.leb_spec left 0).
    + exists (S (Z.to_nat (- left))), [0], (replicate (Z.to_nat (- left)) 0 ++ digits c), 0.
      split; [|split; [done|split; [done|]]].
      * unfold numeral, digit_chars. rewrite zeros_digits, <- fmap_app.
        by destruct (Z.to_nat (- left)); simpl; rewrite ?Hds.
      * rewrite length_app, length_replicate. unfold left, ndigits in *. lia.
    + destruct (Z.leb_spec (ndigits c) left).
      * exists 0%nat, (digits c), [], 0. unfold numeral, zeros.
        replace (left - ndigits c) with 0 by lia. simpl repeat. simpl length.
        change (exponent_tail 0) with (@nil ascii). rewrite !app_nil_r. split; [done|split; [by rewrite Hds|split; [done|lia]]].
      * exists 0%nat, (take (Z.to_nat left) (digits c)), (drop (Z.to_nat left) (digits c)), 0.
        rewrite take_drop, length_drop. split; [|split; [|split; [done|]]].
        -- unfold numeral. rewrite app_nil_r, Hsplit by lia. by rewrite app_nil_r.
        -- rewrite Hds. destruct (Z.to_nat left) eqn:E; [lia|done].
        -- unfold left, ndigits in *. lia.
  - change (1 <=? 0) with false. cbv iota.
    assert (Htl : (if left =? 1 then [] else "E"%char :: signed_int_chars (left - 1))
                  = exponent_tail (left - 1)).
    { unfold exponent_tail. by destruct (Z.eqb_spec left 1), (Z.eqb_spec (left - 1) 0);
        try lia. }
    rewrite Htl. destruct (Z.leb_spec (ndigits c) 1).
    + exists 0%nat, (digits c), [], (left - 1). unfold numeral, zeros.
      replace (1 - ndigits c) with 0 by lia. simpl repeat. simpl length.
      rewrite !app_nil_r. split; [done|split; [by rewrite Hds|split; [done|lia]]].
    + exists 0%nat, (take 1 (digits c)), (drop 1 (digits c)), (left - 1).
      rewrite take_drop, length_drop. split; [|split; [by rewrite Hds|split; [done|]]].
      * unfold numeral. f_equal. specialize (Hsplit 1 ltac:(lia)).
        change (Z.to_nat 1) with 1%nat in *.
        by rewrite !app_assoc, Hsplit.
      * unfold left, ndigits in *. lia.
Qed.

Lemma dec_chars_num d : dec_wf d -> Forall num_char (dec_chars d).
Proof.
  intros Hwf. destruct (dec_chars_numeral d Hwf) as (z & ip & fp & e & -> & _ & Hd & _).
  assert (Hr : Forall (fun d => 0 <= d <= 9) (ip ++ fp)).
  { rewrite Hd. apply Forall_app; split; [apply Forall_replicate; lia|].
    by apply digits_range. }
  apply Forall_app in Hr as [Hip Hfp].
  assert (Hc : forall c, c ∈ ["-"; "+"; "."; "E"]%char -> num_char c) by (intros; by right).
  unfold numeral, exponent_tail, signed_int_chars, digit_chars.
  assert (He : Forall num_char (digit_char <$> digits (Z.abs e)))
    by (apply digit_chars_num, digits_range, Z.abs_nonneg).
  apply digit_chars_num in Hip, Hfp.
  repeat (apply Forall_app; split); try done; repeat case_match;
    repeat first [done | apply Forall_nil_2 | apply Forall_cons_2 | apply Hc; set_solver].
Qed.

Theorem dec_parse_str d : dec_wf d -> dec_parse (dec_str d) = Some d.
Proof.
  intros Hwf. unfold dec_parse, dec_str.
  rewrite list_ascii_of_string_of_list_ascii, strip_filter_id by (by apply dec_chars_num).
  pose proof (digits_range _ Hwf) as Hr.
  destruct (dec_chars_numeral d Hwf) as (z & ip & fp & e & -> & Hne & Hd & He).
  assert (Hall : Forall (fun d => 0 <= d <= 9) (ip ++ fp)).
  { rewrite Hd. apply Forall_app; split; [apply Forall_replicate; lia|done]. }
  apply Forall_app in Hall as [? ?]. rewrite parse_numeral by done.
  rewrite Hd, undigits_zeros, undigits_digits, He by done. by destruct d.
Qed.

(** ** Values at a scale and the order *)

Lemma valAt_scale e e' d :
  e' <= e -> e <= d_exp d -> valAt e' d = valAt e d * 10 ^ (e - e').
Proof.
  intros. unfold valAt. rewrite <- Z.mul_assoc, <- Z.pow_add_r by lia.
  do 2 f_equal. lia.
Qed.

Definition dle (a b : Decimal) : Prop :=
  let e := Z.min (d_exp a) (d_exp b) in valAt e a <= valAt e b.
Definition dlt (a b : Decimal) : Prop := ~ dle b a.

Lemma dle_at e a b :
  e <= d_exp a -> e <= d_exp b -> dle a b <-> valAt e a <= valAt e b.
Proof.
  intros Ha Hb. unfold dle. cbv zeta. set (m := Z.min _ _).
  rewrite (valAt_scale m e a), (valAt_scale m e b) by lia.
  apply Z.mul_le_mono_pos_r, pow10_pos. lia.
Qed.

Lemma dlt_at e a b :
  e <= d_exp a -> e <= d_exp b -> dlt a b <-> valAt e a < valAt e b.
Proof. intros. unfold dlt. rewrite (dle_at e) by done. lia. Qed.

Lemma dec_leb_spec a b : reflect (dle a b) (dec_leb a b).
Proof.
  apply iff_reflect. unfold dec_leb, dec_compare, dle. cbv zeta.
  destruct (Z.compare_spec (valAt (d_exp a `min` d_exp b) a)
                           (valAt (d_exp a `min` d_exp b) b)); split; lia || done.
Qed.

Lemma dec_ltb_spec a b : reflect (dlt a b) (dec_ltb a b).
Proof.
  apply iff_reflect. unfold dec_ltb, dec_compare, dlt, dle. cbv zeta. rewrite (Z.min_comm (d_exp b)).
  destruct (Z.compare_spec (valAt (d_exp a `min` d_exp b) a)
                           (valAt (d_exp a `min` d_exp b) b)); split; lia || done.
Qed.

#[global] Instance dle_refl : Reflexive dle.
Proof. intros a. unfold dle. lia. Qed.
#[global] Instance dle_trans : Transitive dle.
Proof.
  intros a b c. set (e := Z.min (Z.min (d_exp a) (d_exp b)) (d_exp c)).
  rewrite !(dle_at e) by lia. lia.
Qed.
Lemma dle_total a b : dle a b \/ dle b a.
Proof.
  set (e := Z.min (d_exp a) (d_exp b)). rewrite !(dle_at e) by lia. lia.
Qed.
Lemma dlt_le a b : dlt a b -> dle a b.
Proof. unfold dlt. destruct (dle_total a b); tauto. Qed.
Lemma dlt_irrefl_le a b : dle a b -> dlt b a -> False.
Proof. unfold dlt. tauto. Qed.

(** ** Rounding *)

(** Representable in the context precision. *)
Definition fits (d : Decimal) : Prop := ndigits (d_coef d) <= prec.
Definition nonneg (d : Decimal) : Prop := 0 <= signed d.

Lemma fix_fits d : fits d -> fix_ d = d.
Proof. unfold fits, fix_. intros H. rewrite (proj2 (Z.leb_le _ _)) by lia. done. Qed.

Lemma round_bounds n k :
  0 <= n -> 0 < k ->
  n / 10 ^ k <= round_half_even n k <= n / 10 ^ k + 1 /\
  (n mod 10 ^ k = 0 -> round_half_even n k = n / 10 ^ k).
Proof.
  intros Hn Hk. unfold round_half_even. pose proof (pow10_pos k).
  repeat case_match; bool_to_prop; split; try lia; intros E; rewrite E in *; lia.
Qed.

(** The rounded coefficient of an over-long number, and its value. *)
Lemma fix_value d :
  dec_wf d -> prec < ndigits (d_coef d) ->
  let k := ndigits (d_coef d) - prec in
  let c := round_half_even (d_coef d) k in
  d_exp d + k <= d_exp (fix_ d) /\ d_sign (fix_ d) = d_sign d /\ dec_wf (fix_ d) /\
  fits (fix_ d) /\ 10 ^ 27 <= d_coef d / 10 ^ k /\
  valAt (d_exp d) (fix_ d) = (if d_sign d then - c else c) * 10 ^ k.
Proof.
  intros Hwf Hlong. cbv zeta. unfold dec_wf, fits in *.
  set (n := d_coef d) in *. set (k := ndigits n - prec). set (c := round_half_even n k).
  assert (Hk : 0 < k) by lia. pose proof (pow10_pos k ltac:(lia)) as Hp.
  assert (Hn0 : 0 < n) by (destruct (Z.eq_dec n 0) as [E|]; [rewrite E in *; done|lia]).
  assert (Hq : 10 ^ 27 <= n / 10 ^ k < 10 ^ 28).
  { pose proof (ndigits_lower n Hn0). pose proof (ndigits_upper n Hwf).
    replace (ndigits n - 1) with (27 + k) in * by (unfold prec in *; lia).
    replace (ndigits n) with (28 + k) in * by (unfold prec in *; lia).
    rewrite Z.pow_add_r in *; try lia.
    split; [apply Z.div_le_lower_bound | apply Z.div_lt_upper_bound]; lia. }
  destruct (round_bounds n k Hwf Hk) as [Hc _]. fold c in Hc.
  assert (He : (if d_sign d then - c else c) * 10 ^ k
               = (if d_sign d then - (c * 10 ^ k) else c * 10 ^ k)) by (case_match; lia).
  unfold fix_. fold n. fold k. rewrite (proj2 (Z.leb_gt _ _)) by lia. fold c.
  destruct (Z.ltb_spec prec (ndigits c)) as [Hov|Hok]; unfold valAt, signed; simpl.
  - assert (Hc28 : c = 10 ^ 28).
    { destruct (ndigits_gt c prec) as [?|H28]; unfold prec in *; lia. }
    rewrite Hc28. change (10 ^ 28 / 10) with (10 ^ 27).
    replace (d_exp d + k + 1 - d_exp d) with (k + 1) by lia.
    rewrite pow10_succ by lia.
    repeat split; try lia; [vm_compute; discriminate|]. case_match; lia.
  - replace (d_exp d + k - d_exp d) with k by lia. repeat split; lia.
Qed.

Lemma fix_wf d : dec_wf d -> dec_wf (fix_ d).
Proof.
  intros Hwf. destruct (Z.le_gt_cases (ndigits (d_coef d)) prec) as [H|H].
  - by rewrite fix_fits.
  - by apply fix_value.
Qed.

Lemma fix_is_fits d : dec_wf d -> fits (fix_ d).
Proof.
  intros Hwf. destruct (Z.le_gt_cases (ndigits (d_coef d)) prec) as [H|H].
  - by rewrite fix_fits.
  - by apply fix_value.
Qed.

Lemma dec_add_wf a b : dec_wf (dec_add a b).
Proof. apply fix_wf. unfold dec_wf; simpl; lia. Qed.
Lemma dec_add_fits a b : fits (dec_add a b).
Proof. apply fix_is_fits. unfold dec_wf; simpl; lia. Qed.
Lemma dec_sub_wf a b : dec_wf (dec_sub a b).
Proof. apply dec_add_wf. Qed.
Lemma dec_mul_wf a b : dec_wf a -> dec_wf b -> dec_wf (dec_mul a b).
Proof. intros. apply fix_wf. unfold dec_wf in *; simpl. nia. Qed.
Lemma dec_of_int_wf n : dec_wf (dec_of_int n).
Proof. unfold dec_wf; simpl; lia. Qed.

(** Rounding never crosses a representable number: the rounded value of a
    non-negative [d] stays on the same side of any [x] that fits. *)
Lemma fix_bounds e x d :
  dec_wf d -> d_sign d = false -> dec_wf x -> nonneg x -> fits x ->
  e <= d_exp x -> e <= d_exp d ->
  (valAt e x <= valAt e d -> valAt e x <= valAt e (fix_ d)) /\
  (valAt e d <= valAt e x -> valAt e (fix_ d) <= valAt e x).
Proof.
  intros Hwf Hs Hxwf Hx0 Hxf Hex Hed.
  destruct (Z.le_gt_cases (ndigits (d_coef d)) prec) as [Hf|Hlong];
    [by rewrite fix_fits|].
  destruct (fix_value d Hwf Hlong) as (Hexp & _ & _ & _ & Hq & Hval).
  set (k := ndigits (d_coef d) - prec) in *. set (n := d_coef d) in *.
  rewrite Hs in Hval. rewrite (valAt_scale (d_exp d) e (fix_ d)), Hval by lia.
  destruct (round_bounds n k Hwf ltac:(lia)) as [Hc Hc0].
  set (c := round_half_even n k) in *.
  pose proof (pow10_pos k ltac:(lia)) as Hp10.
  pose proof (pow10_pos (d_exp d - e) ltac:(lia)) as Hpe.
  set (P := 10 ^ k * 10 ^ (d_exp d - e)). assert (HP : 0 < P) by (unfold P; nia).
  replace (c * 10 ^ k * 10 ^ (d_exp d - e)) with (c * P) by (unfold P; lia).
  assert (HN : valAt e d = n * 10 ^ (d_exp d - e)) by (unfold valAt, signed; by rewrite Hs).
  pose proof (Z.div_mod n (10 ^ k) ltac:(lia)) as Hdm.
  pose proof (Z.mod_pos_bound n (10 ^ k) Hp10) as Hmb.
  set (q := n / 10 ^ k) in *. set (r := n mod 10 ^ k) in *.
  assert (HNq : q * P <= valAt e d) by (rewrite HN; unfold P; nia).
  destruct (Z.le_gt_cases (d_exp d + k) (d_exp x)) as [Hbig|Hsmall].
  - (* [x] is a multiple of the last kept digit *)
    assert (Hm : exists m, valAt e x = m * P).
    { exists (signed x * 10 ^ (d_exp x - d_exp d - k)). unfold valAt, P.
      rewrite <- !Z.mul_assoc, <- !Z.pow_add_r by lia. do 2 f_equal. lia. }
    destruct Hm as [m ->]. rewrite HN. unfold P.
    split; intros H.
    + assert (m * 10 ^ k <= n) by nia. assert (m <= q) by (apply Z.div_le_lower_bound; lia). nia.
    + assert (Hmn : n <= m * 10 ^ k) by nia.
      assert (c <= m); [|nia].
      destruct (Z.eq_dec r 0) as [E|]; [rewrite (Hc0 E); nia|]. nia.
  - (* [x] is below every number with that many digits *)
    assert (HX : valAt e x < q * P).
    { pose proof (ndigits_upper _ Hxwf) as Hu.
      assert (Hsx : signed x < 10 ^ 28).
      { unfold signed. assert (10 ^ ndigits (d_coef x) <= 10 ^ 28)
          by (apply Z.pow_le_mono_r; [lia|exact Hxf]).
        unfold dec_wf in Hxwf. case_match; lia. }
      assert (HPp : P = 10 * 10 ^ (d_exp d + k - 1 - e)).
      { unfold P. rewrite <- Z.pow_add_r, <- pow10_succ by lia. f_equal. lia. }
      assert (10 ^ (d_exp x - e) <= 10 ^ (d_exp d + k - 1 - e))
        by (apply Z.pow_le_mono_r; lia).
      pose proof (pow10_pos (d_exp x - e) ltac:(lia)).
      unfold valAt, nonneg in *. rewrite HPp.
      replace (10 ^ 28) with (10 ^ 27 * 10) in Hsx by reflexivity.
      nia. }
    split; intros H; nia.
Qed.

(** ** Addition and multiplication *)

(** The exact sum, before rounding. *)
Definition sum_at (e : Z) (a b : Decimal) : Z := valAt e a + valAt e b.

(** The sum of [a] and [b] fits in the context precision. *)
Definition sum_fits (a b : Decimal) : Prop :=
  ndigits (Z.abs (sum_at (Z.min (d_exp a) (d_exp b)) a b)) <= prec.

Lemma nonneg_at e d : e <= d_exp d -> nonneg d <-> 0 <= valAt e d.
Proof.
  intros. unfold nonneg, valAt. pose proof (pow10_pos (d_exp d - e) ltac:(lia)). nia.
Qed.

Lemma dec_add_exp a b : Z.min (d_exp a) (d_exp b) <= d_exp (dec_add a b).
Proof.
  unfold dec_add. cbv zeta. unfold fix_; simpl. repeat case_match; bool_to_prop; simpl; lia.
Qed.

(** Addition is exact whenever the exact sum has at most 28 digits. *)
Lemma dec_add_exact e a b :
  sum_fits a b -> e <= d_exp a -> e <= d_exp b ->
  valAt e (dec_add a b) = sum_at e a b.
Proof.
  intros Hf Ha Hb. unfold dec_add. cbv zeta. unfold sum_fits, sum_at in *.
  set (m := Z.min (d_exp a) (d_exp b)) in *.
  rewrite fix_fits by exact Hf.
  rewrite (valAt_scale m e a), (valAt_scale m e b), (valAt_scale m e (mkDec _ _ _))
    by (simpl; lia).
  rewrite <- Z.mul_add_distr_r. f_equal. unfold valAt at 1, signed; simpl.
  rewrite Z.sub_diag, Z.mul_1_r. set (s := valAt m a + valAt m b).
  destruct (Z.eqb_spec s 0) as [->|]; [by case_match|].
  destruct (Z.ltb_spec s 0); lia.
Qed.

(** A representable non-negative [x] compares with the rounded sum of two
    non-negative numbers at least as it does with the exact sum. *)
Lemma dec_add_bounds e a b x :
  nonneg a -> nonneg b -> dec_wf x -> nonneg x -> fits x ->
  e <= d_exp a -> e <= d_exp b -> e <= d_exp x ->
  (valAt e x <= sum_at e a b -> dle x (dec_add a b)) /\
  (sum_at e a b <= valAt e x -> dle (dec_add a b) x).
Proof.
  intros Ha Hb Hxwf Hx Hxf Hea Heb Hex.
  pose proof (dec_add_exp a b) as Hexp. rewrite !(dle_at e) by lia.
  destruct (Z.le_gt_cases (ndigits (Z.abs (sum_at (Z.min (d_exp a) (d_exp b)) a b))) prec)
    as [Hf|Hf]; [rewrite dec_add_exact by done; lia|].
  unfold dec_add. cbv zeta. unfold sum_at in *.
  set (m := Z.min (d_exp a) (d_exp b)) in *.
  assert (Hs : 0 <= valAt m a + valAt m b).
  { rewrite (nonneg_at m a) in Ha by lia. rewrite (nonneg_at m b) in Hb by lia. lia. }
  set (s := valAt m a + valAt m b) in *.
  destruct (Z.eqb_spec s 0) as [E|Hne]; [rewrite E in Hf; done|].
  rewrite (proj2 (Z.ltb_ge s 0)) by lia.
  replace (valAt e a + valAt e b) with (valAt e (mkDec false (Z.abs s) m)).
  - apply fix_bounds; try done; unfold dec_wf; simpl; lia.
  - rewrite (valAt_scale m e a), (valAt_scale m e b), (valAt_scale m e (mkDec _ _ _))
      by (simpl; lia).
    unfold valAt at 1, signed; simpl. rewrite Z.sub_diag, Z.mul_1_r. lia.
Qed.

(** Adding a non-negative amount never decreases a representable total. *)
Lemma dec_add_mono a b :
  dec_wf a -> fits a -> nonneg a -> nonneg b -> dle a (dec_add a b).
Proof.
  intros Hwf Hf Ha Hb. set (e := Z.min (d_exp a) (d_exp b)).
  destruct (dec_add_bounds e a b a) as [H _]; try done; try lia.
  apply H. unfold sum_at. rewrite (nonneg_at e b) in Hb by lia. lia.
Qed.

Lemma dec_zero_fits : fits dec_zero. Proof. vm_compute. discriminate. Qed.
Lemma dec_zero_nonneg : nonneg dec_zero. Proof. vm_compute. discriminate. Qed.

Lemma dec_add_nonneg a b : nonneg a -> nonneg b -> nonneg (dec_add a b).
Proof.
  intros Ha Hb. set (e := Z.min (Z.min (d_exp a) (d_exp b)) 0).
  destruct (dec_add_bounds e a b dec_zero) as [H _]; try done;
    try (simpl; lia).
  assert (Hz : dle dec_zero (dec_add a b)).
  { apply H. unfold sum_at. rewrite (nonneg_at e a) in Ha by lia.
    rewrite (nonneg_at e b) in Hb by lia. change (valAt e dec_zero) with 0. lia. }
  pose proof (dec_add_exp a b) as Hexp.
  rewrite (dle_at e) in Hz by (simpl; lia). change (valAt e dec_zero) with 0 in Hz.
  rewrite (nonneg_at e) by lia. exact Hz.
Qed.

Lemma nonneg_coef d : dec_wf d -> nonneg d -> d_sign d = false \/ d_coef d = 0.
Proof. unfold dec_wf, nonneg, signed. destruct (d_sign d); [right; lia|by left]. Qed.

Lemma fix_nonneg d : dec_wf d -> nonneg d -> nonneg (fix_ d).
Proof.
  intros Hwf Hn. destruct (Z.le_gt_cases (ndigits (d_coef d)) prec) as [H|H];
    [by rewrite fix_fits|].
  pose proof (fix_value d Hwf H) as (_ & Hs & Hwf' & _).
  destruct (nonneg_coef d Hwf Hn) as [E|E]; [|rewrite E in H; done].
  unfold nonneg, signed. rewrite Hs, E. exact Hwf'.
Qed.

Lemma dec_mul_nonneg a b :
  dec_wf a -> dec_wf b -> nonneg a -> nonneg b -> nonneg (dec_mul a b).
Proof.
  intros Hwa Hwb Ha Hb. apply fix_nonneg; [unfold dec_wf in *; simpl; nia|].
  unfold nonneg, signed in *; simpl. unfold dec_wf in *.
  destruct (d_sign a), (d_sign b); simpl; nia.
Qed.

Lemma dec_of_int_nonneg n : 0 <= n -> nonneg (dec_of_int n).
Proof.
  intros. unfold nonneg, signed, dec_of_int; simpl. destruct (Z.ltb_spec n 0); lia.
Qed.

#[export] Hint Resolve dec_add_wf dec_sub_wf dec_mul_wf dec_of_int_wf dec_add_fits
  dec_zero_fits dec_zero_nonneg dec_add_nonneg dec_mul_nonneg dec_of_int_nonneg
  : decimal.

(** ** Exact division *)

Lemma strip_zeros_pow fuel c ideal k :
  0 <= k <= Z.of_nat fuel ->
  strip_zeros fuel (c * 10 ^ k) (ideal - k) ideal = (c, ideal).
Proof.
  revert k. induction fuel as [|f IH]; intros k Hk; cbn [strip_zeros].
  - replace k with 0 by lia. f_equal; [|lia]. rewrite Z.pow_0_r; lia.
  - destruct (Z.ltb_spec (ideal - k) ideal) as [Hlt|Hge]; simpl.
    + assert (Hk1 : c * 10 ^ k = c * 10 ^ (k - 1) * 10).
      { replace k with ((k - 1) + 1) at 1 by lia. rewrite pow10_succ by lia. lia. }
      rewrite Hk1, Z.mod_mul, Z.div_mul by lia. simpl.
      replace (ideal - k + 1) with (ideal - (k - 1)) by lia. apply IH. lia.
    + replace k with 0 by lia. f_equal; [|lia]. rewrite Z.pow_0_r; lia.
Qed.

(** Dividing a product back by its integer factor recovers the other factor,
    digits and exponent included, while the product fits in 28 digits. *)
Lemma dec_div_mul_int c t :
  dec_wf c -> fits c -> 0 < t -> ndigits (d_coef c * t) <= prec ->
  dec_div (dec_mul c (dec_of_int t)) (dec_of_int t) = Some c.
Proof.
  intros Hwf Hf Ht Hp. destruct c as [sg n e]. unfold dec_wf in Hwf; simpl in *.
  assert (Ht' : dec_of_int t = mkDec false t 0).
  { unfold dec_of_int. f_equal; [by apply Z.ltb_ge; lia|lia]. }
  rewrite Ht'. unfold dec_mul; simpl. rewrite fix_fits by exact Hp.
  unfold dec_div; simpl. rewrite (proj2 (Z.eqb_neq t 0)) by lia.
  rewrite !xorb_false_r, Z.add_0_r, Z.sub_0_r.
  destruct (Z.eqb_spec (n * t) 0) as [E|Hne].
  { assert (n = 0) as -> by nia. by rewrite fix_fits. }
  pose proof (ndigits_pos t ltac:(lia)). set (shift := ndigits t - ndigits (n * t) + prec + 1).
  assert (Hs : 0 < shift) by lia. rewrite (proj2 (Z.leb_le 0 shift)) by lia.
  pose proof (pow10_pos shift ltac:(lia)) as Hpow.
  replace (n * t * 10 ^ shift) with (n * 10 ^ shift * t) by lia.
  rewrite Z.mod_mul, Z.div_mul by lia. simpl.
  rewrite strip_zeros_pow.
  - by rewrite fix_fits.
  - split; [lia|]. rewrite Z2Nat.id by (pose proof (ndigits_pos (n * 10 ^ shift)); lia).
    pose proof (ndigits_upper (n * 10 ^ shift) ltac:(nia)) as Hu.
    assert (~ ndigits (n * 10 ^ shift) < shift); [|lia]. intros Hlt.
    assert (10 ^ ndigits (n * 10 ^ shift) <= 10 ^ shift) by (apply Z.pow_le_mono_r; lia).
    assert (Hn1 : 1 <= n) by (destruct (Z.eq_dec n 0) as [->|]; lia).
    pose proof (Z.mul_le_mono_nonneg_r 1 n (10 ^ shift) ltac:(lia) Hn1). lia.
Qed.

Lemma strip_zeros_nonneg fuel c e i : 0 <= c -> 0 <= (strip_zeros fuel c e i).1.
Proof.
  revert c e. induction fuel as [|f IH]; intros c e Hc; simpl; [done|].
  case_match; simpl; [|done]. apply IH. apply Z.div_pos; lia.
Qed.

Lemma dec_div_ok a b d :
  dec_wf a -> dec_wf b -> nonneg a -> nonneg b -> dec_div a b = Some d ->
  dec_wf d /\ nonneg d.
Proof.
  intros Hwa Hwb Ha Hb. unfold dec_div.
  destruct (Z.eqb_spec (d_coef b) 0); [done|].
  assert (Hsb : d_sign b = false) by (destruct (nonneg_coef b Hwb Hb); [done|lia]).
  assert (Hfix : forall sg c e, 0 <= c -> sg = false \/ c = 0 ->
            dec_wf (fix_ (mkDec sg c e)) /\ nonneg (fix_ (mkDec sg c e))).
  { intros sg c e Hc Hsg. split; [by apply fix_wf|]. apply fix_nonneg; [done|].
    unfold nonneg, signed; simpl. destruct sg; [destruct Hsg; [done|lia]|done]. }
  destruct (Z.eqb_spec (d_coef a) 0); [intros [= <-]; apply Hfix; [lia|by right]|].
  assert (Hsa : d_sign a = false) by (destruct (nonneg_coef a Hwa Ha); [done|lia]).
  rewrite Hsa, Hsb. simpl xorb. set (shift := _ + prec + 1). unfold dec_wf in *.
  set (nd := if 0 <=? shift then _ else _).
  assert (Hnd : 0 <= nd.1 /\ 0 < nd.2).
  { unfold nd. destruct (Z.leb_spec 0 shift); simpl.
    - pose proof (pow10_pos shift ltac:(lia)). nia.
    - pose proof (pow10_pos (- shift) ltac:(lia)). nia. }
  destruct nd as [num den]; simpl in Hnd.
  assert (Hq : 0 <= num / den) by (apply Z.div_pos; lia).
  destruct (negb _).
  - intros [= <-]. apply Hfix; [case_match; lia|by left].
  - pose proof (strip_zeros_nonneg (Z.to_nat (ndigits (num / den))) (num / den)
      (d_exp a - d_exp b - shift) (d_exp a - d_exp b) Hq) as Hz.
    destruct (strip_zeros _ _ _ _) as [c e']. intros [= <-]. apply Hfix; [done|by left].
Qed.

Lemma dec_div_total a b : d_coef b <> 0 -> exists d, dec_div a b = Some d.
Proof.
  intros Hb. unfold dec_div. rewrite (proj2 (Z.eqb_neq (d_coef b) 0)) by done.
  destruct (d_coef a =? 0); [eauto|]. destruct (if 0 <=? _ then _ else _) as [num den].
  destruct (negb _); [eauto|]. destruct (strip_zeros _ _ _ _). eauto.
Qed.

Lemma sum_fits_bound e a b :
  e <= d_exp a -> e <= d_exp b -> Z.abs (sum_at e a b) < 10 ^ 28 -> sum_fits a b.
Proof.
  intros Ha Hb Hlt. unfold sum_fits. apply ndigits_le; [|unfold prec; lia].
  change (10 ^ prec) with (10 ^ 28). set (m := Z.min (d_exp a) (d_exp b)).
  unfold sum_at in *. rewrite (valAt_scale m e a), (valAt_scale m e b) in Hlt by lia.
  pose proof (pow10_pos (m - e) ltac:(lia)).
  rewrite <- Z.mul_add_distr_r, Z.abs_mul, (Z.abs_eq (10 ^ (m - e))) in Hlt by lia. nia.
Qed.

Arguments dec_str : simpl never.
Arguments dec_parse : simpl never.
Arguments dec_add : simpl never.
Arguments dec_sub : simpl never.
Arguments dec_mul : simpl never.
Arguments dec_div : simpl never.
Arguments dec_ltb : simpl never.
Arguments dec_leb : simpl never.
Arguments dec_max : simpl never.
