(* ===== verification/PyUuid.v ===== *)
(** * Python's [uuid.UUID]

    A UUID is its 128-bit integer.  [uuid_str] is [str(u)] and [uuid_parse] the
    constructor [UUID(hex)] of the standard library, which accepts the
    ["urn:"]/["uuid:"] prefixes, braces and hyphens anywhere and then reads 32
    characters with [int(hex, 16)]. *)
From Stdlib Require Import ZArith Lia Ascii String.
From stdpp Require Import base list strings countable sets.
From S2P Require Import Prelude PyDecimal.

Record UUID : Type := mkUUID { uuid_int : Z }.

#[global] Instance UUID_eq_dec : EqDecision UUID.
Proof. solve_decision. Defined.
#[global] Instance UUID_countable : Countable UUID.
Proof. apply (inj_countable' uuid_int mkUUID). by intros []. Defined.

Definition uuid_wf (u : UUID) : Prop := 0 <= uuid_int u < 2 ^ 128.

(** ** Printing *)

Definition hex_char (d : Z) : ascii :=
  if d <? 10 then ascii_of_nat (48 + Z.to_nat d) else ascii_of_nat (87 + Z.to_nat d).

Fixpoint hex_digits (width : nat) (n : Z) : list Z :=
  match width with
  | O => []
  | S w => hex_digits w (n / 16) ++ [n mod 16]
  end.

Definition uuid_chars (u : UUID) : list ascii :=
  let h := hex_char <$> hex_digits 32 (uuid_int u) in
  let part i n := take n (drop i h) in
  part 0%nat 8%nat ++ ["-"%char] ++ part 8%nat 4%nat ++ ["-"%char] ++ part 12%nat 4%nat
  ++ ["-"%char] ++ part 16%nat 4%nat ++ ["-"%char] ++ part 20%nat 12%nat.

Definition uuid_str (u : UUID) : string := string_of_list_ascii (uuid_chars u).

(** ** Parsing *)

Fixpoint is_prefix (p l : list ascii) : bool :=
  match p, l with
  | [], _ => true
  | c :: p, d :: l => bool_decide (c = d) && is_prefix p l
  | _ :: _, [] => false
  end.

(** [s.replace(p, "")]: [skip] counts the characters of a match still to drop. *)
Fixpoint remove_sub (p : list ascii) (skip : nat) (l : list ascii) : list ascii :=
  match l with
  | [] => []
  | c :: l' =>
      match skip with
      | S k => remove_sub p k l'
      | O => if is_prefix p l then remove_sub p (length p - 1) l'
             else c :: remove_sub p 0 l'
      end
  end.

Fixpoint drop_braces (l : list ascii) : list ascii :=
  match l with
  | c :: l' => if bool_decide (c ∈ ["{"; "}"]%char) then drop_braces l' else l
  | [] => []
  end.
Definition strip_braces (l : list ascii) : list ascii :=
  reverse (drop_braces (reverse (drop_braces l))).

Definition hex_value (c : ascii) : option Z :=
  let n := Z.of_nat (nat_of_ascii c) in
  if (48 <=? n) && (n <=? 57) then Some (n - 48)
  else if (97 <=? n) && (n <=? 102) then Some (n - 87)
  else if (65 <=? n) && (n <=? 70) then Some (n - 55)
  else None.

(** Digits with single underscores between them. *)
Fixpoint int_digits (after_digit : bool) (acc : Z) (l : list ascii) : option Z :=
  match l with
  | [] => if after_digit then Some acc else None
  | c :: l =>
      match hex_value c with
      | Some d => int_digits true (16 * acc + d) l
      | None => if after_digit && bool_decide (c = "_"%char)
                then int_digits false acc l else None
      end
  end.

(** [int(s, 16)] *)
Definition int16 (l : list ascii) : option Z :=
  let '(neg, l) := take_sign (strip l) in
  let l := match l with
           | "0"%char :: x :: r =>
               if bool_decide (x ∈ ["x"; "X"]%char)
               then match r with "_"%char :: r' => r' | _ => r end else l
           | _ => l
           end in
  v ← int_digits false 0 l; Some (if neg : bool then - v else v).

Definition uuid_parse (s : string) : option UUID :=
  let l := remove_sub (list_ascii_of_string "urn:") 0 (list_ascii_of_string s) in
  let l := remove_sub (list_ascii_of_string "uuid:") 0 l in
  let l := filter (fun c => c <> "-"%char) (strip_braces l) in
  if (length l =? 32)%nat then
    v ← int16 l; if (0 <=? v) && (v <? 2 ^ 128) then Some (mkUUID v) else None
  else None.

Example uuid_str_ex :
  uuid_str (mkUUID 24197857161011715162171839636988778104)
  = "12345678-1234-5678-1234-567812345678"%string.
Proof. vm_compute. reflexivity. Qed.
Example uuid_parse_ex :
  uuid_parse "{urn:uuid:12345678-12345678-1234567812345678}"%string
  = Some (mkUUID 24197857161011715162171839636988778104).
Proof. vm_compute. reflexivity. Qed.
Example uuid_parse_bad : uuid_parse "not-a-uuid"%string = None.
Proof. vm_compute. reflexivity. Qed.

(** ** [UUID(str(u)) == u] *)

(** The characters of a printed UUID. *)
Definition hexish (c : ascii) : bool :=
  let n := Z.of_nat (nat_of_ascii c) in
  ((48 <=? n) && (n <=? 57)) || ((97 <=? n) && (n <=? 102)).

Lemma hex_digits_spec w n :
  0 <= n < 16 ^ Z.of_nat w ->
  Forall (fun d => 0 <= d < 16) (hex_digits w n) /\ length (hex_digits w n) = w /\
  fold_left (fun a d => 16 * a + d) (hex_digits w n) 0 = n.
Proof.
  revert n. induction w as [|w IH]; intros n Hn.
  - change (16 ^ Z.of_nat 0) with 1 in Hn. simpl. repeat split; [constructor|lia].
  - rewrite Nat2Z.inj_succ, Z.pow_succ_r in Hn by lia.
    assert (Hq : 0 <= n / 16 < 16 ^ Z.of_nat w)
      by (split; [apply Z.div_pos; lia|apply Z.div_lt_upper_bound; lia]).
    destruct (IH _ Hq) as (H1 & H2 & H3).
    pose proof (Z.mod_pos_bound n 16 ltac:(lia)).
    pose proof (Z.div_mod n 16 ltac:(lia)). cbn [hex_digits].
    rewrite length_app, fold_left_app, H3, H2; simpl. repeat split; try lia.
    apply Forall_app; split; [done|]. repeat constructor; lia.
Qed.

Lemma hex_char_ok d :
  0 <= d < 16 -> hex_value (hex_char d) = Some d /\ hexish (hex_char d) = true.
Proof.
  intros Hd. unfold hex_char, hex_value, hexish.
  destruct (Z.ltb_spec d 10); rewrite nat_ascii_embedding by lia;
    repeat match goal with
           | |- context [?x <=? ?y] => destruct (Z.leb_spec x y); try lia
           end; simpl; (split; [f_equal; lia | done]).
Qed.

Lemma hexish_not c d : hexish c = true -> hexish d = false -> c <> d.
Proof. congruence. Qed.

Lemma remove_sub_id c p l :
  c ∉ l -> remove_sub (c :: p) 0 l = l.
Proof.
  induction l as [|d l IH]; intros Hn; [done|]. apply not_elem_of_cons in Hn as [? ?].
  cbn [remove_sub is_prefix]. rewrite bool_decide_false by done. simpl. by rewrite IH.
Qed.

Lemma drop_braces_id l : Forall (fun c => c ∉ ["{"; "}"]%char) l -> drop_braces l = l.
Proof. intros []; [done|]. cbn [drop_braces]. by rewrite bool_decide_false. Qed.

Lemma strip_braces_id l : Forall (fun c => c ∉ ["{"; "}"]%char) l -> strip_braces l = l.
Proof.
  intros H. unfold strip_braces.
  rewrite (drop_braces_id l), drop_braces_id, reverse_involutive; auto.
  by apply Forall_reverse.
Qed.

Lemma int_digits_hex b ds acc :
  Forall (fun d => 0 <= d < 16) ds -> ds <> [] \/ b = true ->
  int_digits b acc (hex_char <$> ds) = Some (fold_left (fun a d => 16 * a + d) ds acc).
Proof.
  intros H. revert b acc. induction H as [|d ds Hd _ IH]; intros b acc Hne.
  - destruct Hne as [?| ->]; done.
  - rewrite fmap_cons. cbn [int_digits fold_left].
    destruct (hex_char_ok d Hd) as [-> _]. apply IH. by right.
Qed.

Lemma hexish_not_space c : hexish c = true -> is_space c = false.
Proof. unfold hexish, is_space. intros. lia. Qed.

Lemma int16_hex ds :
  Forall (fun d => 0 <= d < 16) ds -> ds <> [] ->
  int16 (hex_char <$> ds) = Some (fold_left (fun a d => 16 * a + d) ds 0).
Proof.
  intros H Hne. unfold int16.
  assert (Hh : Forall (fun c => hexish c = true) (hex_char <$> ds)).
  { apply Forall_fmap. eapply Forall_impl; [exact H|]. intros; by apply hex_char_ok. }
  assert (Hst : strip (hex_char <$> ds) = hex_char <$> ds).
  { assert (Hsp : Forall (fun c => is_space c = false) (hex_char <$> ds)).
    { eapply Forall_impl; [exact Hh|]. intros; by apply hexish_not_space. }
    unfold strip. rewrite (drop_spaces_id (hex_char <$> ds)), drop_spaces_id,
      reverse_involutive; auto. by apply Forall_reverse. }
  rewrite Hst. destruct ds as [|d0 ds]; [done|].
  pose proof (int_digits_hex false (d0 :: ds) 0 H (or_introl Hne)) as Hid.
  rewrite fmap_cons in *. set (c0 := hex_char d0) in *. clearbody c0.
  inversion Hh as [|? ? Hc0 Hcs]; subst.
  assert (Hsign : take_sign (c0 :: (hex_char <$> ds)) = (false, c0 :: (hex_char <$> ds))).
  { cbn [take_sign]. rewrite !bool_decide_false; [done|..]; by apply hexish_not. }
  rewrite Hsign. destruct ds as [|d1 ds].
  { change (hex_char <$> []) with (@nil ascii) in *.
    repeat case_match; simplify_eq; by rewrite Hid. }
  rewrite fmap_cons in *. inversion Hcs as [|? ? Hc1 _]; subst.
  assert (Hx : bool_decide (hex_char d1 ∈ ["x"; "X"]%char) = false).
  { apply bool_decide_false. intros Hin. set_unfold. destruct Hin as [E|[E|[]]];
      rewrite E in Hc1; done. }
  rewrite Hx. repeat case_match; simplify_eq; by rewrite Hid.
Qed.

Lemma filter_hyphen_id l :
  Forall (fun c => hexish c = true) l -> filter (fun c => c <> "-"%char) l = l.
Proof.
  induction 1; [done|]. rewrite filter_cons_True; [by f_equal|]. by apply hexish_not.
Qed.

Lemma filter_uuid_chars h :
  Forall (fun c => hexish c = true) h -> length h = 32%nat ->
  let part i n := take n (drop i h) in
  filter (fun c => c <> "-"%char)
    (part 0%nat 8%nat ++ ["-"%char] ++ part 8%nat 4%nat ++ ["-"%char]
     ++ part 12%nat 4%nat ++ ["-"%char] ++ part 16%nat 4%nat ++ ["-"%char]
     ++ part 20%nat 12%nat) = h.
Proof.
  intros Hh Hl. cbv zeta. rewrite !filter_app.
  rewrite !(filter_hyphen_id (take _ _)) by (by apply Forall_take, Forall_drop).
  change (filter (fun c => c <> "-"%char) ["-"%char]) with (@nil ascii).
  rewrite !app_nil_l. do 33 (destruct h as [|? h]; [done|]). done.
Qed.

Theorem uuid_parse_str u : uuid_wf u -> uuid_parse (uuid_str u) = Some u.
Proof.
  intros Hu. unfold uuid_parse, uuid_str, uuid_chars.
  destruct (hex_digits_spec 32 (uuid_int u)) as (Hr & Hl & Hv);
    [exact Hu|].
  set (h := hex_char <$> hex_digits 32 (uuid_int u)).
  assert (Hh : Forall (fun c => hexish c = true) h).
  { apply Forall_fmap. eapply Forall_impl; [exact Hr|]. intros; by apply hex_char_ok. }
  assert (Hl' : length h = 32%nat) by (unfold h; by rewrite length_fmap).
  pose proof (filter_uuid_chars h Hh Hl') as Hfilter. cbv zeta in Hfilter |- *.
  rewrite list_ascii_of_string_of_list_ascii.
  set (cs := take 8 (drop 0 h) ++ _) in *.
  assert (Hcs : Forall (fun c => hexish c = true \/ c = "-"%char) cs).
  { unfold cs. repeat (apply Forall_app; split); try (repeat constructor; by right);
      apply Forall_take, Forall_drop; (eapply Forall_impl; [exact Hh|]); by left. }
  assert (Hnot : forall c, hexish c = false -> c <> "-"%char -> c ∉ cs).
  { intros c Hc Hm Hin. rewrite Forall_forall in Hcs.
    destruct (Hcs c Hin); congruence. }
  change (list_ascii_of_string "urn:") with ("u"%char :: ["r"; "n"; ":"]%char).
  change (list_ascii_of_string "uuid:") with ("u"%char :: ["u"; "i"; "d"; ":"]%char).
  assert (Hu' : "u"%char ∉ cs) by (by apply Hnot).
  rewrite (remove_sub_id _ _ cs), (remove_sub_id _ _ cs) by done.
  rewrite strip_braces_id.
  2: { apply Forall_forall. intros c Hc Hin. set_unfold.
       destruct Hin as [->|[->|[]]]; by apply (Hnot _) in Hc. }
  rewrite Hfilter, Hl'. simpl Nat.eqb. cbv iota. unfold h.
  rewrite int16_hex, Hv; [|done|by intros E; rewrite E in Hl].
  simpl. unfold uuid_wf in Hu. rewrite (proj2 (andb_true_iff _ _)) by (split; lia).
  by destruct u.
Qed.

Arguments uuid_str : simpl never.
Arguments uuid_parse : simpl never.
