(* ===== verification/World.v ===== *)
(** * The effects of the program

    Every operation of the repository is a computation [M S A]: it reads and
    updates the state [S] of its component and the process-wide [World], and
    returns a value or raises.  As in Python, what was mutated before a raise
    stays mutated: [M] returns the final state in both cases.

    [Env] holds what the process reads from outside: the clocks, fresh UUIDs,
    the answers of HTTP servers, the tracer's span context and the metric
    library's reaction to a negative increment.  They are arbitrary functions. *)
From Stdlib Require Import ZArith Lia Ascii String.
From stdpp Require Import base gmap strings list.
From S2P Require Import Prelude PyDecimal PyUuid.

Inductive result (A : Type) : Type :=
  | Ok (a : A)
  | Err (e : exn).
Arguments Ok {A} a.
Arguments Err {A} e.

(** ** What the process emits *)

Inductive level : Type := Info | Warning | Error.
#[global] Instance level_eq_dec : EqDecision level.
Proof. solve_decision. Defined.

(** One structured log line. *)
Record LogEntry : Type := mkEntry {
  le_level : level;
  le_event : string;
  le_fields : list (string * json)
}.

(** Calls on the Prometheus objects of src/watchdog/metrics.py.  A gauge takes
    [float(v)]; the model keeps the [Decimal] before the conversion. *)
Inductive MetricCall : Type :=
  | GaugeSet (name : string) (labels : list (string * string)) (v : Decimal)
  | GaugeSetTime (name : string) (labels : list (string * string)) (ticks : Z)
  | GaugeRemove (name : string) (labels : list string)
  | CounterInc (name : string) (labels : list (string * string)) (n : Z).

(** Calls on OpenTelemetry spans. *)
Inductive SpanCall : Type :=
  | SpanStart (name : string)
  | SpanAttr (name key : string) (v : json)
  | SpanStatusOk (name : string)
  | SpanStatusError (name msg : string)
  | SpanException (name : string) (e : exn)
  | SpanEnd (name : string).

Record SpanContext : Type := mkSpanContext {
  is_valid : bool; trace_id : Z; span_id : Z; trace_flags : Z
}.

Record HttpRequest : Type := mkHttpRequest {
  hr_url : string;
  hr_json : json;
  hr_headers : list (string * string)
}.
Record HttpResponse : Type := mkHttpResponse {
  hs_status : Z;
  hs_json : result json                 (* [response.json()] *)
}.

Record World : Type := mkWorld {
  w_log : list LogEntry;                (* printed lines, oldest first *)
  w_metrics : list MetricCall;
  w_spans : list SpanCall;
  w_http : list HttpRequest;            (* requests sent, oldest first *)
  w_clock : nat;                        (* readings of [time.time()] so far *)
  w_utc : nat;                          (* readings of [datetime.now(UTC)] *)
  w_uuids : nat                         (* calls of [uuid4()] *)
}.

Class Env : Type := {
  clock : nat -> Z;                     (* n-th reading of [time.time()], ticks *)
  utc_clock : nat -> Z;                 (* n-th [datetime.now(UTC)], microseconds *)
  uuid_supply : nat -> UUID;            (* n-th [uuid4()] *)
  http_answer : list HttpRequest -> HttpRequest -> result HttpResponse;
  span_context : list SpanCall -> SpanContext;
  counter_inc_error : Z -> option exn   (* what [Counter.inc(n)] raises *)
}.

(** ** The monad *)

Definition M (S A : Type) : Type := S -> World -> result A * (S * World).

Section monad.
Context {S : Type}.

#[global] Instance M_ret : MRet (M S) := fun A a s w => (Ok a, (s, w)).
#[global] Instance M_bind : MBind (M S) := fun A B k m s w =>
  match m s w with
  | (Ok a, (s', w')) => k a s' w'
  | (Err e, (s', w')) => (Err e, (s', w'))
  end.

Definition raise {A} (e : exn) : M S A := fun s w => (Err e, (s, w)).
(** [raise C(msg)] *)
Definition throw {A} (c : exc_class) (msg : string) : M S A := raise (Exn c msg None).
(** [raise C(msg) from exc] *)
Definition throw_from {A} (c : exc_class) (msg : string) (e : exn) : M S A :=
  raise (Exn c msg (Some e)).

Definition get : M S S := fun s w => (Ok s, (s, w)).
Definition put (s : S) : M S unit := fun _ w => (Ok tt, (s, w)).
Definition modify (f : S -> S) : M S unit := fun s w => (Ok tt, (f s, w)).
Definition gets {A} (f : S -> A) : M S A := fun s w => (Ok (f s), (s, w)).

(** [try: m except C1 as e: h1 e except C2 ...]: the first clause whose class
    matches runs, in the state the raise left. *)
Fixpoint dispatch {A} (hs : list (exc_class * (exn -> M S A))) (e : exn) : M S A :=
  match hs with
  | [] => raise e
  | (c, h) :: hs => if isinstance e c then h e else dispatch hs e
  end.
Definition try_except {A} (m : M S A) (hs : list (exc_class * (exn -> M S A))) : M S A :=
  fun s w => match m s w with
             | (Ok a, sw) => (Ok a, sw)
             | (Err e, (s', w')) => dispatch hs e s' w'
             end.

(** [for x in l: f x] *)
Fixpoint for_each {A} (l : list A) (f : A -> M S unit) : M S unit :=
  match l with
  | [] => mret tt
  | x :: l => f x ;; for_each l f
  end.

Definition of_result {A} (r : result A) : M S A := fun s w => (r, (s, w)).
Definition of_option {A} (o : option A) (c : exc_class) (msg : string) : M S A :=
  match o with Some a => mret a | None => throw c msg end.
End monad.

(** Run a component's operation inside a larger state. *)
Definition zoom {S T A} (view : S -> T) (update : T -> S -> S) (m : M T A) : M S A :=
  fun s w => let '(r, (t, w')) := m (view s) w in (r, (update t s, w')).

(** ** Access to the world *)

Section effects.
Context {S : Type} `{Env}.

Definition set_world (f : World -> World) : M S unit := fun s w => (Ok tt, (s, f w)).

Definition w_add_log (e : LogEntry) (w : World) : World :=
  mkWorld (w_log w ++ [e]) (w_metrics w) (w_spans w) (w_http w)
          (w_clock w) (w_utc w) (w_uuids w).
Definition w_add_metric (c : MetricCall) (w : World) : World :=
  mkWorld (w_log w) (w_metrics w ++ [c]) (w_spans w) (w_http w)
          (w_clock w) (w_utc w) (w_uuids w).
Definition w_add_span (c : SpanCall) (w : World) : World :=
  mkWorld (w_log w) (w_metrics w) (w_spans w ++ [c]) (w_http w)
          (w_clock w) (w_utc w) (w_uuids w).
Definition w_add_http (r : HttpRequest) (w : World) : World :=
  mkWorld (w_log w) (w_metrics w) (w_spans w) (w_http w ++ [r])
          (w_clock w) (w_utc w) (w_uuids w).

Definition emit (l : level) (event : string) (fields : list (string * json)) : M S unit :=
  set_world (w_add_log (mkEntry l event fields)).
Definition metric (c : MetricCall) : M S unit := set_world (w_add_metric c).
Definition span (c : SpanCall) : M S unit := set_world (w_add_span c).

(** [Counter.labels(...).inc(n)]: the call is recorded, then the library may
    refuse the amount. *)
Definition counter_inc (name : string) (labels : list (string * string)) (n : Z)
    : M S unit :=
  match counter_inc_error n with
  | Some e => raise e
  | None => metric (CounterInc name labels n)
  end.

Definition time_time : M S Z := fun s w =>
  (Ok (clock (w_clock w)),
   (s, mkWorld (w_log w) (w_metrics w) (w_spans w) (w_http w)
               (1 + w_clock w) (w_utc w) (w_uuids w))).
Definition utc_now : M S Z := fun s w =>
  (Ok (utc_clock (w_utc w)),
   (s, mkWorld (w_log w) (w_metrics w) (w_spans w) (w_http w)
               (w_clock w) (1 + w_utc w) (w_uuids w))).
Definition uuid4 : M S UUID := fun s w =>
  (Ok (uuid_supply (w_uuids w)),
   (s, mkWorld (w_log w) (w_metrics w) (w_spans w) (w_http w)
               (w_clock w) (w_utc w) (1 + w_uuids w))).
Definition http_post (r : HttpRequest) : M S HttpResponse := fun s w =>
  (http_answer (w_http w) r, (s, w_add_http r w)).
Definition current_span_context : M S SpanContext := fun s w =>
  (Ok (span_context (w_spans w)), (s, w)).
End effects.

(** [with tracer.start_as_current_span(name):] *)
Definition with_span {S A} (name : string) (m : M S A) : M S A := fun s w =>
  let '(r, (s', w')) := m s (w_add_span (SpanStart name) w) in
  (r, (s', w_add_span (SpanEnd name) w')).

Definition w_empty : World := mkWorld [] [] [] [] 0 0 0.

(** ** Weakest preconditions

    [wp m Q s w]: running [m] from [s] and [w] ends in a result and state that
    satisfy [Q].  Every computation terminates, so this is total correctness. *)
Definition wp {S A} (m : M S A) (Q : result A -> S -> World -> Prop) (s : S) (w : World)
    : Prop :=
  let '(r, (s', w')) := m s w in Q r s' w'.

Section wp.
Context {S : Type}.
Implicit Types (s : S) (w : World).

Lemma wp_run {A} (m : M S A) Q s w r s' w' :
  wp m Q s w -> m s w = (r, (s', w')) -> Q r s' w'.
Proof. unfold wp. intros H E. by rewrite E in H. Qed.

Lemma wp_intro {A} (m : M S A) Q s w :
  (forall r s' w', m s w = (r, (s', w')) -> Q r s' w') -> wp m Q s w.
Proof. unfold wp. intros H. destruct (m s w) as [r [s' w']]. by apply H. Qed.

Lemma wp_mono {A} (m : M S A) (P Q : result A -> S -> World -> Prop) s w :
  wp m P s w -> (forall r s' w', P r s' w' -> Q r s' w') -> wp m Q s w.
Proof. unfold wp. destruct (m s w) as [r [s' w']]. auto. Qed.

Lemma wp_bind {A B} (m : M S A) (k : A -> M S B) Q s w :
  wp m (fun r s' w' => match r with
                       | Ok a => wp (k a) Q s' w'
                       | Err e => Q (Err e) s' w'
                       end) s w ->
  wp (m ≫= k) Q s w.
Proof.
  unfold wp, mbind, M_bind. destruct (m s w) as [[a|e] [s' w']]; auto.
Qed.

Lemma wp_ret {A} (a : A) Q s w : Q (Ok a) s w -> wp (mret a) Q s w.
Proof. done. Qed.
Lemma wp_raise {A} e (Q : result A -> S -> World -> Prop) s w :
  Q (Err e) s w -> wp (raise e) Q s w.
Proof. done. Qed.

Lemma wp_modify (f : S -> S) (Q : result unit -> S -> World -> Prop) s w :
  Q (Ok tt) (f s) w -> wp (modify f) Q s w.
Proof. done. Qed.
Lemma wp_set_world f (Q : result unit -> S -> World -> Prop) s w :
  Q (Ok tt) s (f w) -> wp (set_world f) Q s w.
Proof. done. Qed.
Lemma wp_gets {A} (f : S -> A) (Q : result A -> S -> World -> Prop) s w :
  Q (Ok (f s)) s w -> wp (gets f) Q s w.
Proof. done. Qed.

Lemma wp_try {A} (m : M S A) hs Q s w :
  wp m (fun r s' w' => match r with
                       | Ok a => Q (Ok a) s' w'
                       | Err e => wp (dispatch hs e) Q s' w'
                       end) s w ->
  wp (try_except m hs) Q s w.
Proof.
  unfold wp, try_except. destruct (m s w) as [[a|e] [s' w']]; auto.
Qed.

Lemma wp_zoom {T A} (view : S -> T) update (m : M T A) Q s w :
  wp m (fun r t w' => Q r (update t s) w') (view s) w -> wp (zoom view update m) Q s w.
Proof. unfold wp, zoom. destruct (m (view s) w) as [r [t w']]. auto. Qed.
End wp.

(** Compute a run step by step: unfold the monad in the goal. *)
Ltac run_m :=
  cbv [mbind M_bind mret M_ret raise throw throw_from get put modify gets of_result
       of_option set_world emit metric span time_time utc_now uuid4 http_post
       current_span_context try_except zoom];
  simpl.

(** ** Preservation of a state predicate

    [preserves n0 I m]: a run of [m], raising or not, that starts after [n0]
    readings of the clock from a state that satisfies [I] ends so too.  [n0]
    is the point from which a statement constrains the clock. *)
Definition preserves {S A} (n0 : nat) (I : S -> Prop) (m : M S A) : Prop :=
  forall s w, I s -> (n0 <= w_clock w)%nat ->
    I (m s w).2.1 /\ (n0 <= w_clock (m s w).2.2)%nat.

Section preserves.
Context {S : Type} (n0 : nat) (I : S -> Prop).
#[local] Abbreviation preserves := (preserves n0 I).

Lemma preserves_ret {A} (a : A) : preserves (mret a).
Proof. by intros s w. Qed.
Lemma preserves_raise {A} e : preserves (@raise S A e).
Proof. by intros s w. Qed.
Lemma preserves_of_result {A} (r : result A) : preserves (of_result r).
Proof. by intros s w. Qed.
Lemma preserves_of_option {A} (o : option A) c m : preserves (of_option o c m).
Proof. by intros s w; destruct o. Qed.
Lemma preserves_emit l e fs : preserves (emit l e fs).
Proof. by intros s w. Qed.
Lemma preserves_metric c : preserves (metric c).
Proof. by intros s w. Qed.
Lemma preserves_span c : preserves (span c).
Proof. by intros s w. Qed.
Lemma preserves_modify f : (forall s, I s -> I (f s)) -> preserves (modify f).
Proof. intros Hf s w Hs Hn. split; [by apply Hf|done]. Qed.
Lemma preserves_bind {A B} (m : M S A) (k : A -> M S B) :
  preserves m -> (forall a, preserves (k a)) -> preserves (m ≫= k).
Proof.
  intros Hm Hk s w Hs Hn. destruct (Hm s w Hs Hn) as [Hs' Hn']. unfold mbind, M_bind.
  destruct (m s w) as [[a|e] [s' w']]; [by apply Hk|done].
Qed.
(** After a reading of the state, its value is known to satisfy [I]. *)
Lemma preserves_get_bind {B} (k : S -> M S B) :
  (forall s, I s -> preserves (k s)) -> preserves (get ≫= k).
Proof. intros Hk s w Hs. by apply Hk. Qed.
Lemma preserves_gets {A} (f : S -> A) : preserves (gets f).
Proof. by intros s w. Qed.
Lemma preserves_try {A} (m : M S A) hs :
  preserves m -> Forall (fun p => forall e, preserves (p.2 e)) hs ->
  preserves (try_except m hs).
Proof.
  intros Hm Hhs s w Hs Hn. destruct (Hm s w Hs Hn) as [Hs' Hn']. unfold try_except.
  destruct (m s w) as [[a|e] [s' w']]; [done|].
  simpl in Hs', Hn'. clear Hs Hn w s. revert s' w' Hs' Hn'.
  induction Hhs as [|[c h] hs Hh _ IH]; intros s' w' Hs' Hn'; [done|]. simpl.
  destruct (isinstance e c); [by apply Hh|by apply IH].
Qed.
Lemma preserves_zoom {T A} (view : S -> T) update (m : M T A) :
  (forall s w, I s -> (n0 <= w_clock w)%nat ->
     I (update (m (view s) w).2.1 s) /\ (n0 <= w_clock (m (view s) w).2.2)%nat) ->
  preserves (zoom view update m).
Proof.
  intros Hu s w Hs Hn. unfold zoom. specialize (Hu s w Hs Hn).
  by destruct (m (view s) w) as [r [t w']].
Qed.

Context `{Env}.
Lemma preserves_utc : preserves utc_now.
Proof. by intros s w. Qed.
Lemma preserves_uuid4 : preserves uuid4.
Proof. by intros s w. Qed.
(** After a reading of the clock, its value is one of the clock's from [n0] on. *)
Lemma preserves_time_bind {B} (k : Z -> M S B) :
  (forall n, (n0 <= n)%nat -> preserves (k (clock n))) -> preserves (time_time ≫= k).
Proof. intros Hk s w Hs Hn. apply Hk; [done|done|simpl; lia]. Qed.
Lemma preserves_time : preserves time_time.
Proof. intros s w Hs Hn. simpl. split; [done|lia]. Qed.
Lemma preserves_http r : preserves (http_post r).
Proof. by intros s w. Qed.
End preserves.

(** ** Facts about returned values

    [returns m Q]: whenever [m] returns a value, the value satisfies [Q]. *)
Definition returns {S A} (m : M S A) (Q : A -> Prop) : Prop :=
  forall s w a s' w', m s w = (Ok a, (s', w')) -> Q a.

Section returns.
Context {S : Type}.
Lemma returns_ret {A} (a : A) (Q : A -> Prop) : Q a -> returns (S := S) (mret a) Q.
Proof. intros HQ s w a' s' w' [= <- _ _]. done. Qed.
Lemma returns_raise {A} e (Q : A -> Prop) : returns (S := S) (raise e) Q.
Proof. intros s w a s' w' E. discriminate E. Qed.
Lemma returns_bind {A B} (m : M S A) (k : A -> M S B) P Q :
  returns m P -> (forall a, P a -> returns (k a) Q) -> returns (m ≫= k) Q.
Proof.
  intros Hm Hk s w b s' w'. unfold mbind, M_bind.
  destruct (m s w) as [[a|e] [s1 w1]] eqn:E; [|done]. apply Hk. by eapply Hm.
Qed.
Lemma returns_any {A} (m : M S A) : returns m (fun _ => True).
Proof. done. Qed.
Lemma returns_bind_any {A B} (m : M S A) (k : A -> M S B) Q :
  (forall a, returns (k a) Q) -> returns (m ≫= k) Q.
Proof. intros Hk. eapply returns_bind; [apply returns_any|auto]. Qed.
End returns.

(** ** Inverting successful runs *)

(** The first step of a computation, run. *)
Lemma bind_run {S A B} (m : M S A) (k : A -> M S B) s w a s' w' :
  m s w = (Ok a, (s', w')) -> (m ≫= k) s w = k a s' w'.
Proof. unfold mbind, M_bind. by intros ->. Qed.
Lemma bind_run_err {S A B} (m : M S A) (k : A -> M S B) s w e s' w' :
  m s w = (Err e, (s', w')) -> (m ≫= k) s w = (Err e, (s', w')).
Proof. unfold mbind, M_bind. by intros ->. Qed.

Lemma bind_ok {S A B} (m : M S A) (k : A -> M S B) s w b sw :
  (m ≫= k) s w = (Ok b, sw) ->
  exists a s1 w1, m s w = (Ok a, (s1, w1)) /\ k a s1 w1 = (Ok b, sw).
Proof.
  unfold mbind, M_bind. destruct (m s w) as [[a|e] [s1 w1]]; [|done]. eauto 6.
Qed.

(** Handlers that only raise do not produce a result. *)
Lemma try_ok {S A} (m : M S A) hs s w a sw :
  Forall (fun p => forall e s w, exists e', (p.2 e : M S A) s w = (Err e', (s, w))) hs ->
  try_except m hs s w = (Ok a, sw) -> m s w = (Ok a, sw).
Proof.
  intros Hhs. unfold try_except. destruct (m s w) as [[b|e] [s1 w1]]; [done|].
  intros E. exfalso. revert E. induction Hhs as [|[c h] hs Hh _ IH]; [done|]. simpl.
  destruct (isinstance e c); [|done]. destruct (Hh e s1 w1) as [e' Eh]. simpl in Eh. by rewrite Eh.
Qed.

Lemma with_span_ok {S A} n (m : M S A) s w x s' w' :
  with_span n m s w = (Ok x, (s', w')) ->
  exists w2, m s (w_add_span (SpanStart n) w) = (Ok x, (s', w2)).
Proof.
  unfold with_span. destruct (m s _) as [r [s2 w2]]. intros [= -> -> _]. eauto.
Qed.

(** Computations that always raise, such as the handlers that audit and re-raise. *)
Definition never_ok {S A} (m : M S A) : Prop := forall s w a sw, m s w <> (Ok a, sw).

Lemma never_ok_raise {S A} e : never_ok (S := S) (A := A) (raise e).
Proof. intros s w a sw E. discriminate E. Qed.
Lemma never_ok_bind {S A B} (m : M S A) (k : A -> M S B) :
  (forall a, never_ok (k a)) -> never_ok (m ≫= k).
Proof. intros Hk s w b sw E. apply bind_ok in E as (a & s1 & w1 & _ & E). exact (Hk a _ _ _ _ E). Qed.

Lemma try_never_ok {S A} (m : M S A) hs s w a sw :
  Forall (fun p => forall e, never_ok (p.2 e : M S A)) hs ->
  try_except m hs s w = (Ok a, sw) -> m s w = (Ok a, sw).
Proof.
  intros Hhs. unfold try_except. destruct (m s w) as [[b|e] [s1 w1]]; [done|].
  intros E. exfalso. revert E. induction Hhs as [|[c h] hs Hh _ IH]; [done|]. simpl.
  destruct (isinstance e c); [|done]. intros E. exact (Hh e _ _ _ _ E).
Qed.

Create HintDb never_ok.
#[export] Hint Resolve never_ok_raise : never_ok.
#[export] Hint Extern 1 (never_ok (_ ≫= _)) => apply never_ok_bind; intros ? : never_ok.
#[export] Hint Extern 1 (never_ok (throw _ _)) => apply never_ok_raise : never_ok.
#[export] Hint Extern 1 (never_ok (throw_from _ _ _)) => apply never_ok_raise : never_ok.

(** [H : try_except m hs s w = (Ok _, _)] with clauses that all raise. *)
Ltac try_inv H :=
  apply try_never_ok in H;
  [|repeat (apply Forall_cons_2; [intros ?; cbn [snd]; auto with never_ok|]); apply Forall_nil_2].

(** Inspect [H : (... ≫= ...) s w = (Ok _, _)] one bind at a time. *)
Tactic Notation "bind_inv" ident(H) "as" ident(a) ident(s) ident(w) ident(E) :=
  apply bind_ok in H as (a & s & w & E & H).

Create HintDb preserves.
#[export] Hint Resolve preserves_ret preserves_raise preserves_of_result preserves_of_option
  preserves_emit preserves_metric preserves_span preserves_gets preserves_utc preserves_uuid4
  preserves_time preserves_http : preserves.

(** Walk through a computation; leaves what the hints do not know. *)
Ltac preserve_step :=
  match goal with
  | |- preserves _ _ (time_time ≫= _) => apply preserves_time_bind; intros ? ?
  | |- preserves _ _ (get ≫= _) => apply preserves_get_bind; intros ? ?
  | |- preserves _ _ (_ ≫= _) => apply preserves_bind; [|intros ?]
  | |- preserves _ _ (try_except _ _) =>
      apply preserves_try;
      [|repeat (apply Forall_cons_2; [intros ?; cbn [snd]|]); try apply Forall_nil_2]
  | |- preserves _ _ (match ?x with _ => _ end) => destruct x eqn:?
  | |- preserves _ _ (let x := ?v in _) => cbv zeta
  | |- preserves _ _ (throw _ _) => apply preserves_raise
  | |- preserves _ _ (throw_from _ _ _) => apply preserves_raise
  | |- _ => solve [auto with preserves]
  end.
Ltac preserve := repeat preserve_step.

(** ** Computations that send nothing

    [quiet m]: no run of [m] sends an HTTP request. *)
Definition quiet {S A} (m : M S A) : Prop := forall s w, w_http (m s w).2.2 = w_http w.

Section quiet.
Context {S : Type}.

Lemma quiet_ret {A} (a : A) : quiet (S := S) (mret a).
Proof. done. Qed.
Lemma quiet_raise {A} e : quiet (@raise S A e).
Proof. done. Qed.
Lemma quiet_of_result {A} (r : result A) : quiet (S := S) (of_result r).
Proof. done. Qed.
Lemma quiet_of_option {A} (o : option A) c m : quiet (S := S) (of_option o c m).
Proof. by destruct o. Qed.
Lemma quiet_emit l e fs : quiet (S := S) (emit l e fs).
Proof. done. Qed.
Lemma quiet_metric c : quiet (S := S) (metric c).
Proof. done. Qed.
Lemma quiet_span c : quiet (S := S) (span c).
Proof. done. Qed.
Lemma quiet_modify f : quiet (S := S) (modify f).
Proof. done. Qed.
Lemma quiet_get : quiet (S := S) get.
Proof. done. Qed.
Lemma quiet_gets {A} (f : S -> A) : quiet (gets f).
Proof. done. Qed.
Lemma quiet_bind {A B} (m : M S A) (k : A -> M S B) :
  quiet m -> (forall a, quiet (k a)) -> quiet (m ≫= k).
Proof.
  intros Hm Hk s w. specialize (Hm s w). unfold mbind, M_bind.
  destruct (m s w) as [[a|e] [s' w']]; [|done]. simpl in Hm. by rewrite Hk.
Qed.
Lemma quiet_try {A} (m : M S A) hs :
  quiet m -> Forall (fun p => forall e, quiet (p.2 e)) hs -> quiet (try_except m hs).
Proof.
  intros Hm Hhs s w. specialize (Hm s w). unfold try_except.
  destruct (m s w) as [[a|e] [s' w']]; [done|]. simpl in Hm. rewrite <- Hm.
  clear Hm. induction Hhs as [|[c h] hs Hh _ IH]; [done|]. simpl.
  destruct (isinstance e c); [apply Hh|done].
Qed.
Lemma quiet_zoom {T A} (view : S -> T) update (m : M T A) :
  quiet m -> quiet (zoom view update m).
Proof.
  intros Hm s w. specialize (Hm (view s) w). unfold zoom.
  by destruct (m (view s) w) as [r [t w']].
Qed.

Context `{Env}.
Lemma quiet_time : quiet (S := S) time_time.
Proof. done. Qed.
Lemma quiet_utc : quiet (S := S) utc_now.
Proof. done. Qed.
Lemma quiet_uuid4 : quiet (S := S) uuid4.
Proof. done. Qed.
Lemma quiet_span_context : quiet (S := S) current_span_context.
Proof. done. Qed.
Lemma quiet_counter n ls v : quiet (S := S) (counter_inc n ls v).
Proof. intros s w. unfold counter_inc. by destruct (counter_inc_error v). Qed.
End quiet.

Create HintDb quiet.
#[export] Hint Resolve quiet_ret quiet_raise quiet_of_result quiet_of_option quiet_emit
  quiet_metric quiet_span quiet_modify quiet_get quiet_gets quiet_zoom quiet_time quiet_utc
  quiet_uuid4 quiet_span_context quiet_counter : quiet.

Ltac hush_step :=
  match goal with
  | |- quiet (_ ≫= _) => apply quiet_bind; [|intros ?]
  | |- quiet (try_except _ _) =>
      apply quiet_try; [|repeat (apply Forall_cons_2; [intros ?; cbn [snd]|]); try apply Forall_nil_2]
  | |- quiet (zoom _ _ _) => apply quiet_zoom
  | |- quiet (match ?x with _ => _ end) => destruct x eqn:?
  | |- quiet (let x := ?v in _) => cbv zeta
  | |- quiet (throw _ _) => apply quiet_raise
  | |- quiet (throw_from _ _ _) => apply quiet_raise
  | |- _ => solve [auto with quiet]
  end.
Ltac hush := repeat hush_step.

(** ** A concrete environment

    Used by the witnesses: clocks that advance by one second per reading,
    numbered UUIDs, an HTTP peer that always answers 200 with an empty object,
    no active span, and a metric library that refuses negative increments. *)
Definition demo_env : Env := {|
  clock n := secs (1700000000 + Z.of_nat n);
  utc_clock n := 1700000000000000 + 1000000 * Z.of_nat n;
  uuid_supply n := mkUUID (Z.of_nat n + 1);
  http_answer _ _ := Ok (mkHttpResponse 200 (Ok (JObj [])));
  span_context _ := mkSpanContext false 0 0 0;
  counter_inc_error n :=
    if n <? 0 then Some (Exn ValueError "Counters can only be incremented by non-negative amounts." None)
    else None
|}.
