(* ===== verification/Metrics.v ===== *)
(** * src/watchdog/metrics.py: the Prometheus metrics

    The four declared metrics, what a series shows after the calls recorded on the
    world, and the logic of the calls a computation makes: [emits P m] says that every
    metric call of every run of [m] satisfies [P]. *)
From Stdlib Require Import ZArith Lia Ascii String.
From stdpp Require Import base gmap strings list.
From S2P Require Import Prelude PyDecimal PyUuid World.

Inductive metric_kind : Type := Counter | Gauge.
#[global] Instance metric_kind_eq_dec : EqDecision metric_kind.
Proof. solve_decision. Defined.

Record Metric : Type := mkMetric {
  metric_kind_of : metric_kind;
  metric_name : string;
  documentation : string;
  labelnames : list string
}.

Definition tokens_consumed : Metric :=
  mkMetric Counter "aegis_tokens_consumed_total"
    "Total tokens consumed by agent sessions, labelled by agent type." ["agent_type"%string].
Definition budget_remaining : Metric :=
  mkMetric Gauge "aegis_budget_remaining_usd"
    "Remaining budget in USD for each active budget session." ["session_id"%string].
Definition orchestrator_errors : Metric :=
  mkMetric Counter "aegis_orchestrator_errors_total"
    ("Count of errors raised at each orchestrator pipeline stage, "
     +:+ "labelled by stage name and agent type.") ["stage"; "agent_type"]%string.
Definition workflow_pending_approval_seconds : Metric :=
  mkMetric Gauge "aegis_workflow_pending_approval_seconds"
    ("Seconds a workflow has been in the PendingApproval state. "
     +:+ "Alert fires when this exceeds 86400 (24 h).") ["workflow_id"%string].
Definition hitl_stuck_seconds : Metric := workflow_pending_approval_seconds.

(** The registry after the module has been imported. *)
Definition REGISTRY : list Metric :=
  [tokens_consumed; budget_remaining; orchestrator_errors; workflow_pending_approval_seconds].

(** [prometheus_client] refuses a second metric of the same name, so the module can be
    imported. *)
Example registry_names_distinct : NoDup (metric_name <$> REGISTRY).
Proof. refine (bool_decide_unpack _ _). vm_compute. exact I. Qed.

(** ** Calls *)

(** A call the library accepts: on a declared metric of that kind, with exactly its
    label names ([labels] raises [ValueError] otherwise, and a gauge has no
    [inc] here nor a counter a [set]). *)
Definition declared (k : metric_kind) (name : string) (labels : list string) : bool :=
  existsb (fun m => bool_decide (metric_kind_of m = k) && bool_decide (metric_name m = name)
                    && bool_decide (labelnames m = labels)) REGISTRY.
Definition call_typed (c : MetricCall) : bool :=
  match c with
  | GaugeSet n ls _ | GaugeSetTime n ls _ => declared Gauge n ls.*1
  | CounterInc n ls _ => declared Counter n ls.*1
  | GaugeRemove n vs =>
      existsb (fun m => bool_decide (metric_kind_of m = Gauge) && bool_decide (metric_name m = n)
                        && bool_decide (length (labelnames m) = length vs)) REGISTRY
  end.

(** ** What a series shows *)

(** A gauge value: a [Decimal] before [float], or a time in ticks. *)
Inductive GaugeValue : Type := GDecimal (d : Decimal) | GTicks (t : Z).

Definition gauge_after (m : Metric) (labels : list (string * string)) (o : option GaugeValue)
    (c : MetricCall) : option GaugeValue :=
  match c with
  | GaugeSet n ls v =>
      if bool_decide (n = metric_name m /\ ls = labels) then Some (GDecimal v) else o
  | GaugeSetTime n ls t =>
      if bool_decide (n = metric_name m /\ ls = labels) then Some (GTicks t) else o
  | GaugeRemove n vs => if bool_decide (n = metric_name m /\ vs = labels.*2) then None else o
  | CounterInc _ _ _ => o
  end.
(** The value of a gauge with these labels, if there is such a series. *)
Definition gauge_value (m : Metric) (labels : list (string * string)) (log : list MetricCall)
    : option GaugeValue := fold_left (gauge_after m labels) log None.

Definition counted (m : Metric) (labels : list (string * string)) (c : MetricCall) : Z :=
  match c with
  | CounterInc n ls v => if bool_decide (n = metric_name m /\ ls = labels) then v else 0
  | _ => 0
  end.
(** The value of a counter with these labels (zero before the first increment). *)
Definition counter_value (m : Metric) (labels : list (string * string)) (log : list MetricCall) : Z :=
  fold_right Z.add 0 (counted m labels <$> log).

Lemma gauge_value_snoc m ls log c :
  gauge_value m ls (log ++ [c]) = gauge_after m ls (gauge_value m ls log) c.
Proof. unfold gauge_value. by rewrite fold_left_app. Qed.

Lemma counter_value_app m ls l1 l2 :
  counter_value m ls (l1 ++ l2) = counter_value m ls l1 + counter_value m ls l2.
Proof.
  unfold counter_value. rewrite fmap_app, foldr_app.
  induction l1 as [|c l1 IH]; cbn; [done|]. lia.
Qed.

(** ** The calls of a computation *)

Definition emits {S A} (P : MetricCall -> Prop) (m : M S A) : Prop := forall s w,
  exists cs, w_metrics (m s w).2.2 = w_metrics w ++ cs /\ Forall P cs.

Section emits.
Context {S : Type} (P : MetricCall -> Prop).
#[local] Abbreviation emits := (emits P).

Lemma emits_none {A} (m : M S A) : (forall s w, w_metrics (m s w).2.2 = w_metrics w) -> emits m.
Proof. intros Hm s w. exists []. by rewrite app_nil_r. Qed.
Lemma emits_ret {A} (a : A) : emits (mret a : M S A).
Proof. by apply emits_none. Qed.
Lemma emits_raise {A} e : emits (@raise S A e).
Proof. by apply emits_none. Qed.
Lemma emits_of_result {A} (r : result A) : emits (of_result r : M S A).
Proof. by apply emits_none. Qed.
Lemma emits_of_option {A} (o : option A) c msg : emits (of_option o c msg : M S A).
Proof. apply emits_none. by destruct o. Qed.
Lemma emits_emit l e fs : emits (emit l e fs : M S unit).
Proof. by apply emits_none. Qed.
Lemma emits_span c : emits (span c : M S unit).
Proof. by apply emits_none. Qed.
Lemma emits_modify f : emits (modify f : M S unit).
Proof. by apply emits_none. Qed.
Lemma emits_get : emits (get : M S S).
Proof. by apply emits_none. Qed.
Lemma emits_gets {A} (f : S -> A) : emits (gets f).
Proof. by apply emits_none. Qed.
Lemma emits_metric c : P c -> emits (metric c : M S unit).
Proof. intros Hc s w. exists [c]. split; [done|]. by constructor. Qed.
Lemma emits_bind {A B} (m : M S A) (k : A -> M S B) :
  emits m -> (forall a, emits (k a)) -> emits (m ≫= k).
Proof.
  intros Hm Hk s w. destruct (Hm s w) as (cs & Hcs & HP). unfold mbind, M_bind.
  destruct (m s w) as [[a|e] [s' w']]; [|by exists cs].
  destruct (Hk a s' w') as (cs' & Hcs' & HP'). exists (cs ++ cs').
  cbn in Hcs. rewrite Hcs', Hcs, app_assoc. split; [done|]. by apply Forall_app.
Qed.
Lemma emits_try {A} (m : M S A) hs :
  emits m -> Forall (fun p => forall e, emits (p.2 e)) hs -> emits (try_except m hs).
Proof.
  intros Hm Hhs s w. destruct (Hm s w) as (cs & Hcs & HP). unfold try_except.
  destruct (m s w) as [[a|e] [s' w']]; [by exists cs|]. cbn in Hcs.
  assert (Hd : emits (dispatch hs e)).
  { clear -Hhs. induction Hhs as [|[c h] hs Hh _ IH]; cbn [dispatch]; [apply emits_raise|].
    destruct (isinstance e c); [apply Hh|exact IH]. }
  destruct (Hd s' w') as (cs' & Hcs' & HP'). exists (cs ++ cs').
  rewrite Hcs', Hcs, app_assoc. split; [done|]. by apply Forall_app.
Qed.
Lemma emits_for {A} (l : list A) (f : A -> M S unit) :
  (forall x, emits (f x)) -> emits (for_each l f).
Proof.
  intros Hf. induction l as [|x l IH]; cbn [for_each]; [apply emits_ret|].
  apply emits_bind; [apply Hf|intros _; exact IH].
Qed.
Lemma emits_with_span {A} n (m : M S A) : emits m -> emits (with_span n m).
Proof.
  intros Hm s w. destruct (Hm s (w_add_span (SpanStart n) w)) as (cs & Hcs & HP).
  exists cs. unfold with_span. by destruct (m s _) as [r [s' w']].
Qed.

Context `{Env}.
Lemma emits_time : emits (time_time : M S Z).
Proof. by apply emits_none. Qed.
Lemma emits_utc : emits (utc_now : M S Z).
Proof. by apply emits_none. Qed.
Lemma emits_uuid4 : emits (uuid4 : M S UUID).
Proof. by apply emits_none. Qed.
Lemma emits_http r : emits (http_post r : M S HttpResponse).
Proof. by apply emits_none. Qed.
Lemma emits_span_context : emits (current_span_context : M S SpanContext).
Proof. by apply emits_none. Qed.
Lemma emits_counter n ls v : P (CounterInc n ls v) -> emits (counter_inc n ls v : M S unit).
Proof.
  intros Hp. unfold counter_inc. destruct (counter_inc_error v); [apply emits_raise|].
  by apply emits_metric.
Qed.
End emits.

Lemma emits_zoom {S T A} P (view : S -> T) update (m : M T A) :
  emits P m -> emits P (zoom view update m).
Proof.
  intros Hm s w. destruct (Hm (view s) w) as (cs & Hcs & HP). exists cs. unfold zoom.
  by destruct (m (view s) w) as [r [t w']].
Qed.

Create HintDb emits.
#[export] Hint Resolve emits_ret emits_raise emits_of_result emits_of_option emits_emit emits_span
  emits_modify emits_get emits_gets emits_time emits_utc emits_uuid4 emits_http
  emits_span_context : emits.

(** Walk through a computation; leaves what the hints do not know. *)
Ltac emitting_step :=
  match goal with
  | |- emits _ (_ ≫= _) => apply emits_bind; [|intros ?]
  | |- emits _ (try_except _ _) =>
      apply emits_try; [|repeat (apply Forall_cons_2; [intros ?; cbn [snd]|]); try apply Forall_nil_2]
  | |- emits _ (zoom _ _ _) => apply emits_zoom
  | |- emits _ (with_span _ _) => apply emits_with_span
  | |- emits _ (for_each _ _) => apply emits_for; intros ?
  | |- emits _ (match ?x with _ => _ end) => destruct x eqn:?
  | |- emits _ (let x := ?v in _) => cbv zeta
  | |- emits _ (throw _ _) => apply emits_raise
  | |- emits _ (throw_from _ _ _) => apply emits_raise
  | |- emits _ (metric _) => apply emits_metric
  | |- emits _ (counter_inc _ _ _) => apply emits_counter
  | |- _ => solve [auto with emits]
  end.
Ltac emitting := repeat emitting_step.
