(* ===== verification/Config.v ===== *)
(** * src/config.py: settings

    The fields of [Settings].  [budget_limit_usd] is a float; the code only uses its [repr], so the model keeps that string. *)
From Stdlib Require Import ZArith String.
From stdpp Require Import base strings.
From S2P Require Import Prelude.

Record Settings : Type := mkSettings {
  aegis_env : string;
  vault_addr : string;
  vault_token : string;
  temporal_host : string;
  temporal_task_queue : string;
  opa_url : string;
  llm_provider : string;
  openai_api_key : string;
  anthropic_api_key : string;
  local_llama_base_url : string;
  local_llama_model : string;
  token_expiry_seconds : Z;
  token_secret_key : string;
  token_algorithm : string;
  token_private_key : string;
  token_public_key : string;
  require_sender_constrained_tokens : bool;
  dpop_proof_ttl_seconds : Z;
  dpop_clock_skew_seconds : Z;
  dpop_replay_store_url : string;
  max_agent_steps : Z;
  max_token_velocity : Z;
  budget_limit_usd_repr : string;
  temporal_encryption_key : string
}.

Class HasSettings : Type := settings : Settings.

(** The values of the class body, used when no environment variable is set. *)
Definition default_settings : Settings := {|
  aegis_env := "development";
  vault_addr := "http://localhost:8200";
  vault_token := "aegis-dev-root-token";
  temporal_host := "localhost:7233";
  temporal_task_queue := "aegis-agent-tasks";
  opa_url := "http://localhost:8181";
  llm_provider := "local_llama";
  openai_api_key := "";
  anthropic_api_key := "";
  local_llama_base_url := "http://host.docker.internal:11434/v1";
  local_llama_model := "llama3";
  token_expiry_seconds := 900;
  token_secret_key := "change-me-in-production-use-a-strong-random-key";
  token_algorithm := "HS256";
  token_private_key := "";
  token_public_key := "";
  require_sender_constrained_tokens := false;
  dpop_proof_ttl_seconds := 300;
  dpop_clock_skew_seconds := 30;
  dpop_replay_store_url := "";
  max_agent_steps := 10;
  max_token_velocity := 10000;
  budget_limit_usd_repr := "10.0";
  temporal_encryption_key := ""
|}.
