(* ===== verification/AuditLogger.v ===== *)
(** * src/audit_vault/logger.py: the audit logger

    State: one counter and one last timestamp per task ([_seq_counters],
    [_last_timestamps]).  [_reserve_task_event_metadata] is the critical section
    under [_seq_lock]; [stage_event] and [lifecycle_event] reserve metadata,
    possibly print a clock-skew warning, and print one line.

    Datetimes are microseconds since the epoch, with the UTC offset of an aware
    datetime; the Gregorian calendar is computed from the day number, and the
    float expression behind [skew_ms] with IEEE binary64 arithmetic. *)
From Stdlib Require Import ZArith Lia Ascii String SpecFloat Sorted.
From stdpp Require Import base gmap strings list.
From S2P Require Import Prelude PyDecimal PyUuid World.

(** ** Datetimes *)

(** [dt_us]: the wall-clock reading in microseconds; [dt_offset]: the UTC
    offset in microseconds, [None] for a naive datetime. *)
Record datetime : Type := mkDatetime { dt_us : Z; dt_offset : option Z }.

(** An aware datetime is converted to UTC, a naive one is taken as UTC. *)
Definition _normalize_timestamp (value : datetime) : Z :=
  match dt_offset value with
  | Some off => dt_us value - off
  | None => dt_us value
  end.

(** Year, month and day of the day number [z] (days since 1970-01-01), in the
    proleptic Gregorian calendar: years start in March inside an era of 400. *)
Definition civil_of_days (z : Z) : Z * Z * Z :=
  let z := z + 719468 in
  let era := z / 146097 in
  let doe := z mod 146097 in
  let yoe := (doe - doe / 1460 + doe / 36524 - doe / 146096) / 365 in
  let doy := doe - (365 * yoe + yoe / 4 - yoe / 100) in
  let mp := (5 * doy + 2) / 153 in
  let d := doy - (153 * mp + 2) / 5 + 1 in
  let m := if mp <? 10 then mp + 3 else mp - 9 in
  (yoe + era * 400 + (if m <=? 2 then 1 else 0), m, d).

(** A non-negative number printed with at least [w] digits. *)
Definition padded (w : nat) (n : Z) : list ascii :=
  let ds := digit_chars n in repeat "0"%char (w - length ds) ++ ds.

(** [value.isoformat(timespec="microseconds").replace("+00:00", "Z")] of a
    UTC datetime. *)
Definition _format_utc_timestamp (us : Z) : string :=
  let day := us / 86400000000 in
  let rest := us mod 86400000000 in
  let '(y, m, d) := civil_of_days day in
  string_of_list_ascii
    (padded 4 y ++ ["-"%char] ++ padded 2 m ++ ["-"%char] ++ padded 2 d ++ ["T"%char]
     ++ padded 2 (rest / 3600000000) ++ [":"%char]
     ++ padded 2 (rest / 60000000 mod 60) ++ [":"%char]
     ++ padded 2 (rest / 1000000 mod 60) ++ ["."%char]
     ++ padded 6 (rest mod 1000000) ++ ["Z"%char]).

Example format_epoch : _format_utc_timestamp 0 = "1970-01-01T00:00:00.000000Z"%string.
Proof. vm_compute. reflexivity. Qed.
Example format_leap_day :
  _format_utc_timestamp 1709251199000042 = "2024-02-29T23:59:59.000042Z"%string.
Proof. vm_compute. reflexivity. Qed.

Arguments _format_utc_timestamp : simpl never.

(** ** [int(delta.total_seconds() * 1000)] in binary64 *)

Definition f64_of_Z (n : Z) : spec_float := binary_normalize 53 1024 n 0 false.
Definition f64_trunc (f : spec_float) : Z :=
  match f with
  | S754_finite s m e =>
      let v := if 0 <=? e then Z.pos m * 2 ^ e else Z.pos m / 2 ^ (- e) in
      if s then - v else v
  | _ => 0
  end.
Definition skew_ms (delta_us : Z) : Z :=
  f64_trunc (SFmul 53 1024 (SFdiv 53 1024 (f64_of_Z delta_us) (f64_of_Z 1000000))
                   (f64_of_Z 1000)).

(** ** The logger *)

Inductive LifecycleEvent : Type :=
  | STARTED | RETRIED | PENDING_APPROVAL | APPROVED | DENIED | COMPLETED | FAILED.

Definition LifecycleEvent_value (e : LifecycleEvent) : string :=
  match e with
  | STARTED => "task.started"
  | RETRIED => "task.retried"
  | PENDING_APPROVAL => "task.pending_approval"
  | APPROVED => "task.approved"
  | DENIED => "task.denied"
  | COMPLETED => "task.completed"
  | FAILED => "task.failed"
  end.

Record AuditLogger : Type := mkAuditLogger {
  al_seq_counters : gmap string Z;
  al_last_timestamps : gmap string Z
}.

Definition AuditLogger_init : AuditLogger := mkAuditLogger ∅ ∅.

Section logger.
Context `{Env}.

(** The processor chain of [structlog.configure]: a line gets its level and,
    unless the caller gave one, the current UTC time as ["timestamp"].
    [setdefault] reads the clock in both cases. *)
Definition _add_timestamp_if_missing {S} (event_dict : list (string * json))
    : M S (list (string * json)) :=
  now ← utc_now;
  mret (match assoc "timestamp" event_dict with
        | Some _ => event_dict
        | None => event_dict ++ [("timestamp"%string, JStr (_format_utc_timestamp now))]
        end).

Definition log_line {S} (l : level) (event : string) (kwargs : list (string * json))
    : M S unit :=
  fields ← _add_timestamp_if_missing kwargs; emit l event fields.

Definition info {S} (event : string) (kwargs : list (string * json)) : M S unit :=
  log_line Info event kwargs.
Definition warning {S} (event : string) (kwargs : list (string * json)) : M S unit :=
  log_line Warning event kwargs.
Definition error {S} (event : string) (kwargs : list (string * json)) : M S unit :=
  log_line Error event kwargs.

(** [f"{n:0{w}x}"] *)
Definition hex_padded (w : nat) (n : Z) : list ascii :=
  hex_char <$> hex_digits (Nat.max w (Z.to_nat (Z.log2 n / 4 + 1))) n.

Definition _current_traceparent {S} : M S string :=
  ctx ← current_span_context;
  mret (if is_valid ctx
        then string_of_list_ascii
               (list_ascii_of_string "00-" ++ hex_padded 32 (trace_id ctx) ++ ["-"%char]
                ++ hex_padded 16 (span_id ctx) ++ ["-"%char]
                ++ list_ascii_of_string
                     (if Z.land (trace_flags ctx) 1 =? 1 then "01" else "00"))
        else "00-00000000000000000000000000000000-0000000000000000-00"%string).

Definition seq_next (l : AuditLogger) (task_id : string) : Z :=
  default 0 (al_seq_counters l !! task_id).
Definition bump_seq (task_id : string) (l : AuditLogger) : AuditLogger :=
  mkAuditLogger (<[task_id := seq_next l task_id + 1]> (al_seq_counters l))
                (al_last_timestamps l).
Definition set_last (task_id : string) (t : Z) (l : AuditLogger) : AuditLogger :=
  mkAuditLogger (al_seq_counters l) (<[task_id := t]> (al_last_timestamps l)).

(** Returns the sequence number, the timestamp and the payload of the
    clock-skew warning, if the wall clock went backwards for this task. *)
Definition _reserve_task_event_metadata (task_id : string)
    (timestamp_override : option datetime)
    : M AuditLogger (Z * string * option (list (string * json))) :=
  candidate ← (match timestamp_override with
               | Some d => mret (_normalize_timestamp d)
               | None => utc_now
               end);
  previous ← gets (fun l => al_last_timestamps l !! task_id);
  let behind := match previous with Some p => candidate <? p | None => false end in
  if bool_decide (is_Some timestamp_override) && behind then
    throw AuditOrderingError
      ("Cannot emit audit event with timestamp earlier than the previous "
       +:+ "event for task_id=" +:+ repr_str task_id)
  else
    '(effective, warning_payload) ←
      (match previous with
       | Some p =>
           if candidate <? p then
             n ← gets (fun l => seq_next l task_id);
             modify (bump_seq task_id) ;;
             mret (p, Some [("sequence_number", JInt n);
                            ("timestamp", JStr (_format_utc_timestamp p));
                            ("previous_timestamp", JStr (_format_utc_timestamp p));
                            ("attempted_timestamp", JStr (_format_utc_timestamp candidate));
                            ("adjusted_timestamp", JStr (_format_utc_timestamp p));
                            ("skew_ms", JInt (skew_ms (p - candidate)))])
           else mret (candidate, None)
       | None => mret (candidate, None)
       end);
    n ← gets (fun l => seq_next l task_id);
    modify (bump_seq task_id) ;;
    modify (set_last task_id effective) ;;
    mret (n, _format_utc_timestamp effective, warning_payload).

Definition _emit_clock_skew_warning {S} (task_id agent_type stage traceparent : string)
    (warning_payload : list (string * json)) : M S unit :=
  warning "audit.clock_skew_warning"
    ([("task_id", JStr task_id); ("agent_type", JStr agent_type);
      ("stage", JStr stage); ("traceparent", JStr traceparent)] ++ warning_payload).

(** [{**payload, **kwargs}]: later keys overwrite earlier ones in place. *)
Definition dict_merge (payload kwargs : list (string * json)) : list (string * json) :=
  fold_left (fun d '(k, v) => assoc_set k v d) kwargs payload.

Definition stage_event (event outcome stage task_id agent_type : string)
    (timestamp_override : option datetime) (kwargs : list (string * json))
    : M AuditLogger unit :=
  traceparent ← _current_traceparent;
  '(sequence_number, timestamp, warning_payload) ←
    _reserve_task_event_metadata task_id timestamp_override;
  (match warning_payload with
   | Some p => _emit_clock_skew_warning task_id agent_type stage traceparent p
   | None => mret tt
   end) ;;
  let payload := dict_merge
    [("outcome", JStr outcome); ("stage", JStr stage); ("task_id", JStr task_id);
     ("agent_type", JStr agent_type); ("sequence_number", JInt sequence_number);
     ("traceparent", JStr traceparent); ("timestamp", JStr timestamp)] kwargs in
  if bool_decide (outcome = "error"%string) then error event payload
  else if bool_decide (outcome = "deny"%string) then warning event payload
  else info event payload.

Definition lifecycle_event (event event_type task_id agent_type : string)
    (session_id : option string) (workflow_status stage : string)
    (timestamp_override : option datetime) (kwargs : list (string * json))
    : M AuditLogger unit :=
  traceparent ← _current_traceparent;
  '(sequence_number, timestamp, warning_payload) ←
    _reserve_task_event_metadata task_id timestamp_override;
  (match warning_payload with
   | Some p => _emit_clock_skew_warning task_id agent_type stage traceparent p
   | None => mret tt
   end) ;;
  let payload := dict_merge
    [("event_type", JStr event_type); ("stage", JStr stage); ("task_id", JStr task_id);
     ("agent_type", JStr agent_type); ("session_id", JStr (default ""%string session_id));
     ("workflow_status", JStr workflow_status); ("sequence_number", JInt sequence_number);
     ("traceparent", JStr traceparent); ("timestamp", JStr timestamp)] kwargs in
  if bool_decide (event_type = LifecycleEvent_value FAILED) then error event payload
  else if bool_decide (event_type = LifecycleEvent_value DENIED) then warning event payload
  else info event payload.

(** The span opened around a security-relevant line. *)
Definition audit {S} (event agent_id action : string) (kwargs : list (string * json))
    : M S unit :=
  span (SpanStart event) ;;
  span (SpanAttr event "agent_id" (JStr agent_id)) ;;
  span (SpanAttr event "action" (JStr action)) ;;
  info event ([("agent_id"%string, JStr agent_id); ("action"%string, JStr action)] ++ kwargs) ;;
  span (SpanEnd event).
End logger.

(** Logging sends nothing over HTTP. *)
Lemma quiet_log_line `{Env} {S} l e kw : quiet (S := S) (log_line l e kw).
Proof. unfold log_line, _add_timestamp_if_missing. hush. Qed.
Lemma quiet_stage_event `{Env} e o st t a ts kw : quiet (stage_event e o st t a ts kw).
Proof.
  unfold stage_event, _current_traceparent, _reserve_task_event_metadata,
    _emit_clock_skew_warning, error, warning, info. hush; apply quiet_log_line.
Qed.
#[export] Hint Resolve quiet_log_line quiet_stage_event : quiet.

(** Equal but for the log and the UTC clock. *)
Definition log_only (w w' : World) : Prop :=
  w_metrics w' = w_metrics w /\ w_http w' = w_http w /\ w_clock w' = w_clock w /\
  w_uuids w' = w_uuids w.

Lemma log_line_run `{Env} {S} lv ev kw (s : S) w :
  exists w' fs, log_line lv ev kw s w = (Ok tt, (s, w')) /\
    w_log w' = w_log w ++ [mkEntry lv ev fs] /\ log_only w w' /\
    forall k v, assoc k kw = Some v -> assoc k fs = Some v.
Proof.
  unfold log_line, _add_timestamp_if_missing. run_m. do 2 eexists.
  split; [reflexivity|]. split; [reflexivity|]. split; [done|].
  intros k v Hk. destruct (assoc "timestamp" kw); [done|].
  clear -Hk. induction kw as [|[k' v'] kw IH]; [done|]. simpl in *. by case_bool_decide; auto.
Qed.

Lemma reserve_run `{Env} t l w :
  exists n ts wp l' w', _reserve_task_event_metadata t None l w = (Ok (n, ts, wp), (l', w')) /\
    log_only w w' /\ w_log w' = w_log w.
Proof.
  unfold _reserve_task_event_metadata. run_m.
  destruct (al_last_timestamps l !! t) as [p|]; [destruct (_ <? p)|]; by do 5 eexists.
Qed.

Lemma dict_merge_keeps k kw p : k ∉ kw.*1 -> assoc k (dict_merge p kw) = assoc k p.
Proof.
  unfold dict_merge. revert p. induction kw as [|[k' v] kw IH]; intros p Hk; [done|].
  simpl in Hk. apply not_elem_of_cons in Hk as [Hne Hk]. simpl. rewrite IH by done.
  by apply assoc_set_ne.
Qed.

Definition outcome_level (o : string) : level :=
  if bool_decide (o = "error"%string) then Error
  else if bool_decide (o = "deny"%string) then Warning else Info.

(** Without an explicit timestamp an event is always emitted: the last line
    logged carries its name, level, outcome, stage and task, after at most one
    clock-skew warning. *)
Lemma stage_event_emits `{Env} e o st t a kw l w :
  exists l' w' pre fs,
    stage_event e o st t a None kw l w = (Ok tt, (l', w')) /\
    w_log w' = w_log w ++ pre ++ [mkEntry (outcome_level o) e fs] /\
    (length pre <= 1)%nat /\ log_only w w' /\
    ("outcome"%string ∉ kw.*1 -> assoc "outcome" fs = Some (JStr o)) /\
    ("stage"%string ∉ kw.*1 -> assoc "stage" fs = Some (JStr st)) /\
    ("task_id"%string ∉ kw.*1 -> assoc "task_id" fs = Some (JStr t)).
Proof.
  unfold stage_event, mbind, M_bind, mret, M_ret.
  assert (Htp : exists tp, _current_traceparent l w = (Ok tp, (l, w))) by (by eexists).
  destruct Htp as [tp ->].
  destruct (reserve_run t l w) as (n & ts & wp & l1 & w1 & -> & Hw1 & Hl1).
  set (payload := dict_merge _ kw).
  assert (Hskew : exists w2 pre, (match wp with
      | Some p => _emit_clock_skew_warning t a st tp p | None => fun s w => (Ok tt, (s, w)) end) l1 w1
      = (Ok tt, (l1, w2)) /\ w_log w2 = w_log w1 ++ pre /\ (length pre <= 1)%nat /\ log_only w1 w2).
  { destruct wp as [p|].
    - unfold _emit_clock_skew_warning, warning.
      match goal with |- context [log_line ?lv ?ev ?kw l1 w1] =>
        destruct (log_line_run lv ev kw l1 w1) as (w2 & fs & E & E2 & ? & _) end.
      rewrite E. exists w2, [mkEntry Warning "audit.clock_skew_warning" fs]. done.
    - exists w1, []. rewrite app_nil_r. split_and!; try done. simpl. lia. }
  destruct Hskew as (w2 & pre & -> & Hl2 & Hlen & Hw2). unfold error, warning, info.
  destruct (log_line_run (outcome_level o) e payload l1 w2) as (w3 & fs & E & Hl3 & Hw3 & Hfs).
  exists l1, w3, pre, fs. split.
  { revert E. unfold outcome_level. by repeat case_bool_decide. }
  rewrite Hl3, Hl2, Hl1, <- app_assoc. split; [done|]. split; [done|]. split.
  { destruct Hw1 as (? & ? & ? & ?), Hw2 as (? & ? & ? & ?), Hw3 as (? & ? & ? & ?).
    split_and!; congruence. }
  by split_and!; intros Hk; apply Hfs; unfold payload; rewrite dict_merge_keeps.
Qed.

Lemma stage_event_total `{Env} e o st t a kw l w :
  exists l' w', stage_event e o st t a None kw l w = (Ok tt, (l', w')).
Proof.
  destruct (stage_event_emits e o st t a kw l w) as (l' & w' & ? & ? & E & _). eauto.
Qed.

(** A whole second and one millisecond back: the float product is
    1000.9999999999999 and the logged skew is 1000 ms. *)
Example skew_ms_1001 : skew_ms 1001000 = 1000.
Proof. vm_compute. reflexivity. Qed.
Example skew_ms_2500 : skew_ms 2500000 = 2500.
Proof. vm_compute. reflexivity. Qed.

(** ** The audit trail of a task *)

(** A task-scoped line: its sequence number and timestamp. *)
Definition line_meta (t : string) (e : LogEntry) : option (Z * string) :=
  match assoc "task_id" (le_fields e), assoc "sequence_number" (le_fields e),
        assoc "timestamp" (le_fields e) with
  | Some (JStr t'), Some (JInt n), Some (JStr ts) =>
      if bool_decide (t = t') then Some (n, ts) else None
  | _, _, _ => None
  end.

Definition trail (t : string) (log : list LogEntry) : list (Z * string) :=
  omap (line_meta t) log.

(** Keyword arguments that would overwrite the metadata of a line. *)
Definition reserved_keys : list string := ["task_id"; "sequence_number"; "timestamp"]%string.
Definition safe_kwargs (kwargs : list (string * json)) : Prop :=
  Forall (fun k => k ∉ kwargs.*1) reserved_keys.

(** A call of the logger's two task-scoped methods. *)
Inductive audit_call : Type :=
  | CallStage (event outcome stage task_id agent_type : string)
      (ov : option datetime) (kwargs : list (string * json))
  | CallLifecycle (event event_type task_id agent_type : string)
      (session_id : option string) (workflow_status stage : string)
      (ov : option datetime) (kwargs : list (string * json)).

Definition call_kwargs (c : audit_call) : list (string * json) :=
  match c with
  | CallStage _ _ _ _ _ _ kw => kw
  | CallLifecycle _ _ _ _ _ _ _ _ kw => kw
  end.

Section trail.
Context `{Env}.

Definition do_call (c : audit_call) : M AuditLogger unit :=
  match c with
  | CallStage e o s t a ov kw => stage_event e o s t a ov kw
  | CallLifecycle e et t a sid ws s ov kw => lifecycle_event e et t a sid ws s ov kw
  end.

(** The callers make their calls in some order; a raise of one call does not
    stop the others. *)
Fixpoint do_calls (cs : list audit_call) (l : AuditLogger) (w : World)
    : AuditLogger * World :=
  match cs with
  | [] => (l, w)
  | c :: cs => let '(_, (l', w')) := do_call c l w in do_calls cs l' w'
  end.

(** The lines of task [t] carry the numbers 0, 1, 2, ... in order, their
    timestamps never go back, and the logger's state is the trail's end. *)
Definition trail_ok (t : string) (l : AuditLogger) (log : list LogEntry) : Prop :=
  exists ts : list Z,
    trail t log = imap (fun i u => (Z.of_nat i, _format_utc_timestamp u)) ts /\
    Sorted Z.le ts /\
    seq_next l t = Z.of_nat (length ts) /\
    al_last_timestamps l !! t = last ts.

Lemma trail_app t l1 l2 : trail t (l1 ++ l2) = trail t l1 ++ trail t l2.
Proof. apply omap_app. Qed.

Lemma sorted_snoc ts u :
  Sorted Z.le ts -> (forall p, last ts = Some p -> p <= u) -> Sorted Z.le (ts ++ [u]).
Proof.
  induction 1 as [|x ts Hs IH Hhd]; intros Hl; simpl; [repeat constructor|].
  constructor.
  - apply IH. intros p Hp. apply Hl. by destruct ts.
  - destruct ts; simpl; constructor; [by apply Hl|by inversion Hhd].
Qed.

(** Extending the trail of [t] by one line. *)
Lemma trail_ok_snoc t l log e u :
  trail_ok t l log ->
  line_meta t e = Some (seq_next l t, _format_utc_timestamp u) ->
  (forall p, al_last_timestamps l !! t = Some p -> p <= u) ->
  trail_ok t (set_last t u (bump_seq t l)) (log ++ [e]).
Proof.
  intros (ts & Htr & Hs & Hn & Hl) He Hu. exists (ts ++ [u]).
  rewrite trail_app, Htr, imap_app. unfold trail; simpl. rewrite He.
  split; [by rewrite Hn, Nat.add_0_r|]. split; [|split].
  - apply sorted_snoc; [done|]. intros p Hp. apply Hu. congruence.
  - unfold seq_next, bump_seq, set_last; simpl. rewrite lookup_insert_eq; simpl.
    fold (seq_next l t). rewrite length_app; simpl. lia.
  - unfold set_last; simpl. by rewrite lookup_insert_eq, last_snoc.
Qed.

(** A line of another task, and the logger's work for it, change nothing. *)
Lemma trail_ok_frame t l l' log e :
  trail_ok t l log -> line_meta t e = None ->
  al_seq_counters l' !! t = al_seq_counters l !! t ->
  al_last_timestamps l' !! t = al_last_timestamps l !! t ->
  trail_ok t l' (log ++ [e]).
Proof.
  intros (ts & Htr & Hs & Hn & Hl) He E1 E2. exists ts.
  rewrite trail_app. unfold trail at 2; simpl. rewrite He, app_nil_r.
  unfold seq_next in *. by rewrite E1, E2.
Qed.

(** What the critical section returns, and the state it leaves. *)
Definition reserve_post (task : string) (l : AuditLogger)
    (r : result (Z * string * option (list (string * json)))) (l' : AuditLogger) : Prop :=
  match r with
  | Err e => l' = l /\ exn_class e = AuditOrderingError
  | Ok (n, ts, None) =>
      exists u, ts = _format_utc_timestamp u /\ n = seq_next l task /\
        (forall p, al_last_timestamps l !! task = Some p -> p <= u) /\
        l' = set_last task u (bump_seq task l)
  | Ok (n, ts, Some p) =>
      exists u, al_last_timestamps l !! task = Some u /\ ts = _format_utc_timestamp u /\
        n = seq_next l task + 1 /\
        l' = set_last task u (bump_seq task (bump_seq task l)) /\
        assoc "task_id" p = None /\
        assoc "sequence_number" p = Some (JInt (seq_next l task)) /\
        assoc "timestamp" p = Some (JStr ts)
  end.

Lemma seq_next_bump l t : seq_next (bump_seq t l) t = seq_next l t + 1.
Proof. unfold seq_next at 1, bump_seq; simpl. by rewrite lookup_insert_eq. Qed.

Lemma reserve_spec task ov l w :
  wp (_reserve_task_event_metadata task ov)
     (fun r l' w' => w_log w' = w_log w /\ reserve_post task l r l') l w.
Proof.
  unfold wp, _reserve_task_event_metadata.
  destruct ov as [d|]; run_m.
  - destruct (al_last_timestamps l !! task) as [p|] eqn:Ep; simpl.
    + destruct (Z.ltb_spec (_normalize_timestamp d) p); simpl; [done|].
      split; [done|]. exists (_normalize_timestamp d).
      split; [done|split; [done|split; [|done]]]. intros q Hq; simplify_eq; lia.
    + split; [done|]. exists (_normalize_timestamp d). naive_solver.
  - destruct (al_last_timestamps l !! task) as [p|] eqn:Ep; simpl.
    + destruct (Z.ltb_spec (utc_clock (w_utc w)) p); simpl.
      * split; [done|]. exists p. rewrite seq_next_bump. done.
      * split; [done|]. exists (utc_clock (w_utc w)).
        split; [done|split; [done|split; [|done]]]. intros q Hq; simplify_eq; lia.
    + split; [done|]. exists (utc_clock (w_utc w)). naive_solver.
Qed.

(** [log_line] appends one line; a line that has a timestamp keeps its fields. *)
Lemma log_line_spec {S} lv ev kw ts (s : S) w :
  assoc "timestamp" kw = Some ts ->
  exists w', log_line lv ev kw s w = (Ok tt, (s, w')) /\
             w_log w' = w_log w ++ [mkEntry lv ev kw].
Proof. intros E. unfold log_line, _add_timestamp_if_missing. run_m. rewrite E. eauto. Qed.

Lemma wp_traceparent {S} (Q : result string -> S -> World -> Prop) s w :
  (forall tp, Q (Ok tp) s w) -> wp _current_traceparent Q s w.
Proof. intros HQ. apply HQ. Qed.

Lemma line_meta_fields task n ts lv ev fs t :
  assoc "task_id" fs = Some (JStr task) -> assoc "sequence_number" fs = Some (JInt n) ->
  assoc "timestamp" fs = Some (JStr ts) ->
  line_meta t (mkEntry lv ev fs) = if bool_decide (t = task) then Some (n, ts) else None.
Proof. intros E1 E2 E3. unfold line_meta; simpl. by rewrite E1, E2, E3. Qed.

(** One line with the next number of [task] keeps every trail in order. *)
Lemma line_ok task l log lv ev fs u :
  (forall t, trail_ok t l log) ->
  assoc "task_id" fs = Some (JStr task) ->
  assoc "sequence_number" fs = Some (JInt (seq_next l task)) ->
  assoc "timestamp" fs = Some (JStr (_format_utc_timestamp u)) ->
  (forall p, al_last_timestamps l !! task = Some p -> p <= u) ->
  forall t, trail_ok t (set_last task u (bump_seq task l)) (log ++ [mkEntry lv ev fs]).
Proof.
  intros Hall H1 H2 H3 Hu t.
  pose proof (line_meta_fields task _ _ lv ev fs t H1 H2 H3) as Hm.
  destruct (decide (t = task)) as [->|Hne].
  - rewrite bool_decide_true in Hm by done. by apply trail_ok_snoc.
  - rewrite bool_decide_false in Hm by done.
    apply (trail_ok_frame _ l); auto; simpl; by rewrite lookup_insert_ne.
Qed.

(** The part the two public methods share: print the skew warning if there
    is one, then a line whose metadata is the reserved one. *)
Lemma finish_event_ok task agent stage tp l log l1 w1 n tstr wp_ lv ev payload :
  (forall t, trail_ok t l log) ->
  reserve_post task l (Ok (n, tstr, wp_)) l1 -> w_log w1 = log ->
  assoc "task_id" payload = Some (JStr task) ->
  assoc "sequence_number" payload = Some (JInt n) ->
  assoc "timestamp" payload = Some (JStr tstr) ->
  wp ((match wp_ with
       | Some p => _emit_clock_skew_warning task agent stage tp p
       | None => mret tt
       end) ;; log_line lv ev payload)
     (fun r l' w' => r = Ok tt /\ forall t, trail_ok t l' (w_log w')) l1 w1.
Proof.
  intros Hall Hpost Hlog Ht Hn Hts. apply wp_intro. intros r l' w'.
  destruct wp_ as [p|]; simpl in Hpost.
  - destruct Hpost as (u & Hu & -> & -> & -> & Hp1 & Hp2 & Hp3).
    set (l2 := set_last _ _ _).
    assert (Hl2 : l2 = set_last task u (bump_seq task (set_last task u (bump_seq task l))))
      by (unfold l2, set_last, bump_seq, seq_next; simpl; by rewrite !insert_insert_eq).
    unfold mbind, M_bind, _emit_clock_skew_warning, warning.
    set (fs := _ ++ p).
    destruct (log_line_spec Warning "audit.clock_skew_warning" fs _ l2 w1 Hp3)
      as (w2 & -> & Hw2).
    destruct (log_line_spec lv ev payload _ l2 w2 Hts) as (w3 & -> & Hw3).
    intros [= <- <- <-]. split; [done|]. rewrite Hl2, Hw3, Hw2, Hlog.
    assert (Hle : forall q, al_last_timestamps l !! task = Some q -> q <= u)
      by (intros q Hq; simplify_eq; lia).
    eapply line_ok; [eapply (line_ok _ _ _ _ _ fs); eauto|..]; eauto.
    + by rewrite Hn, <- seq_next_bump.
    + simpl. rewrite lookup_insert_eq. intros q Hq; simplify_eq; lia.
  - destruct Hpost as (u & -> & -> & Hu & ->).
    unfold mbind, M_bind, mret, M_ret.
    destruct (log_line_spec lv ev payload _ (set_last task u (bump_seq task l)) w1 Hts)
      as (w3 & -> & Hw3).
    intros [= <- <- <-]. split; [done|]. rewrite Hw3, Hlog. by apply line_ok.
Qed.

Lemma safe_kwargs_ne kw k : safe_kwargs kw -> k ∈ reserved_keys -> k ∉ kw.*1.
Proof. intros Hs Hk. unfold safe_kwargs in Hs. rewrite Forall_forall in Hs. by apply Hs. Qed.

(** Every task-scoped call keeps every trail in order, and raises only when an
    explicit timestamp lies before the task's last one. *)
Lemma do_call_ok c l w :
  safe_kwargs (call_kwargs c) -> (forall t, trail_ok t l (w_log w)) ->
  wp (do_call c)
     (fun r l' w' => (forall t, trail_ok t l' (w_log w')) /\
        match r with
        | Ok _ => True
        | Err e => exn_class e = AuditOrderingError /\ w_log w' = w_log w
        end) l w.
Proof.
  intros Hkw Hall.
  assert (Hk : forall k p, k ∈ reserved_keys ->
                 assoc k (dict_merge p (call_kwargs c)) = assoc k p)
    by (intros; by apply dict_merge_keeps, safe_kwargs_ne).
  assert (Hin : forall k, k ∈ reserved_keys <->
            k = "task_id"%string \/ k = "sequence_number"%string \/ k = "timestamp"%string)
    by (intros; unfold reserved_keys; rewrite !elem_of_cons, elem_of_nil; tauto).
  destruct c as [e o sg t a ov kw|e et t a sid ws sg ov kw]; simpl in *;
    apply wp_bind, wp_traceparent; intros tp;
    apply wp_bind; (eapply wp_mono; [apply reserve_spec|]);
    intros [[[n ts] wpl]|ex] l1 w1 [Hlog Hpost]; simpl in Hpost;
    try (destruct Hpost as [-> ?]; rewrite Hlog; done);
    (eapply (wp_mono _ (fun r l' w' => r = Ok tt /\ forall t, trail_ok t l' (w_log w')));
      [| intros r l' w' [-> Hfin]; exact (conj Hfin I)]);
    repeat case_bool_decide;
    eapply (finish_event_ok t a sg _ l); try done; try exact Hpost;
    rewrite Hk by (rewrite Hin; tauto); done.
Qed.
End trail.

(** ** Properties *)

Section properties.
Context `{Env}.

(** C31. Gapless, ordered audit trail: whatever sequence of [stage_event] and
    [lifecycle_event] calls is made on a fresh logger (any tasks interleaved, any wall clock, any
    explicit timestamps, raising calls included), the lines printed for each
    task carry the sequence numbers 0, 1, 2, ... without gap or duplicate, in
    order, with timestamps that never go back; the logger's counters are the
    length and the last timestamp of the trail.  The only assumption is that
    callers do not pass a keyword that overwrites the line's own metadata. *)
Theorem audit_trail_gapless (cs : list audit_call) (w : World) :
  w_log w = [] -> Forall (fun c => safe_kwargs (call_kwargs c)) cs ->
  let '(l', w') := do_calls cs AuditLogger_init w in
  forall t, trail_ok t l' (w_log w').
Proof.
  intros Hw Hcs.
  assert (Hinit : forall t, trail_ok t AuditLogger_init (w_log w))
    by (intros t; rewrite Hw; exists []; repeat split; constructor).
  revert Hinit. clear Hw. generalize AuditLogger_init. revert w.
  induction Hcs as [|c cs Hc _ IH]; intros w l Hall; simpl; [done|].
  pose proof (do_call_ok c l w Hc Hall) as Hw. unfold wp in Hw.
  destruct (do_call c l w) as [r [l1 w1]]. destruct Hw as [Hall1 _]. by apply IH.
Qed.

(** Explicit timestamps are authoritative: an event whose override lies before
    the task's last timestamp raises [AuditOrderingError] without printing a
    line or consuming a sequence number; any other event prints a line. *)
Theorem stage_event_override_ordering event outcome stage task agent ov kw l w p :
  al_last_timestamps l !! task = Some p ->
  if _normalize_timestamp ov <? p then
    exists msg, stage_event event outcome stage task agent (Some ov) kw l w
                = (Err (Exn AuditOrderingError msg None), (l, w))
  else
    exists w', stage_event event outcome stage task agent (Some ov) kw l w
               = (Ok tt, (set_last task (_normalize_timestamp ov) (bump_seq task l), w'))
             /\ length (w_log w') = S (length (w_log w)).
Proof.
  intros Hp. unfold stage_event, _current_traceparent, _reserve_task_event_metadata,
    error, warning, info, log_line, _add_timestamp_if_missing. run_m. rewrite Hp. simpl.
  destruct (_normalize_timestamp ov <? p) eqn:E; simpl; [by eexists|].
  repeat case_bool_decide; eexists; simpl; (split; [done|]);
    cbn [w_add_log w_log]; rewrite length_app; simpl; lia.
Qed.
End properties.

(** Two tasks, a wall clock that goes back for the second reading, one explicit
    timestamp in the past. *)
Definition skewed_env : Env := {|
  clock := @clock demo_env; uuid_supply := @uuid_supply demo_env;
  utc_clock n := match n with O => 5000000 | _ => 2000000 + Z.of_nat n end;
  http_answer := @http_answer demo_env; span_context := @span_context demo_env;
  counter_inc_error := @counter_inc_error demo_env
|}.
Definition demo_calls : list audit_call :=
  [CallStage "policy.allowed" "allow" "policy-eval" "t1" "hr" None [];
   CallStage "policy.denied" "deny" "policy-eval" "t1" "hr" None [("reasons"%string, JList [])];
   CallLifecycle "workflow.started" "task.started" "t2" "it" None "running" "workflow-lifecycle" None [];
   CallStage "late" "allow" "s" "t1" "hr" (Some (mkDatetime 1 None)) []].

Lemma audit_trail_gapless_witness :
  let '(l', w') := @do_calls skewed_env demo_calls AuditLogger_init w_empty in
  (forall t, trail_ok t l' (w_log w')) /\
  fst <$> trail "t1" (w_log w') = [0; 1; 2] /\ fst <$> trail "t2" (w_log w') = [0].
Proof.
  pose proof (@audit_trail_gapless skewed_env demo_calls w_empty eq_refl) as Hg.
  assert (Hs : Forall (fun c => safe_kwargs (call_kwargs c)) demo_calls)
    by (repeat constructor; apply (bool_decide_unpack _); vm_compute; exact I).
  specialize (Hg Hs).
  destruct (@do_calls skewed_env demo_calls AuditLogger_init w_empty) as [l' w'] eqn:E.
  split; [exact Hg|]. vm_compute in E. injection E as <- <-. vm_compute. done.
Defined.

Lemma stage_event_override_ordering_witness :
  exists msg, @stage_event demo_env "e" "allow" "s" "t" "hr" (Some (mkDatetime 4 (Some 2))) []
    (mkAuditLogger ∅ {["t"%string := 3]}) w_empty
  = (Err (Exn AuditOrderingError msg None), (mkAuditLogger ∅ {["t"%string := 3]}, w_empty)).
Proof.
  exact (@stage_event_override_ordering demo_env "e" "allow" "s" "t" "hr"
           (mkDatetime 4 (Some 2)) [] (mkAuditLogger ∅ {["t"%string := 3]}) w_empty 3 eq_refl).
Defined.
