(* ===== verification/Determined.v ===== *)
(** * Results that depend on part of the state

    [determined I J m]: two runs of [m] from states related by [I], in any two
    worlds, end in the same result (value or exception), and in states related by
    [J] when they return.  With [I] the full relation this says that a retried
    call cannot be influenced by what earlier attempts, other tasks or the clock
    left behind. *)
From Stdlib Require Import ZArith String.
From stdpp Require Import base strings list.
From S2P Require Import Prelude PyDecimal PyUuid World AuditLogger.

Definition determined {S A} (I J : S -> S -> Prop) (m : M S A) : Prop :=
  forall s1 w1 s2 w2, I s1 s2 ->
    (m s1 w1).1 = (m s2 w2).1 /\
    (forall a, (m s1 w1).1 = Ok a -> J (m s1 w1).2.1 (m s2 w2).2.1).

(** Nothing is known about the two states. *)
Definition any {S} (s1 s2 : S) : Prop := True.

Section rules.
Context {S : Type}.
Implicit Types I J K : S -> S -> Prop.

Lemma determined_ret {A} I (a : A) : determined I I (mret a).
Proof. intros s1 w1 s2 w2 HI. split; [reflexivity|]. intros; exact HI. Qed.

Lemma determined_raise {A} I J e : determined I J (raise e : M S A).
Proof. intros s1 w1 s2 w2 HI. split; [reflexivity|]. discriminate. Qed.

Lemma determined_of_option {A} I (o : option A) c msg :
  determined I I (of_option o c msg : M S A).
Proof. destruct o; [apply determined_ret|apply determined_raise]. Qed.

Lemma determined_of_result {A} I (r : result A) : determined I I (of_result r : M S A).
Proof. destruct r; [apply determined_ret|apply determined_raise]. Qed.

Lemma determined_bind {A B} I J K (m : M S A) (k : A -> M S B) :
  determined I J m -> (forall a, determined J K (k a)) -> determined I K (m ≫= k).
Proof.
  intros Hm Hk s1 w1 s2 w2 HI. unfold mbind, M_bind.
  destruct (Hm s1 w1 s2 w2 HI) as [Hr HJ].
  destruct (m s1 w1) as [[a|e] [s1' w1']], (m s2 w2) as [r2 [s2' w2']]; simpl in *; subst r2.
  - apply Hk, (HJ a eq_refl).
  - split; [reflexivity|discriminate].
Qed.

(** ... with a fact about the returned value. *)
Lemma determined_bind_returns {A B} I J K (m : M S A) (k : A -> M S B) P :
  determined I J m -> returns m P -> (forall a, P a -> determined J K (k a)) ->
  determined I K (m ≫= k).
Proof.
  intros Hm HP Hk s1 w1 s2 w2 HI. unfold mbind, M_bind.
  destruct (Hm s1 w1 s2 w2 HI) as [Hr HJ]. pose proof (HP s1 w1) as Ha.
  destruct (m s1 w1) as [[a|e] [s1' w1']], (m s2 w2) as [r2 [s2' w2']]; simpl in *; subst r2.
  - apply (Hk a (Ha _ _ _ eq_refl)), (HJ a eq_refl).
  - split; [reflexivity|discriminate].
Qed.

Lemma determined_try {A} I J (m : M S A) hs :
  determined I J m ->
  Forall (fun p => forall e, determined any J (p.2 e : M S A)) hs ->
  determined I J (try_except m hs).
Proof.
  intros Hm Hhs s1 w1 s2 w2 HI. unfold try_except.
  destruct (Hm s1 w1 s2 w2 HI) as [Hr HJ].
  destruct (m s1 w1) as [[a|e] [s1' w1']], (m s2 w2) as [r2 [s2' w2']]; simpl in *; subst r2.
  - split; [reflexivity|]. intros; apply (HJ a eq_refl).
  - induction Hhs as [|[c h] hs Hh _ IH]; simpl; [split; [reflexivity|discriminate]|].
    destruct (isinstance e c); [|exact IH]. exact (Hh e s1' w1' s2' w2' Logic.I).
Qed.

Lemma determined_world I (f : World -> World) : determined I I (set_world f : M S unit).
Proof. intros s1 w1 s2 w2 HI. split; [reflexivity|]. intros; exact HI. Qed.

Lemma determined_with_span {A} I J n (m : M S A) :
  determined I J m -> determined I J (with_span n m).
Proof.
  intros Hm s1 w1 s2 w2 HI. unfold with_span.
  destruct (Hm s1 (w_add_span (SpanStart n) w1) s2 (w_add_span (SpanStart n) w2) HI) as [Hr HJ].
  destruct (m s1 _) as [r1 [s1' w1']], (m s2 _) as [r2 [s2' w2']]. split; assumption.
Qed.

Lemma determined_zoom {T A} (view : S -> T) update (m : M T A) I J (I' J' : T -> T -> Prop) :
  (forall s1 s2, I s1 s2 -> I' (view s1) (view s2)) ->
  (forall s1 s2 t1 t2, I s1 s2 -> J' t1 t2 -> J (update t1 s1) (update t2 s2)) ->
  determined I' J' m -> determined I J (zoom view update m).
Proof.
  intros HI HJ Hm s1 w1 s2 w2 Hs. unfold zoom.
  destruct (Hm (view s1) w1 (view s2) w2 (HI _ _ Hs)) as [Hr HJ'].
  destruct (m (view s1) w1) as [r1 [t1 w1']], (m (view s2) w2) as [r2 [t2 w2']].
  split; [exact Hr|]. intros a Ha. apply HJ; [exact Hs|]. exact (HJ' a Ha).
Qed.

Lemma determined_weaken {A} I I' J J' (m : M S A) :
  (forall s1 s2, I s1 s2 -> I' s1 s2) -> (forall s1 s2, J' s1 s2 -> J s1 s2) ->
  determined I' J' m -> determined I J m.
Proof. intros HI HJ Hm s1 w1 s2 w2 Hs. destruct (Hm s1 w1 s2 w2 (HI _ _ Hs)). split; eauto. Qed.
End rules.

(** Audit events always succeed. *)
Lemma determined_stage_event `{Env} e o st t a kw :
  determined any any (stage_event e o st t a None kw).
Proof.
  intros s1 w1 s2 w2 _. destruct (stage_event_total e o st t a kw s1 w1) as (l1 & w1' & ->).
  destruct (stage_event_total e o st t a kw s2 w2) as (l2 & w2' & ->).
  split; [reflexivity|]. intros; exact I.
Qed.

Lemma determined_log_line `{Env} {S} (I : S -> S -> Prop) lv ev kw :
  determined I I (log_line lv ev kw).
Proof.
  intros s1 w1 s2 w2 HI. destruct (log_line_run lv ev kw s1 w1) as (w1' & f1 & -> & _).
  destruct (log_line_run lv ev kw s2 w2) as (w2' & f2 & -> & _).
  split; [reflexivity|]. intros; exact HI.
Qed.

Create HintDb determined.
#[export] Hint Resolve determined_ret determined_raise determined_of_option determined_of_result
  determined_world determined_stage_event determined_log_line : determined.

(** Walk through a computation; leaves what the hints do not know. *)
Ltac determine_step :=
  match goal with
  | |- determined _ _ (_ ≫= _) => eapply determined_bind; [|intros ?]
  | |- determined _ _ (try_except _ _) =>
      eapply determined_try;
      [|repeat (apply Forall_cons_2; [intros ?; cbn [snd]|]); try apply Forall_nil_2]
  | |- determined _ _ (with_span _ _) => apply determined_with_span
  | |- determined _ _ (let x := ?v in _) => cbv zeta
  | |- determined _ _ (match ?x with _ => _ end) => destruct x
  | |- determined _ _ (throw _ _) => apply determined_raise
  | |- determined _ _ (throw_from _ _ _) => apply determined_raise
  | |- determined _ _ (span _) => apply determined_world
  | |- determined _ _ (metric _) => apply determined_world
  | |- determined _ _ (emit _ _ _) => apply determined_world
  | |- _ => solve [eauto with determined]
  end.
Ltac determine := repeat determine_step.
