(* ===== verification/BudgetEnforcer.v ===== *)
(** * src/watchdog/budget_enforcer.py: per-session budgets

    [BudgetEnforcer._sessions] is a map from session id to the mutable
    [BudgetSession] object; the objects the methods return are the registered
    ones, so the model returns the registered value at the time of return.  All
    amounts are [Decimal]s under the default context. *)
From Stdlib Require Import ZArith Lia Ascii String.
From stdpp Require Import base gmap strings list sorting.
From S2P Require Import Prelude PyDecimal PyUuid World Config AuditLogger.

(** ** Data *)

Record BudgetSession : Type := mkBudgetSession {
  session_id : UUID;
  agent_type : string;
  budget_limit_usd : Decimal;
  tokens_used : Z;
  cost_usd : Decimal;
  alerts : list string;
  applied_operation_ids : gset string
}.

(** The serialized form; [applied_operation_ids] may be absent in a snapshot. *)
Record BudgetSessionSnapshot : Type := mkBudgetSnapshot {
  snap_session_id : string;
  snap_agent_type : string;
  snap_budget_limit_usd : string;
  snap_tokens_used : Z;
  snap_cost_usd : string;
  snap_alerts : list string;
  snap_applied_operation_ids : option (list string)
}.

Record BudgetHistoryEntry : Type := mkHistoryEntry {
  operation_id : string;
  amount_usd : string;
  entry_tokens_used : Z
}.

(** [BudgetSession(session_id=..., agent_type=..., budget_limit_usd=...)] *)
Definition new_session (sid : UUID) (agent : string) (limit : Decimal) : BudgetSession :=
  mkBudgetSession sid agent limit 0 dec_zero [] ∅.

Definition serialize (s : BudgetSession) : BudgetSessionSnapshot :=
  mkBudgetSnapshot (uuid_str (session_id s)) (agent_type s)
    (dec_str (budget_limit_usd s)) (tokens_used s) (dec_str (cost_usd s)) (alerts s)
    (Some (merge_sort string_le (elements (applied_operation_ids s)))).

Definition deserialize (snap : BudgetSessionSnapshot) : result BudgetSession :=
  match uuid_parse (snap_session_id snap) with
  | None => Err (Exn ValueError "badly formed hexadecimal UUID string" None)
  | Some sid =>
      match dec_parse (snap_budget_limit_usd snap) with
      | None => Err (Exn InvalidOperation "[<class 'decimal.ConversionSyntax'>]" None)
      | Some limit =>
          match dec_parse (snap_cost_usd snap) with
          | None => Err (Exn InvalidOperation "[<class 'decimal.ConversionSyntax'>]" None)
          | Some cost =>
              Ok (mkBudgetSession sid (snap_agent_type snap) limit (snap_tokens_used snap)
                    cost (snap_alerts snap)
                    (list_to_set (default [] (snap_applied_operation_ids snap))))
          end
      end
  end.

Record BudgetEnforcer : Type := mkEnforcer { be_sessions : gmap UUID BudgetSession }.
Definition BudgetEnforcer_init : BudgetEnforcer := mkEnforcer ∅.

Definition DEFAULT_COST_PER_TOKEN : Decimal := mkDec false 2 (-6).

(** ** Operations *)

(** The [budget_limit_usd] argument of [create_session]; a float is given by
    its [str]. *)
Inductive limit_arg : Type :=
  | LimitNone
  | LimitFloat (repr : string)
  | LimitDecimal (d : Decimal).

Section enforcer.
Context `{Env} `{HasSettings}.

Definition _get_session (sid : UUID) : M BudgetEnforcer BudgetSession :=
  o ← gets (fun b => be_sessions b !! sid);
  of_option o KeyError ("Budget session " +:+ uuid_str sid +:+ " not found").

Definition get_session (sid : UUID) : M BudgetEnforcer (option BudgetSession) :=
  gets (fun b => be_sessions b !! sid).

Definition _is_duplicate_operation (s : BudgetSession) (op : option string) : bool :=
  match op with
  | Some o => bool_decide (o ∈ applied_operation_ids s)
  | None => false
  end.

(** Register [s] under [sid] / mutate the registered object. *)
Definition set_session (sid : UUID) (s : BudgetSession) : M BudgetEnforcer unit :=
  modify (fun b => mkEnforcer (<[sid := s]> (be_sessions b))).
Definition update_session (sid : UUID) (f : BudgetSession -> BudgetSession)
    : M BudgetEnforcer unit :=
  modify (fun b => mkEnforcer (alter f sid (be_sessions b))).

Definition add_cost (amount : Decimal) (s : BudgetSession) : BudgetSession :=
  mkBudgetSession (session_id s) (agent_type s) (budget_limit_usd s) (tokens_used s)
    (dec_add (cost_usd s) amount) (alerts s) (applied_operation_ids s).
Definition add_tokens (n : Z) (s : BudgetSession) : BudgetSession :=
  mkBudgetSession (session_id s) (agent_type s) (budget_limit_usd s) (tokens_used s + n)
    (cost_usd s) (alerts s) (applied_operation_ids s).
Definition add_alert (msg : string) (s : BudgetSession) : BudgetSession :=
  mkBudgetSession (session_id s) (agent_type s) (budget_limit_usd s) (tokens_used s)
    (cost_usd s) (alerts s ++ [msg]) (applied_operation_ids s).
Definition _mark_operation (op : option string) (s : BudgetSession) : BudgetSession :=
  match op with
  | Some o => mkBudgetSession (session_id s) (agent_type s) (budget_limit_usd s)
                (tokens_used s) (cost_usd s) (alerts s)
                ({[o]} ∪ applied_operation_ids s)
  | None => s
  end.

Definition budget_gauge (sid : UUID) (v : Decimal) : M BudgetEnforcer unit :=
  metric (GaugeSet "aegis_budget_remaining_usd" [("session_id"%string, uuid_str sid)] v).

Definition create_session (sid : UUID) (agent : string) (limit : limit_arg)
    : M BudgetEnforcer BudgetSession :=
  limit ← (match limit with
           | LimitNone => of_option (dec_parse (budget_limit_usd_repr settings))
                            InvalidOperation "[<class 'decimal.ConversionSyntax'>]"
           | LimitFloat r => of_option (dec_parse r)
                               InvalidOperation "[<class 'decimal.ConversionSyntax'>]"
           | LimitDecimal d => mret d
           end);
  set_session sid (new_session sid agent limit) ;;
  budget_gauge sid limit ;;
  info "budget.session_created"
    [("session_id", JStr (uuid_str sid)); ("agent_type", JStr agent);
     ("budget_limit_usd", JStr (dec_str limit))] ;;
  _get_session sid.

Definition exceeded_fields (sid : UUID) (s : BudgetSession) : list (string * json) :=
  [("session_id", JStr (uuid_str sid)); ("agent_type", JStr (agent_type s));
   ("spent_usd", JStr (dec_str (cost_usd s)));
   ("limit_usd", JStr (dec_str (budget_limit_usd s)))]%string.

Definition record_spend (sid : UUID) (amount : Decimal) (op : option string)
    : M BudgetEnforcer BudgetSession :=
  session ← _get_session sid;
  if _is_duplicate_operation session op then mret session
  else
    update_session sid (add_cost amount) ;;
    update_session sid (_mark_operation op) ;;
    session ← _get_session sid;
    let remaining := dec_sub (budget_limit_usd session) (cost_usd session) in
    budget_gauge sid (dec_max remaining dec_zero) ;;
    if dec_ltb (budget_limit_usd session) (cost_usd session) then
      let msg := "Session " +:+ uuid_str sid +:+ " exceeded budget ($"
                 +:+ dec_str (cost_usd session) +:+ " > $"
                 +:+ dec_str (budget_limit_usd session) +:+ ")" in
      update_session sid (add_alert msg) ;;
      warning "budget.exceeded" (exceeded_fields sid session) ;;
      throw BudgetExceededError msg
    else mret session.

Definition check_budget (sid : UUID) : M BudgetEnforcer unit :=
  session ← _get_session sid;
  if dec_leb (budget_limit_usd session) (cost_usd session) then
    let msg := "Session " +:+ uuid_str sid +:+ " budget already exhausted ($"
               +:+ dec_str (cost_usd session) +:+ " >= $"
               +:+ dec_str (budget_limit_usd session) +:+ ")" in
    warning "budget.exceeded" (exceeded_fields sid session) ;;
    throw BudgetExceededError msg
  else mret tt.

Definition record_tokens (sid : UUID) (tokens : Z) (cost_per_token : Decimal)
    (op : option string) : M BudgetEnforcer BudgetSession :=
  session ← _get_session sid;
  if _is_duplicate_operation session op then mret session
  else
    update_session sid (add_tokens tokens) ;;
    counter_inc "aegis_tokens_consumed_total"
      [("agent_type"%string, agent_type session)] tokens ;;
    let amount := dec_mul (dec_of_int tokens) cost_per_token in
    record_spend sid amount op.

Definition restore_session (snap : BudgetSessionSnapshot) : M BudgetEnforcer BudgetSession :=
  session ← of_result (deserialize snap);
  set_session (session_id session) session ;;
  let remaining := dec_sub (budget_limit_usd session) (cost_usd session) in
  budget_gauge (session_id session) (dec_max remaining dec_zero) ;;
  mret session.

Definition _resolve_cost_per_token (entry : BudgetHistoryEntry)
    : M BudgetEnforcer Decimal :=
  if entry_tokens_used entry =? 0 then mret dec_zero
  else
    a ← of_option (dec_parse (amount_usd entry)) InvalidOperation
          "[<class 'decimal.ConversionSyntax'>]";
    of_option (dec_div a (dec_of_int (entry_tokens_used entry))) DivisionByZero
          "[<class 'decimal.DivisionByZero'>]".

(** One round of the replay loop. *)
Definition replay_entry (sid : UUID) (entry : BudgetHistoryEntry) : M BudgetEnforcer unit :=
  cost_per_token ← _resolve_cost_per_token entry;
  record_tokens sid (entry_tokens_used entry) cost_per_token (Some (operation_id entry)) ;;
  mret tt.

Definition restore_from_history (sid : UUID) (agent : string) (limit : Decimal)
    (history : list BudgetHistoryEntry) : M BudgetEnforcer BudgetSession :=
  set_session sid (new_session sid agent limit) ;;
  budget_gauge sid limit ;;
  for_each history (replay_entry sid) ;;
  _get_session sid.
End enforcer.

(** ** Behaviour of the operations *)

Definition charged (amount : Decimal) (op : option string) (s : BudgetSession)
    : BudgetSession :=
  _mark_operation op (add_cost amount s).

Definition exceeded_msg (sid : UUID) (s : BudgetSession) : string :=
  "Session " +:+ uuid_str sid +:+ " exceeded budget ($"
  +:+ dec_str (cost_usd s) +:+ " > $" +:+ dec_str (budget_limit_usd s) +:+ ")".

(** [b] with [s] registered under [sid]. *)
Definition with_session (b : BudgetEnforcer) (sid : UUID) (s : BudgetSession)
    : BudgetEnforcer := mkEnforcer (<[sid := s]> (be_sessions b)).

Lemma alter_Some `{Countable K} {A} (f : A -> A) (k : K) (m : gmap K A) x :
  m !! k = Some x -> alter f k m = <[k := f x]> m.
Proof.
  intros Hk. apply map_eq. intros i. rewrite lookup_alter, lookup_insert.
  case_decide; simplify_eq; [|done]. by rewrite Hk.
Qed.

Lemma charged_limit a op s : budget_limit_usd (charged a op s) = budget_limit_usd s.
Proof. by destruct op. Qed.
Lemma charged_cost a op s : cost_usd (charged a op s) = dec_add (cost_usd s) a.
Proof. by destruct op. Qed.
Lemma charged_alerts a op s : alerts (charged a op s) = alerts s.
Proof. by destruct op. Qed.
Lemma charged_tokens a op s : tokens_used (charged a op s) = tokens_used s.
Proof. by destruct op. Qed.
Lemma charged_ops a op s :
  applied_operation_ids (charged a op s)
  = match op with Some o => {[o]} ∪ applied_operation_ids s | None => applied_operation_ids s end.
Proof. by destruct op. Qed.

Section behaviour.
Context `{Env} `{HasSettings}.
Implicit Types (b : BudgetEnforcer) (w : World) (s : BudgetSession).

(** The outcome of a spend on a registered session, as a function. *)
Definition spend_outcome (sid : UUID) (s : BudgetSession) (amount : Decimal)
    (op : option string) : result BudgetSession * BudgetSession :=
  if _is_duplicate_operation s op then (Ok s, s)
  else
    let s1 := charged amount op s in
    if dec_ltb (budget_limit_usd s1) (cost_usd s1)
    then (Err (Exn BudgetExceededError (exceeded_msg sid s1) None),
          add_alert (exceeded_msg sid s1) s1)
    else (Ok s1, s1).

Lemma record_spend_run sid amount op b w s :
  be_sessions b !! sid = Some s ->
  exists w', record_spend sid amount op b w
    = ((spend_outcome sid s amount op).1,
       (with_session b sid (spend_outcome sid s amount op).2, w')) /\
    w_log w' = w_log w ++
      (match (spend_outcome sid s amount op).1 with
       | Err _ => [mkEntry Warning "budget.exceeded"
                     (exceeded_fields sid (charged amount op s)
                      ++ [("timestamp"%string,
                           JStr (_format_utc_timestamp (utc_clock (w_utc w))))])]
       | Ok _ => []
       end).
Proof.
  intros Hs. unfold record_spend, spend_outcome, _get_session, update_session,
    budget_gauge, warning, log_line, _add_timestamp_if_missing. run_m. rewrite Hs. simpl.
  destruct (_is_duplicate_operation s op) eqn:Hd; simpl.
  - exists w. rewrite app_nil_r. split; [|done].
    unfold with_session. rewrite insert_id by done. by destruct b.
  - rewrite (alter_Some _ sid (be_sessions b) s) by done.
    rewrite (alter_Some _ sid _ (add_cost amount s)) by (by rewrite lookup_insert_eq).
    rewrite insert_insert_eq, lookup_insert_eq. simpl. fold (charged amount op s).
    destruct (dec_ltb _ _) eqn:Hlt; simpl; eexists; split; try done.
    + rewrite (alter_Some _ sid _ (charged amount op s)) by (by rewrite lookup_insert_eq).
      by rewrite insert_insert_eq.
    + done.
    + simpl. by rewrite app_nil_r.
Qed.

Lemma record_spend_unknown sid amount op b w :
  be_sessions b !! sid = None ->
  record_spend sid amount op b w
  = (Err (Exn KeyError ("Budget session " +:+ uuid_str sid +:+ " not found") None), (b, w)).
Proof. intros Hn. unfold record_spend, _get_session. run_m. by rewrite Hn. Qed.

Lemma record_tokens_dup sid n c op b w s :
  be_sessions b !! sid = Some s -> op ∈ applied_operation_ids s ->
  record_tokens sid n c (Some op) b w = (Ok s, (b, w)).
Proof.
  intros Hs Hop. unfold record_tokens, _get_session. run_m. rewrite Hs. simpl.
  by rewrite bool_decide_true.
Qed.

(** A fresh operation counts its tokens and then spends their cost. *)
Lemma record_tokens_fresh sid n c op b w s :
  be_sessions b !! sid = Some s -> op ∉ applied_operation_ids s ->
  counter_inc_error n = None ->
  exists w', record_tokens sid n c (Some op) b w
    = let o := spend_outcome sid (add_tokens n s) (dec_mul (dec_of_int n) c) (Some op) in
      (o.1, (with_session b sid o.2, w')).
Proof.
  intros Hs Hop Hn. unfold record_tokens, _get_session. run_m. rewrite Hs. simpl.
  rewrite bool_decide_false by done.
  unfold counter_inc. rewrite Hn. unfold metric, set_world, update_session, modify. simpl.
  rewrite (alter_Some _ sid (be_sessions b) s) by done.
  destruct (record_spend_run sid (dec_mul (dec_of_int n) c) (Some op)
              (mkEnforcer (<[sid := add_tokens n s]> (be_sessions b)))
              (w_add_metric (CounterInc "aegis_tokens_consumed_total"
                 [("agent_type"%string, agent_type s)] n) w) (add_tokens n s))
    as (w' & -> & _); [apply lookup_insert_eq|].
  exists w'. unfold with_session; simpl. by rewrite insert_insert_eq.
Qed.

Lemma spend_outcome_marks sid s a op :
  op ∈ applied_operation_ids (spend_outcome sid s a (Some op)).2.
Proof.
  unfold spend_outcome, _is_duplicate_operation. case_bool_decide; [done|].
  destruct (dec_ltb _ _); simpl; set_solver.
Qed.

(** The amount charged under an operation id does not depend on later
    deliveries of that id. *)
Lemma spend_outcome_dup sid s a op :
  op ∈ applied_operation_ids s -> spend_outcome sid s a (Some op) = (Ok s, s).
Proof. intros. unfold spend_outcome; simpl. by rewrite bool_decide_true. Qed.
End behaviour.

(** ** Snapshot round trip *)

Definition session_wf (s : BudgetSession) : Prop :=
  uuid_wf (session_id s) /\ dec_wf (budget_limit_usd s) /\ dec_wf (cost_usd s).

(** Snapshot round trip: deserializing the snapshot of a session gives back
    the session, Decimal digits and exponents, alerts and idempotency keys
    included. *)
Theorem deserialize_serialize s : session_wf s -> deserialize (serialize s) = Ok s.
Proof.
  intros (Hu & Hl & Hc). unfold deserialize, serialize.
  cbn [snap_session_id snap_agent_type snap_budget_limit_usd snap_tokens_used
       snap_cost_usd snap_alerts snap_applied_operation_ids default].
  rewrite uuid_parse_str, !dec_parse_str by done.
  assert (Hset : list_to_set (merge_sort string_le (elements (applied_operation_ids s)))
                 = applied_operation_ids s).
  { apply set_eq. intros x. rewrite elem_of_list_to_set, merge_sort_Permutation.
    apply elem_of_elements. }
  unfold default, id. rewrite Hset. by destruct s.
Qed.

(** A snapshot whose money fields are not decimal numerals is refused with
    [decimal.InvalidOperation], an [ArithmeticError] and not the [ValueError]
    the docstring announces; a malformed session id raises [ValueError]. *)
Theorem deserialize_errors snap e :
  deserialize snap = Err e ->
  match uuid_parse (snap_session_id snap) with
  | None => isinstance e ValueError = true
  | Some _ => exn_class e = InvalidOperation /\ isinstance e ValueError = false
  end.
Proof.
  unfold deserialize.
  destruct (uuid_parse (snap_session_id snap)); [|intros E; injection E as <-; reflexivity].
  destruct (dec_parse (snap_budget_limit_usd snap));
    [|intros E; injection E as <-; split; reflexivity].
  destruct (dec_parse (snap_cost_usd snap)); [done|].
  intros E; injection E as <-; split; reflexivity.
Qed.

(** ** Invariant of the registry *)

(** A session whose account is in order: a representable, non-negative cost,
    and an alert on record whenever the cost is above the limit. *)
Definition session_ok (s : BudgetSession) : Prop :=
  uuid_wf (session_id s) /\ dec_wf (budget_limit_usd s) /\ dec_wf (cost_usd s) /\ fits (cost_usd s) /\
  nonneg (cost_usd s) /\ (alerts s = [] -> dle (cost_usd s) (budget_limit_usd s)).

Definition registry_ok (b : BudgetEnforcer) : Prop :=
  map_Forall (fun _ s => session_ok s) (be_sessions b).

Definition good_amount (d : Decimal) : Prop := dec_wf d /\ nonneg d.

Lemma spend_outcome_ok sid s a op :
  session_ok s -> good_amount a -> session_ok (spend_outcome sid s a op).2.
Proof.
  intros (Hu & Hl & Hwf & Hf & Hn & Hal) [Ha1 Ha2]. unfold spend_outcome.
  destruct (_is_duplicate_operation s op); [done|].
  assert (Hu' : uuid_wf (session_id (charged a op s))) by (by destruct op).
  destruct (dec_ltb_spec (budget_limit_usd (charged a op s)) (cost_usd (charged a op s)))
    as [Hlt|Hge]; simpl.
  - unfold session_ok; simpl. rewrite charged_limit, charged_cost.
    split; [exact Hu'|]. repeat split; eauto with decimal. intros E. by apply app_nil in E as [_ ?].
  - unfold session_ok. rewrite charged_limit, charged_cost in *.
    split; [exact Hu'|]. repeat split; eauto with decimal. intros _. unfold dlt in Hge.
    destruct (dle_total (dec_add (cost_usd s) a) (budget_limit_usd s)); [done|].
    destruct (dec_leb_spec (dec_add (cost_usd s) a) (budget_limit_usd s)); [done|].
    contradiction.
Qed.

(** The cost of a session never goes down. *)
Lemma spend_outcome_mono sid s a op :
  session_ok s -> good_amount a ->
  dle (cost_usd s) (cost_usd (spend_outcome sid s a op).2).
Proof.
  intros (_ & Hl & Hwf & Hf & Hn & _) [Ha1 Ha2]. unfold spend_outcome.
  destruct (_is_duplicate_operation s op); [done|].
  destruct (dec_ltb _ _); simpl; rewrite charged_cost; by apply dec_add_mono.
Qed.

Lemma add_tokens_ok n s : session_ok s -> session_ok (add_tokens n s).
Proof. done. Qed.

Lemma new_session_ok sid agent limit :
  uuid_wf sid -> good_amount limit -> session_ok (new_session sid agent limit).
Proof.
  intros Hu [Hwf Hn]. unfold session_ok; simpl. split; [exact Hu|]. repeat split; auto with decimal; try done.
  intros _. set (e := Z.min 0 (d_exp limit)). rewrite (dle_at e) by (simpl; lia).
  change (valAt e dec_zero) with 0. by apply nonneg_at; [lia|].
Qed.

Lemma registry_ok_insert b sid s :
  registry_ok b -> session_ok s -> registry_ok (with_session b sid s).
Proof. intros Hb Hs. by apply map_Forall_insert_2. Qed.

Section invariant.
Context `{Env} `{HasSettings}.

(** The public operations of the enforcer. *)
Inductive budget_op : Type :=
  | OpCreate (sid : UUID) (agent : string) (limit : limit_arg)
  | OpSpend (sid : UUID) (amount : Decimal) (op : option string)
  | OpCheck (sid : UUID)
  | OpTokens (sid : UUID) (n : Z) (c : Decimal) (op : option string)
  | OpRestore (snap : BudgetSessionSnapshot)
  | OpReplay (sid : UUID) (agent : string) (limit : Decimal)
      (history : list BudgetHistoryEntry).

Definition do_op (o : budget_op) : M BudgetEnforcer unit :=
  match o with
  | OpCreate sid agent limit => create_session sid agent limit ;; mret tt
  | OpSpend sid a op => record_spend sid a op ;; mret tt
  | OpCheck sid => check_budget sid
  | OpTokens sid n c op => record_tokens sid n c op ;; mret tt
  | OpRestore snap => restore_session snap ;; mret tt
  | OpReplay sid agent limit h => restore_from_history sid agent limit h ;; mret tt
  end.

(** Callers keep calling after an exception. *)
Fixpoint do_ops (os : list budget_op) (b : BudgetEnforcer) (w : World)
    : BudgetEnforcer * World :=
  match os with
  | [] => (b, w)
  | o :: os => let '(_, (b', w')) := do_op o b w in do_ops os b' w'
  end.

Definition good_limit (l : limit_arg) : Prop :=
  match l with
  | LimitNone => forall d, dec_parse (budget_limit_usd_repr settings) = Some d -> good_amount d
  | LimitFloat r => forall d, dec_parse r = Some d -> good_amount d
  | LimitDecimal d => good_amount d
  end.
Definition good_entry (e : BudgetHistoryEntry) : Prop :=
  0 <= entry_tokens_used e /\ forall d, dec_parse (amount_usd e) = Some d -> good_amount d.

(** No negative amounts.  A snapshot is restored as it is, whatever its amounts, so a
    restore is in order only for a snapshot the enforcer has written itself
    ([account_call] below). *)
Definition good_op (o : budget_op) : Prop :=
  match o with
  | OpCreate sid _ limit => uuid_wf sid /\ good_limit limit
  | OpSpend _ a _ => good_amount a
  | OpCheck _ => True
  | OpTokens _ n c _ => 0 <= n /\ good_amount c
  | OpRestore _ => False
  | OpReplay sid _ limit h => uuid_wf sid /\ good_amount limit /\ Forall good_entry h
  end.

(** What happens to an enforcer and its snapshots: a call; the snapshot of a session is
    written ([get_session(sid).serialize()]); some snapshot written before is restored;
    or the process starts again, with a new enforcer and the snapshots still there. *)
Inductive account_call : Type :=
  | Call (o : budget_op)
  | WriteSnapshot (sid : UUID)
  | RestoreWritten (n : nat)
  | Restart.
Definition do_call (c : account_call) (b : BudgetEnforcer) (kept : list BudgetSessionSnapshot)
    (w : World) : BudgetEnforcer * list BudgetSessionSnapshot * World :=
  match c with
  | Call o => let '(_, (b', w')) := do_op o b w in (b', kept, w')
  | WriteSnapshot sid => (b, kept ++ option_list (serialize <$> be_sessions b !! sid), w)
  | RestoreWritten n =>
      match kept !! n with
      | Some snap => let '(_, (b', w')) := do_op (OpRestore snap) b w in (b', kept, w')
      | None => (b, kept, w)
      end
  | Restart => (BudgetEnforcer_init, kept, w)
  end.
Fixpoint do_calls (cs : list account_call) (b : BudgetEnforcer)
    (kept : list BudgetSessionSnapshot) (w : World)
    : BudgetEnforcer * list BudgetSessionSnapshot * World :=
  match cs with
  | [] => (b, kept, w)
  | c :: cs => let '(b', kept', w') := do_call c b kept w in do_calls cs b' kept' w'
  end.
Definition good_call (c : account_call) : Prop :=
  match c with Call o => good_op o | _ => True end.

Lemma record_spend_inv sid a op b w :
  registry_ok b -> good_amount a ->
  wp (record_spend sid a op) (fun _ b' _ => registry_ok b') b w.
Proof.
  intros Hb Ha. unfold wp. destruct (be_sessions b !! sid) as [s|] eqn:Hs.
  - destruct (record_spend_run sid a op b w s Hs) as (w' & -> & _).
    apply registry_ok_insert, spend_outcome_ok; auto. by apply (Hb sid).
  - by rewrite record_spend_unknown.
Qed.

Lemma wp_get_session sid Q b w :
  (forall s, be_sessions b !! sid = Some s -> Q (Ok s) b w) ->
  (be_sessions b !! sid = None ->
   Q (Err (Exn KeyError ("Budget session " +:+ uuid_str sid +:+ " not found") None)) b w) ->
  wp (_get_session sid) Q b w.
Proof.
  intros H1 H2. unfold wp, _get_session. run_m.
  destruct (be_sessions b !! sid) eqn:E; auto.
Qed.

Lemma tokens_amount_good n c : 0 <= n -> good_amount c -> good_amount (dec_mul (dec_of_int n) c).
Proof. intros Hn [? ?]. split; eauto with decimal. Qed.

Lemma record_tokens_inv sid n c op b w :
  registry_ok b -> 0 <= n -> good_amount c ->
  wp (record_tokens sid n c op) (fun _ b' _ => registry_ok b') b w.
Proof.
  intros Hb Hn Hc. unfold record_tokens. apply wp_bind, wp_get_session; [|done].
  intros s Hs. destruct (_is_duplicate_operation s op); [done|].
  assert (Hb' : registry_ok (mkEnforcer (alter (add_tokens n) sid (be_sessions b)))).
  { rewrite (alter_Some _ _ _ s) by done. apply registry_ok_insert; [done|].
    apply add_tokens_ok. by apply (Hb sid). }
  apply wp_bind, wp_modify, wp_bind. unfold counter_inc.
  destruct (counter_inc_error n); [done|]. apply wp_set_world.
  apply record_spend_inv; [done|]. by apply tokens_amount_good.
Qed.

Lemma replay_entry_inv sid e b w :
  registry_ok b -> good_entry e ->
  wp (replay_entry sid e) (fun _ b' _ => registry_ok b') b w.
Proof.
  intros Hb [Hn Hd]. unfold replay_entry. apply wp_bind.
  assert (Hc : wp (_resolve_cost_per_token e)
            (fun r b' _ => b' = b /\ match r with Ok c => good_amount c | Err _ => True end) b w).
  { unfold wp, _resolve_cost_per_token.
    destruct (Z.eqb_spec (entry_tokens_used e) 0); run_m; [done|].
    destruct (dec_parse (amount_usd e)) as [a|] eqn:Ea; run_m; [|done].
    destruct (dec_div a (dec_of_int (entry_tokens_used e))) as [c|] eqn:Ec; run_m; [|done].
    split; [done|]. destruct (Hd a eq_refl) as [Ha1 Ha2].
    apply (dec_div_ok a (dec_of_int (entry_tokens_used e))); auto with decimal. }
  eapply wp_mono; [exact Hc|]. intros [c|ex] b1 w1 [-> Hg]; [|done].
  apply wp_bind. eapply wp_mono; [apply record_tokens_inv; auto|].
  intros [?|?] b2 w2 ?; done.
Qed.

Lemma replay_inv sid h b w :
  registry_ok b -> Forall good_entry h ->
  wp (for_each h (replay_entry sid)) (fun _ b' _ => registry_ok b') b w.
Proof.
  intros Hb Hh. revert b w Hb. induction Hh as [|e h He _ IH]; intros b w Hb; simpl; [done|].
  apply wp_bind. eapply wp_mono; [by apply replay_entry_inv|].
  intros [?|?] b' w' Hb'; [by apply IH|done].
Qed.

Lemma do_op_inv o b w :
  registry_ok b -> good_op o -> wp (do_op o) (fun _ b' _ => registry_ok b') b w.
Proof.
  intros Hb Ho. destruct o as [sid ag lim|sid a op|sid|sid n c op|snap|sid ag lim h]; simpl in *.
  - destruct Ho as [Hu Ho]. assert (Hcreate : forall d, good_amount d ->
      registry_ok (with_session b sid (new_session sid ag d)))
      by (intros; by apply registry_ok_insert, new_session_ok).
    unfold wp, create_session, set_session, budget_gauge, info, log_line,
      _add_timestamp_if_missing, _get_session; run_m.
    destruct lim as [|r|d]; run_m;
      [destruct (dec_parse (budget_limit_usd_repr settings)) eqn:E
      |destruct (dec_parse r) eqn:E|]; run_m; try done;
      rewrite lookup_insert_eq; run_m; apply Hcreate; auto.
  - apply wp_bind. eapply wp_mono; [by apply record_spend_inv|]. by intros [?|?].
  - unfold check_budget. apply wp_bind, wp_get_session; [|done]. intros s Hs.
    by destruct (dec_leb (budget_limit_usd s) (cost_usd s)).
  - destruct Ho. apply wp_bind. eapply wp_mono; [by apply record_tokens_inv|]. by intros [?|?].
  - done.
  - destruct Ho as (Hu & Hl & Hh). apply wp_bind. unfold restore_from_history.
    apply wp_bind, wp_modify, wp_bind, wp_set_world, wp_bind.
    eapply wp_mono; [apply replay_inv; auto|].
    + by apply registry_ok_insert, new_session_ok.
    + intros [?|?] b' w' Hb'; [|done]. by apply wp_get_session.
Qed.

(** Restoring a snapshot the enforcer wrote puts the session back. *)
Lemma restore_written b s snap w :
  registry_ok b -> session_ok s -> snap = serialize s ->
  wp (do_op (OpRestore snap)) (fun _ b' _ => registry_ok b') b w.
Proof.
  intros Hb Hs Hsnap. pose proof Hs as (Hu & Hl & Hc & _).
  assert (Hd : deserialize snap = Ok s)
    by (rewrite Hsnap; apply deserialize_serialize; split; [exact Hu|by split]).
  clear Hsnap. unfold wp, do_op, restore_session. run_m. rewrite Hd. run_m. by apply registry_ok_insert.
Qed.

Definition written (kept : list BudgetSessionSnapshot) : Prop :=
  Forall (fun snap => exists s, session_ok s /\ snap = serialize s) kept.

Lemma do_call_inv c b kept w :
  registry_ok b -> written kept -> good_call c ->
  let '(b', kept', _) := do_call c b kept w in registry_ok b' /\ written kept'.
Proof.
  intros Hb Hk Hc. destruct c as [o|sid|n|]; cbn [do_call].
  - pose proof (do_op_inv o b w Hb Hc) as Hw. unfold wp in Hw.
    by destruct (do_op o b w) as [r [b' w']].
  - split; [done|]. apply Forall_app. split; [done|].
    destruct (be_sessions b !! sid) as [s|] eqn:Es; cbn; constructor; [|constructor].
    exists s. split; [by apply (Hb sid)|done].
  - destruct (kept !! n) as [snap|] eqn:En; [|done].
    destruct (proj1 (Forall_lookup _ _) Hk _ _ En) as (s & Hs & Hsnap).
    pose proof (restore_written b s snap w Hb Hs Hsnap) as Hw. unfold wp in Hw.
    by destruct (do_op (OpRestore snap) b w) as [r [b' w']].
  - split; [apply map_Forall_empty|done].
Qed.

(** C27. Budget invariant: after any sequence of creations, spends, token recordings,
    checks and history replays with non-negative amounts (raising calls included),
    snapshots written at any time and restored at any later time, and restarts of the
    process with an empty enforcer, every registered session has a non-negative cost
    that is representable in the Decimal context, and a cost above its limit only
    together with a recorded alert. *)
Theorem budget_registry_invariant (cs : list account_call) (w : World) :
  Forall good_call cs ->
  forall sid s, be_sessions (do_calls cs BudgetEnforcer_init [] w).1.1 !! sid = Some s ->
    session_ok s.
Proof.
  intros Hcs. assert (Hinv : registry_ok (do_calls cs BudgetEnforcer_init [] w).1.1);
    [|intros sid s Hs; by apply (Hinv sid)].
  assert (Hb : registry_ok BudgetEnforcer_init) by apply map_Forall_empty.
  assert (Hk : written []) by constructor.
  revert Hb Hk. generalize BudgetEnforcer_init, (@nil BudgetSessionSnapshot). revert w.
  induction Hcs as [|c cs Hc _ IH]; intros w b kept Hb Hk; cbn [do_calls]; [done|].
  pose proof (do_call_inv c b kept w Hb Hk Hc) as Hi.
  destruct (do_call c b kept w) as [[b' kept'] w']. destruct Hi. by apply IH.
Qed.

(** A snapshot from elsewhere is believed: its cost may be above its limit without an
    alert. *)
Example foreign_snapshot_believed :
  let s := mkBudgetSession (mkUUID 1) "hr" (mkDec false 1 0) 0 (mkDec false 5 0) [] ∅ in
  deserialize (mkBudgetSnapshot "00000000-0000-0000-0000-000000000001" "hr" "1" 0 "5" [] None)
  = Ok s /\ dec_leb (cost_usd s) (budget_limit_usd s) = false /\ alerts s = [].
Proof. split_and!; vm_compute; reflexivity. Qed.
End invariant.

(** ** Properties of the operations *)

Section properties.
Context `{Env} `{HasSettings}.
Implicit Types (b : BudgetEnforcer) (w : World) (s : BudgetSession).

(** [record_spend] on every branch: an unknown session raises [KeyError] and
    changes nothing; a redelivered operation returns the session and changes
    nothing; otherwise the amount is added and the operation marked, and if
    the new cost is above the limit an alert is stored, exactly one
    ["budget.exceeded"] warning is printed and [BudgetExceededError] is raised
    with the debit kept; other sessions are never touched. *)
Theorem record_spend_spec sid amount op b w :
  match be_sessions b !! sid with
  | None => exists msg, record_spend sid amount op b w = (Err (Exn KeyError msg None), (b, w))
  | Some s =>
      if _is_duplicate_operation s op then
        exists w', record_spend sid amount op b w = (Ok s, (b, w')) /\ w_log w' = w_log w
      else
        let s1 := charged amount op s in
        if dec_ltb (budget_limit_usd s) (dec_add (cost_usd s) amount) then
          exists w' fields,
            record_spend sid amount op b w
            = (Err (Exn BudgetExceededError (exceeded_msg sid s1) None),
               (with_session b sid (add_alert (exceeded_msg sid s1) s1), w')) /\
            w_log w' = w_log w ++ [mkEntry Warning "budget.exceeded" fields]
        else
          exists w', record_spend sid amount op b w = (Ok s1, (with_session b sid s1, w')) /\
                     w_log w' = w_log w
  end.
Proof.
  destruct (be_sessions b !! sid) as [s|] eqn:Hs.
  - destruct (record_spend_run sid amount op b w s Hs) as (w' & -> & Hlog).
    unfold spend_outcome in *.
    destruct (_is_duplicate_operation s op) eqn:Hd; simpl in *.
    + exists w'. rewrite app_nil_r in Hlog. unfold with_session.
      rewrite insert_id by done. by destruct b.
    + rewrite charged_limit, charged_cost in *.
      destruct (dec_ltb _ _); simpl in *; [by eauto|].
      exists w'. by rewrite app_nil_r in Hlog.
  - rewrite record_spend_unknown by done. eauto.
Qed.

(** Exact boundary enforcement: when the exact new total fits in 28 digits, a
    fresh spend raises exactly when the exact sum is above the limit.  When
    the total is too long to be exact, rounding still never raises for a sum
    within a representable limit. *)
Theorem record_spend_boundary sid amount op b w s e :
  be_sessions b !! sid = Some s -> _is_duplicate_operation s op = false ->
  session_ok s -> good_amount amount -> nonneg (budget_limit_usd s) ->
  e <= d_exp (cost_usd s) -> e <= d_exp amount -> e <= d_exp (budget_limit_usd s) ->
  let total := valAt e (cost_usd s) + valAt e amount in
  let raised := exists ex, (record_spend sid amount op b w).1 = Err ex in
  (sum_fits (cost_usd s) amount -> raised <-> valAt e (budget_limit_usd s) < total) /\
  (fits (budget_limit_usd s) -> total <= valAt e (budget_limit_usd s) -> ~ raised).
Proof.
  intros Hs Hd (_ & Hl & Hwf & Hf & Hn & _) [Ha1 Ha2] Hlim He1 He2 He3. cbv zeta.
  destruct (record_spend_run sid amount op b w s Hs) as (w' & -> & _).
  unfold spend_outcome. rewrite Hd, charged_limit, charged_cost. simpl.
  pose proof (dec_add_exp (cost_usd s) amount) as Hexp.
  destruct (dec_ltb_spec (budget_limit_usd s) (dec_add (cost_usd s) amount)) as [Hlt|Hge];
    simpl; rewrite (dlt_at e) in * by lia.
  - split; intros Hfit; [rewrite dec_add_exact in Hlt by done; unfold sum_at in Hlt|].
    + split; [done|]. eauto.
    + intros Htot _. destruct (dec_add_bounds e (cost_usd s) amount (budget_limit_usd s))
        as [_ Hup]; try done. specialize (Hup Htot).
      rewrite (dle_at e) in Hup by lia. lia.
  - split; intros Hfit; [rewrite dec_add_exact in Hge by done; unfold sum_at in Hge|].
    + split; [intros [ex Hex]; discriminate|lia].
    + intros _ [ex Hex]. discriminate.
Qed.

(** The pre-LLM guard: [check_budget] raises exactly when the cost has reached
    the limit, never changes the registry, and when it passes the next spend
    cannot push the exact cost further above the limit than its own amount. *)
Theorem check_budget_guard sid b w s :
  be_sessions b !! sid = Some s ->
  exists w', check_budget sid b w
    = ((if dec_leb (budget_limit_usd s) (cost_usd s)
        then Err (Exn BudgetExceededError
               ("Session " +:+ uuid_str sid +:+ " budget already exhausted ($"
                +:+ dec_str (cost_usd s) +:+ " >= $" +:+ dec_str (budget_limit_usd s) +:+ ")")
               None)
        else Ok tt), (b, w')) /\
  (dec_leb (budget_limit_usd s) (cost_usd s) = false ->
   forall amount e, sum_fits (cost_usd s) amount -> e <= d_exp (cost_usd s) ->
     e <= d_exp amount -> e <= d_exp (budget_limit_usd s) ->
     valAt e (dec_add (cost_usd s) amount) < valAt e (budget_limit_usd s) + valAt e amount).
Proof.
  intros Hs. unfold check_budget, _get_session, warning, log_line,
    _add_timestamp_if_missing. run_m. rewrite Hs. simpl.
  destruct (dec_leb_spec (budget_limit_usd s) (cost_usd s)) as [Hle|Hgt].
  - eexists. split; [done|]. done.
  - exists w. split; [done|]. intros _ amount e Hfit H1 H2 H3.
    rewrite dec_add_exact by done. unfold sum_at.
    rewrite (dle_at e) in Hgt by lia. lia.
Qed.

(** Idempotent recording: once an operation id was recorded on a session,
    whether it succeeded or raised over budget, any redelivery of that id
    returns normally and changes neither the session nor the metrics, the log
    or anything else, whatever amount it carries. *)
Theorem record_tokens_idempotent sid n c op b w s n' c' :
  be_sessions b !! sid = Some s -> counter_inc_error n = None ->
  let '(_, (b1, w1)) := record_tokens sid n c (Some op) b w in
  exists s1, be_sessions b1 !! sid = Some s1 /\
    record_tokens sid n' c' (Some op) b1 w1 = (Ok s1, (b1, w1)) /\
    record_spend sid c' (Some op) b1 w1 = (Ok s1, (b1, w1)).
Proof.
  intros Hs Hn.
  assert (Hspend : forall b w s, be_sessions b !! sid = Some s ->
    op ∈ applied_operation_ids s -> record_spend sid c' (Some op) b w = (Ok s, (b, w))).
  { intros b1 w1 s1 Hs1 Hop. unfold record_spend, _get_session. run_m. rewrite Hs1. simpl.
    by rewrite bool_decide_true. }
  destruct (decide (op ∈ applied_operation_ids s)) as [Hin|Hnot].
  - rewrite (record_tokens_dup sid n c op b w s) by done.
    exists s. split; [done|]. split; [by apply record_tokens_dup|by apply Hspend].
  - destruct (record_tokens_fresh sid n c op b w s Hs Hnot Hn) as (w1 & ->). cbv zeta.
    set (o := spend_outcome _ _ _ _). exists o.2.
    assert (Hl : be_sessions (with_session b sid o.2) !! sid = Some o.2)
      by apply lookup_insert_eq.
    assert (Hop : op ∈ applied_operation_ids o.2) by apply spend_outcome_marks.
    split; [done|]. split; [by apply record_tokens_dup|by apply Hspend].
Qed.
End properties.

(** ** Replaying histories *)

(** The history without redeliveries: the first entry of each operation id. *)
Fixpoint dedup_history (seen : gset string) (h : list BudgetHistoryEntry)
    : list BudgetHistoryEntry :=
  match h with
  | [] => []
  | e :: h => if bool_decide (operation_id e ∈ seen) then dedup_history seen h
              else e :: dedup_history ({[operation_id e]} ∪ seen) h
  end.

(** The amount of the entry can be read. *)
Definition readable_entry (e : BudgetHistoryEntry) : Prop :=
  entry_tokens_used e = 0 \/ is_Some (dec_parse (amount_usd e)).

(** The ledger entry the [BudgetRecordSpend] activity appends for [tokens] at
    [cost_per_token]: [str(Decimal(cost_per_token) * Decimal(tokens))]. *)
Definition ledger_entry (op : string) (tokens : Z) (cost_per_token : Decimal)
    : BudgetHistoryEntry :=
  mkHistoryEntry op (dec_str (dec_mul cost_per_token (dec_of_int tokens))) tokens.

Section replay.
Context `{Env} `{HasSettings}.
Implicit Types (b : BudgetEnforcer) (w : World) (s : BudgetSession).

Lemma resolve_readable e b w :
  readable_entry e -> exists c, _resolve_cost_per_token e b w = (Ok c, (b, w)).
Proof.
  intros Hr. unfold _resolve_cost_per_token.
  destruct (Z.eqb_spec (entry_tokens_used e) 0) as [|Hne]; [by eexists|].
  destruct Hr as [?|[a Ha]]; [done|]. run_m. rewrite Ha. run_m.
  destruct (dec_div_total a (dec_of_int (entry_tokens_used e))) as [d ->];
    [simpl; lia|]. by eexists.
Qed.

(** A recording that returns has marked its operation and kept the others. *)
Lemma record_tokens_marks sid n c op b w s s' b' w' :
  be_sessions b !! sid = Some s ->
  record_tokens sid n c (Some op) b w = (Ok s', (b', w')) ->
  exists s1, be_sessions b' !! sid = Some s1 /\
    applied_operation_ids s1 = {[op]} ∪ applied_operation_ids s.
Proof.
  intros Hs. destruct (decide (op ∈ applied_operation_ids s)) as [Hin|Hnot].
  - rewrite (record_tokens_dup sid n c op b w s) by done. intros [= -> -> ->].
    exists s'. split; [done|]. symmetry. apply subseteq_union_1_L.
    by apply singleton_subseteq_l.
  - destruct (counter_inc_error n) as [ex|] eqn:Hn.
    + unfold record_tokens, _get_session, counter_inc. run_m. rewrite Hs. simpl.
      by rewrite bool_decide_false, Hn.
    + destruct (record_tokens_fresh sid n c op b w s Hs Hnot Hn) as (w1 & ->). cbv zeta.
      intros [= _ <- _]. eexists. split; [apply lookup_insert_eq|].
      unfold spend_outcome; simpl. rewrite bool_decide_false by done.
      by destruct (dec_ltb _ _).
Qed.

Lemma replay_dedup sid h : forall seen b w s,
  Forall readable_entry h ->
  be_sessions b !! sid = Some s -> seen ⊆ applied_operation_ids s ->
  for_each h (replay_entry sid) b w = for_each (dedup_history seen h) (replay_entry sid) b w.
Proof.
  induction h as [|e h IH]; intros seen b w s Hr Hs Hseen; [done|].
  inversion Hr as [|? ? Hre Hrh]; subst. simpl.
  destruct (resolve_readable e b w Hre) as [c Hc].
  case_bool_decide as Hin.
  - rewrite <- (IH seen b w s) by done. unfold mbind, M_bind, replay_entry at 1.
    unfold mbind, M_bind. rewrite Hc.
    rewrite (record_tokens_dup sid _ _ _ b w s) by set_solver. done.
  - simpl. unfold mbind, M_bind.
    destruct (replay_entry sid e b w) as [[[]|ex] [b1 w1]] eqn:Er; [|done].
    unfold replay_entry, mbind, M_bind in Er. rewrite Hc in Er.
    destruct (record_tokens _ _ _ _ b w) as [[s1|ex] [b2 w2]] eqn:Et; [|done].
    injection Er as -> ->.
    destruct (record_tokens_marks _ _ _ _ _ _ _ _ _ _ Hs Et) as (s2 & Hs2 & Hsub).
    apply (IH _ _ _ s2); [done|done|]. rewrite Hsub. by apply union_mono_l.
Qed.

(** At-least-once histories: rebuilding a session from a history with
    redelivered operation ids is the same run, down to the metrics and the
    log, as rebuilding it from the history with only the first entry of each
    id; in particular redelivered entries are never charged twice. *)
Theorem restore_from_history_dedup sid agent limit h b w :
  Forall readable_entry h ->
  restore_from_history sid agent limit h b w
  = restore_from_history sid agent limit (dedup_history ∅ h) b w.
Proof.
  intros Hr. unfold restore_from_history.
  unfold set_session, budget_gauge, metric, set_world, modify, mbind, M_bind. simpl.
  rewrite (replay_dedup sid h ∅ _ _ (new_session sid agent limit));
    [done|done|apply lookup_insert_eq|set_solver].
Qed.

(** The per-token cost read back from a ledger entry is the recorded one. *)
Lemma resolve_ledger_entry op t c b w :
  dec_wf c -> fits c -> 0 < t -> ndigits (d_coef c * t) <= prec ->
  _resolve_cost_per_token (ledger_entry op t c) b w = (Ok c, (b, w)).
Proof.
  intros Hwf Hf Ht Hp. unfold _resolve_cost_per_token, ledger_entry.
  cbn [entry_tokens_used amount_usd].
  rewrite (proj2 (Z.eqb_neq t 0)) by lia. unfold mbind, M_bind, of_option.
  rewrite dec_parse_str by auto with decimal. unfold mret, M_ret. cbv beta iota.
  rewrite dec_div_mul_int by done. done.
Qed.

(** C39. Replay reproduces the original accounting: rebuilding a session from the
    ledger entries written for a series of recordings is the same run, cost
    digits and exponent included, as making those recordings on a fresh
    session, as long as every token count is positive and every amount fits
    in 28 digits. *)
Theorem restore_from_ledger_exact sid agent limit (recs : list (string * Z * Decimal)) b w :
  Forall (fun '(_, t, c) => dec_wf c /\ fits c /\ 0 < t /\ ndigits (d_coef c * t) <= prec) recs ->
  restore_from_history sid agent limit
    ((fun '(op, t, c) => ledger_entry op t c) <$> recs) b w
  = (set_session sid (new_session sid agent limit) ;;
     budget_gauge sid limit ;;
     for_each recs (fun '(op, t, c) => record_tokens sid t c (Some op) ;; mret tt) ;;
     _get_session sid) b w.
Proof.
  intros Hrecs. unfold restore_from_history.
  unfold set_session, budget_gauge, metric, set_world, modify, mbind, M_bind. simpl.
  assert (Heq : forall w b,
    for_each ((fun '(op, t, c) => ledger_entry op t c) <$> recs) (replay_entry sid) b w
    = for_each recs (fun '(op, t, c) => record_tokens sid t c (Some op) ;; mret tt) b w);
    [|by rewrite Heq].
  induction Hrecs as [|[[op t] c] recs (H1 & H2 & H3 & H4) _ IH]; intros w' b'; [done|].
  rewrite fmap_cons. simpl. unfold mbind, M_bind, replay_entry at 1, mbind, M_bind.
  rewrite (resolve_ledger_entry op t c b' w') by done. simpl.
  destruct (record_tokens sid t c (Some op) b' w') as [[?|?] [b1 w1]]; [|done]. apply IH.
Qed.
End replay.

(** ** The account as an exact ledger *)

(** The sum, in units of [10^e], of the amounts whose operation id is new. *)
Fixpoint fresh_total (e : Z) (seen : gset string) (l : list (option string * Decimal)) : Z :=
  match l with
  | [] => 0
  | (Some o, a) :: l =>
      if bool_decide (o ∈ seen) then fresh_total e seen l
      else valAt e a + fresh_total e ({[o]} ∪ seen) l
  | (None, a) :: l => valAt e a + fresh_total e seen l
  end.

Definition gross_total (e : Z) (l : list (option string * Decimal)) : Z :=
  foldr (fun p acc => valAt e p.2 + acc) 0 l.

Section ledger.
Context `{Env} `{HasSettings}.

(** C38. The cost is the exact ledger total: after any series of spends of non-negative
    amounts on one session, within or over budget, redeliveries included, the recorded cost
    is exactly the previous cost plus the amounts of the distinct operations,
    provided the gross total is below 10^28 units of the smallest exponent
    involved (no rounding can occur). *)
Theorem spends_exact_ledger sid e (l : list (option string * Decimal)) b w s :
  be_sessions b !! sid = Some s -> nonneg (cost_usd s) -> e <= d_exp (cost_usd s) ->
  Forall (fun p => good_amount p.2 /\ e <= d_exp p.2) l ->
  valAt e (cost_usd s) + gross_total e l < 10 ^ 28 ->
  exists s', be_sessions (do_ops ((fun p => OpSpend sid p.2 p.1) <$> l) b w).1 !! sid = Some s' /\
    valAt e (cost_usd s') = valAt e (cost_usd s) + fresh_total e (applied_operation_ids s) l.
Proof.
  intros Hs Hn He Hl. revert b w s Hs Hn He.
  induction Hl as [|[op a] l [[Ha1 Ha2] Ha3] Hl IH]; intros b w s Hs Hn He Hbound; simpl in *.
  - exists s. split; [done|lia].
  - assert (Hg : 0 <= gross_total e l).
    { clear -Hl. induction Hl as [|p l [[_ Hp] Hpe] _ IH]; simpl; [lia|].
      rewrite (nonneg_at e) in Hp by done. lia. }
    assert (Ha0 : 0 <= valAt e a) by (by apply nonneg_at).
    assert (Hc0 : 0 <= valAt e (cost_usd s)) by (by apply nonneg_at).
    unfold mbind, M_bind.
    destruct (record_spend_run sid a op b w s Hs) as (w' & -> & _).
    unfold spend_outcome. destruct (_is_duplicate_operation s op) eqn:Hd; simpl.
    + destruct (IH (with_session b sid s) w' s) as (s' & Hs' & Hv); auto;
        [apply lookup_insert_eq|lia|]. exists s'. split; [done|].
      unfold _is_duplicate_operation in Hd. destruct op; [|done].
      by rewrite Hd, Hv.
    + assert (Hfit : sum_fits (cost_usd s) a)
        by (apply (sum_fits_bound e); auto; unfold sum_at; lia).
      assert (Hval : valAt e (dec_add (cost_usd s) a) = valAt e (cost_usd s) + valAt e a)
        by (by apply dec_add_exact).
      pose proof (dec_add_exp (cost_usd s) a) as Hexp.
      set (s1 := if dec_ltb (budget_limit_usd (charged a op s)) (cost_usd (charged a op s))
                 then add_alert (exceeded_msg sid (charged a op s)) (charged a op s)
                 else charged a op s).
      assert (Hs1 : cost_usd s1 = dec_add (cost_usd s) a /\
                    applied_operation_ids s1 = applied_operation_ids (charged a op s))
        by (unfold s1; case_match; simpl; by rewrite charged_cost).
      destruct Hs1 as [Hs1c Hs1o].
      destruct (IH (with_session b sid s1) w' s1) as (s' & Hs' & Hv);
        [apply lookup_insert_eq|rewrite Hs1c; auto with decimal|rewrite Hs1c; lia
        |rewrite Hs1c, Hval; lia|].
      exists s'. split.
      * unfold s1 in Hs'. destruct (dec_ltb _ _); exact Hs'.
      * rewrite Hv, Hs1c, Hs1o, Hval, charged_ops.
        unfold _is_duplicate_operation in Hd. destruct op; [rewrite Hd|]; lia.
Qed.
End ledger.

(** ** Witnesses *)

Definition demo_sid : UUID := mkUUID 1.
Definition demo_session : BudgetSession :=
  mkBudgetSession demo_sid "finance" (mkDec false 100 (-2)) 10 (mkDec false 999999 (-6))
    ["earlier alert"%string] {["op-1"%string; "op-0"%string]}.
Definition demo_registry : BudgetEnforcer := mkEnforcer {[demo_sid := demo_session]}.
#[local] Existing Instance demo_env.
#[local] Instance demo_settings : HasSettings := default_settings.

Lemma deserialize_serialize_witness : deserialize (serialize demo_session) = Ok demo_session.
Proof. apply deserialize_serialize. repeat split; vm_compute; congruence. Defined.

Lemma deserialize_errors_witness :
  exn_class (Exn InvalidOperation "[<class 'decimal.ConversionSyntax'>]" None) = InvalidOperation
  /\ isinstance (Exn InvalidOperation "[<class 'decimal.ConversionSyntax'>]" None) ValueError = false.
Proof.
  exact (deserialize_errors
    (mkBudgetSnapshot "00000000-0000-0000-0000-000000000001" "hr" "ten" 0 "0" [] None)
    (Exn InvalidOperation "[<class 'decimal.ConversionSyntax'>]" None) eq_refl).
Defined.

(** 0.999999 spent of 1.00: one micro-dollar more is within budget, two are not. *)
Lemma record_spend_boundary_witness :
  (exists ex, (record_spend demo_sid (mkDec false 2 (-6)) None demo_registry w_empty).1 = Err ex) /\
  ~ (exists ex, (record_spend demo_sid (mkDec false 1 (-6)) None demo_registry w_empty).1 = Err ex).
Proof.
  assert (Hok : session_ok demo_session) by (repeat split; vm_compute; congruence).
  split.
  - apply (proj1 (record_spend_boundary demo_sid (mkDec false 2 (-6)) None demo_registry w_empty
      demo_session (-6) eq_refl eq_refl Hok ltac:(split; vm_compute; congruence)
      ltac:(vm_compute; congruence) ltac:(simpl; lia) ltac:(simpl; lia) ltac:(simpl; lia)));
      [vm_compute; congruence|vm_compute; reflexivity].
  - apply (record_spend_boundary demo_sid (mkDec false 1 (-6)) None demo_registry w_empty
      demo_session (-6) eq_refl eq_refl Hok ltac:(split; vm_compute; congruence)
      ltac:(vm_compute; congruence) ltac:(simpl; lia) ltac:(simpl; lia) ltac:(simpl; lia));
      vm_compute; congruence.
Defined.

Lemma check_budget_guard_witness :
  exists w', check_budget demo_sid demo_registry w_empty = (Ok tt, (demo_registry, w')).
Proof.
  destruct (check_budget_guard demo_sid demo_registry w_empty demo_session eq_refl)
    as (w' & E & _).
  exists w'. rewrite E. vm_compute. reflexivity.
Defined.

Lemma record_tokens_idempotent_witness :
  let '(_, (b1, w1)) := record_tokens demo_sid 5 DEFAULT_COST_PER_TOKEN (Some "op-2"%string)
                          demo_registry w_empty in
  exists s1, record_tokens demo_sid 7 DEFAULT_COST_PER_TOKEN (Some "op-2"%string) b1 w1
             = (Ok s1, (b1, w1)).
Proof.
  pose proof (record_tokens_idempotent demo_sid 5 DEFAULT_COST_PER_TOKEN "op-2" demo_registry
                w_empty demo_session 7 DEFAULT_COST_PER_TOKEN eq_refl eq_refl) as Hi.
  destruct (record_tokens demo_sid 5 _ _ demo_registry w_empty) as [r [b1 w1]].
  destruct Hi as (s1 & _ & E & _). by exists s1.
Defined.

(** A session goes over its limit, is written, and is restored after a restart. *)
Lemma budget_registry_invariant_witness :
  let cs := [Call (OpCreate demo_sid "hr" (LimitDecimal (mkDec false 1 0)));
             Call (OpSpend demo_sid (mkDec false 15 (-1)) (Some "a"%string));
             WriteSnapshot demo_sid; Restart; RestoreWritten 0;
             Call (OpTokens demo_sid 3 DEFAULT_COST_PER_TOKEN None)] in
  exists s, be_sessions (do_calls cs BudgetEnforcer_init [] w_empty).1.1 !! demo_sid = Some s /\
    session_ok s /\ dec_str (cost_usd s) = "1.500006"%string /\ length (alerts s) = 2%nat.
Proof.
  eexists. split; [vm_compute; reflexivity|].
  split; [|split; vm_compute; reflexivity].
  eapply (budget_registry_invariant
    [Call (OpCreate demo_sid "hr" (LimitDecimal (mkDec false 1 0)));
     Call (OpSpend demo_sid (mkDec false 15 (-1)) (Some "a"%string));
     WriteSnapshot demo_sid; Restart; RestoreWritten 0;
     Call (OpTokens demo_sid 3 DEFAULT_COST_PER_TOKEN None)] w_empty _ demo_sid).
  vm_compute. reflexivity.
  Unshelve.
  repeat constructor; vm_compute; congruence.
Defined.

Definition demo_history : list BudgetHistoryEntry :=
  [mkHistoryEntry "op-1" "0.000020" 10; mkHistoryEntry "op-1" "0.000020" 10;
   mkHistoryEntry "op-2" "0.25" 5].

Lemma restore_from_history_dedup_witness :
  restore_from_history demo_sid "hr" (mkDec false 1 0) demo_history BudgetEnforcer_init w_empty
  = restore_from_history demo_sid "hr" (mkDec false 1 0)
      [mkHistoryEntry "op-1" "0.000020" 10; mkHistoryEntry "op-2" "0.25" 5]
      BudgetEnforcer_init w_empty.
Proof.
  rewrite (restore_from_history_dedup demo_sid "hr" (mkDec false 1 0) demo_history
             BudgetEnforcer_init w_empty);
    [reflexivity|].
  unfold demo_history. rewrite !Forall_cons.
  split_and!; [| | |done]; right; vm_compute; eexists; reflexivity.
Defined.

Lemma restore_from_ledger_exact_witness :
  exists w', restore_from_history demo_sid "hr" (mkDec false 1 0)
               [ledger_entry "op-1" 3 (mkDec false 333333 (-6))] BudgetEnforcer_init w_empty
    = (Ok (mkBudgetSession demo_sid "hr" (mkDec false 1 0) 3 (mkDec false 999999 (-6)) []
             {["op-1"%string]}), (mkEnforcer {[demo_sid :=
         mkBudgetSession demo_sid "hr" (mkDec false 1 0) 3 (mkDec false 999999 (-6)) []
             {["op-1"%string]}]}, w')).
Proof.
  pose proof (restore_from_ledger_exact demo_sid "hr" (mkDec false 1 0)
    [("op-1"%string, 3, mkDec false 333333 (-6))] BudgetEnforcer_init w_empty) as Hr.
  simpl fmap in Hr. rewrite Hr; [|repeat constructor; vm_compute; congruence].
  eexists. vm_compute. reflexivity.
Defined.

Lemma spends_exact_ledger_witness :
  exists s', be_sessions (do_ops
      [OpSpend demo_sid (mkDec false 5 (-6)) (Some "op-1"%string);
       OpSpend demo_sid (mkDec false 3 (-1)) None] demo_registry w_empty).1 !! demo_sid = Some s' /\
    valAt (-6) (cost_usd s') = 1299999.
Proof.
  pose proof (spends_exact_ledger demo_sid (-6)
    [(Some "op-1"%string, mkDec false 5 (-6)); (None, mkDec false 3 (-1))]
    demo_registry w_empty demo_session eq_refl) as Hs.
  destruct Hs as (s' & Hs' & Hv); [vm_compute; congruence|simpl; lia
    |repeat constructor; vm_compute; congruence|vm_compute; reflexivity|].
  exists s'. split; [exact Hs'|]. rewrite Hv. vm_compute. reflexivity.
Defined.
