(* ===== verification/LoopDetector.v ===== *)
(** * src/watchdog/loop_detector.py: the loop and token-velocity circuit breaker

    [LoopDetector._contexts] maps a session id to the mutable
    [ExecutionContext]; as for budgets, methods return the registered object. *)
From Stdlib Require Import ZArith Lia Ascii String.
From stdpp Require Import base gmap strings list pretty.
From S2P Require Import Prelude PyDecimal PyUuid World Config AuditLogger.

(** ** Data *)

Inductive LoopSignal : Type := PROGRESS | NO_PROGRESS | HUMAN_REQUIRED.
#[global] Instance LoopSignal_eq_dec : EqDecision LoopSignal.
Proof. solve_decision. Defined.

Definition LoopSignal_value (s : LoopSignal) : string :=
  match s with
  | PROGRESS => "progress"
  | NO_PROGRESS => "no_progress"
  | HUMAN_REQUIRED => "human_intervention_required"
  end.

(** [LoopSignal(value)] *)
Definition LoopSignal_of (v : string) : result LoopSignal :=
  if bool_decide (v = "progress"%string) then Ok PROGRESS
  else if bool_decide (v = "no_progress"%string) then Ok NO_PROGRESS
  else if bool_decide (v = "human_intervention_required"%string) then Ok HUMAN_REQUIRED
  else Err (Exn ValueError (repr_str v +:+ " is not a valid LoopSignal") None).

Record StepRecord : Type := mkStep {
  step_number : Z;
  token_delta : Z;
  signal : LoopSignal;
  description : string
}.

Record ExecutionContext : Type := mkContext {
  ctx_session_id : UUID;
  ctx_agent_type : string;
  steps : list StepRecord;
  total_tokens : Z;
  loop_detected : bool;
  intervention_required : bool
}.

Record StepSnapshot : Type := mkStepSnapshot {
  snap_step_number : Z;
  snap_token_delta : Z;
  snap_signal : string;
  snap_description : string
}.

Record ExecutionCheckpoint : Type := mkCheckpoint {
  ck_session_id : string;
  ck_agent_type : string;
  ck_total_tokens : Z;
  ck_loop_detected : bool;
  ck_intervention_required : bool;
  ck_steps : list StepSnapshot
}.

Record LoopDetector : Type := mkDetector {
  _max_agent_steps : Z;
  _max_token_velocity : Z;
  _contexts : gmap UUID ExecutionContext
}.

(** ** Operations *)

Definition _no_progress_streak (l : list StepRecord) : Z :=
  (fix count (l : list StepRecord) : Z :=
     match l with
     | [] => 0
     | s :: l => if bool_decide (signal s = PROGRESS) || bool_decide (signal s = HUMAN_REQUIRED)
                 then 0 else 1 + count l
     end) (reverse l).

Definition new_context (sid : UUID) (agent : string) : ExecutionContext :=
  mkContext sid agent [] 0 false false.

(** [ctx.steps.append(StepRecord(...)); ctx.total_tokens += token_delta] *)
Definition append_step (delta : Z) (sg : LoopSignal) (desc : string)
    (c : ExecutionContext) : ExecutionContext :=
  mkContext (ctx_session_id c) (ctx_agent_type c)
    (steps c ++ [mkStep (Z.of_nat (length (steps c)) + 1) delta sg desc])
    (total_tokens c + delta) (loop_detected c) (intervention_required c).
Definition set_loop_detected (c : ExecutionContext) : ExecutionContext :=
  mkContext (ctx_session_id c) (ctx_agent_type c) (steps c) (total_tokens c) true
    (intervention_required c).
Definition set_intervention_required (c : ExecutionContext) : ExecutionContext :=
  mkContext (ctx_session_id c) (ctx_agent_type c) (steps c) (total_tokens c)
    (loop_detected c) true.

Definition checkpoint_of (c : ExecutionContext) : ExecutionCheckpoint :=
  mkCheckpoint (uuid_str (ctx_session_id c)) (ctx_agent_type c) (total_tokens c)
    (loop_detected c) (intervention_required c)
    ((fun s => mkStepSnapshot (step_number s) (token_delta s)
                 (LoopSignal_value (signal s)) (description s)) <$> steps c).

(** The list comprehension of [restore]; a bad signal stops it. *)
Fixpoint restore_steps (l : list StepSnapshot) : result (list StepRecord) :=
  match l with
  | [] => Ok []
  | s :: l =>
      match LoopSignal_of (snap_signal s) with
      | Err e => Err e
      | Ok sg =>
          match restore_steps l with
          | Err e => Err e
          | Ok r => Ok (mkStep (snap_step_number s) (snap_token_delta s) sg
                          (snap_description s) :: r)
          end
      end
  end.

Section detector.
Context `{Env} `{HasSettings}.

Definition LoopDetector_init (max_steps max_velocity : option Z) : LoopDetector :=
  mkDetector (default (max_agent_steps settings) max_steps)
    (default (max_token_velocity settings) max_velocity) ∅.

Definition set_context (sid : UUID) (c : ExecutionContext) : M LoopDetector unit :=
  modify (fun d => mkDetector (_max_agent_steps d) (_max_token_velocity d)
                     (<[sid := c]> (_contexts d))).

Definition create_context (sid : UUID) (agent : string) : M LoopDetector ExecutionContext :=
  let ctx := new_context sid agent in
  set_context sid ctx ;;
  info "loop_detector.context_created"
    [("session_id", JStr (uuid_str sid)); ("agent_type", JStr agent)] ;;
  mret ctx.

Definition _get_context (sid : UUID) : M LoopDetector ExecutionContext :=
  o ← gets (fun d => _contexts d !! sid);
  of_option o KeyError ("Execution context " +:+ uuid_str sid +:+ " not found").

Definition get_context (sid : UUID) : M LoopDetector (option ExecutionContext) :=
  gets (fun d => _contexts d !! sid).

Definition record_step (sid : UUID) (delta : Z) (sg : LoopSignal) (desc : string)
    : M LoopDetector ExecutionContext :=
  ctx ← _get_context sid;
  let step_no := Z.of_nat (length (steps ctx)) + 1 in
  let ctx := append_step delta sg desc ctx in
  set_context sid ctx ;;
  max_velocity ← gets _max_token_velocity;
  max_steps ← gets _max_agent_steps;
  if max_velocity <? delta then
    let msg := "Token velocity exceeded on step " +:+ pretty step_no +:+ ": "
               +:+ pretty delta +:+ " > " +:+ pretty max_velocity in
    set_context sid (set_loop_detected ctx) ;;
    warning "loop.detected"
      [("reason", JStr "token_velocity_exceeded"); ("session_id", JStr (uuid_str sid));
       ("agent_type", JStr (ctx_agent_type ctx)); ("step", JInt step_no);
       ("token_delta", JInt delta); ("max_token_velocity", JInt max_velocity)] ;;
    throw TokenVelocityError msg
  else if bool_decide (sg = HUMAN_REQUIRED) then
    set_context sid (set_intervention_required ctx) ;;
    warning "loop.pending_approval"
      [("session_id", JStr (uuid_str sid)); ("agent_type", JStr (ctx_agent_type ctx));
       ("step", JInt step_no)] ;;
    throw PendingApprovalError
      ("Agent requested human intervention on step " +:+ pretty step_no)
  else
    let streak := _no_progress_streak (steps ctx) in
    if max_steps <=? streak then
      let msg := "No progress after " +:+ pretty streak +:+ " consecutive steps (max="
                 +:+ pretty max_steps +:+ ")" in
      set_context sid (set_loop_detected ctx) ;;
      warning "loop.detected"
        [("reason", JStr "no_progress_streak"); ("session_id", JStr (uuid_str sid));
         ("agent_type", JStr (ctx_agent_type ctx)); ("step", JInt step_no);
         ("streak", JInt streak); ("max_agent_steps", JInt max_steps)] ;;
      throw LoopDetectedError msg
    else mret ctx.

Definition checkpoint (sid : UUID) : M LoopDetector ExecutionCheckpoint :=
  ctx ← _get_context sid;
  mret (checkpoint_of ctx).

Definition restore (snap : ExecutionCheckpoint) : M LoopDetector ExecutionContext :=
  sid ← of_option (uuid_parse (ck_session_id snap)) ValueError
          "badly formed hexadecimal UUID string";
  l ← of_result (restore_steps (ck_steps snap));
  let ctx := mkContext sid (ck_agent_type snap) l (ck_total_tokens snap)
               (ck_loop_detected snap) (ck_intervention_required snap) in
  set_context sid ctx ;;
  mret ctx.
End detector.

(** ** The streak *)

Definition is_no_progress (s : StepRecord) : Prop := signal s = NO_PROGRESS.

Lemma streak_nil : _no_progress_streak [] = 0.
Proof. done. Qed.

Lemma streak_snoc l s :
  _no_progress_streak (l ++ [s])
  = if bool_decide (signal s = NO_PROGRESS) then 1 + _no_progress_streak l else 0.
Proof.
  unfold _no_progress_streak. rewrite reverse_app. simpl.
  by destruct (signal s).
Qed.

Lemma streak_nonneg l : 0 <= _no_progress_streak l.
Proof.
  induction l as [|s l IH] using rev_ind; [done|].
  rewrite streak_snoc. case_bool_decide; lia.
Qed.

(** The streak is at least [k] exactly when the last [k] steps all exist and
    made no progress. *)
Lemma streak_ge l k :
  Z.of_nat k <= _no_progress_streak l <->
  exists pre mid, l = pre ++ mid /\ length mid = k /\ Forall is_no_progress mid.
Proof.
  revert k. induction l as [|s l IH] using rev_ind; intros k.
  - rewrite streak_nil. split.
    + intros Hk. exists [], []. assert (k = O) as -> by lia. done.
    + intros (pre & mid & E & <- & _).
      destruct pre, mid; try discriminate; simpl; lia.
  - rewrite streak_snoc. split.
    + intros Hk. destruct k as [|k].
      { exists (l ++ [s]), []. by rewrite app_nil_r. }
      case_bool_decide as Hs; [|lia].
      destruct (proj1 (IH k)) as (pre & mid & -> & <- & Hm); [lia|].
      exists pre, (mid ++ [s]). rewrite length_app, <- app_assoc, Forall_app; simpl.
      split_and!; auto; lia.
    + intros (pre & mid & E & <- & Hm).
      destruct mid as [|x mid _] using rev_ind;
        [pose proof (streak_nonneg l); case_bool_decide; simpl; lia|].
      rewrite app_assoc in E. apply app_inj_tail in E as [-> ->].
      rewrite Forall_app in Hm. destruct Hm as [Hm Hx].
      rewrite bool_decide_true by (by inversion Hx).
      rewrite length_app; simpl. assert (Z.of_nat (length mid) <= _no_progress_streak (pre ++ mid));
        [apply IH; by exists pre, mid|lia].
Qed.

(** ** Behaviour of a step *)

(** Which breaker, if any, stops a step with [delta] tokens and signal [sg]
    after the steps [h]. *)
Definition breaker (max_steps velocity : Z) (h : list StepRecord) (s : StepRecord)
    : option exc_class :=
  if velocity <? token_delta s then Some TokenVelocityError
  else if bool_decide (signal s = HUMAN_REQUIRED) then Some PendingApprovalError
  else if max_steps <=? _no_progress_streak (h ++ [s]) then Some LoopDetectedError
  else None.

Definition set_flags (b : option exc_class) (c : ExecutionContext) : ExecutionContext :=
  match b with
  | Some PendingApprovalError => set_intervention_required c
  | Some _ => set_loop_detected c
  | None => c
  end.

Definition with_context (d : LoopDetector) (sid : UUID) (c : ExecutionContext) : LoopDetector :=
  mkDetector (_max_agent_steps d) (_max_token_velocity d) (<[sid := c]> (_contexts d)).

Definition next_step (c : ExecutionContext) (delta : Z) (sg : LoopSignal) (desc : string)
    : StepRecord := mkStep (Z.of_nat (length (steps c)) + 1) delta sg desc.

Section behaviour.
Context `{Env} `{HasSettings}.
Implicit Types (d : LoopDetector) (w : World) (c : ExecutionContext).

Lemma record_step_run sid delta sg desc d w c :
  _contexts d !! sid = Some c ->
  let b := breaker (_max_agent_steps d) (_max_token_velocity d) (steps c)
             (next_step c delta sg desc) in
  let c' := set_flags b (append_step delta sg desc c) in
  exists r w', record_step sid delta sg desc d w = (r, (with_context d sid c', w')) /\
    match b with
    | None => r = Ok c' /\ w' = w
    | Some k => (exists msg, r = Err (Exn k msg None)) /\
                (exists e, w_log w' = w_log w ++ [e] /\ le_level e = Warning)
    end.
Proof.
  intros Hc b c'. unfold record_step, _get_context, set_context, warning, log_line,
    _add_timestamp_if_missing. run_m. rewrite Hc. simpl.
  subst c' b. unfold breaker, with_context, next_step. simpl.
  destruct (_ <? delta); [|case_bool_decide; [|case_match]]; simpl;
    rewrite ?insert_insert_eq; do 2 eexists; (split; [reflexivity|]); eauto.
Qed.

Lemma record_step_unknown sid delta sg desc d w :
  _contexts d !! sid = None ->
  record_step sid delta sg desc d w
  = (Err (Exn KeyError ("Execution context " +:+ uuid_str sid +:+ " not found") None), (d, w)).
Proof. intros Hn. unfold record_step, _get_context. run_m. by rewrite Hn. Qed.

(** Reaching the streak limit, spelled out on the step list. *)
Lemma streak_limit l m :
  1 <= m -> m <= _no_progress_streak l <->
  exists pre mid, l = pre ++ mid /\ Z.of_nat (length mid) = m /\ Forall is_no_progress mid.
Proof.
  intros Hm. rewrite <- (Z2Nat.id m) at 1 by lia. rewrite streak_ge.
  split; intros (pre & mid & E & Hl & Hf); exists pre, mid; split_and!; auto; lia.
Qed.

End behaviour.

(** ** Runs of steps *)

(** A step request: tokens, signal, description. *)
Definition step_req : Type := Z * LoopSignal * string.

Section runs.
Context `{Env} `{HasSettings}.
Implicit Types (d : LoopDetector) (w : World) (c : ExecutionContext) (l : list step_req).

(** The agent loop: record steps until one of them raises. *)
Definition run_steps (sid : UUID) (l : list step_req) : M LoopDetector unit :=
  for_each l (fun '(delta, sg, desc) => record_step sid delta sg desc ;; mret tt).

(** Steps with consecutive numbers from [n + 1] on. *)
Fixpoint number_from (n : Z) (l : list step_req) : list StepRecord :=
  match l with
  | [] => []
  | (delta, sg, desc) :: l => mkStep (n + 1) delta sg desc :: number_from (n + 1) l
  end.

Definition silent_from (d : LoopDetector) (h new : list StepRecord) : Prop :=
  forall pre s suf, new = pre ++ s :: suf ->
    breaker (_max_agent_steps d) (_max_token_velocity d) (h ++ pre) s = None.

Lemma silent_cons d h s new :
  silent_from d h (s :: new) <->
  breaker (_max_agent_steps d) (_max_token_velocity d) h s = None /\
  silent_from d (h ++ [s]) new.
Proof.
  unfold silent_from. split.
  - intros Hs. split; [specialize (Hs [] s new eq_refl); by rewrite app_nil_r in Hs|].
    intros pre x suf ->. rewrite <- app_assoc. by apply (Hs (s :: pre) x suf).
  - intros [H1 H2] pre x suf E. destruct pre as [|y pre]; simplify_eq/=.
    + by rewrite app_nil_r.
    + rewrite (cons_middle y h pre), app_assoc. by eapply H2.
Qed.

(** A run raises nothing exactly when no step of it meets a breaker. *)
Lemma run_silent sid l d w c :
  _contexts d !! sid = Some c ->
  (run_steps sid l d w).1 = Ok tt <->
  silent_from d (steps c) (number_from (Z.of_nat (length (steps c))) l).
Proof.
  revert d w c. induction l as [|[[delta sg] desc] l IH]; intros d w c Hc.
  - split; [|done]. intros _ pre s suf E. by destruct pre.
  - simpl number_from. rewrite silent_cons.
    unfold run_steps; simpl; fold (run_steps sid l). unfold mbind, M_bind.
    destruct (record_step_run sid delta sg desc d w c Hc) as (r & w' & -> & Hb).
    unfold next_step in Hb. destruct (breaker _ _ _ _) as [k|].
    + destruct Hb as [[msg ->] _]. simpl. split; [done|by intros [? _]].
    + destruct Hb as [-> ->]. cbv [mret M_ret]. simpl set_flags.
      rewrite (IH _ _ (append_step delta sg desc c)) by apply lookup_insert_eq.
      simpl steps. rewrite length_app, Nat2Z.inj_add. simpl. tauto.
Qed.

Lemma number_signals n l : signal <$> number_from n l = (fun r => r.1.2) <$> l.
Proof. revert n. by induction l as [|[[? ?] ?] l IH]; intros n; simpl; [|rewrite IH]. Qed.
Lemma number_deltas n l : token_delta <$> number_from n l = (fun r => r.1.1) <$> l.
Proof. revert n. by induction l as [|[[? ?] ?] l IH]; intros n; simpl; [|rewrite IH]. Qed.

Lemma number_forall (P : Z * LoopSignal -> Prop) n l :
  Forall (fun s => P (token_delta s, signal s)) (number_from n l) <-> Forall (fun r => P r.1) l.
Proof.
  revert n. induction l as [|[[? ?] ?] l IH]; intros n; simpl; [done|].
  by rewrite !Forall_cons, IH.
Qed.

Lemma number_app n l1 l2 :
  number_from n (l1 ++ l2) = number_from n l1 ++ number_from (n + Z.of_nat (length l1)) l2.
Proof.
  revert n. induction l1 as [|[[? ?] ?] l1 IH]; intros n; simpl; [by rewrite Z.add_0_r|].
  rewrite IH. do 2 f_equal. f_equal. lia.
Qed.

Lemma number_length n l : length (number_from n l) = length l.
Proof. revert n. induction l as [|[[? ?] ?] l IH]; intros n; simpl; auto. Qed.

Lemma number_app_inv n l pre suf :
  number_from n l = pre ++ suf ->
  exists l1 l2, l = l1 ++ l2 /\ pre = number_from n l1 /\
    suf = number_from (n + Z.of_nat (length l1)) l2.
Proof.
  intros E. exists (take (length pre) l), (drop (length pre) l).
  pose proof (f_equal length E) as El. rewrite number_length, length_app in El.
  rewrite <- (take_drop (length pre) l), number_app in E at 1.
  apply app_inj_1 in E as [E1 E2]; [|rewrite number_length, length_take; lia].
  split_and!; [by rewrite take_drop|done..].
Qed.

(** C29. The breakers on a whole execution: a run on a fresh context goes through
    undisturbed if and only if every step stays within the velocity limit,
    none asks for a human, and no [max_agent_steps] consecutive steps of it
    are all without progress. *)
Theorem run_undisturbed_iff sid l d w c :
  _contexts d !! sid = Some c -> steps c = [] -> 1 <= _max_agent_steps d ->
  (run_steps sid l d w).1 = Ok tt <->
  Forall (fun r => r.1.1 <= _max_token_velocity d /\ r.1.2 <> HUMAN_REQUIRED) l /\
  ~ (exists pre mid suf, l = pre ++ mid ++ suf /\ Z.of_nat (length mid) = _max_agent_steps d /\
       Forall (fun r => r.1.2 = NO_PROGRESS) mid).
Proof.
  intros Hc Hn Hm. rewrite (run_silent sid l d w c Hc), Hn.
  change (Z.of_nat (length (@nil StepRecord))) with 0. split.
  - intros Hs. split.
    + apply (number_forall (fun p => p.1 <= _max_token_velocity d /\ p.2 <> HUMAN_REQUIRED) 0).
      apply Forall_lookup_2. intros i s Hi. apply take_drop_middle in Hi.
      specialize (Hs _ _ _ (eq_sym Hi)). unfold breaker in Hs. simpl.
      destruct (Z.ltb_spec (_max_token_velocity d) (token_delta s)); [done|].
      case_bool_decide; [done|]. done.
    + intros (pre & mid & suf & -> & Hl & Hf).
      destruct mid as [|x mid _] using rev_ind; [simpl in Hl; lia|].
      rewrite app_assoc, number_app in Hs.
      assert (Hstreak : _max_agent_steps d <= _no_progress_streak (number_from 0 (pre ++ mid ++ [x]))).
      { apply streak_limit; [done|]. rewrite number_app. do 2 eexists. split; [reflexivity|].
        rewrite number_length. split; [done|].
        by apply (number_forall (fun p => p.2 = NO_PROGRESS)). }
      rewrite app_assoc, number_app in Hs, Hstreak. destruct x as [[delta sg] desc]. simpl in *.
      rewrite <- (app_assoc (number_from 0 (pre ++ mid))) in Hs.
      specialize (Hs _ _ _ eq_refl). revert Hs. unfold breaker; simpl.
      rewrite (proj2 (Z.leb_le _ _) Hstreak). by split_matches.
  - intros [Hf Hw] pre s suf E. unfold breaker; simpl.
    apply (number_forall (fun p => p.1 <= _max_token_velocity d /\ p.2 <> HUMAN_REQUIRED) 0) in Hf.
    rewrite E in Hf. apply Forall_app in Hf as [_ Hf]. apply Forall_cons in Hf as [[H1 H2] _].
    simpl in H1, H2. rewrite (proj2 (Z.ltb_ge _ _) H1), bool_decide_false by done.
    destruct (Z.leb_spec (_max_agent_steps d) (_no_progress_streak (pre ++ [s]))) as [Hl|]; [|done].
    exfalso. apply Hw. apply streak_limit in Hl as (p & m & E2 & Hl & Hf'); [|done].
    rewrite cons_middle, app_assoc, E2, <- app_assoc in E.
    apply number_app_inv in E as (l1 & l2 & -> & -> & E).
    symmetry in E. apply number_app_inv in E as (l3 & l4 & -> & -> & ->).
    exists l1, l3, l4. split_and!; [done|by rewrite number_length in Hl|].
    by apply (number_forall (fun p => p.2 = NO_PROGRESS)) in Hf'.
Qed.
End runs.

(** ** The registry invariant *)

Definition sum_deltas (l : list StepRecord) : Z :=
  foldr (fun s acc => token_delta s + acc) 0 l.

(** A context agrees with its own step list: the steps are numbered 1, 2, ...,
    the token total is their sum, and each flag is set exactly when some step
    of the list met the corresponding breaker. *)
Record context_ok (m v : Z) (sid : UUID) (c : ExecutionContext) : Prop := {
  ok_id : ctx_session_id c = sid;
  ok_numbers : step_number <$> steps c = (fun n => Z.of_nat n) <$> seq 1 (length (steps c));
  ok_total : total_tokens c = sum_deltas (steps c);
  ok_loop : loop_detected c = true <->
    exists pre s suf, steps c = pre ++ s :: suf /\
      (breaker m v pre s = Some TokenVelocityError \/
       breaker m v pre s = Some LoopDetectedError);
  ok_human : intervention_required c = true <->
    exists pre s suf, steps c = pre ++ s :: suf /\
      breaker m v pre s = Some PendingApprovalError
}.

(** What happens to a detector and its checkpoints: a context is created, a step is
    recorded, a checkpoint is taken and kept, any checkpoint kept so far is restored (so
    a context may go back to an earlier one, also after it was created anew), or the
    process starts again, with a new detector of the same limits and the checkpoints
    still there. *)
Inductive detector_op : Type :=
  | LCreate (sid : UUID) (agent : string)
  | LStep (sid : UUID) (delta : Z) (sg : LoopSignal) (desc : string)
  | LCheckpoint (sid : UUID)
  | LRestore (n : nat)
  | LRestart.

Section invariant.
Context `{Env} `{HasSettings}.
Implicit Types (d : LoopDetector) (w : World) (c : ExecutionContext).

Definition do_op (o : detector_op) (d : LoopDetector) (kept : list ExecutionCheckpoint) (w : World)
    : LoopDetector * list ExecutionCheckpoint * World :=
  match o with
  | LCreate sid agent => let '(_, (d', w')) := create_context sid agent d w in (d', kept, w')
  | LStep sid delta sg desc =>
      let '(_, (d', w')) := record_step sid delta sg desc d w in (d', kept, w')
  | LCheckpoint sid =>
      let '(r, (d', w')) := checkpoint sid d w in
      (d', match r with Ok snap => kept ++ [snap] | Err _ => kept end, w')
  | LRestore n =>
      match kept !! n with
      | Some snap => let '(_, (d', w')) := restore snap d w in (d', kept, w')
      | None => (d, kept, w)
      end
  | LRestart =>
      (LoopDetector_init (Some (_max_agent_steps d)) (Some (_max_token_velocity d)), kept, w)
  end.

(** One after the other; one that raises does not stop the next. *)
Fixpoint do_ops (os : list detector_op) (d : LoopDetector) (kept : list ExecutionCheckpoint)
    (w : World) : LoopDetector * list ExecutionCheckpoint * World :=
  match os with
  | [] => (d, kept, w)
  | o :: os => let '(d', kept', w') := do_op o d kept w in do_ops os d' kept' w'
  end.

Lemma split_snoc {A} (l pre suf : list A) x s :
  l ++ [x] = pre ++ s :: suf <->
  (exists suf', suf = suf' ++ [x] /\ l = pre ++ s :: suf') \/ (suf = [] /\ s = x /\ l = pre).
Proof.
  split.
  - destruct suf as [|y suf _] using rev_ind.
    + intros E. apply app_inj_tail in E as [-> ->]. auto.
    + rewrite app_comm_cons, app_assoc. intros E. apply app_inj_tail in E as [-> ->]. eauto.
  - intros [(suf' & -> & ->)|(-> & -> & ->)]; [|done]. by rewrite <- app_assoc.
Qed.

(** Adding a step adds its own breaker to those met before. *)
Lemma met_snoc (P : list StepRecord -> StepRecord -> Prop) l x :
  (exists pre s suf, l ++ [x] = pre ++ s :: suf /\ P pre s) <->
  (exists pre s suf, l = pre ++ s :: suf /\ P pre s) \/ P l x.
Proof.
  split.
  - intros (pre & s & suf & E & HP).
    apply split_snoc in E as [(suf' & -> & ->)|(-> & -> & ->)]; eauto 6.
  - intros [(pre & s & suf & -> & HP)|HP].
    + exists pre, s, (suf ++ [x]). by rewrite <- app_assoc.
    + by exists l, x, [].
Qed.

Lemma sum_deltas_app l1 l2 : sum_deltas (l1 ++ l2) = sum_deltas l1 + sum_deltas l2.
Proof. induction l1 as [|s l1 IH]; simpl; [done|]. rewrite IH. lia. Qed.

Lemma breaker_cases m v h s k :
  breaker m v h s = Some k ->
  k = TokenVelocityError \/ k = PendingApprovalError \/ k = LoopDetectedError.
Proof. unfold breaker. split_matches; naive_solver. Qed.

Lemma context_ok_step m v sid c delta sg desc :
  context_ok m v sid c ->
  context_ok m v sid
    (set_flags (breaker m v (steps c)
                  (next_step c delta sg desc)) (append_step delta sg desc c)).
Proof.
  intros [Hid Hnum Htot Hloop Hhum].
  set (s := next_step c delta sg desc). set (b := breaker _ _ _ s).
  assert (Hst : steps (set_flags b (append_step delta sg desc c)) = steps c ++ [s])
    by (by destruct b as [[]|]).
  constructor; rewrite ?Hst, ?met_snoc, <- ?Hloop, <- ?Hhum; fold b.
  - by destruct b as [[]|].
  - rewrite length_app, fmap_app, Hnum, seq_app, fmap_app. simpl. do 2 f_equal. lia.
  - rewrite sum_deltas_app, <- Htot. simpl. destruct b as [[]|]; simpl; lia.
  - destruct b as [k|] eqn:Eb; [|clear; simpl; intuition congruence].
    apply breaker_cases in Eb as [->|[-> | ->]]; clear; simpl; intuition congruence.
  - destruct b as [k|] eqn:Eb; [|clear; simpl; intuition congruence].
    apply breaker_cases in Eb as [->|[-> | ->]]; clear; simpl; intuition congruence.
Qed.

Lemma LoopSignal_of_value sg : LoopSignal_of (LoopSignal_value sg) = Ok sg.
Proof. by destruct sg. Qed.

(** A checkpoint restores to the context it was taken from. *)
Lemma restore_steps_checkpoint c : restore_steps (ck_steps (checkpoint_of c)) = Ok (steps c).
Proof.
  simpl. induction (steps c) as [|[n t sg de] l IH]; [done|].
  rewrite fmap_cons. cbn [restore_steps snap_signal]. by rewrite LoopSignal_of_value, IH.
Qed.

Lemma restore_checkpoint_run d w c :
  uuid_wf (ctx_session_id c) ->
  restore (checkpoint_of c) d w = (Ok c, (with_context d (ctx_session_id c) c, w)).
Proof.
  intros Hu. unfold restore, mbind, M_bind.
  simpl ck_session_id. rewrite uuid_parse_str by done. unfold of_option, mret, M_ret, of_result.
  rewrite restore_steps_checkpoint. by destruct c.
Qed.

Definition registry_ok (d : LoopDetector) : Prop :=
  forall sid c, _contexts d !! sid = Some c -> context_ok (_max_agent_steps d) (_max_token_velocity d) sid c.

Lemma detector_ok_insert d sid c :
  registry_ok d -> context_ok (_max_agent_steps d) (_max_token_velocity d) sid c -> registry_ok (with_context d sid c).
Proof.
  intros Hd Hc sid' c'. simpl. rewrite lookup_insert. case_decide; [|apply Hd].
  intros [= <-]. by subst.
Qed.

(** The ids contexts are created under are UUIDs of 128 bits. *)
Definition op_wf (o : detector_op) : Prop :=
  match o with LCreate s _ => uuid_wf s | _ => True end.

(** Contexts in order, under ids that are UUIDs, and checkpoints of such contexts. *)
Definition kept_ok (m v : Z) (ck : ExecutionCheckpoint) : Prop :=
  exists c, ck = checkpoint_of c /\ uuid_wf (ctx_session_id c) /\
    context_ok m v (ctx_session_id c) c.
Definition detector_ok (m v : Z) (d : LoopDetector) (kept : list ExecutionCheckpoint) : Prop :=
  _max_agent_steps d = m /\ _max_token_velocity d = v /\ registry_ok d /\
  (forall sid, is_Some (_contexts d !! sid) -> uuid_wf sid) /\ Forall (kept_ok m v) kept.

Lemma detector_ok_set m v d kept sid c :
  detector_ok m v d kept -> uuid_wf sid -> context_ok m v sid c ->
  detector_ok m v (with_context d sid c) kept.
Proof.
  intros (<- & <- & Hr & Hw & Hk) Hu Hc. split_and!; try done; [by apply detector_ok_insert|].
  intros sid'. simpl. rewrite lookup_insert. case_decide; [by subst|apply Hw].
Qed.

Lemma do_op_ok m v o d kept w :
  detector_ok m v d kept -> op_wf o ->
  let '(d', kept', _) := do_op o d kept w in detector_ok m v d' kept'.
Proof.
  intros Hd Ho. pose proof Hd as (Hm & Hv & Hr & Hw & Hk).
  destruct o as [sid agent|sid delta sg desc|sid|n|]; cbn [do_op op_wf] in *.
  - apply (detector_ok_set m v d); [done|done|]. constructor; simpl; try done;
      (split; [done|]; intros ([|??] & ? & ? & ? & ?); discriminate).
  - destruct (_contexts d !! sid) as [c|] eqn:Hc; [|by rewrite record_step_unknown].
    destruct (record_step_run sid delta sg desc d w c Hc) as (r & w' & -> & _).
    apply detector_ok_set; [done|by apply Hw|]. subst. auto using context_ok_step.
  - unfold checkpoint, _get_context, gets, of_option, mbind, M_bind.
    destruct (_contexts d !! sid) as [c|] eqn:Hc; [|done]. unfold mret, M_ret.
    assert (Hid := ok_id _ _ _ _ (Hr _ _ Hc)). split_and!; try done. apply Forall_app.
    split; [done|]. constructor; [|constructor]. exists c. split; [done|]. rewrite Hid.
    split; [apply Hw; by rewrite Hc|]. subst m v. by apply Hr.
  - destruct (kept !! n) as [ck|] eqn:En; [|done].
    destruct (proj1 (Forall_lookup _ _) Hk _ _ En) as (c & -> & Hu & Hc).
    rewrite restore_checkpoint_run by done. by apply detector_ok_set.
  - split_and!; try done; intros sid; simpl; rewrite lookup_empty; by intros.
Qed.


(** A checkpoint from elsewhere is believed: its token total need not be that of its
    steps. *)
Example foreign_checkpoint_believed d w :
  restore (mkCheckpoint "00000000-0000-0000-0000-000000000007" "hr" 9 false false []) d w
  = let c := mkContext (mkUUID 7) "hr" [] 9 false false in
    (Ok c, (with_context d (mkUUID 7) c, w)).
Proof. vm_compute. reflexivity. Qed.
End invariant.

(** ** Checkpoints *)

Section resume.
Context `{Env} `{HasSettings}.
Implicit Types (d : LoopDetector) (w : World) (c : ExecutionContext).

(** Two detectors that no operation on [sid] can tell apart. *)
Definition same_on (sid : UUID) (d1 d2 : LoopDetector) : Prop :=
  _max_agent_steps d1 = _max_agent_steps d2 /\
  _max_token_velocity d1 = _max_token_velocity d2 /\
  _contexts d1 !! sid = _contexts d2 !! sid.

(** Every result of a series of steps, each made whatever the last returned. *)
Fixpoint all_results (sid : UUID) (l : list step_req) (d : LoopDetector) (w : World)
    : list (result ExecutionContext) * (LoopDetector * World) :=
  match l with
  | [] => ([], (d, w))
  | (delta, sg, desc) :: l =>
      let '(r, (d', w')) := record_step sid delta sg desc d w in
      let '(rs, dw) := all_results sid l d' w' in (r :: rs, dw)
  end.

Lemma record_step_same sid delta sg desc d1 d2 w :
  same_on sid d1 d2 ->
  let '(r1, (d1', w1)) := record_step sid delta sg desc d1 w in
  let '(r2, (d2', w2)) := record_step sid delta sg desc d2 w in
  r1 = r2 /\ w1 = w2 /\ same_on sid d1' d2'.
Proof.
  intros (H1 & H2 & H3). unfold record_step, _get_context, set_context, warning, log_line,
    _add_timestamp_if_missing, same_on. run_m. rewrite H3.
  destruct (_contexts d2 !! sid) as [c|] eqn:E; simpl; [|rewrite E; done].
  rewrite ?H1, ?H2.
  destruct (_ <? delta); [|case_bool_decide; [|destruct (_ <=? _)]]; simpl;
    rewrite ?lookup_insert_eq; auto.
Qed.

Lemma all_results_same sid l d1 d2 w :
  same_on sid d1 d2 ->
  (all_results sid l d1 w).1 = (all_results sid l d2 w).1 /\
  (all_results sid l d1 w).2.2 = (all_results sid l d2 w).2.2 /\
  same_on sid (all_results sid l d1 w).2.1 (all_results sid l d2 w).2.1.
Proof.
  revert d1 d2 w. induction l as [|[[delta sg] desc] l IH]; intros d1 d2 w Hs; [done|].
  simpl. pose proof (record_step_same sid delta sg desc d1 d2 w Hs) as Hr.
  destruct (record_step sid delta sg desc d1 w) as [r1 [d1' w1]],
    (record_step sid delta sg desc d2 w) as [r2 [d2' w2]].
  destruct Hr as (-> & -> & Hs'). specialize (IH _ _ w2 Hs').
  destruct (all_results sid l d1' w2) as [? []], (all_results sid l d2' w2) as [? []].
  simpl in *. destruct IH as (-> & -> & ?). done.
Qed.

(** Resuming from a checkpoint is as if execution had never been interrupted:
    restoring the checkpoint of a session on any detector with the same
    limits gives back the same context, and every later series of steps on
    the session then returns the same results, raises the same errors, emits
    the same log and leaves the same context as on the original detector. *)
Theorem restore_resumes sid c d1 d2 w l :
  uuid_wf sid -> _contexts d1 !! sid = Some c -> ctx_session_id c = sid ->
  _max_agent_steps d1 = _max_agent_steps d2 ->
  _max_token_velocity d1 = _max_token_velocity d2 ->
  exists snap d2', checkpoint sid d1 w = (Ok snap, (d1, w)) /\
    restore snap d2 w = (Ok c, (d2', w)) /\
    (all_results sid l d1 w).1 = (all_results sid l d2' w).1 /\
    (all_results sid l d1 w).2.2 = (all_results sid l d2' w).2.2 /\
    _contexts (all_results sid l d1 w).2.1 !! sid = _contexts (all_results sid l d2' w).2.1 !! sid.
Proof.
  intros Hu Hc Hid Hm Hv. assert (Hs : same_on sid d1 (with_context d2 sid c))
    by (split_and!; try done; simpl; by rewrite lookup_insert_eq).
  exists (checkpoint_of c), (with_context d2 sid c). split_and!.
  - unfold checkpoint, _get_context, gets, mbind, M_bind. by rewrite Hc.
  - rewrite restore_checkpoint_run by (by rewrite Hid). by rewrite Hid.
  - by apply all_results_same.
  - by apply all_results_same.
  - by apply all_results_same.
Qed.

Lemma restore_steps_error l e : restore_steps l = Err e -> exn_class e = ValueError.
Proof.
  induction l as [|s l IH]; [done|]. cbn [restore_steps].
  destruct (LoopSignal_of (snap_signal s)) as [sg|e'] eqn:E.
  - destruct (restore_steps l); [done|]. auto.
  - intros [= <-]. revert E. unfold LoopSignal_of. do 3 (case_bool_decide; [done|]).
    by intros [= <-].
Qed.

(** A snapshot with a malformed UUID or an unknown signal is refused with
    [ValueError] and the registry is left as it was; a snapshot that parses
    is registered under its own id, replacing what was there. *)
Theorem restore_rejects snap d w :
  match restore snap d w with
  | (Err e, (d', w')) => exn_class e = ValueError /\ d' = d /\ w' = w
  | (Ok c, (d', w')) =>
      uuid_parse (ck_session_id snap) = Some (ctx_session_id c) /\
      d' = with_context d (ctx_session_id c) c /\ w' = w /\
      length (steps c) = length (ck_steps snap) /\ total_tokens c = ck_total_tokens snap
  end.
Proof.
  unfold restore, of_option, of_result, mbind, M_bind.
  destruct (uuid_parse _) as [sid|]; [|done]. cbv [mret M_ret].
  destruct (restore_steps (ck_steps snap)) as [l|e] eqn:E; simpl;
    [|by apply restore_steps_error in E].
  split_and!; try done. revert l E.
  induction (ck_steps snap) as [|s l' IH]; cbn [restore_steps]; intros l E; [naive_solver|].
  destruct (LoopSignal_of _); [|done]. destruct (restore_steps l'); [|done].
  simplify_eq. simpl. by rewrite (IH _ eq_refl).
Qed.
End resume.

Section runaway.
Context `{Env} `{HasSettings}.

(** A runaway agent is stopped: whatever happened before, a series of at
    least [max_agent_steps] steps none of which reports progress raises, and
    it raises one of the three breaker errors; in particular the loop that
    records the steps cannot complete. *)
Theorem runaway_stopped sid (l : list step_req) d w c :
  _contexts d !! sid = Some c ->
  Forall (fun r => r.1.2 <> PROGRESS) l -> 1 <= _max_agent_steps d <= Z.of_nat (length l) ->
  exists k msg, (run_steps sid l d w).1 = Err (Exn k msg None) /\
    (k = TokenVelocityError \/ k = PendingApprovalError \/ k = LoopDetectedError).
Proof.
  intros Hc Hl Hm.
  assert (Herr : (run_steps sid l d w).1 <> Ok tt).
  { rewrite (run_silent sid l d w c Hc). intros Hs.
    set (n := Z.of_nat (length (steps c))) in *.
    destruct l as [|x l _] using rev_ind; [simpl in Hm; lia|].
    assert (Hnp : Forall is_no_progress (number_from n (l ++ [x]))).
    { apply Forall_lookup_2. intros i s Hi.
      pose proof (number_forall (fun p => p.2 <> PROGRESS) n (l ++ [x])) as [_ Hf].
      specialize (Hf Hl). rewrite Forall_lookup in Hf. specialize (Hf _ _ Hi).
      apply take_drop_middle in Hi. specialize (Hs _ _ _ (eq_sym Hi)).
      unfold breaker in Hs. unfold is_no_progress. simpl in Hf.
      destruct (_ <? _); [done|]. case_bool_decide; [done|]. by destruct (signal s). }
    destruct x as [[delta sg] desc]. rewrite number_app in Hs, Hnp. simpl in Hs, Hnp.
    specialize (Hs _ _ [] eq_refl). revert Hs. unfold breaker.
    destruct (Z.leb_spec (_max_agent_steps d) (_no_progress_streak
      ((steps c ++ number_from n l) ++ [mkStep (n + Z.of_nat (length l) + 1) delta sg desc])))
      as [|Hlt]; [by split_matches|].
    exfalso. apply Z.lt_nge in Hlt. apply Hlt. rewrite <- app_assoc.
    etrans; [apply Hm|]. apply streak_ge. do 2 eexists. split; [reflexivity|].
    split; [|done]. rewrite !length_app, number_length. done. }
  clear Hl Hm. revert d w c Hc Herr. induction l as [|[[delta sg] desc] l IH]; intros d w c Hc Herr;
    [done|]. unfold run_steps in *; simpl in *. unfold mbind, M_bind in *.
  destruct (record_step_run sid delta sg desc d w c Hc) as (r & w' & E & Hb).
  rewrite E in *. destruct (breaker _ _ _ _) eqn:Eb.
  - destruct Hb as [[msg ->] _]. simpl in *. do 2 eexists. split; [done|].
    by eapply breaker_cases.
  - destruct Hb as [-> ->]. cbv [mret M_ret] in *.
    eapply IH; [apply lookup_insert_eq|done].
Qed.
End runaway.

(** ** Witnesses *)

Definition demo_uuid : UUID := mkUUID 7.
Definition demo_ctx : ExecutionContext := new_context demo_uuid "finance".
Definition demo_detector : LoopDetector := mkDetector 2 100 {[demo_uuid := demo_ctx]}.
#[local] Existing Instance demo_env.
#[local] Instance demo_settings : HasSettings := default_settings.


Definition demo_steps : list step_req :=
  [(5, NO_PROGRESS, ""); (6, PROGRESS, ""); (7, NO_PROGRESS, "")]%string.

Lemma run_undisturbed_iff_witness :
  Forall (fun r => r.1.1 <= 100 /\ r.1.2 <> HUMAN_REQUIRED) demo_steps.
Proof.
  pose proof (run_undisturbed_iff demo_uuid demo_steps demo_detector w_empty demo_ctx
    eq_refl eq_refl ltac:(simpl; lia)) as [Hr _].
  destruct (Hr eq_refl) as [Hf _]. exact Hf.
Defined.

Lemma runaway_stopped_witness :
  exists k msg, (run_steps demo_uuid [(5, NO_PROGRESS, ""); (6, HUMAN_REQUIRED, "")]%string
                  demo_detector w_empty).1 = Err (Exn k msg None).
Proof.
  destruct (runaway_stopped demo_uuid [(5, NO_PROGRESS, ""); (6, HUMAN_REQUIRED, "")]%string
    demo_detector w_empty demo_ctx eq_refl ltac:(repeat constructor; simpl; congruence)
    ltac:(simpl; lia)) as (k & msg & E & _).
  exists k, msg. exact E.
Defined.


Lemma restore_resumes_witness :
  exists snap d2', checkpoint demo_uuid demo_detector w_empty = (Ok snap, (demo_detector, w_empty)) /\
    restore snap (mkDetector 2 100 ∅) w_empty = (Ok demo_ctx, (d2', w_empty)).
Proof.
  destruct (restore_resumes demo_uuid demo_ctx demo_detector (mkDetector 2 100 ∅) w_empty demo_steps
    ltac:(split; vm_compute; congruence) eq_refl eq_refl eq_refl eq_refl)
    as (snap & d2' & E1 & E2 & _).
  exists snap, d2'. split; [exact E1|exact E2].
Defined.
