(* ===== verification/PyCrypto.v ===== *)
(** * Byte-level helpers of the Python standard library

    [base64.urlsafe_b64encode]/[urlsafe_b64decode], [hashlib.sha256] and
    [json.dumps(..., sort_keys=True, separators=(",", ":"))], as
    src/governance/session_mgr.py uses them.  A byte is an integer in
    [0, 256); a [str] is held as its UTF-8 bytes. *)
From Stdlib Require Import ZArith Lia Ascii String.
From stdpp Require Import base strings list sorting pretty.
From S2P Require Import Prelude.

Definition byte_of_ascii (a : ascii) : Z := Z.of_N (N_of_ascii a).
Definition ascii_of_byte (b : Z) : ascii := ascii_of_N (Z.to_N b).
(** [s.encode()] and its inverse. *)
Definition str_bytes (s : string) : list Z := byte_of_ascii <$> list_ascii_of_string s.
Definition bytes_str (l : list Z) : string := string_of_list_ascii (ascii_of_byte <$> l).
Definition is_byte (b : Z) : Prop := 0 <= b < 256.

(** ** Base64 *)

Definition b64_alphabet : string :=
  "ABCDEFGHIJKLMNOPQRSTUVWXYZabcdefghijklmnopqrstuvwxyz0123456789-_".

Definition b64_char (v : Z) : ascii :=
  default "A"%char (list_ascii_of_string b64_alphabet !! Z.to_nat v).

(** Value of a character after [urlsafe_b64decode]'s translation of [-_] to
    [+/]; [None] for the characters the decoder skips. *)
Definition b64_val (a : ascii) : option Z :=
  let n := byte_of_ascii a in
  if (65 <=? n) && (n <=? 90) then Some (n - 65)
  else if (97 <=? n) && (n <=? 122) then Some (n - 71)
  else if (48 <=? n) && (n <=? 57) then Some (n + 4)
  else if (n =? 43) || (n =? 45) then Some 62
  else if (n =? 47) || (n =? 95) then Some 63
  else None.

(** [urlsafe_b64encode]: three bytes to four characters, padded with [=]. *)
Fixpoint urlsafe_b64encode (l : list Z) : list ascii :=
  match l with
  | [] => []
  | [a] => [b64_char (a / 4); b64_char (a mod 4 * 16); "="%char; "="%char]
  | [a; b] => [b64_char (a / 4); b64_char (a mod 4 * 16 + b / 16);
               b64_char (b mod 16 * 4); "="%char]
  | a :: b :: c :: l =>
      b64_char (a / 4) :: b64_char (a mod 4 * 16 + b / 16)
      :: b64_char (b mod 16 * 4 + c / 64) :: b64_char (c mod 64) :: urlsafe_b64encode l
  end.

(** [s.rstrip("=")] *)
Fixpoint rstrip_eq (l : list ascii) : list ascii :=
  match l with
  | [] => []
  | c :: l => let r := rstrip_eq l in
              if bool_decide (c = "="%char) && bool_decide (r = []) then [] else c :: r
  end.

Definition _b64url_encode (data : list Z) : string :=
  string_of_list_ascii (rstrip_eq (urlsafe_b64encode data)).

(** [binascii.a2b_base64] in its default, lenient mode: characters outside the
    alphabet are skipped; enough padding ends the data; a partial group at the
    end of the input is an error.  [quad] is the position in the group, [left]
    the bits carried over, [pads] the padding characters seen in a row. *)
Fixpoint a2b_base64 (quad left pads : Z) (l : list ascii) : option (list Z) :=
  match l with
  | [] => if quad =? 0 then Some [] else None
  | c :: l =>
      if bool_decide (c = "="%char) then
        if (2 <=? quad) && (4 <=? quad + (pads + 1)) then Some []
        else a2b_base64 quad left (if 2 <=? quad then pads + 1 else pads) l
      else
        match b64_val c with
        | None => a2b_base64 quad left pads l
        | Some v =>
            if quad =? 0 then a2b_base64 1 v 0 l
            else if quad =? 1 then cons (left * 4 + v / 16) <$> a2b_base64 2 (v mod 16) 0 l
            else if quad =? 2 then cons (left * 16 + v / 4) <$> a2b_base64 3 (v mod 4) 0 l
            else cons (left * 64 + v) <$> a2b_base64 0 0 0 l
        end
  end.

Definition is_ascii (a : ascii) : bool := byte_of_ascii a <? 128.

(** [-len(data) % 4] padding characters are added before decoding. *)
Definition _b64url_decode (data : string) : option (list Z) :=
  let l := list_ascii_of_string data in
  if forallb is_ascii l then
    a2b_base64 0 0 0 (l ++ replicate (Z.to_nat ((- Z.of_nat (length l)) mod 4)) "="%char)
  else None.

(** [int.from_bytes(data, "big")] *)
Definition int_from_bytes (l : list Z) : Z := foldl (fun acc b => acc * 256 + b) 0 l.

(** ** ASCII case *)

Definition map_str (f : Z -> Z) (s : string) : string := bytes_str (f <$> str_bytes s).
Definition all_ascii (s : string) : bool := forallb is_ascii (list_ascii_of_string s).
Definition upper_byte (b : Z) : Z := if (97 <=? b) && (b <=? 122) then b - 32 else b.
Definition lower_byte (b : Z) : Z := if (65 <=? b) && (b <=? 90) then b + 32 else b.

(** ** SHA-256 (FIPS 180-4) *)

Definition w32 (x : Z) : Z := x mod 2 ^ 32.
Definition rotr (n x : Z) : Z := Z.lor (Z.shiftr x n) (w32 (Z.shiftl x (32 - n))).
Definition sha_ch (x y z : Z) : Z := Z.lxor (Z.land x y) (Z.land (Z.lxor x (2 ^ 32 - 1)) z).
Definition sha_maj (x y z : Z) : Z :=
  Z.lxor (Z.lxor (Z.land x y) (Z.land x z)) (Z.land y z).
Definition big_sigma0 (x : Z) : Z := Z.lxor (Z.lxor (rotr 2 x) (rotr 13 x)) (rotr 22 x).
Definition big_sigma1 (x : Z) : Z := Z.lxor (Z.lxor (rotr 6 x) (rotr 11 x)) (rotr 25 x).
Definition sigma0 (x : Z) : Z := Z.lxor (Z.lxor (rotr 7 x) (rotr 18 x)) (Z.shiftr x 3).
Definition sigma1 (x : Z) : Z := Z.lxor (Z.lxor (rotr 17 x) (rotr 19 x)) (Z.shiftr x 10).

(** The constants of the standard are the first 32 bits of the fractional parts
    of roots of the first primes: cube roots for the rounds, square roots for the
    initial state.  [cube_root] finds the integer cube root bit by bit. *)
Fixpoint primes_from (fuel : nat) (n : Z) : list Z :=
  match fuel with
  | O => []
  | S fuel =>
      (if forallb (fun d => negb (n mod d =? 0)) (seqZ 2 (Z.sqrt n - 1)) then [n] else [])
      ++ primes_from fuel (n + 1)
  end.
Fixpoint cube_root (bits : nat) (acc n : Z) : Z :=
  match bits with
  | O => acc
  | S b => let acc' := acc + 2 ^ Z.of_nat b in
           cube_root b (if acc' ^ 3 <=? n then acc' else acc) n
  end.
Definition sha_k : list Z :=
  Eval vm_compute in (fun p => w32 (cube_root 36 0 (p * 2 ^ 96))) <$> primes_from 310 2.
Definition sha_init : list Z :=
  Eval vm_compute in (fun p => w32 (Z.sqrt (p * 2 ^ 64))) <$> primes_from 18 2.

(** The message schedule, newest word first. *)
Fixpoint sha_schedule (n : nat) (w : list Z) : list Z :=
  match n with
  | O => w
  | S n => let at_ i := nth i w 0 in
           sha_schedule n
             (w32 (sigma1 (at_ 1%nat) + at_ 6%nat + sigma0 (at_ 14%nat) + at_ 15%nat) :: w)
  end.

Definition sha_round (s : list Z) (kw : Z * Z) : list Z :=
  match s with
  | [a; b; c; d; e; f; g; h] =>
      let t1 := h + big_sigma1 e + sha_ch e f g + kw.1 + kw.2 in
      let t2 := big_sigma0 a + sha_maj a b c in
      [w32 (t1 + t2); a; b; c; w32 (d + t1); e; f; g]
  | _ => s
  end.

Definition sha_block (s : list Z) (block : list Z) : list Z :=
  let ws := reverse (sha_schedule 48 (reverse block)) in
  zip_with (fun x y => w32 (x + y)) s (foldl sha_round s (zip sha_k ws)).

Fixpoint words (l : list Z) : list Z :=
  match l with
  | a :: b :: c :: d :: l => int_from_bytes [a; b; c; d] :: words l
  | _ => []
  end.

Definition word_bytes (w : Z) : list Z :=
  [w / 2 ^ 24 mod 256; w / 2 ^ 16 mod 256; w / 2 ^ 8 mod 256; w mod 256].

Definition sha_pad (l : list Z) : list Z :=
  let n := Z.of_nat (length l) in
  l ++ [128] ++ replicate (Z.to_nat ((55 - n) mod 64)) 0
    ++ word_bytes (n * 8 / 2 ^ 32) ++ word_bytes (w32 (n * 8)).

Fixpoint sha_blocks (n : nat) (s ws : list Z) : list Z :=
  match n with
  | O => s
  | S n => sha_blocks n (sha_block s (take 16 ws)) (drop 16 ws)
  end.

(** [hashlib.sha256(data).digest()] *)
Definition sha256 (data : list Z) : list Z :=
  let ws := words (sha_pad data) in
  mjoin (word_bytes <$>
    sha_blocks (length ws / 16) sha_init ws).

(** [sha256(b"abc")], the first example of the standard. *)
Example sha256_abc :
  int_from_bytes (sha256 (str_bytes "abc"))
  = 0xba7816bf8f01cfea414140de5dae2223b00361a396177a9cb410ff61f20015ad.
Proof. vm_compute. reflexivity. Qed.

(** ** json.dumps *)

Definition hex4 (n : Z) : string :=
  let digit d := if d <? 10 then ascii_of_byte (48 + d) else ascii_of_byte (87 + d) in
  string_of_list_ascii [digit (n / 4096 mod 16); digit (n / 256 mod 16);
                        digit (n / 16 mod 16); digit (n mod 16)].

(** Code points of a UTF-8 byte list; bytes that are not UTF-8 are read one at a
    time (a Python [str] never holds them). *)
Fixpoint utf8_points (l : list Z) : list Z :=
  match l with
  | [] => []
  | a :: l1 =>
      if a <? 0xc0 then a :: utf8_points l1
      else if a <? 0xe0 then
        match l1 with b :: l2 => (a mod 32 * 64 + b mod 64) :: utf8_points l2 | _ => [a] end
      else if a <? 0xf0 then
        match l1 with
        | b :: c :: l2 => (a mod 16 * 4096 + b mod 64 * 64 + c mod 64) :: utf8_points l2
        | _ => [a]
        end
      else
        match l1 with
        | b :: c :: d :: l2 =>
            (a mod 8 * 262144 + b mod 64 * 4096 + c mod 64 * 64 + d mod 64) :: utf8_points l2
        | _ => [a]
        end
  end.

Definition json_escape_point (p : Z) : string :=
  if p =? 34 then bytes_str [92; 34]
  else if p =? 92 then bytes_str [92; 92]
  else if p =? 10 then bytes_str [92; 110]
  else if p =? 13 then bytes_str [92; 114]
  else if p =? 9 then bytes_str [92; 116]
  else if p =? 8 then bytes_str [92; 98]
  else if p =? 12 then bytes_str [92; 102]
  else if (32 <=? p) && (p <? 127) then bytes_str [p]
  else if p <? 65536 then bytes_str [92; 117] +:+ hex4 p
  else bytes_str [92; 117] +:+ hex4 (0xd800 + (p - 65536) / 1024)
       +:+ bytes_str [92; 117] +:+ hex4 (0xdc00 + (p - 65536) mod 1024).

Definition quote : string := bytes_str [34].

Definition json_dumps_str (s : string) : string :=
  quote +:+ String.concat "" (json_escape_point <$> utf8_points (str_bytes s)) +:+ quote.

(** [repr] of a float, which the standard library leaves to C. *)
Class FloatRepr : Type := float_repr : Z -> string.

(** Order of the items under [sort_keys=True]. *)
Definition key_le (p q : string * string) : Prop := String.leb p.1 q.1 = true.
#[global] Instance key_le_dec : RelDecision key_le.
Proof. intros p q. unfold key_le. apply _. Defined.

Fixpoint json_dumps `{FloatRepr} (j : json) : string :=
  match j with
  | JNull => "null"
  | JBool true => "true"
  | JBool false => "false"
  | JInt z => pretty z
  | JTime t => float_repr t
  | JStr s => json_dumps_str s
  | JList l => "[" +:+ String.concat "," (json_dumps <$> l) +:+ "]"
  | JObj fs =>
      "{" +:+ String.concat ","
        ((fun p : string * string => json_dumps_str p.1 +:+ ":" +:+ p.2)
           <$> merge_sort key_le ((fun p : string * json => (p.1, json_dumps p.2)) <$> fs))
      +:+ "}"
  end.

(** ** Base64 round trip *)

(** The alphabet, checked character by character. *)
Lemma b64_char_spec v :
  0 <= v < 64 ->
  b64_val (b64_char v) = Some v /\ b64_char v <> "="%char /\ is_ascii (b64_char v) = true.
Proof.
  intros Hv.
  assert (Hall : Forall (fun n => b64_val (b64_char (Z.of_nat n)) = Some (Z.of_nat n) /\
                   b64_char (Z.of_nat n) <> "="%char /\ is_ascii (b64_char (Z.of_nat n)) = true)
                   (seq 0 64)).
  { repeat constructor; vm_compute; congruence. }
  rewrite Forall_forall in Hall. specialize (Hall (Z.to_nat v)).
  rewrite Z2Nat.id in Hall by lia. apply Hall, elem_of_seq. lia.
Qed.

(** Reading one alphabet character. *)
Lemma a2b_char quad left pads v l :
  0 <= v < 64 ->
  a2b_base64 quad left pads (b64_char v :: l)
  = if quad =? 0 then a2b_base64 1 v 0 l
    else if quad =? 1 then cons (left * 4 + v / 16) <$> a2b_base64 2 (v mod 16) 0 l
    else if quad =? 2 then cons (left * 16 + v / 4) <$> a2b_base64 3 (v mod 4) 0 l
    else cons (left * 64 + v) <$> a2b_base64 0 0 0 l.
Proof.
  intros Hv. destruct (b64_char_spec v Hv) as (E & Hne & _).
  cbn [a2b_base64]. rewrite bool_decide_false by done. by rewrite E.
Qed.

Lemma group_bits3 a b c : is_byte a -> is_byte b -> is_byte c ->
  (0 <= a / 4 < 64 /\ 0 <= a mod 4 * 16 + b / 16 < 64 /\ 0 <= b mod 16 * 4 + c / 64 < 64
   /\ 0 <= c mod 64 < 64) /\
  a / 4 * 4 + (a mod 4 * 16 + b / 16) / 16 = a /\
  (a mod 4 * 16 + b / 16) mod 16 * 16 + (b mod 16 * 4 + c / 64) / 4 = b /\
  (b mod 16 * 4 + c / 64) mod 4 * 64 + c mod 64 = c.
Proof. unfold is_byte. intros Ha Hb Hc. split_and!; Z.to_euclidean_division_equations; lia. Qed.

(** The characters before the padding. *)
Fixpoint b64_core (l : list Z) : list ascii :=
  match l with
  | [] => []
  | [a] => [b64_char (a / 4); b64_char (a mod 4 * 16)]
  | [a; b] => [b64_char (a / 4); b64_char (a mod 4 * 16 + b / 16); b64_char (b mod 16 * 4)]
  | a :: b :: c :: l =>
      b64_char (a / 4) :: b64_char (a mod 4 * 16 + b / 16)
      :: b64_char (b mod 16 * 4 + c / 64) :: b64_char (c mod 64) :: b64_core l
  end.

(** Induction over groups of three. *)
Lemma list_ind3 {A} (P : list A -> Prop) :
  P [] -> (forall a, P [a]) -> (forall a b, P [a; b]) ->
  (forall a b c l, P l -> P (a :: b :: c :: l)) -> forall l, P l.
Proof.
  intros H0 H1 H2 H3. fix IH 1. intros [|a [|b [|c l]]]; [done|apply H1|apply H2|].
  apply H3, IH.
Qed.

Lemma rstrip_cons c l : c <> "="%char -> rstrip_eq (c :: l) = c :: rstrip_eq l.
Proof. intros Hc. simpl. by rewrite bool_decide_false. Qed.

Lemma is_byte_parts a : is_byte a ->
  0 <= a / 4 < 64 /\ 0 <= a mod 4 * 16 < 64 /\ 0 <= a mod 16 * 4 < 64.
Proof. unfold is_byte. intros Ha. split_and!; Z.to_euclidean_division_equations; lia. Qed.

Lemma group_bits2 a b : is_byte a -> is_byte b ->
  0 <= a mod 4 * 16 + b / 16 < 64 /\
  a / 4 * 4 + (a mod 4 * 16 + b / 16) / 16 = a /\
  (a mod 4 * 16 + b / 16) mod 16 * 16 + (b mod 16 * 4) / 4 = b.
Proof. unfold is_byte. intros Ha Hb. split_and!; Z.to_euclidean_division_equations; lia. Qed.

Ltac forall_inv :=
  repeat match goal with H : Forall _ (_ :: _) |- _ => apply Forall_cons in H as [? H] end.

Lemma rstrip_core l : Forall is_byte l -> rstrip_eq (urlsafe_b64encode l) = b64_core l.
Proof.
  induction l as [|a|a b|a b c l IH] using list_ind3; intros Hl; forall_inv; [done|..];
    cbn [urlsafe_b64encode b64_core].
  - destruct (is_byte_parts a) as (? & ? & _); [done|].
    rewrite !rstrip_cons by (by apply b64_char_spec). done.
  - destruct (is_byte_parts a) as (? & _), (is_byte_parts b) as (_ & _ & ?),
      (group_bits2 a b) as (? & _); try done.
    rewrite !rstrip_cons by (by apply b64_char_spec). done.
  - destruct (group_bits3 a b c) as ((? & ? & ? & ?) & _); try done.
    rewrite !rstrip_cons by (by apply b64_char_spec). by rewrite IH.
Qed.

Lemma core_ascii l : Forall is_byte l -> forallb is_ascii (b64_core l) = true.
Proof.
  induction l as [|a|a b|a b c l IH] using list_ind3; intros Hl; forall_inv; [done|..];
    cbn [b64_core forallb].
  - destruct (is_byte_parts a) as (K1 & K2 & _); [done|].
    by rewrite (proj2 (proj2 (b64_char_spec _ K1))), (proj2 (proj2 (b64_char_spec _ K2))).
  - destruct (is_byte_parts a) as (K1 & _), (is_byte_parts b) as (_ & _ & K3),
      (group_bits2 a b) as (K2 & _); try done.
    by rewrite (proj2 (proj2 (b64_char_spec _ K1))), (proj2 (proj2 (b64_char_spec _ K2))),
      (proj2 (proj2 (b64_char_spec _ K3))).
  - destruct (group_bits3 a b c) as ((K1 & K2 & K3 & K4) & _); try done.
    rewrite (proj2 (proj2 (b64_char_spec _ K1))), (proj2 (proj2 (b64_char_spec _ K2))),
      (proj2 (proj2 (b64_char_spec _ K3))), (proj2 (proj2 (b64_char_spec _ K4))).
    by apply IH.
Qed.

Definition b64_pad (n : nat) : list ascii :=
  replicate (Z.to_nat ((- Z.of_nat n) mod 4)) "="%char.

Lemma b64_pad_4 n : b64_pad (4 + n) = b64_pad n.
Proof. unfold b64_pad. f_equal. f_equal. Z.to_euclidean_division_equations; lia. Qed.

Lemma a2b_core l :
  Forall is_byte l -> a2b_base64 0 0 0 (b64_core l ++ b64_pad (length (b64_core l))) = Some l.
Proof.
  induction l as [|a|a b|a b c l IH] using list_ind3; intros Hl; forall_inv; [done|..];
    cbn [b64_core app length].
  - destruct (is_byte_parts a) as (? & ? & _); [done|].
    rewrite !a2b_char by done. simpl. do 2 f_equal.
    unfold is_byte in *. Z.to_euclidean_division_equations; lia.
  - destruct (is_byte_parts a) as (? & _), (is_byte_parts b) as (_ & _ & ?),
      (group_bits2 a b) as (? & E1 & E2); try done.
    rewrite !a2b_char by done. simpl. by rewrite E1, E2.
  - destruct (group_bits3 a b c) as ((? & ? & ? & ?) & E1 & E2 & E3); try done.
    rewrite !a2b_char by done. cbn [Z.eqb]. change (b64_pad (S _)) with (b64_pad (4 + length (b64_core l))).
    rewrite b64_pad_4, IH by done. simpl. by rewrite E1, E2, E3.
Qed.

Lemma b64url_round l : Forall is_byte l -> _b64url_decode (_b64url_encode l) = Some l.
Proof.
  intros Hl. unfold _b64url_decode, _b64url_encode.
  rewrite list_ascii_of_string_of_list_ascii, rstrip_core, core_ascii by done.
  by apply a2b_core.
Qed.

(** URL-safe base64 without padding loses nothing: decoding the encoding of
    any byte string gives the byte string back. *)
Theorem b64url_decode_encode l : Forall is_byte l -> _b64url_decode (_b64url_encode l) = Some l.
Proof. apply b64url_round. Qed.

Lemma b64url_decode_encode_witness : _b64url_decode (_b64url_encode [0; 255; 127; 62]) = Some [0; 255; 127; 62].
Proof. apply (b64url_decode_encode [0; 255; 127; 62]). repeat constructor; vm_compute; congruence. Defined.
