(* ===== verification/ReplayStore.v ===== *)
(** * src/governance/replay_store.py: DPoP proof replay stores

    [ReplayStore] is the abstract class [DPoPReplayStore]; [ReplaySafe] is what
    it promises to the session manager: a [jti] that was registered is refused
    until its time to live has passed.  The in-memory store meets the promise
    outright, the Redis store under the documented behaviour of [SET NX EX]. *)
From Stdlib Require Import ZArith Lia Ascii String.
From stdpp Require Import base gmap strings list.
From S2P Require Import Prelude PyDecimal PyUuid World.

Class ReplayStore (R : Type) : Type :=
  register_if_unused : forall (jti : string) (ttl_seconds : Z), M R bool.

(** The time the next reading of [time.time()] returns. *)
Definition now_of `{Env} (w : World) : Z := clock (w_clock w).

(** The contract.  [holds r jti d]: the store [r] refuses [jti] before [d]. *)
Class ReplaySafe `{Env} (R : Type) `{ReplayStore R} : Type := {
  holds : R -> string -> Z -> Prop;
  register_fresh jti ttl (r : R) w r' w' :
    register_if_unused jti ttl r w = (Ok true, (r', w')) ->
    holds r' jti (now_of w + secs ttl);
  register_refuses jti ttl (r : R) w d :
    holds r jti d -> now_of w < d ->
    (register_if_unused jti ttl r w).1 = Ok false;
  register_preserves jti jti' ttl (r : R) w d res r' w' :
    holds r jti d -> now_of w < d ->
    register_if_unused jti' ttl r w = (res, (r', w')) ->
    holds r' jti d;
  register_clock jti ttl (r : R) w :
    (w_clock w <= w_clock (register_if_unused jti ttl r w).2.2)%nat
}.

(** ** The in-memory store *)

Record InMemoryDPoPReplayStore : Type := mkInMemory { _entries : gmap string Z }.
Definition InMemoryDPoPReplayStore_init : InMemoryDPoPReplayStore := mkInMemory ∅.

(** Drop the entries whose deadline has been reached. *)
Definition purge_expired (now : Z) (m : gmap string Z) : gmap string Z :=
  filter (fun p => ~ p.2 <= now) m.

Definition in_memory_register `{Env} (jti : string) (ttl_seconds : Z)
    : M InMemoryDPoPReplayStore bool :=
  now ← time_time;
  modify (fun r => mkInMemory (purge_expired now (_entries r))) ;;
  r ← get;
  if bool_decide (is_Some (_entries r !! jti)) then mret false
  else
    modify (fun r => mkInMemory (<[jti := now + secs ttl_seconds]> (_entries r))) ;;
    mret true.

#[global] Instance in_memory_store `{Env} : ReplayStore InMemoryDPoPReplayStore :=
  in_memory_register.

Lemma purge_lookup now m k d :
  purge_expired now m !! k = Some d <-> m !! k = Some d /\ now < d.
Proof.
  unfold purge_expired. rewrite map_lookup_filter_Some. simpl.
  split; intros [? ?]; split; auto; lia.
Qed.

Definition tick (w : World) : World :=
  mkWorld (w_log w) (w_metrics w) (w_spans w) (w_http w) (1 + w_clock w) (w_utc w) (w_uuids w).

(** What one registration does. *)
Lemma in_memory_run `{Env} jti ttl r w :
  in_memory_register jti ttl r w
  = let m := purge_expired (now_of w) (_entries r) in
    match m !! jti with
    | Some _ => (Ok false, (mkInMemory m, tick w))
    | None => (Ok true, (mkInMemory (<[jti := now_of w + secs ttl]> m), tick w))
    end.
Proof.
  unfold in_memory_register. run_m. fold (now_of w).
  destruct (purge_expired _ _ !! jti) eqn:E; case_bool_decide as Hs; try done.
  by destruct Hs.
Qed.

#[global, refine] Instance in_memory_safe `{Env} : ReplaySafe InMemoryDPoPReplayStore := {
  holds r jti d := exists d', _entries r !! jti = Some d' /\ d <= d'
}.
Proof.
  - intros jti ttl r w r' w'. unfold register_if_unused, in_memory_store.
    rewrite in_memory_run. cbv zeta. destruct (_ !! jti) eqn:E; intros [= <- <-]. simpl.
    rewrite lookup_insert_eq. eauto with lia.
  - intros jti ttl r w d (d' & Hd' & Hle) Hlt. unfold register_if_unused, in_memory_store.
    rewrite in_memory_run. cbv zeta.
    rewrite (proj2 (purge_lookup _ _ _ d')); [done|split; [done|lia]].
  - intros jti jti' ttl r w d res r' w' (d' & Hd' & Hle) Hlt.
    unfold register_if_unused, in_memory_store. rewrite in_memory_run. cbv zeta.
    assert (Hp : purge_expired (now_of w) (_entries r) !! jti = Some d')
      by (apply purge_lookup; split; [done|lia]).
    destruct (purge_expired (now_of w) (_entries r) !! jti') eqn:E; intros [= <- <- <-]; simpl.
    + eauto.
    + rewrite lookup_insert. case_decide; [congruence|]. eauto.
  - intros jti ttl r w. unfold register_if_unused, in_memory_store. rewrite in_memory_run.
    cbv zeta. destruct (_ !! jti); simpl; lia.
Defined.

(** ** The Redis store

    The client library is not part of the repository: [redis_set] stands for
    [client.set(key, value, ex=..., nx=True)], which returns a true value when
    the key was set and [None] when it existed. *)
Class RedisClient (C : Type) : Type :=
  redis_set_nx : forall (key value : string) (ex : Z), M C (option bool).

(** [SET key value NX EX n]: a key that was set is reported as existing until
    [n] seconds after, whatever is set meanwhile. *)
Class RedisLaws `{Env} (C : Type) `{RedisClient C} : Type := {
  key_live : C -> string -> Z -> Prop;
  redis_set_stores key v ex (c : C) w c' w' :
    redis_set_nx key v ex c w = (Ok (Some true), (c', w')) ->
    key_live c' key (now_of w + secs ex);
  redis_set_existing key v ex (c : C) w d :
    key_live c key d -> now_of w < d -> (redis_set_nx key v ex c w).1 = Ok None;
  redis_set_keeps key key' v ex (c : C) w d res c' w' :
    key_live c key d -> now_of w < d ->
    redis_set_nx key' v ex c w = (res, (c', w')) -> key_live c' key d;
  redis_set_clock key v ex (c : C) w :
    (w_clock w <= w_clock (redis_set_nx key v ex c w).2.2)%nat
}.

Record RedisDPoPReplayStore (C : Type) : Type := mkRedis { _client : C; _namespace : string }.
Arguments mkRedis {C} _ _.
Arguments _client {C} _.
Arguments _namespace {C} _.

Definition redis_register {C} `{RedisClient C} (jti : string) (ttl_seconds : Z)
    : M (RedisDPoPReplayStore C) bool :=
  r ← get;
  let key := _namespace r +:+ ":" +:+ jti in
  res ← zoom _client (fun c r => mkRedis c (_namespace r)) (redis_set_nx key "1" ttl_seconds);
  mret (default false res).

#[global] Instance redis_store {C} `{RedisClient C} : ReplayStore (RedisDPoPReplayStore C) :=
  redis_register.

#[global, refine] Instance redis_safe `{Env} {C} `{!RedisClient C, !RedisLaws C}
    : ReplaySafe (RedisDPoPReplayStore C) := {
  holds r jti d := key_live (_client r) (_namespace r +:+ ":" +:+ jti) d
}.
Proof.
  - intros jti ttl r w r' w'. unfold register_if_unused, redis_store, redis_register, zoom.
    run_m. destruct (redis_set_nx _ _ _ _ _) as [[[[]|]|e] [c w1]] eqn:E; simpl; intros [= <- <-].
    by eapply redis_set_stores.
  - intros jti ttl r w d Hd Hlt. unfold register_if_unused, redis_store, redis_register, zoom.
    run_m. pose proof (redis_set_existing _ "1" ttl _ w d Hd Hlt) as E.
    destruct (redis_set_nx _ _ _ _ _) as [o [c w1]]. simpl in E. by subst o.
  - intros jti jti' ttl r w d res r' w' Hd Hlt.
    unfold register_if_unused, redis_store, redis_register, zoom. run_m.
    destruct (redis_set_nx _ _ _ _ _) as [[o|e] [c w1]] eqn:E; simpl; intros [= <- <- <-];
      by eapply redis_set_keeps.
  - intros jti ttl r w. unfold register_if_unused, redis_store, redis_register, zoom. run_m.
    pose proof (redis_set_clock (_namespace r +:+ ":" +:+ jti) "1" ttl (_client r) w) as Hc.
    by destruct (redis_set_nx _ _ _ _ _) as [[o|e] [c w1]].
Defined.

(** A server that meets the laws: keys with their expiry, purged at every command. *)
Section toy_redis.
Context `{Env}.
#[local] Instance toy_redis : RedisClient InMemoryDPoPReplayStore := fun key _ ex =>
  b ← in_memory_register key ex; mret (if (b : bool) then Some true else None).

Lemma toy_redis_run key v ex c w :
  redis_set_nx key v ex c w
  = let '(r, cw) := register_if_unused key ex c w in
    (match r with Ok true => Ok (Some true) | Ok false => Ok None | Err e => Err e end, cw).
Proof.
  unfold redis_set_nx, toy_redis, register_if_unused, in_memory_store, mbind, M_bind.
  by destruct (in_memory_register key ex c w) as [[[]|e] [c' w']].
Qed.

#[refine] Instance toy_redis_laws : RedisLaws InMemoryDPoPReplayStore := { key_live := holds }.
Proof.
  - intros key v ex c w c' w'. rewrite toy_redis_run.
    destruct (register_if_unused key ex c w) as [[[]|e] [c1 w1]] eqn:E; intros [= <- <-].
    by eapply register_fresh.
  - intros key v ex c w d Hd Hlt. rewrite toy_redis_run.
    pose proof (register_refuses key ex c w d Hd Hlt) as Hr.
    destruct (register_if_unused key ex c w) as [r cw]. cbn in Hr. by subst r.
  - intros key key' v ex c w d res c' w' Hd Hlt. rewrite toy_redis_run.
    destruct (register_if_unused key' ex c w) as [r [c1 w1]] eqn:E. intros [= _ <- <-].
    by eapply register_preserves.
  - intros key v ex c w. rewrite toy_redis_run. pose proof (register_clock key ex c w) as Hc.
    by destruct (register_if_unused key ex c w) as [r [c1 w1]].
Defined.
End toy_redis.

(** ** Series of registrations *)

Section runs.
Context `{Env} {R : Type} `{!ReplayStore R, !ReplaySafe R}.

(** Register each [(jti, ttl)] in turn; the answers, with the time of each. *)
Fixpoint register_all (l : list (string * Z)) (r : R) (w : World)
    : list (Z * result bool) * (R * World) :=
  match l with
  | [] => ([], (r, w))
  | (jti, ttl) :: l =>
      let '(res, (r', w')) := register_if_unused jti ttl r w in
      let '(ress, rw) := register_all l r' w' in ((now_of w, res) :: ress, rw)
  end.

Lemma register_all_held jti d l r w i ttl t :
  holds r jti d -> l !! i = Some (jti, ttl) ->
  (register_all l r w).1 !! i = Some (t, Ok true) ->
  (forall j t' b, (j <= i)%nat -> (register_all l r w).1 !! j = Some (t', b) -> t' < d) -> False.
Proof.
  revert r w i. induction l as [|[j0 ttl0] l IH]; intros r w i Hh Hi Hres Ht; [done|].
  simpl in *. destruct (register_if_unused j0 ttl0 r w) as [res [r' w']] eqn:E.
  pose proof (Ht 0%nat (now_of w) res) as Hnow.
  destruct (register_all l r' w') as [ress rw] eqn:E2. simpl in *.
  specialize (Hnow ltac:(lia) eq_refl). destruct i as [|i]; simplify_eq/=.
  - pose proof (register_refuses jti ttl r w d Hh Hnow) as Hr. rewrite E in Hr. done.
  - eapply (IH r' w' i); [by eapply register_preserves|done|by rewrite E2|].
    rewrite E2. intros j t' b Hj Hjl. apply (Ht (S j) t' b); [lia|done].
Qed.

(** Replay protection of any store that meets the contract: when the same
    [jti] is accepted twice in a series of registrations, the clock has
    moved by at least the first registration's time to live in between (some
    reading after the first acceptance, at or before the second, is that
    late). *)
Theorem replay_window l r w i j jti ttl ttl' t1 t2 :
  (i < j)%nat -> l !! i = Some (jti, ttl) -> l !! j = Some (jti, ttl') ->
  (register_all l r w).1 !! i = Some (t1, Ok true) ->
  (register_all l r w).1 !! j = Some (t2, Ok true) ->
  exists k t res, (i < k <= j)%nat /\ (register_all l r w).1 !! k = Some (t, res) /\
    t1 + secs ttl <= t.
Proof.
  revert r w i j. induction l as [|[j0 ttl0] l IH]; intros r w i j Hij Hi Hj Hr1 Hr2; [done|].
  simpl in *. destruct (register_if_unused j0 ttl0 r w) as [res [r' w']] eqn:E.
  destruct (register_all l r' w') as [ress rw] eqn:E2. simpl in *.
  destruct j as [|j]; [lia|]. simpl in *. destruct i as [|i].
  - simplify_eq/=. apply register_fresh in E.
    destruct (decide (Exists (fun p => now_of w + secs ttl <= p.1) (take (S j) ress))) as [He|Hn].
    + apply Exists_exists in He as ([t b] & Hin & Hle).
      apply list_elem_of_lookup_1 in Hin as [k Hk]. apply lookup_take_Some in Hk as [Hk Hlt].
      exists (S k), t, b. split_and!; [lia|lia|done|done].
    + exfalso. eapply (register_all_held jti (now_of w + secs ttl) l r' w' j);
        [done|done|by rewrite E2|].
      rewrite E2. intros k t' b Hk Hkl. apply not_Exists_Forall in Hn; [|apply _].
      rewrite Forall_lookup in Hn. specialize (Hn k (t', b)).
      rewrite lookup_take_Some in Hn. specialize (Hn ltac:(split; [done|lia])). simpl in Hn. lia.
  - destruct (IH r' w' i j) as (k & t & b & Hk & Hkl & Hle);
      [lia|done|done|by rewrite E2|by rewrite E2|].
    exists (S k), t, b. rewrite E2 in Hkl. split_and!; [lia|lia|done|done].
Qed.
End runs.

(** ** Witnesses *)

#[local] Existing Instance demo_env.

(** The clock of [demo_env] advances one second per reading: with a time to
    live of 2 s the third registration of the same [jti] is accepted again. *)
Lemma replay_window_witness :
  exists k t res, (0 < k <= 2)%nat /\
    (register_all [("a", 2); ("a", 2); ("a", 2)]%string InMemoryDPoPReplayStore_init w_empty).1 !! k
      = Some (t, res) /\ secs 1700000000 + secs 2 <= t.
Proof.
  refine (replay_window [("a", 2); ("a", 2); ("a", 2)]%string InMemoryDPoPReplayStore_init w_empty
           0 2 "a"%string 2 2 (secs 1700000000) (secs 1700000002) _ _ _ _ _);
    [lia|reflexivity|reflexivity|vm_compute; reflexivity|vm_compute; reflexivity].
Defined.
