(* ===== verification/Regex.v ===== *)
(** * Python regular expressions

    The constructs of [re] that src/governance/guardrails.py uses, with a
    declarative meaning ([matches]) and a backtracking matcher in Perl order
    ([rmatch]): alternatives left to right, repetition greedy.  The matcher is
    proved sound and complete for the meaning, so [search] finds a match exactly
    when there is one. *)
From Stdlib Require Import ZArith Lia.
From stdpp Require Import base list.
From S2P Require Import Prelude.

(** A text is its list of code points. *)
Definition text : Type := list Z.

(** A position: the characters before it, nearest first, and those after. *)
Definition pos : Type := (text * text)%type.

Inductive regex : Type :=
  | REps                                (* empty *)
  | RChar (p : Z -> bool)               (* one character of a class *)
  | RSeq (r1 r2 : regex)
  | RAlt (r1 r2 : regex)
  | RStar (r : regex)                   (* greedy * *)
  | RBoundary (word : Z -> bool)        (* \b *)
  | RNotAhead (r : regex).              (* (?!r) *)

(** *** Derived forms *)
Definition ROpt (r : regex) : regex := RAlt r REps.
Definition RPlus (r : regex) : regex := RSeq r (RStar r).
Fixpoint RTimes (n : nat) (r : regex) : regex :=
  match n with O => REps | S O => r | S n => RSeq r (RTimes n r) end.
Definition RLit (c : Z) : regex := RChar (Z.eqb c).
Fixpoint RSeqs (l : list regex) : regex :=
  match l with [] => REps | [r] => r | r :: l => RSeq r (RSeqs l) end.
Fixpoint RAlts (r : regex) (l : list regex) : regex :=
  match l with [] => r | r' :: l => RAlt r (RAlts r' l) end.

(** Is there a word character just before / just after? *)
Definition at_boundary (word : Z -> bool) (x : pos) : bool :=
  xorb (match x.1 with c :: _ => word c | [] => false end)
       (match x.2 with c :: _ => word c | [] => false end).

(** ** Meaning *)

Inductive closure (R : pos -> pos -> Prop) : pos -> pos -> Prop :=
  | closure_refl x : closure R x x
  | closure_step x y z : R x y -> closure R y z -> closure R x z.

Fixpoint matches (r : regex) : pos -> pos -> Prop :=
  match r with
  | REps => fun x y => x = y
  | RChar p => fun x y => exists c, p c = true /\ x.2 = c :: y.2 /\ y.1 = c :: x.1
  | RSeq r1 r2 => fun x z => exists y, matches r1 x y /\ matches r2 y z
  | RAlt r1 r2 => fun x y => matches r1 x y \/ matches r2 x y
  | RStar r => closure (matches r)
  | RBoundary w => fun x y => x = y /\ at_boundary w x = true
  | RNotAhead r => fun x y => x = y /\ ~ exists z, matches r x z
  end.

(** ** Matcher *)

(** [rmatch r x k]: the first way, in backtracking order, to match [r] from [x]
    and then succeed with [k].  An iteration of a star must consume something. *)
Fixpoint rmatch (r : regex) (x : pos) (k : pos -> option pos) : option pos :=
  match r with
  | REps => k x
  | RChar p => match x with
               | (b, c :: a) => if p c then k (c :: b, a) else None
               | _ => None
               end
  | RSeq r1 r2 => rmatch r1 x (fun y => rmatch r2 y k)
  | RAlt r1 r2 => match rmatch r1 x k with Some z => Some z | None => rmatch r2 x k end
  | RStar r =>
      (fix loop (n : nat) (x : pos) : option pos :=
         match n with
         | O => k x
         | S n => match rmatch r x (fun y => if (length y.2 <? length x.2)%nat
                                             then loop n y else None) with
                  | Some z => Some z
                  | None => k x
                  end
         end) (length x.2) x
  | RBoundary w => if at_boundary w x then k x else None
  | RNotAhead r => match rmatch r x Some with Some _ => None | None => k x end
  end.

(** First position, left to right, where [r] matches: the start and the end. *)
Fixpoint search_from (r : regex) (b a : text) : option (pos * pos) :=
  match rmatch r (b, a) Some with
  | Some y => Some ((b, a), y)
  | None => match a with
            | [] => None
            | c :: a => search_from r (c :: b) a
            end
  end.
Definition search (r : regex) (t : text) : bool :=
  match search_from r [] t with Some _ => true | None => false end.

(** [pattern.sub(repl, t)] for a pattern that never matches the empty string:
    [n] bounds the number of characters left. *)
Fixpoint sub_from (r : regex) (repl : text) (n : nat) (b a : text) : text :=
  match n with
  | O => a
  | S n =>
      match a with
      | [] => []
      | c :: a' =>
          match rmatch r (b, a) Some with
          | Some y => if (length y.2 <? length a)%nat
                      then repl ++ sub_from r repl n y.1 y.2
                      else c :: sub_from r repl n (c :: b) a'
          | None => c :: sub_from r repl n (c :: b) a'
          end
      end
  end.
Definition sub (r : regex) (repl t : text) : text := sub_from r repl (length t) [] t.

(** ** The matcher is sound and complete *)

(** A match only moves forward over the text. *)
Lemma matches_adv r x y : matches r x y -> exists s, x.2 = s ++ y.2 /\ y.1 = rev s ++ x.1.
Proof.
  revert x y. induction r as [|p|r1 IH1 r2 IH2|r1 IH1 r2 IH2|r IH|w|r IH]; simpl; intros x y.
  - intros ->. by exists [].
  - intros (c & _ & -> & ->). by exists [c].
  - intros (z & H1 & H2). destruct (IH1 _ _ H1) as (s1 & E1 & F1), (IH2 _ _ H2) as (s2 & E2 & F2).
    exists (s1 ++ s2). by rewrite E1, E2, F2, F1, rev_app_distr, <- !app_assoc.
  - intros [H1|H2]; eauto.
  - induction 1 as [x|x z y H1 _ IHc]; [by exists []|].
    destruct (IH _ _ H1) as (s1 & E1 & F1), IHc as (s2 & E2 & F2).
    exists (s1 ++ s2). by rewrite E1, E2, F2, F1, rev_app_distr, <- !app_assoc.
  - intros [-> _]. by exists [].
  - intros [-> _]. by exists [].
Qed.

Lemma matches_same_length r x y : matches r x y -> (length x.2 <= length y.2)%nat -> x = y.
Proof.
  intros H Hl. destruct (matches_adv _ _ _ H) as (s & E & F). rewrite E, length_app in Hl.
  destruct s; [|simpl in Hl; lia]. destruct x, y; simpl in *. by subst.
Qed.

(** The loop of a star, given that the body's matcher is right. *)
Section star.
Variables (R : pos -> pos -> Prop) (m : pos -> (pos -> option pos) -> option pos).
Hypothesis m_sound : forall x k z, m x k = Some z -> exists y, R x y /\ k y = Some z.
Hypothesis m_complete : forall x k, m x k = None -> forall y, R x y -> k y = None.
Hypothesis R_stays : forall x y, R x y -> (length x.2 <= length y.2)%nat -> x = y.

Variable k : pos -> option pos.

Fixpoint star_loop (n : nat) (x : pos) : option pos :=
  match n with
  | O => k x
  | S n => match m x (fun y => if (length y.2 <? length x.2)%nat
                               then star_loop n y else None) with
           | Some z => Some z
           | None => k x
           end
  end.

Lemma star_sound n x z :
  star_loop n x = Some z -> exists y, closure R x y /\ k y = Some z.
Proof.
  revert x. induction n as [|n IH]; intros x; simpl; [eauto using closure|].
  destruct (m x _) as [z'|] eqn:E; [|eauto using closure].
  intros [= ->]. apply m_sound in E as (y & Hxy & Ey).
  destruct (_ <? _)%nat; [|done]. apply IH in Ey as (y' & Hc & Ey').
  eauto using closure.
Qed.

Lemma star_complete n x :
  (length x.2 <= n)%nat -> star_loop n x = None -> forall y, closure R x y -> k y = None.
Proof.
  revert x. induction n as [|n IH]; intros x Hn Hl y Hc.
  - simpl in Hl. induction Hc as [|x y z Hxy _ IHc]; [done|].
    assert (x = y) as ->; [|auto].
    apply R_stays; [done|]. etrans; [exact Hn|apply Nat.le_0_l].
  - simpl in Hl. destruct (m x _) eqn:E; [done|].
    induction Hc as [x|x y z Hxy Hc IHc]; [done|].
    destruct (decide (length y.2 < length x.2)%nat) as [Hlt|Hge].
    + pose proof (m_complete _ _ E _ Hxy) as Ey. simpl in Ey.
      rewrite (proj2 (Nat.ltb_lt _ _) Hlt) in Ey. apply (IH y); [|done|done].
      apply Nat.lt_succ_r. by eapply Nat.lt_le_trans.
    + assert (x = y) as ->; [|auto]. apply R_stays; [done|]. by apply Nat.nlt_ge.
Qed.
End star.

Lemma rmatch_correct r :
  (forall x k z, rmatch r x k = Some z -> exists y, matches r x y /\ k y = Some z) /\
  (forall x k, rmatch r x k = None -> forall y, matches r x y -> k y = None).
Proof.
  induction r as [|p|r1 [S1 C1] r2 [S2 C2]|r1 [S1 C1] r2 [S2 C2]|r [S1 C1]|w|r [S1 C1]]; simpl.
  - split; [eauto|]. by intros x k E y <-.
  - split.
    + intros [b [|c a]] k z; [done|]. destruct (p c) eqn:Ep; [|done]. intros E.
      exists (c :: b, a). eauto.
    + intros [b [|c a]] k E [b' a'] (c' & Hp & E1 & E2); [done|]. simpl in *. simplify_eq.
      by rewrite Hp in E.
  - split.
    + intros x k z E. apply S1 in E as (y & H1 & E). apply S2 in E as (y' & H2 & E). eauto.
    + intros x k E y (x' & H1 & H2). pose proof (C1 _ _ E _ H1) as E'. simpl in E'. eauto.
  - split.
    + intros x k z. destruct (rmatch r1 x k) eqn:E1.
      * intros [= ->]. apply S1 in E1 as (y & ? & ?). eauto.
      * intros E2. apply S2 in E2 as (y & ? & ?). eauto.
    + intros x k. destruct (rmatch r1 x k) eqn:E1; [done|]. intros E2 y [H|H]; eauto.
  - split.
    + intros x k z E. exact (star_sound (matches r) (rmatch r) S1 k (length x.2) x z E).
    + intros x k E. exact (star_complete (matches r) (rmatch r) C1 (matches_same_length r)
                             k (length x.2) x (Nat.le_refl _) E).
  - split.
    + intros x k z. destruct (at_boundary w x) eqn:E; [|done]. eauto.
    + intros x k. destruct (at_boundary w x) eqn:E; [|by intros _ y [_ ?]].
      by intros Ek y [<- _].
  - split.
    + intros x k z. destruct (rmatch r x Some) eqn:E; [done|]. intros Ek. exists x.
      split; [|done]. split; [done|]. intros [y Hy]. by pose proof (C1 _ _ E _ Hy).
    + intros x k. destruct (rmatch r x Some) eqn:E.
      * intros _ y [_ Hn]. destruct Hn. apply S1 in E as (y' & ? & _). eauto.
      * by intros Ek y [<- _].
Qed.

Lemma search_from_Some r b a x y :
  search_from r b a = Some (x, y) ->
  exists s, a = s ++ x.2 /\ x.1 = rev s ++ b /\ matches r x y.
Proof.
  revert b. induction a as [|c a IH]; intros b; simpl;
    destruct (rmatch r _ Some) eqn:E; intros Es; simplify_eq.
  - apply rmatch_correct in E as (y' & Hm & [= ->]). by exists [].
  - apply rmatch_correct in E as (y' & Hm & [= ->]). by exists [].
  - destruct (IH _ Es) as (s & -> & Ex & Hm). exists (c :: s). simpl.
    by rewrite Ex, <- app_assoc.
Qed.

Lemma search_from_None r b a :
  search_from r b a = None ->
  forall s a' y, a = s ++ a' -> ~ matches r (rev s ++ b, a') y.
Proof.
  revert b. induction a as [|c a IH]; intros b; simpl;
    destruct (rmatch r _ Some) eqn:E; try done; intros Es s a' y Ea Hm.
  - destruct s, a'; try done. by pose proof (proj2 (rmatch_correct r) _ _ E _ Hm).
  - destruct s as [|c' s]; simplify_eq/=.
    + by pose proof (proj2 (rmatch_correct r) _ _ E _ Hm).
    + rewrite <- app_assoc in Hm. by eapply IH.
Qed.

(** [pattern.search(t)] succeeds exactly when the pattern matches somewhere. *)
Lemma search_iff r t :
  search r t = true <-> exists s a y, t = s ++ a /\ matches r (rev s, a) y.
Proof.
  unfold search. split.
  - destruct (search_from r [] t) as [[[b a] y]|] eqn:E; [|done]. intros _.
    apply search_from_Some in E as (s & -> & Eb & Hm). simpl in *. rewrite app_nil_r in Eb.
    subst b. eauto.
  - intros (s & a & y & -> & Hm). destruct (search_from r [] (s ++ a)) eqn:E; [done|].
    exfalso. apply (search_from_None _ _ _ E s a y eq_refl). by rewrite app_nil_r.
Qed.

(** ** Substitution *)

(** [redacted r repl b a out]: [out] is [a] with matches of [r] replaced, left to
    right; every character kept is at a position where [r] does not match. *)
Inductive redacted (r : regex) (repl : text) : text -> text -> text -> Prop :=
  | red_nil b : redacted r repl b [] []
  | red_keep b c a out :
      (forall y, ~ matches r (b, c :: a) y) ->
      redacted r repl (c :: b) a out -> redacted r repl b (c :: a) (c :: out)
  | red_hit b a b' a' out :
      matches r (b, a) (b', a') -> (length a' < length a)%nat ->
      redacted r repl b' a' out -> redacted r repl b a (repl ++ out).

(** A pattern that always consumes something. *)
Definition consuming (r : regex) : Prop :=
  forall x y, matches r x y -> (length y.2 < length x.2)%nat.

Lemma sub_from_redacted r repl n b a :
  consuming r -> (length a <= n)%nat -> redacted r repl b a (sub_from r repl n b a).
Proof.
  intros Hr. revert b a. induction n as [|n IH]; intros b [|c a] Hn; simpl in *;
    try constructor; try lia.
  match goal with |- context [rmatch r ?x Some] =>
    destruct (rmatch r x Some) as [[b' a']|] eqn:E end.
  - apply rmatch_correct in E as (y & Hm & [= ->]). pose proof (Hr _ _ Hm) as Hl. simpl in Hl.
    cbn [fst snd]. destruct (Nat.ltb_spec (length a') (S (length a))); [|lia].
    eapply red_hit; [done|simpl; lia|]. apply IH. lia.
  - apply red_keep; [|apply IH; lia]. intros y Hy.
    by pose proof (proj2 (rmatch_correct r) _ _ E _ Hy).
Qed.

Lemma consuming_seq_l r1 r2 : consuming r1 -> consuming (RSeq r1 r2).
Proof.
  intros H1 x z (y & Hxy & Hyz). apply H1 in Hxy.
  apply matches_adv in Hyz as (s & E & _). rewrite E, length_app in Hxy. lia.
Qed.
Lemma consuming_seq_r r1 r2 : consuming r2 -> consuming (RSeq r1 r2).
Proof.
  intros H2 x z (y & Hxy & Hyz). apply H2 in Hyz.
  apply matches_adv in Hxy as (s & E & _). rewrite E, length_app. lia.
Qed.
Lemma consuming_char p : consuming (RChar p).
Proof. intros x y (c & _ & -> & _). simpl. lia. Qed.
Lemma consuming_alt r1 r2 : consuming r1 -> consuming r2 -> consuming (RAlt r1 r2).
Proof. intros H1 H2 x y [H|H]; auto. Qed.

Create HintDb regex.
#[export] Hint Resolve consuming_char consuming_alt : regex.

(** Without a match there is nothing to replace. *)
Lemma redacted_id r repl b a out :
  redacted r repl b a out -> search_from r b a = None -> out = a.
Proof.
  induction 1 as [b|b c a out Hn _ IH|b a b' a' out Hm Hl _ _]; intros Hs; [done| |].
  - simpl in Hs. destruct (rmatch r _ Some); [done|]. by rewrite IH.
  - exfalso. by apply (search_from_None _ _ _ Hs [] a (b', a') eq_refl).
Qed.
