(* ===== verification/Guardrails.v ===== *)
(** * src/governance/guardrails.py: PII masking and prompt-injection detection

    Texts are lists of code points.  The compiled patterns are [regex] terms of
    Regex.v, transcribed construct by construct.  The Unicode database (NFKC
    and the character classes beyond ASCII) is data of the Python build:
    [UnicodeData] holds it as arbitrary functions. *)
From Stdlib Require Import ZArith Lia Ascii String.
From stdpp Require Import base strings list.
From S2P Require Import Prelude PyDecimal PyUuid World PyCrypto Regex.

Class UnicodeData : Type := {
  nfkc : text -> text;                  (* [unicodedata.normalize("NFKC", t)] *)
  uni_digit : Z -> bool;                (* \d, \s, \w beyond ASCII *)
  uni_space : Z -> bool;
  uni_word : Z -> bool
}.

(** ** Text *)

Definition points (s : string) : text := utf8_points (str_bytes s).

Definition point_bytes (c : Z) : list Z :=
  if c <? 0x80 then [c]
  else if c <? 0x800 then [0xc0 + c / 64; 0x80 + c mod 64]
  else if c <? 0x10000 then [0xe0 + c / 4096; 0x80 + c / 64 mod 64; 0x80 + c mod 64]
  else [0xf0 + c / 262144; 0x80 + c / 4096 mod 64; 0x80 + c / 64 mod 64; 0x80 + c mod 64].
Definition of_points (t : text) : string := bytes_str (mjoin (point_bytes <$> t)).

(** ** urllib.parse.unquote *)

Definition hex_digit (c : Z) : option Z :=
  if (48 <=? c) && (c <=? 57) then Some (c - 48)
  else if (65 <=? c) && (c <=? 70) then Some (c - 55)
  else if (97 <=? c) && (c <=? 102) then Some (c - 87)
  else None.

(** [unquote_to_bytes] on an ASCII run: a [%] without two hex digits stays. *)
Fixpoint unquote_to_bytes (l : list Z) : list Z :=
  match l with
  | [] => []
  | c :: l1 =>
      if c =? 37 then
        match l1 with
        | a :: b :: l2 =>
            match hex_digit a, hex_digit b with
            | Some x, Some y => (16 * x + y) :: unquote_to_bytes l2
            | _, _ => c :: unquote_to_bytes l1
            end
        | _ => c :: unquote_to_bytes l1
        end
      else c :: unquote_to_bytes l1
  end.

Definition between (lo hi c : Z) : bool := (lo <=? c) && (c <=? hi).
Definition replacement : Z := 0xfffd.

(** [bytes.decode("utf-8", "replace")]: every maximal ill-formed prefix becomes
    one replacement character. *)
Fixpoint decode_replace (l : list Z) : text :=
  match l with
  | [] => []
  | a :: l1 =>
      if a <? 0x80 then a :: decode_replace l1
      else if between 0xc2 0xdf a then
        match l1 with
        | b :: l2 => if between 0x80 0xbf b
                     then (a mod 32 * 64 + b mod 64) :: decode_replace l2
                     else replacement :: decode_replace l1
        | [] => [replacement]
        end
      else if between 0xe0 0xef a then
        let lo := if a =? 0xe0 then 0xa0 else 0x80 in
        let hi := if a =? 0xed then 0x9f else 0xbf in
        match l1 with
        | b :: l2 =>
            if between lo hi b then
              match l2 with
              | c :: l3 => if between 0x80 0xbf c
                           then (a mod 16 * 4096 + b mod 64 * 64 + c mod 64) :: decode_replace l3
                           else replacement :: decode_replace l2
              | [] => [replacement]
              end
            else replacement :: decode_replace l1
        | [] => [replacement]
        end
      else if between 0xf0 0xf4 a then
        let lo := if a =? 0xf0 then 0x90 else 0x80 in
        let hi := if a =? 0xf4 then 0x8f else 0xbf in
        match l1 with
        | b :: l2 =>
            if between lo hi b then
              match l2 with
              | c :: l3 =>
                  if between 0x80 0xbf c then
                    match l3 with
                    | d :: l4 =>
                        if between 0x80 0xbf d
                        then (a mod 8 * 262144 + b mod 64 * 4096 + c mod 64 * 64 + d mod 64)
                             :: decode_replace l4
                        else replacement :: decode_replace l3
                    | [] => [replacement]
                    end
                  else replacement :: decode_replace l2
              | [] => [replacement]
              end
            else replacement :: decode_replace l1
        | [] => [replacement]
        end
      else replacement :: decode_replace l1
  end.

(** Runs of ASCII characters are decoded, other characters are kept. *)
Fixpoint unquote_runs (run : list Z) (t : text) : text :=
  match t with
  | [] => decode_replace (unquote_to_bytes (reverse run))
  | c :: t => if c <? 128 then unquote_runs (c :: run) t
              else decode_replace (unquote_to_bytes (reverse run)) ++ c :: unquote_runs [] t
  end.
Definition unquote (t : text) : text :=
  if existsb (Z.eqb 37) t then unquote_runs [] t else t.

(** ** Normalisation *)

Definition invisible (c : Z) : bool :=
  (c =? 0xad) || between 0x200b 0x200f c || (c =? 0x2028) || (c =? 0x2029)
  || between 0x202a 0x202e c || between 0x2060 0x2064 c || (c =? 0xfeff).
Definition _INVISIBLE_RE : regex := RChar invisible.

Definition at_space (c : Z) : bool := (c =? 32) || (c =? 9) || (c =? 10) || (c =? 13).
Definition _AT_WS_RE : regex := RSeqs [RStar (RChar at_space); RLit 64; RStar (RChar at_space)].

Section patterns.
Context `{UnicodeData}.

Definition _normalize (t : text) : text :=
  let t := sub _INVISIBLE_RE [] t in
  let t := nfkc t in
  let t := unquote t in
  sub _AT_WS_RE [64] t.

(** ** Character classes *)

Definition digit (c : Z) : bool := if c <? 128 then between 48 57 c else uni_digit c.
Definition space (c : Z) : bool :=
  if c <? 128 then between 9 13 c || between 28 32 c else uni_space c.
Definition ascii_letter (c : Z) : bool := between 65 90 c || between 97 122 c.
Definition word (c : Z) : bool :=
  if c <? 128 then ascii_letter c || between 48 57 c || (c =? 95) else uni_word c.
(** [A-Za-z] under IGNORECASE: also the four letters whose case partner is ASCII. *)
Definition letter_ci (c : Z) : bool :=
  ascii_letter c || (c =? 0x130) || (c =? 0x131) || (c =? 0x17f) || (c =? 0x212a).
Definition one_of (cs : list Z) (c : Z) : bool := existsb (Z.eqb c) cs.

Definition D : regex := RChar digit.
Definition Sp : regex := RChar space.
Definition B : regex := RBoundary word.
Definition range (lo hi : Z) : regex := RChar (between lo hi).
(** [[\s\-]] and [[\s\-.]] *)
Definition Sep : regex := RChar (fun c => space c || (c =? 45)).
Definition SepDot : regex := RChar (fun c => space c || (c =? 45) || (c =? 46)).
Definition lits (s : string) : regex := RSeqs (RLit <$> points s).

Definition email_re : regex :=
  RSeqs [B; RPlus (RChar (fun c => letter_ci c || between 48 57 c || one_of [46; 95; 37; 43; 45] c));
         RLit 64; RPlus (RChar (fun c => letter_ci c || between 48 57 c || one_of [46; 45] c));
         RStar Sp; RLit 46; RStar Sp;
         RChar letter_ci; RChar letter_ci; RStar (RChar letter_ci); B].

Definition ssn_re : regex :=
  RSeqs [B; RNotAhead (RAlts (lits "000") [lits "666"; RSeqs [RLit 57; D; D]]);
         RTimes 3 D; RPlus Sep; RNotAhead (lits "00"); RTimes 2 D; RPlus Sep;
         RNotAhead (lits "0000"); RTimes 4 D; B].

Definition credit_card_re : regex :=
  RSeqs [B; RTimes 3 (RSeq (RTimes 4 D) (ROpt Sep)); RTimes 4 D; B].

Definition phone_us_re : regex :=
  RSeqs [B; ROpt (RSeqs [RLit 43; RLit 49; ROpt SepDot]); ROpt (RLit 40); RTimes 3 D;
         ROpt (RLit 41); ROpt SepDot; RTimes 3 D; ROpt SepDot; RTimes 4 D; B].

Definition octet_re : regex :=
  RAlts (RSeqs [RLit 50; RLit 53; range 48 53])
        [RSeqs [RLit 50; range 48 52; D]; RSeqs [ROpt (range 48 49); D; ROpt D]].
Definition ip_address_re : regex :=
  RSeqs [B; RTimes 3 (RSeqs [octet_re; RStar Sp; RLit 46; RStar Sp]); octet_re; B].

Definition _PII_PATTERNS : list (string * regex) :=
  [("email", email_re); ("ssn", ssn_re); ("credit_card", credit_card_re);
   ("phone_us", phone_us_re); ("ip_address", ip_address_re)]%string.

(** A letter under IGNORECASE, with the extra partners of i, s and k. *)
Definition ci (c : Z) : regex :=
  RChar (fun x => (lower_byte x =? lower_byte c)
                  || ((lower_byte c =? 105) && ((x =? 0x130) || (x =? 0x131)))
                  || ((lower_byte c =? 115) && (x =? 0x17f))
                  || ((lower_byte c =? 107) && (x =? 0x212a))).
Definition ci_word (s : string) : regex := RSeqs (ci <$> points s).
Definition Sps : regex := RPlus Sp.

(** The pattern and its source text, which the error message shows. *)
Definition _INJECTION_PATTERNS : list (string * regex) :=
  [("ignore\s+(all\s+)?previous\s+instructions",
    RSeqs [ci_word "ignore"; Sps; ROpt (RSeq (ci_word "all") Sps); ci_word "previous"; Sps;
           ci_word "instructions"]);
   ("disregard\s+(all\s+)?prior\s+(instructions|rules)",
    RSeqs [ci_word "disregard"; Sps; ROpt (RSeq (ci_word "all") Sps); ci_word "prior"; Sps;
           RAlt (ci_word "instructions") (ci_word "rules")]);
   ("you\s+are\s+now\s+(?:a|an)\s+",
    RSeqs [ci_word "you"; Sps; ci_word "are"; Sps; ci_word "now"; Sps;
           RAlt (ci_word "a") (ci_word "an"); Sps]);
   ("act\s+as\s+(?:if\s+)?(?:you\s+are\s+)?(?:a|an)\s+",
    RSeqs [ci_word "act"; Sps; ci_word "as"; Sps; ROpt (RSeq (ci_word "if") Sps);
           ROpt (RSeqs [ci_word "you"; Sps; ci_word "are"; Sps]);
           RAlt (ci_word "a") (ci_word "an"); Sps]);
   ("jailbreak", ci_word "jailbreak");
   ("DAN\s+mode", RSeqs [ci_word "DAN"; Sps; ci_word "mode"])]%string.

(** ** Operations *)

Record MaskResult : Type := mkMaskResult { mr_text : string; found_types : list string }.

Definition redaction (label : string) : text :=
  points ("[REDACTED-" +:+ map_str upper_byte label +:+ "]").

(** The loop of [mask_pii]. *)
Fixpoint mask_loop (ps : list (string * regex)) (t : text) : text * list string :=
  match ps with
  | [] => (t, [])
  | (label, pattern) :: ps =>
      if search pattern t then
        let '(t', found) := mask_loop ps (sub pattern (redaction label) t) in
        (t', label :: found)
      else mask_loop ps t
  end.

Definition mask_pii (s : string) : MaskResult :=
  let '(t, found) := mask_loop _PII_PATTERNS (_normalize (points s)) in
  mkMaskResult (of_points t) found.

Definition scrub (s : string) : MaskResult := mask_pii s.

Fixpoint injection_loop {S} (ps : list (string * regex)) (t : text) : M S unit :=
  match ps with
  | [] => mret tt
  | (source, pattern) :: ps =>
      if search pattern t then
        throw PromptInjectionError
          ("Potential prompt injection detected: matched pattern '" +:+ source +:+ "'")
      else injection_loop ps t
  end.
Definition check_prompt_injection {S} (s : string) : M S unit :=
  injection_loop _INJECTION_PATTERNS (points s).

Definition sanitize {S} (s : string) : M S string :=
  check_prompt_injection s ;; mret (mr_text (mask_pii s)).

Record AgentInput : Type := mkAgentInput {
  raw_prompt : string; ai_sanitized_prompt : string; pii_found : list string
}.
Definition build_agent_input {S} (raw : string) : M S AgentInput :=
  check_prompt_injection raw ;;
  let result := mask_pii raw in
  mret (mkAgentInput raw (mr_text result) (found_types result)).
End patterns.

(** ** Properties *)

Section theorems.
Context `{UnicodeData}.

(** [r] matches somewhere in [t]. *)
Definition occurs (r : regex) (t : text) : Prop :=
  exists s a y, t = s ++ a /\ matches r (rev s, a) y.

(** The passes over the text, one per pattern: a pattern that occurs nowhere
    leaves the text alone and is not reported; one that occurs is reported
    and every match of it, left to right, becomes its redaction token. *)
Inductive mask_run : list (string * regex) -> text -> text -> list string -> Prop :=
  | mask_done t : mask_run [] t t []
  | mask_clean label r ps t t' found :
      ~ occurs r t -> mask_run ps t t' found -> mask_run ((label, r) :: ps) t t' found
  | mask_hit label r ps t t1 t' found :
      occurs r t -> redacted r (redaction label) [] t t1 ->
      mask_run ps t1 t' found -> mask_run ((label, r) :: ps) t t' (label :: found).

Lemma consuming_digits n : consuming (RTimes (S n) D).
Proof. destruct n; [|apply consuming_seq_l]; apply consuming_char. Qed.

(** Find a part of a sequence that must consume. *)
Ltac consume :=
  first [solve [apply consuming_char]|solve [apply consuming_digits]
        |solve [apply consuming_seq_l; consume]|solve [apply consuming_seq_r; consume]].

Lemma pii_consuming : Forall (fun p => consuming p.2) _PII_PATTERNS.
Proof.
  unfold _PII_PATTERNS, email_re, ssn_re, credit_card_re, phone_us_re, ip_address_re, octet_re.
  repeat (apply Forall_cons_2; [cbn [snd RSeqs RAlts]; consume|]). apply Forall_nil_2.
Qed.

Lemma mask_loop_run ps t :
  Forall (fun p => consuming p.2) ps ->
  mask_run ps t (mask_loop ps t).1 (mask_loop ps t).2.
Proof.
  intros Hps. revert t. induction Hps as [|[label r] ps Hr _ IH]; intros t; [constructor|].
  simpl. pose proof (search_iff r t) as Hs. destruct (search r t).
  - specialize (IH (sub r (redaction label) t)). destruct (mask_loop ps _) as [t' found].
    eapply mask_hit; [by apply Hs|by apply sub_from_redacted|done].
  - apply mask_clean; [|done]. intros Ho. by apply Hs in Ho.
Qed.

(** C34. PII masking does what its patterns mean.  The backtracking search and
    substitution of [mask_pii] carry out, on the normalised text, exactly
    one redaction pass per PII pattern in order: the reported types are the
    patterns that occur (in the declarative sense) when their turn comes,
    and the returned text is the result of the passes. *)
Theorem mask_pii_spec s :
  exists t', mask_run _PII_PATTERNS (_normalize (points s)) t' (found_types (mask_pii s)) /\
    mr_text (mask_pii s) = of_points t'.
Proof.
  exists (mask_loop _PII_PATTERNS (_normalize (points s))).1. unfold mask_pii.
  pose proof (mask_loop_run _PII_PATTERNS (_normalize (points s)) pii_consuming) as Hr.
  destruct (mask_loop _ _) as [t found]. done.
Qed.

Lemma mask_run_clean ps t t' :
  mask_run ps t t' [] -> t' = t /\ Forall (fun p => ~ occurs p.2 t) ps.
Proof.
  remember [] as found eqn:Ef. induction 1 as [t|label r ps t t' found Ho _ IH|]; [done| |done].
  destruct (IH Ef) as [-> Hps]. split; [done|]. by constructor.
Qed.

(** A clean report can be trusted: when [mask_pii] reports no PII type, the
    text it returns is the normalised input and none of the five patterns
    (email, SSN, credit card, phone, IP address) occurs anywhere in it. *)
Theorem no_report_no_pii s :
  found_types (mask_pii s) = [] ->
  mr_text (mask_pii s) = of_points (_normalize (points s)) /\
  Forall (fun p => ~ occurs p.2 (_normalize (points s))) _PII_PATTERNS.
Proof.
  unfold mask_pii. pose proof (mask_loop_run _PII_PATTERNS (_normalize (points s)) pii_consuming) as Hr.
  destruct (mask_loop _ _) as [t found]. simpl in *. intros ->.
  apply mask_run_clean in Hr as [-> Hc]. done.
Qed.

Lemma injection_loop_spec {S} ps t (s : S) w :
  injection_loop ps t s w = (Ok tt, (s, w)) /\ Forall (fun p => ~ occurs p.2 t) ps \/
  exists msg, injection_loop ps t s w = (Err (Exn PromptInjectionError msg None), (s, w)) /\
    Exists (fun p => occurs p.2 t) ps.
Proof.
  induction ps as [|[source r] ps IH]; simpl; [by left|].
  pose proof (search_iff r t) as Hs. destruct (search r t).
  - right. eexists. split; [done|]. left. by apply Hs.
  - assert (Hn : ~ occurs r t) by (intros Ho; by apply Hs in Ho).
    destruct IH as [[E Hf]|(msg & E & He)]; [left; split; [done|by constructor]|].
    right. exists msg. split; [done|by right].
Qed.

Lemma check_prompt_injection_ok {S} p (st : S) w sw :
  check_prompt_injection p st w = (Ok tt, sw) ->
  sw = (st, w) /\ Forall (fun q => ~ occurs q.2 (points p)) _INJECTION_PATTERNS.
Proof.
  unfold check_prompt_injection. intros E.
  destruct (injection_loop_spec _INJECTION_PATTERNS (points p) st w) as [[E2 Hf]|(msg & E2 & _)];
    rewrite E2 in E; by simplify_eq.
Qed.

(** C35. Injection detection is exact for its patterns: [check_prompt_injection]
    raises [PromptInjectionError] if one of the six patterns occurs in the
    prompt as given, and returns otherwise; it changes nothing. *)
Theorem check_prompt_injection_iff {S} prompt (s : S) w :
  (check_prompt_injection prompt s w = (Ok tt, (s, w)) <->
     Forall (fun p => ~ occurs p.2 (points prompt)) _INJECTION_PATTERNS) /\
  ((exists msg, check_prompt_injection prompt s w
                = (Err (Exn PromptInjectionError msg None), (s, w))) <->
     Exists (fun p => occurs p.2 (points prompt)) _INJECTION_PATTERNS).
Proof.
  unfold check_prompt_injection. generalize _INJECTION_PATTERNS as ps. intros ps.
  destruct (injection_loop_spec ps (points prompt) s w) as [[-> Hf]|(msg & -> & He)].
  - split; [done|]. split; [by intros [? ?]|]. intros He. exfalso. revert He.
    apply Forall_not_Exists. done.
  - split; [|by split; eauto]. split; [done|]. intros Hf. exfalso. revert He.
    by apply Forall_not_Exists.
Qed.

(** Injection detection reads the raw prompt, before the zero-width
    characters are stripped: "jail", U+200B, "break" passes it, although the
    text handed on after normalisation contains "jailbreak", which the same
    patterns reject.  (NFKC is only used on ASCII text, which it keeps.) *)
Theorem zero_width_injection_passes {S} (s : S) w :
  (forall t, Forall (fun c => 0 <= c < 128) t -> nfkc t = t) ->
  let prompt := of_points (points "jail" ++ [0x200b] ++ points "break") in
  check_prompt_injection prompt s w = (Ok tt, (s, w)) /\
  mr_text (mask_pii prompt) = "jailbreak"%string /\
  exists msg, check_prompt_injection (mr_text (mask_pii prompt)) s w
              = (Err (Exn PromptInjectionError msg None), (s, w)).
Proof.
  intros Hn prompt.
  assert (Hm : mr_text (mask_pii prompt) = "jailbreak"%string).
  { unfold mask_pii, _normalize.
    replace (sub _INVISIBLE_RE [] (points prompt)) with (points "jailbreak")
      by (vm_compute; reflexivity).
    rewrite Hn by (repeat constructor; vm_compute; congruence).
    vm_compute. reflexivity. }
  rewrite Hm. split; [|split; [done|]].
  - vm_compute. reflexivity.
  - eexists. vm_compute. reflexivity.
Qed.
End theorems.

(** ** Witnesses *)

(** A Unicode database without characters beyond ASCII. *)
Definition ascii_data : UnicodeData := {|
  nfkc t := t; uni_digit _ := false; uni_space _ := false; uni_word _ := false
|}.
#[local] Existing Instance ascii_data.

Example mask_ssn :
  mask_pii "call 555-123-4567, ssn 123-45-6789"
  = mkMaskResult "call [REDACTED-PHONE_US], ssn [REDACTED-SSN]" ["ssn"; "phone_us"]%string.
Proof. vm_compute. reflexivity. Qed.

Lemma no_report_no_pii_witness :
  Forall (fun p => ~ occurs p.2 (_normalize (points "hello world"))) _PII_PATTERNS.
Proof. apply (no_report_no_pii "hello world"). vm_compute. reflexivity. Defined.

Lemma zero_width_injection_passes_witness :
  check_prompt_injection (of_points (points "jail" ++ [0x200b] ++ points "break")) tt w_empty
  = (Ok tt, (tt, w_empty)).
Proof. apply (zero_width_injection_passes tt w_empty). done. Defined.
