(* ===== verification/SessionMgr.v ===== *)
(** * src/governance/session_mgr.py: agent tokens and DPoP proofs

    [SessionManager] holds the revocation list, the rotation index and the
    replay store.  python-jose, cryptography and pydantic are not part of the
    repository: [Jose], [Cryptography] and [Pydantic] are the functions the
    module calls, and [JoseLaws] states the documented behaviour it relies on. *)
From Stdlib Require Import ZArith Lia Ascii String.
From stdpp Require Import base gmap strings list.
From S2P Require Import Prelude PyDecimal PyUuid World Config AuditLogger PyCrypto ReplayStore.

(** A Python [dict] read from or written to JSON. *)
Definition dict : Type := list (string * json).

(** ** Libraries *)

Class Jose : Type := {
  (* [jwt.encode(claims, key, algorithm=alg, headers=headers)] *)
  jwt_encode : dict -> string -> string -> option dict -> result string;
  (* [jwt.decode(token, key, algorithms=algs)] at a Unix time in whole seconds *)
  jwt_decode : string -> string -> list string -> Z -> result dict;
  jwt_get_unverified_header : string -> result dict;
  jwt_get_unverified_claims : string -> result dict
}.

Class Cryptography : Type := {
  (* [EllipticCurvePublicNumbers(x, y, curve).public_key()] printed as PEM *)
  ec_public_pem : string -> Z -> Z -> result string;
  rsa_public_pem : Z -> Z -> result string;        (* arguments e, n *)
  (* public half of a PEM private key *)
  public_pem_of_private : string -> result string
}.

Class Pydantic : Type := {
  validation_message : string -> dict -> string;   (* text of a [ValidationError] *)
  pyd_float_of_str : string -> option Z;           (* numeric strings, in ticks *)
  pyd_int_of_str : string -> option Z
}.

(** Text conversions of Python that only show up in messages or on non-ASCII
    input. *)
Class PyText : Type := {
  py_repr : json -> string;
  upper_unicode : string -> string;
  lower_unicode : string -> string;
  float_of_str : string -> option Z
}.

(** ** Python values *)

Definition str_upper `{PyText} (s : string) : string :=
  if all_ascii s then map_str upper_byte s else upper_unicode s.
Definition str_lower `{PyText} (s : string) : string :=
  if all_ascii s then map_str lower_byte s else lower_unicode s.

(** [str(v)] *)
Definition py_str `{PyText} (j : json) : string :=
  match j with JStr s => s | _ => py_repr j end.

(** [float(v)] *)
Definition py_float `{PyText} (j : json) : result Z :=
  match j with
  | JInt z => Ok (secs z)
  | JTime t => Ok t
  | JBool b => Ok (secs (if b then 1 else 0))
  | JStr s => match float_of_str s with
              | Some t => Ok t
              | None => Err (Exn ValueError ("could not convert string to float: " +:+ repr_str s) None)
              end
  | _ => Err (Exn TypeError "float() argument must be a string or a real number" None)
  end.

(** Characters of a string: a byte 0x80..0xBF continues the previous one. *)
Fixpoint str_chars (l : list Z) : list (list Z) :=
  match l with
  | [] => []
  | b :: l => match str_chars l with
              | (c :: cs) :: r => if (128 <=? c) && (c <? 192) then (b :: c :: cs) :: r
                                  else [b] :: (c :: cs) :: r
              | r => [b] :: r
              end
  end.

(** [list(v)] *)
Definition py_list (j : json) : result (list json) :=
  match j with
  | JList l => Ok l
  | JStr s => Ok ((fun c => JStr (bytes_str c)) <$> str_chars (str_bytes s))
  | JObj fs => Ok ((fun p : string * json => JStr p.1) <$> fs)
  | _ => Err (Exn TypeError "object is not iterable" None)
  end.

(** ** Data *)

Record ConfirmationClaims : Type := mkConfirmation { jkt : string }.

Record TokenClaims : Type := mkTokenClaims {
  jti : string;
  sub : string;
  tc_agent_type : string;
  tc_session_id : option string;
  tc_task_id : option string;
  allowed_actions : list string;
  role : option string;
  issued_at : Z;
  expires_at : Z;
  metadata : list (string * string);
  cnf : option ConfirmationClaims
}.

Record DPoPProofClaims : Type := mkProofClaims {
  proof_jti : string;
  htm : string;
  htu : string;
  iat : Z;
  ath : option string;
  nonce : option string
}.

(** *** Field conversions of pydantic's lax mode *)

Definition pyd_str (j : json) : option string :=
  match j with JStr s => Some s | _ => None end.
Definition pyd_opt_str (j : json) : option (option string) :=
  match j with JNull => Some None | JStr s => Some (Some s) | _ => None end.
Definition pyd_float `{Pydantic} (j : json) : option Z :=
  match j with
  | JInt z => Some (secs z)
  | JTime t => Some t
  | JBool b => Some (secs (if b then 1 else 0))
  | JStr s => pyd_float_of_str s
  | _ => None
  end.
Definition pyd_int `{Pydantic} (j : json) : option Z :=
  match j with
  | JInt z => Some z
  | JBool b => Some (if b then 1 else 0)
  | JTime t => if t mod tick_rate =? 0 then Some (t / tick_rate) else None
  | JStr s => pyd_int_of_str s
  | _ => None
  end.
Definition pyd_dict_str (j : json) : option (list (string * string)) :=
  match j with
  | JObj fs => mapM (fun p : string * json => pair p.1 <$> pyd_str p.2) fs
  | _ => None
  end.

Definition build_confirmation (j : json) : option ConfirmationClaims :=
  match j with
  | JObj fs => v ← assoc "jkt" fs; mkConfirmation <$> pyd_str v
  | _ => None
  end.

(** [DPoPProofClaims.model_validate(payload)] *)
Definition build_proof `{Pydantic} (d : dict) : option DPoPProofClaims :=
  j ← assoc "jti" d ≫= pyd_str;
  m ← assoc "htm" d ≫= pyd_str;
  u ← assoc "htu" d ≫= pyd_str;
  i ← assoc "iat" d ≫= pyd_int;
  a ← pyd_opt_str (default JNull (assoc "ath" d));
  n ← pyd_opt_str (default JNull (assoc "nonce" d));
  Some (mkProofClaims j m u i a n).

(** ** JSON web keys *)

Definition getitem {S} (k : string) (d : dict) : M S json :=
  of_option (assoc k d) KeyError (repr_str k).

Section jwk.
Context `{PyText} `{FloatRepr} `{Cryptography} {St : Type}.

(** [curves[curve_name]]: the supported names; other strings are a
    [ValueError], values that cannot be dictionary keys a [TypeError]. *)
Definition _curve_from_name (curve_name : json) : M St string :=
  match curve_name with
  | JStr s =>
      if bool_decide (s ∈ ["P-256"; "P-384"; "P-521"]%string) then mret s
      else throw_from ValueError ("Unsupported JWK curve: " +:+ repr_str s)
             (Exn KeyError (repr_str s) None)
  | JList _ | JObj _ => throw TypeError "unhashable type"
  | j => throw_from ValueError ("Unsupported JWK curve: " +:+ py_repr j)
           (Exn KeyError (py_repr j) None)
  end.

Definition kty_repr (o : option json) : string :=
  match o with
  | Some (JStr s) => repr_str s
  | Some j => py_repr j
  | None => "None"
  end.

Definition _required_jwk_fields (jwk : dict) : M St dict :=
  let kty := assoc "kty" jwk in
  match kty with
  | Some (JStr "EC") =>
      crv ← getitem "crv" jwk; k ← getitem "kty" jwk; x ← getitem "x" jwk;
      y ← getitem "y" jwk;
      mret [("crv", crv); ("kty", k); ("x", x); ("y", y)]%string
  | Some (JStr "RSA") =>
      e ← getitem "e" jwk; k ← getitem "kty" jwk; n ← getitem "n" jwk;
      mret [("e", e); ("kty", k); ("n", n)]%string
  | _ => throw ValueError ("Unsupported JWK key type: " +:+ kty_repr kty)
  end.

(** [int.from_bytes(_b64url_decode(v), "big")] *)
Definition decode_number (v : json) : M St Z :=
  match v with
  | JStr s => of_option (int_from_bytes <$> _b64url_decode s) ValueError "Incorrect padding"
  | _ => throw TypeError "unsupported operand type(s)"
  end.

Definition _public_pem_from_jwk (jwk : dict) : M St string :=
  let kty := assoc "kty" jwk in
  match kty with
  | Some (JStr "EC") =>
      c ← getitem "crv" jwk; curve ← _curve_from_name c;
      jx ← getitem "x" jwk; x ← decode_number jx;
      jy ← getitem "y" jwk; y ← decode_number jy;
      of_result (ec_public_pem curve x y)
  | Some (JStr "RSA") =>
      je ← getitem "e" jwk; e ← decode_number je;
      jn ← getitem "n" jwk; n ← decode_number jn;
      of_result (rsa_public_pem e n)
  | _ => throw ValueError ("Unsupported JWK key type: " +:+ kty_repr kty)
  end.

Definition public_jwk_thumbprint (public_jwk : dict) : M St string :=
  fields ← _required_jwk_fields public_jwk;
  mret (_b64url_encode (sha256 (str_bytes (json_dumps (JObj fields))))).

Definition public_pem_from_jwk (public_jwk : dict) : M St string :=
  _public_pem_from_jwk public_jwk.

(** [n.to_bytes(size, "big")] *)
Fixpoint to_bytes_big (size : nat) (n : Z) : list Z :=
  match size with
  | O => []
  | S size => to_bytes_big size (n / 256) ++ [n mod 256]
  end.
Definition int_to_bytes (size : nat) (n : Z) : result (list Z) :=
  if (0 <=? n) && (n <? 256 ^ Z.of_nat size) then Ok (to_bytes_big size n)
  else Err (Exn (OtherException "OverflowError") "int too big to convert" None).

(** The key pair is drawn by the cryptography library: [pem], [x], [y] are the
    private key and the public point it generated on P-256. *)
Definition generate_dpop_key_pair (pem : string) (x y : Z) : M St (string * dict) :=
  bx ← of_result (int_to_bytes 32 x);
  by_ ← of_result (int_to_bytes 32 y);
  mret (pem, [("kty", JStr "EC"); ("crv", JStr "P-256");
              ("x", JStr (_b64url_encode bx)); ("y", JStr (_b64url_encode by_))]%string).
End jwk.

(** The draw of [ec.generate_private_key]: the private key's PEM and the public
    point. *)
Class KeyGen : Type := draw_key : World -> string * Z * Z.

Definition _access_token_hash (access_token : string) : string :=
  _b64url_encode (sha256 (str_bytes access_token)).

(** ** The session manager *)

Record SessionManager (R : Type) : Type := mkSessionManager {
  _revoked_jtis : gmap string Z;
  _rotation_index : gmap string string;
  _replay_store : R
}.
Arguments mkSessionManager {R} _ _ _.
Arguments _revoked_jtis {R} _.
Arguments _rotation_index {R} _.
Arguments _replay_store {R} _.

(** The keyword arguments of [issue_token]. *)
Record TokenRequest : Type := mkTokenRequest {
  rq_agent_type : string;
  rq_requester_id : string;
  rq_metadata : option (list (string * string));
  rq_session_id : option string;
  rq_allowed_actions : option (list string);
  rq_role : option string;
  rq_expires_in_seconds : option Z;
  rq_rotation_key : option string;
  rq_task_id : option string;
  rq_confirmation_jwk : option dict
}.

Section manager.
Context `{Env} `{HasSettings} `{PyText} `{FloatRepr} `{Cryptography} `{Pydantic} `{Jose}.
Context {R : Type} `{ReplayStore R}.
Abbreviation SM := (M (SessionManager R)).

Definition set_revoked (f : gmap string Z -> gmap string Z) : SM unit :=
  modify (fun s => mkSessionManager (f (_revoked_jtis s)) (_rotation_index s) (_replay_store s)).

Definition _purge_expired_revocations (now : Z) : SM unit :=
  set_revoked (purge_expired now).

Definition revoke_jti (j : string) (expires : option Z) : SM unit :=
  ttl ← match expires with
        | Some t => mret t
        | None => t ← time_time; mret (t + secs (token_expiry_seconds settings))
        end;
  set_revoked (insert j ttl).

(** [jti in self._revoked_jtis] for a value read from JSON. *)
Definition is_revoked (j : json) : SM bool :=
  now ← time_time;
  _purge_expired_revocations now ;;
  s ← get;
  match j with
  | JStr j => mret (bool_decide (is_Some (_revoked_jtis s !! j)))
  | JList _ | JObj _ => throw TypeError "unhashable type"
  | _ => mret false
  end.

Definition _signing_algorithm : string := token_algorithm settings.

Definition _signing_key : SM string :=
  if String.prefix "HS" _signing_algorithm then mret (token_secret_key settings)
  else if negb (bool_decide (token_private_key settings = ""%string))
  then mret (token_private_key settings)
  else throw ValueError
         "AEGIS_TOKEN_PRIVATE_KEY must be configured for asymmetric token signing".

Definition _verification_key : SM string :=
  if String.prefix "HS" _signing_algorithm then mret (token_secret_key settings)
  else if negb (bool_decide (token_public_key settings = ""%string))
  then mret (token_public_key settings)
  else if negb (bool_decide (token_private_key settings = ""%string))
  then of_result (public_pem_of_private (token_private_key settings))
  else throw ValueError
         ("AEGIS_TOKEN_PUBLIC_KEY or AEGIS_TOKEN_PRIVATE_KEY must be configured " +:+
          "for asymmetric token verification").

(** [jwt.decode] reads the UTC clock for the [exp] check. *)
Definition decode_now (token key : string) (algs : list string) : SM dict :=
  t ← utc_now;
  of_result (jwt_decode token key algs (t / 1000000)).

Definition token_claims (r : TokenRequest) (j : string) (now : Z) (thumbprint : option string)
    : dict :=
  let expiry_seconds := default (token_expiry_seconds settings) (rq_expires_in_seconds r) in
  [("jti", JStr j); ("sub", JStr (rq_requester_id r)); ("agent_type", JStr (rq_agent_type r));
   ("session_id", jstr_opt (rq_session_id r)); ("task_id", jstr_opt (rq_task_id r));
   ("allowed_actions", jstrs (default [] (rq_allowed_actions r)));
   ("role", jstr_opt (rq_role r)); ("iat", JTime now);
   ("exp", JTime (now + secs expiry_seconds));
   ("metadata", JObj (prod_map id JStr <$> default [] (rq_metadata r)))]%string
  ++ match thumbprint with
     | Some t => [("cnf", JObj [("jkt", JStr t)])]%string
     | None => []
     end.

(** The token id the rotation key of [r] points at. *)
Definition rotated (r : TokenRequest) (s : SessionManager R) : option string :=
  rq_rotation_key r ≫= fun k => _rotation_index s !! k.

Definition issue_token (r : TokenRequest) : SM string :=
  if bool_decide (rq_agent_type r = ""%string) || bool_decide (rq_requester_id r = ""%string)
  then throw ValueError "agent_type and requester_id must not be empty"
  else
    now ← time_time;
    _purge_expired_revocations now ;;
    s ← get;
    match rotated r s with
    | Some old => revoke_jti old None
    | None => mret tt
    end ;;
    u ← uuid4;
    thumbprint ← match rq_confirmation_jwk r with
                 | Some jwk => t ← public_jwk_thumbprint jwk; mret (Some t)
                 | None => mret None
                 end;
    let claims := token_claims r (uuid_str u) now thumbprint in
    key ← _signing_key;
    token ← of_result (jwt_encode claims key _signing_algorithm None);
    match rq_rotation_key r with
    | Some k => modify (fun s => mkSessionManager (_revoked_jtis s)
                                   (<[k := uuid_str u]> (_rotation_index s)) (_replay_store s))
    | None => mret tt
    end ;;
    mret token.

Definition issue_sender_constrained_token (r : TokenRequest) (public_jwk : dict) : SM string :=
  issue_token (mkTokenRequest (rq_agent_type r) (rq_requester_id r) (rq_metadata r)
    (rq_session_id r) (rq_allowed_actions r) (rq_role r) (rq_expires_in_seconds r)
    (rq_rotation_key r) (rq_task_id r) (Some public_jwk)).

Definition validation_error {A} (model : string) (d : dict) : SM A :=
  throw ValidationError (validation_message model d).

(** [TokenClaims(...)], arguments evaluated left to right. *)
Definition build_claims (j : json) (payload : dict) : SM TokenClaims :=
  s ← getitem "sub" payload;
  a ← getitem "agent_type" payload;
  acts ← of_result (py_list (default (JList []) (assoc "allowed_actions" payload)));
  i ← getitem "iat" payload;
  e ← getitem "exp" payload;
  c ← match default JNull (assoc "cnf" payload) with
      | JNull => mret None
      | v => match build_confirmation v with
             | Some c => mret (Some c)
             | None => validation_error "ConfirmationClaims" payload
             end
      end;
  match (j' ← pyd_str j; s' ← pyd_str s; a' ← pyd_str a;
         sid ← pyd_opt_str (default JNull (assoc "session_id" payload));
         tid ← pyd_opt_str (default JNull (assoc "task_id" payload));
         acts' ← mapM pyd_str acts;
         ro ← pyd_opt_str (default JNull (assoc "role" payload));
         i' ← pyd_float i; e' ← pyd_float e;
         md ← pyd_dict_str (default (JObj []) (assoc "metadata" payload));
         Some (mkTokenClaims j' s' a' sid tid acts' ro i' e' md c)) with
  | Some claims => mret claims
  | None => validation_error "TokenClaims" payload
  end.

Definition validate_token (token : string) : SM TokenClaims :=
  payload ← try_except
    (key ← _verification_key; decode_now token key [_signing_algorithm])
    [(ExpiredSignatureError, fun exc =>
        throw_from TokenExpiredError "Session token has expired" exc)];
  j ← getitem "jti" payload;
  now ← time_time;
  _purge_expired_revocations now ;;
  revoked ← is_revoked j;
  if (revoked : bool) then
    throw TokenRevokedError ("Session token jti=" +:+ repr_str (py_str j) +:+ " has been revoked")
  else build_claims j payload.

Definition revoke_token (token : string) : SM string :=
  claims ← try_except (of_result (jwt_get_unverified_claims token))
    [(JWTError, fun exc => throw_from ValueError "Unable to revoke malformed token" exc)];
  j ← getitem "jti" claims;
  now ← time_time;
  expires ← of_result (py_float (default (JTime now) (assoc "exp" claims)));
  revoke_jti (py_str j) (Some expires) ;;
  mret (py_str j).

Definition ensure_action_allowed (claims : TokenClaims) (action : string) : SM unit :=
  if bool_decide (action ∈ allowed_actions claims) then mret tt
  else throw TokenActionError ("Token jti=" +:+ repr_str (jti claims)
         +:+ " is not scoped for action " +:+ repr_str action).

Definition is_expired (claims : TokenClaims) : SM bool :=
  now ← time_time; mret (expires_at claims <? now).
Definition time_remaining (claims : TokenClaims) : SM Z :=
  now ← time_time; mret (expires_at claims - now).

(** Microseconds of a tick count, rounded half to even as
    [datetime.fromtimestamp] does. *)
Definition issued_at_utc (claims : TokenClaims) : datetime :=
  let n := issued_at claims * 1000000 in
  let q := n / tick_rate in
  let r := 2 * (n mod tick_rate) in
  mkDatetime (if (tick_rate <? r) || ((r =? tick_rate) && Z.odd q) then q + 1 else q) (Some 0).

(** ** DPoP *)

Definition issue_dpop_proof (private_key_pem : string) (public_jwk : dict)
    (http_method http_url : string) (access_token nonce : option string)
    (issued : option Z) (pjti : option string) : SM string :=
  now ← match issued with Some n => mret n | None => t ← time_time; mret (whole_secs t) end;
  j ← match pjti with
      | Some j => if bool_decide (j = ""%string) then u ← uuid4; mret (uuid_str u) else mret j
      | None => u ← uuid4; mret (uuid_str u)
      end;
  let claims :=
    [("jti", JStr j); ("htm", JStr (str_upper http_method)); ("htu", JStr http_url);
     ("iat", JInt now)]%string
    ++ match access_token with
       | Some t => [("ath"%string, JStr (_access_token_hash t))] | None => [] end
    ++ match nonce with Some n => [("nonce"%string, JStr n)] | None => [] end in
  let headers := [("typ", JStr "dpop+jwt"); ("alg", JStr "ES256"); ("jwk", JObj public_jwk)]%string in
  of_result (jwt_encode claims private_key_pem "ES256" (Some headers)).

Definition proof_header (proof : string) : SM dict :=
  try_except (of_result (jwt_get_unverified_header proof))
    [(JWTError, fun exc => throw_from DPoPProofError "Malformed DPoP proof header" exc)].

Definition embedded_jwk (header : dict) : SM dict :=
  match assoc "jwk" header with
  | Some (JObj jwk) => mret jwk
  | _ => throw DPoPProofError "DPoP proof header must embed a public JWK"
  end.

(** The checks on the claims of a proof whose signature was verified. *)
Definition check_proof_claims (p : DPoPProofClaims) (http_method http_url : string)
    (access_token nonce_ : option string) (current_time : Z) : SM unit :=
  if negb (bool_decide (str_upper (htm p) = str_upper http_method)) then
    throw DPoPProofError ("DPoP proof htm mismatch: " +:+ repr_str (htm p) +:+ " != "
                          +:+ repr_str (str_upper http_method))
  else if negb (bool_decide (htu p = http_url)) then
    throw DPoPProofError ("DPoP proof htu mismatch: " +:+ repr_str (htu p) +:+ " != "
                          +:+ repr_str http_url)
  else
    let earliest_valid_iat := current_time - secs (dpop_proof_ttl_seconds settings) in
    let latest_valid_iat := current_time + secs (dpop_clock_skew_seconds settings) in
    if (secs (iat p) <? earliest_valid_iat) || (latest_valid_iat <? secs (iat p)) then
      throw DPoPProofError "DPoP proof iat is outside the acceptable time window"
    else if match nonce_ with
            | Some n => negb (bool_decide (nonce p = Some n))
            | None => false
            end
    then throw DPoPProofError "DPoP proof nonce mismatch"
    else if match access_token with
            | Some t => negb (bool_decide (ath p = Some (_access_token_hash t)))
            | None => false
            end
    then throw DPoPProofError "DPoP proof ath mismatch for presented access token"
    else mret tt.

Definition validate_dpop_proof (proof http_method http_url : string)
    (access_token nonce_ : option string) (now : option Z) : SM DPoPProofClaims :=
  current_time ← match now with Some t => mret t | None => time_time end;
  header ← proof_header proof;
  if negb (match assoc "typ" header with
           | Some (JStr t) => bool_decide (t = "dpop+jwt"%string) | _ => false end) then
    throw DPoPProofError "DPoP proof header typ must be 'dpop+jwt'"
  else
    public_jwk ← embedded_jwk header;
    public_pem ← _public_pem_from_jwk public_jwk;
    let algorithm := py_str (default (JStr "ES256") (assoc "alg" header)) in
    payload ← try_except (decode_now proof public_pem [algorithm])
      [(ExpiredSignatureError, fun exc =>
          throw_from DPoPProofError "DPoP proof has expired" exc);
       (JWTError, fun exc =>
          throw_from DPoPProofError "DPoP proof signature validation failed" exc)];
    proof_claims ← match build_proof payload with
                   | Some p => mret p
                   | None => validation_error "DPoPProofClaims" payload
                   end;
    check_proof_claims proof_claims http_method http_url access_token nonce_ current_time ;;
    let replay_key := proof_jti proof_claims in
    fresh ← zoom _replay_store
              (fun r s => mkSessionManager (_revoked_jtis s) (_rotation_index s) r)
              (register_if_unused replay_key (dpop_proof_ttl_seconds settings));
    if (fresh : bool) then mret proof_claims
    else throw DPoPReplayError
           ("DPoP proof jti=" +:+ repr_str replay_key +:+ " has already been used").

Definition validate_sender_constrained_token (token dpop_proof http_method http_url : string)
    (nonce_ : option string) (now : option Z) : SM TokenClaims :=
  claims ← validate_token token;
  match cnf claims with
  | None => throw TokenBindingError "Access token is not sender-constrained (missing cnf.jkt)"
  | Some c =>
      header ← proof_header dpop_proof;
      public_jwk ← embedded_jwk header;
      proof_thumbprint ← public_jwk_thumbprint public_jwk;
      if negb (bool_decide (proof_thumbprint = jkt c)) then
        throw TokenBindingError "DPoP proof key thumbprint does not match access token cnf.jkt"
      else
        validate_dpop_proof dpop_proof http_method http_url (Some token) nonce_ now ;;
        mret claims
  end.
End manager.

(** [SessionManager(replay_store)] / [_default_replay_store]: which store the
    configuration selects. *)
Inductive store_choice : Type := UseRedis (url : string) | UseInMemory.

Definition _default_replay_store `{HasSettings} `{PyText} : result store_choice :=
  if negb (bool_decide (dpop_replay_store_url settings = ""%string))
  then Ok (UseRedis (dpop_replay_store_url settings))
  else if bool_decide (str_lower (aegis_env settings) = "production"%string)
  then Err (Exn ValueError ("AEGIS_DPOP_REPLAY_STORE_URL must be configured in production for "
                            +:+ "shared DPoP proof replay protection") None)
  else Ok UseInMemory.

Definition SessionManager_init {R} (replay_store : R) : SessionManager R :=
  mkSessionManager ∅ ∅ replay_store.

(** Tokens are handled in process, without HTTP. *)
Section quiet_tokens.
Context `{Env} `{HasSettings} `{PyText} `{FloatRepr} `{Cryptography} `{Pydantic} `{Jose}.
Context {R : Type} `{!ReplayStore R}.

Lemma quiet_validate_token t : quiet (S := SessionManager R) (validate_token t).
Proof.
  unfold validate_token, _verification_key, decode_now, getitem, is_revoked,
    _purge_expired_revocations, set_revoked, build_claims, validation_error, getitem. hush.
Qed.
Lemma quiet_thumbprint jwk : quiet (S := SessionManager R) (public_jwk_thumbprint jwk).
Proof. unfold public_jwk_thumbprint, _required_jwk_fields, getitem. hush. Qed.
Lemma quiet_issue_token r : quiet (S := SessionManager R) (issue_token r).
Proof.
  unfold issue_token, revoke_jti, _signing_key, _purge_expired_revocations, set_revoked.
  hush. apply quiet_thumbprint.
Qed.
Lemma quiet_dpop_proof pem jwk m u t n i j :
  quiet (S := SessionManager R) (issue_dpop_proof pem jwk m u t n i j).
Proof. unfold issue_dpop_proof. hush. Qed.
End quiet_tokens.
#[export] Hint Resolve quiet_validate_token quiet_thumbprint quiet_issue_token
  quiet_dpop_proof : quiet.

(** ** What the manager relies on python-jose for *)

(** [int(v)] of a numeric claim. *)
Definition claim_secs (j : json) : option Z :=
  match j with JInt z => Some z | JTime t => Some (whole_secs t) | _ => None end.

(** The registered claims have the types jose checks, and there are no others. *)
Definition claims_checkable (c : dict) : Prop :=
  (forall j, assoc "jti" c = Some j -> exists s, j = JStr s) /\
  (forall j, assoc "sub" c = Some j -> exists s, j = JStr s) /\
  (forall j, assoc "iat" c = Some j -> is_Some (claim_secs j)) /\
  (forall j, assoc "exp" c = Some j -> is_Some (claim_secs j)) /\
  Forall (fun k => assoc k c = None) ["nbf"; "aud"; "iss"; "at_hash"]%string.

Definition expired_at (c : dict) (now : Z) : bool :=
  match assoc "exp" c ≫= claim_secs with Some e => e <? now | None => false end.

(** Signing then verifying with the matching key gives the claims back, or
    [ExpiredSignatureError] once [exp] (in whole seconds) is in the past; the
    unverified accessors read what was encoded. *)
Class JoseLaws `{Jose} : Type := {
  key_pair : string -> string -> string -> Prop;   (* algorithm, signing, verification *)
  encode_total alg sk vk claims headers :
    key_pair alg sk vk -> exists token, jwt_encode claims sk alg headers = Ok token;
  decode_encode alg sk vk claims headers token now :
    key_pair alg sk vk -> claims_checkable claims ->
    jwt_encode claims sk alg headers = Ok token ->
    jwt_decode token vk [alg] now
    = if expired_at claims now
      then Err (Exn ExpiredSignatureError "Signature has expired." None)
      else Ok claims;
  unverified_claims_encode alg sk claims headers token :
    jwt_encode claims sk alg headers = Ok token ->
    jwt_get_unverified_claims token = Ok claims;
  unverified_header_encode alg sk claims headers token :
    jwt_encode claims sk alg (Some headers) = Ok token ->
    exists header, jwt_get_unverified_header token = Ok header /\
      forall k, is_Some (assoc k headers) -> assoc k header = assoc k headers
}.

Section token_theorems.
Context `{Env} `{HasSettings} `{PyText} `{FloatRepr} `{Cryptography} `{Pydantic} `{JoseLaws}.
Context {R : Type} `{!ReplayStore R, !ReplaySafe R}.
Implicit Types (s : SessionManager R) (w : World).

(** The configured keys match. *)
Definition keys_configured : Prop :=
  exists sk vk, key_pair (token_algorithm settings) sk vk /\
    (forall s w, _signing_key s w = (Ok sk, (s, w))) /\
    (forall s w, _verification_key s w = (Ok vk, (s, w))).

(** The claims a token for [r] carries. *)
Definition claims_of (r : TokenRequest) (j : string) (now : Z) (thumbprint : option string)
    : TokenClaims :=
  mkTokenClaims j (rq_requester_id r) (rq_agent_type r) (rq_session_id r) (rq_task_id r)
    (default [] (rq_allowed_actions r)) (rq_role r) now
    (now + secs (default (token_expiry_seconds settings) (rq_expires_in_seconds r)))
    (default [] (rq_metadata r)) (mkConfirmation <$> thumbprint).

Lemma mapM_jstr l : mapM pyd_str (JStr <$> l) = Some l.
Proof. by apply mapM_fmap_Some. Qed.

Lemma mapM_metadata (l : list (string * string)) :
  mapM (fun p : string * json => pair p.1 <$> pyd_str p.2) (prod_map id JStr <$> l) = Some l.
Proof.
  induction l as [|[a b] l IH]; [done|]. rewrite fmap_cons. cbn [mapM].
  by rewrite IH.
Qed.

Lemma pyd_opt_str_jstr_opt o : pyd_opt_str (jstr_opt o) = Some o.
Proof. by destruct o. Qed.

Lemma token_claims_checkable r j now t : claims_checkable (token_claims r j now t).
Proof. split_and!; try (simpl; naive_solver). repeat constructor; by destruct t. Qed.

Lemma build_claims_run r j now t s w :
  build_claims (JStr j) (token_claims r j now t) s w
  = (Ok (claims_of r j now t), (s, w)).
Proof.
  unfold build_claims, claims_of, getitem, token_claims. run_m.
  unfold jstrs. destruct t; simpl;
    by rewrite mapM_jstr, !pyd_opt_str_jstr_opt, mapM_metadata.
Qed.

(** A token that decodes to a string [jti] is refused while the revocation
    list has a live entry for it, and read otherwise. *)
Lemma validate_decoded token vk payload j s w :
  _verification_key s w = (Ok vk, (s, w)) ->
  jwt_decode token vk [token_algorithm settings] (utc_clock (w_utc w) / 1000000) = Ok payload ->
  assoc "jti" payload = Some (JStr j) ->
  let now1 := clock (w_clock w) in let now2 := clock (S (w_clock w)) in
  exists s' w', _revoked_jtis s' = purge_expired now2 (purge_expired now1 (_revoked_jtis s)) /\
    _rotation_index s' = _rotation_index s /\ _replay_store s' = _replay_store s /\
    validate_token token s w
    = match _revoked_jtis s' !! j with
      | Some _ => (Err (Exn TokenRevokedError ("Session token jti=" +:+ repr_str j
                                               +:+ " has been revoked") None), (s', w'))
      | None => build_claims (JStr j) payload s' w'
      end.
Proof.
  intros Hk Hd Hj now1 now2. unfold validate_token, decode_now, mbind, M_bind, try_except.
  rewrite Hk. unfold utc_now, _signing_algorithm, of_result; simpl. rewrite Hd.
  unfold getitem, of_option. rewrite Hj. unfold is_revoked. run_m.
  eexists (mkSessionManager _ _ _). eexists. split_and!; [reflexivity..|]. simpl.
  fold now1 now2. destruct (purge_expired now2 _ !! j); case_bool_decide as Hs;
    [reflexivity|by destruct Hs|by destruct Hs|reflexivity].
Qed.

(** The request can be served: names are given and the key, if any, has a
    thumbprint. *)
Definition request_ok (r : TokenRequest) (th : option string) : Prop :=
  rq_agent_type r <> ""%string /\ rq_requester_id r <> ""%string /\
  match rq_confirmation_jwk r, th with
  | Some jwk, Some t => forall s w, public_jwk_thumbprint jwk s w = (Ok t, (s, w))
  | None, None => True
  | _, _ => False
  end.

Lemma issue_token_run r th s w sk token :
  request_ok r th ->
  (forall s w, _signing_key s w = (Ok sk, (s, w))) ->
  let j := uuid_str (uuid_supply (w_uuids w)) in
  jwt_encode (token_claims r j (clock (w_clock w)) th) sk (token_algorithm settings) None
    = Ok token ->
  exists s' w', issue_token r s w = (Ok token, (s', w')) /\
    _revoked_jtis s' =
      match rotated r s with
      | Some old => <[old := clock (S (w_clock w)) + secs (token_expiry_seconds settings)]>
                      (purge_expired (clock (w_clock w)) (_revoked_jtis s))
      | None => purge_expired (clock (w_clock w)) (_revoked_jtis s)
      end /\
    _rotation_index s' = match rq_rotation_key r with
                         | Some k => <[k := j]> (_rotation_index s)
                         | None => _rotation_index s
                         end /\
    w_uuids w' = S (w_uuids w).
Proof.
  intros (Ha & Hr & Hth) Hsk j Henc. unfold issue_token.
  rewrite !bool_decide_false by done. simpl orb. cbv iota.
  unfold mbind, M_bind, time_time, _purge_expired_revocations, set_revoked, modify, get.
  assert (Hrot : forall m, rotated r (mkSessionManager m (_rotation_index s) (_replay_store s))
                           = rotated r s) by done.
  simpl. rewrite Hrot. unfold revoke_jti, mbind, M_bind, time_time, mret,
    M_ret, set_revoked, modify, uuid4.
  destruct (rotated r s), (rq_confirmation_jwk r), th; try done; simpl;
    rewrite ?Hth; simpl; rewrite Hsk; unfold of_result; fold j; unfold _signing_algorithm;
    rewrite Henc; destruct (rq_rotation_key r); simpl; eauto 7.
Qed.

Lemma issued_then_used r th s w :
  keys_configured -> request_ok r th ->
  let j := uuid_str (uuid_supply (w_uuids w)) in
  let claims := claims_of r j (clock (w_clock w)) th in
  exists token s1 w1, issue_token r s w = (Ok token, (s1, w1)) /\
    jwt_get_unverified_claims token = Ok (token_claims r j (clock (w_clock w)) th) /\
    forall s2 w2, let res := (validate_token token s2 w2).1 in
      if whole_secs (expires_at claims) <? utc_clock (w_utc w2) / 1000000
      then exists msg cause, res = Err (Exn TokenExpiredError msg cause)
      else if bool_decide (is_Some (purge_expired (clock (S (w_clock w2)))
                (purge_expired (clock (w_clock w2)) (_revoked_jtis s2)) !! j))
      then exists msg, res = Err (Exn TokenRevokedError msg None)
      else res = Ok claims.
Proof.
  intros (sk & vk & Hkp & Hsk & Hvk) Hr j claims.
  set (payload := token_claims r j (clock (w_clock w)) th).
  destruct (encode_total _ sk vk payload None Hkp) as [token Henc].
  destruct (issue_token_run r th s w sk token Hr Hsk Henc) as (s1 & w1 & E & _).
  exists token, s1, w1. split; [exact E|].
  split; [exact (unverified_claims_encode _ _ _ _ _ Henc)|]. intros s2 w2.
  pose proof (decode_encode _ sk vk payload None token (utc_clock (w_utc w2) / 1000000) Hkp
    (token_claims_checkable _ _ _ _) Henc) as Hd.
  change (expired_at payload _)
    with (whole_secs (expires_at claims) <? utc_clock (w_utc w2) / 1000000) in Hd.
  destruct (_ <? _).
  - unfold validate_token, mbind, M_bind, try_except, decode_now.
    rewrite Hvk. unfold utc_now, _signing_algorithm, of_result; simpl. rewrite Hd. simpl. eauto.
  - destruct (validate_decoded token vk payload j s2 w2 (Hvk _ _) Hd eq_refl)
      as (s3 & w3 & <- & _ & _ & ->).
    destruct (_revoked_jtis s3 !! j); case_bool_decide as Hs;
      [simpl; eauto|by destruct Hs|by destruct Hs|].
    unfold payload. by rewrite build_claims_run.
Qed.

Lemma issued_then_validated r th s w :
  keys_configured -> request_ok r th ->
  let j := uuid_str (uuid_supply (w_uuids w)) in
  let claims := claims_of r j (clock (w_clock w)) th in
  exists token s1 w1, issue_token r s w = (Ok token, (s1, w1)) /\
    forall s2 w2, let res := (validate_token token s2 w2).1 in
      if whole_secs (expires_at claims) <? utc_clock (w_utc w2) / 1000000
      then exists msg cause, res = Err (Exn TokenExpiredError msg cause)
      else if bool_decide (is_Some (purge_expired (clock (S (w_clock w2)))
                (purge_expired (clock (w_clock w2)) (_revoked_jtis s2)) !! j))
      then exists msg, res = Err (Exn TokenRevokedError msg None)
      else res = Ok claims.
Proof.
  intros Hk Hr. destruct (issued_then_used r th s w Hk Hr) as (token & s1 & w1 & E & _ & Hv). eauto.
Qed.

(** C33. Issue and validate are inverse.  With matching keys, a served request
    always yields a token, and validating that token, in any later state of
    the manager, gives [TokenExpiredError] once its expiry second has
    passed, else [TokenRevokedError] while its [jti] has a live entry in the
    revocation list, and otherwise exactly the claims that were requested
    (agent type, subject, session, task, actions, role, metadata, key
    binding) with the issue and expiry times. *)
Theorem issued_token_validates r th s w :
  keys_configured -> request_ok r th ->
  let j := uuid_str (uuid_supply (w_uuids w)) in
  let claims := claims_of r j (clock (w_clock w)) th in
  exists token s1 w1, issue_token r s w = (Ok token, (s1, w1)) /\
    forall s2 w2, let res := (validate_token token s2 w2).1 in
      if whole_secs (expires_at claims) <? utc_clock (w_utc w2) / 1000000
      then exists msg cause, res = Err (Exn TokenExpiredError msg cause)
      else if bool_decide (is_Some (purge_expired (clock (S (w_clock w2)))
                (purge_expired (clock (w_clock w2)) (_revoked_jtis s2)) !! j))
      then exists msg, res = Err (Exn TokenRevokedError msg None)
      else res = Ok claims.
Proof. exact (issued_then_validated r th s w). Qed.

(** ** Revocation *)

(** Calls on the manager, in any order and with any outcome. *)
Inductive manager_op : Type :=
  | MIssue (r : TokenRequest)
  | MValidate (token : string)
  | MRevoke (token : string)
  | MProof (proof m u : string) (at_ n : option string) (now : option Z)
  | MSender (token proof m u : string) (n : option string) (now : option Z).

Definition do_op (o : manager_op) : M (SessionManager R) unit :=
  match o with
  | MIssue r => issue_token r ;; mret tt
  | MValidate t => validate_token t ;; mret tt
  | MRevoke t => revoke_token t ;; mret tt
  | MProof p m u a n now => validate_dpop_proof p m u a n now ;; mret tt
  | MSender t p m u n now => validate_sender_constrained_token t p m u n now ;; mret tt
  end.

Fixpoint do_ops (os : list manager_op) (s : SessionManager R) (w : World)
    : SessionManager R * World :=
  match os with
  | [] => (s, w)
  | o :: os => let '(_, (s', w')) := do_op o s w in do_ops os s' w'
  end.

(** [j] is on the revocation list at least until [E]. *)
Definition revoked_until (j : string) (E : Z) (s : SessionManager R) : Prop :=
  exists d, _revoked_jtis s !! j = Some d /\ E <= d.

(** Revoking through [t] does not shorten the revocation of [j]: the claims
    read from [t], which nobody verified, are not for [j] or expire no
    earlier than [E]. *)
Definition no_forgery (j : string) (E : Z) (t : string) : Prop :=
  forall claims v, jwt_get_unverified_claims t = Ok claims ->
    assoc "jti" claims = Some v -> py_str v = j ->
    exists e, assoc "exp" claims = Some e /\
      match py_float e with Ok d => E <= d | Err _ => True end.

Section persistence.
Variables (n0 : nat) (j : string) (E : Z).
Hypothesis Hclk : forall n, (n0 <= n)%nat -> clock n < E.
Hypothesis Hlife : forall n, (n0 <= n)%nat ->
  E <= clock n + secs (token_expiry_seconds settings).

Lemma purge_keeps now : now < E -> preserves n0 (revoked_until j E) (_purge_expired_revocations now).
Proof.
  intros Hn. apply preserves_modify. intros s (d & Hd & Hle). exists d. simpl.
  split; [|done]. apply purge_lookup. split; [done|lia].
Qed.

Lemma insert_keeps j' d :
  (j' = j -> E <= d) -> preserves n0 (revoked_until j E) (set_revoked (insert j' d)).
Proof.
  intros Hd. apply preserves_modify. intros s (d' & Hd' & Hle). simpl.
  unfold revoked_until; simpl. rewrite lookup_insert. case_decide; eauto.
Qed.

Lemma jwk_keeps {I : SessionManager R -> Prop} jwk : preserves n0 I (_required_jwk_fields jwk).
Proof. unfold _required_jwk_fields, getitem. preserve. Qed.
Lemma pem_keeps {I : SessionManager R -> Prop} jwk : preserves n0 I (_public_pem_from_jwk jwk).
Proof. unfold _public_pem_from_jwk, getitem, decode_number, _curve_from_name. preserve. Qed.
Lemma build_keeps {I : SessionManager R -> Prop} v p : preserves n0 I (build_claims v p).
Proof. unfold build_claims, getitem, validation_error. preserve. Qed.

Hint Resolve jwk_keeps pem_keeps build_keeps : preserves.

Lemma validate_keeps t : preserves n0 (revoked_until j E) (validate_token t).
Proof.
  unfold validate_token, _verification_key, decode_now, getitem, is_revoked. preserve;
    apply purge_keeps; auto.
Qed.

Lemma revoke_now_keeps j' : preserves n0 (revoked_until j E) (revoke_jti j' None).
Proof.
  intros s w Hs Hn. unfold revoke_jti, mbind, M_bind, time_time, mret, M_ret.
  apply insert_keeps; simpl; auto with lia.
Qed.

Lemma issue_keeps r : preserves n0 (revoked_until j E) (issue_token r).
Proof.
  unfold issue_token, public_jwk_thumbprint, _signing_key. preserve;
    first [apply purge_keeps; by auto|apply revoke_now_keeps|by apply preserves_modify].
Qed.

Lemma revoke_keeps t : no_forgery j E t -> preserves n0 (revoked_until j E) (revoke_token t).
Proof.
  intros Hnf s w Hs Hn. unfold revoke_token, revoke_jti, getitem. run_m.
  destruct (jwt_get_unverified_claims t) as [claims|e] eqn:Ec;
    [|by destruct (isinstance e JWTError)].
  destruct (assoc "jti" claims) as [v|] eqn:Ev; [|done]. simpl.
  destruct (decide (py_str v = j)) as [Hj|Hj].
  - destruct (Hnf _ _ Ec Ev Hj) as (e & He & Hf). rewrite He. simpl.
    destruct (py_float e) as [d|]; simpl; (split; [|lia]); [|done].
    unfold revoked_until; simpl. rewrite Hj, lookup_insert_eq. eauto.
  - destruct (py_float _) as [d|]; simpl; (split; [|lia]); [|done].
    destruct Hs as (d' & Hd' & Hle).
    unfold revoked_until; simpl. rewrite lookup_insert_ne by done. eauto.
Qed.

Lemma proof_keeps p m u a n now :
  preserves n0 (revoked_until j E) (validate_dpop_proof p m u a n now).
Proof.
  unfold validate_dpop_proof, proof_header, embedded_jwk, decode_now, check_proof_claims,
    validation_error. preserve. apply preserves_zoom. intros s1 w1 Hs1 Hn1. split; [done|].
  etrans; [exact Hn1|]. apply register_clock.
Qed.

Lemma sender_keeps t p m u n now :
  preserves n0 (revoked_until j E) (validate_sender_constrained_token t p m u n now).
Proof.
  unfold validate_sender_constrained_token, proof_header, embedded_jwk, public_jwk_thumbprint.
  preserve; auto using validate_keeps, proof_keeps.
Qed.

Lemma do_op_keeps o :
  (forall t, o = MRevoke t -> no_forgery j E t) -> preserves n0 (revoked_until j E) (do_op o).
Proof.
  intros Ho. destruct o; cbn [do_op]; apply preserves_bind; auto with preserves;
    auto using issue_keeps, validate_keeps, revoke_keeps, proof_keeps, sender_keeps.
Qed.

Lemma do_ops_keeps os s w :
  Forall (fun o => forall t, o = MRevoke t -> no_forgery j E t) os ->
  revoked_until j E s -> (n0 <= w_clock w)%nat ->
  revoked_until j E (do_ops os s w).1 /\ (n0 <= w_clock (do_ops os s w).2)%nat.
Proof.
  intros Hos. revert s w. induction Hos as [|o os Ho _ IH]; intros s w Hs Hn; [done|]. simpl.
  destruct (do_op_keeps o Ho s w Hs Hn) as [Hs' Hn'].
  destruct (do_op o s w) as [r [s' w']]. by apply IH.
Qed.

Lemma build_claims_jti v p :
  returns (S := SessionManager R) (build_claims v p) (fun c => v = JStr (jti c)).
Proof.
  unfold build_claims. do 6 (apply returns_bind_any; intros ?).
  match goal with |- returns (match ?o with _ => _ end) _ => destruct o eqn:Eo end;
    [apply returns_ret|apply returns_raise].
  destruct v; try done. repeat (apply bind_Some in Eo as (? & ? & Eo)). by simplify_eq/=.
Qed.

(** While a revocation lasts, no token with that id is accepted. *)
Lemma revoked_refused token s w claims s' w' :
  revoked_until j E s -> (n0 <= w_clock w)%nat ->
  validate_token token s w = (Ok claims, (s', w')) -> jti claims <> j.
Proof.
  intros Hs Hn. unfold validate_token. unfold mbind at 1, M_bind at 1.
  match goal with |- context [try_except ?m ?h s w] =>
    set (p := try_except m h) in *;
    assert (Hp : preserves n0 (revoked_until j E) p)
      by (unfold p, _verification_key, decode_now; preserve) end.
  specialize (Hp s w Hs Hn). destruct (p s w) as [[payload|e] [s1 w1]]; [|done].
  destruct Hp as [(d & Hd & Hle) Hn1]. simpl in Hd, Hn1. unfold getitem, of_option.
  destruct (assoc "jti" payload) as [v|]; [|done]. unfold is_revoked. run_m.
  destruct v as [| | | |j'| |]; try done;
    try (intros Hb; apply build_claims_jti in Hb; discriminate Hb).
  case_bool_decide as Hr; [done|]. intros Hb Hj. apply build_claims_jti in Hb.
  simplify_eq. apply Hr. exists d.
  pose proof (Hclk (w_clock w1) Hn1). pose proof (Hclk (S (w_clock w1)) ltac:(lia)).
  rewrite !purge_lookup. split_and!; [done|lia|lia].
Qed.
End persistence.

(** C32. Revocation lasts.  Once a token was revoked, no token with its [jti] is
    accepted any more, whatever is issued, validated, rotated or revoked in
    between, as long as the clock stays before the revoked token's expiry,
    that expiry is at most one default lifetime ahead, and nobody presents
    for revocation a token that carries the same [jti] with an earlier
    expiry. *)
Theorem revocation_lasts token c e E j s w s1 w1 os t' claims s3 w3 :
  jwt_get_unverified_claims token = Ok c -> assoc "exp" c = Some e -> py_float e = Ok E ->
  revoke_token token s w = (Ok j, (s1, w1)) ->
  (forall n, (w_clock w1 <= n)%nat ->
     clock n < E <= clock n + secs (token_expiry_seconds settings)) ->
  Forall (fun o => forall t, o = MRevoke t -> no_forgery j E t) os ->
  validate_token t' (do_ops os s1 w1).1 (do_ops os s1 w1).2 = (Ok claims, (s3, w3)) ->
  jti claims <> j.
Proof.
  intros Hc He Hf Hrev Hclk Hos Hval.
  assert (Hs1 : revoked_until j E s1).
  { revert Hrev. unfold revoke_token, revoke_jti, getitem. run_m. rewrite Hc.
    destruct (assoc "jti" c) as [v|]; [|done]. simpl. rewrite He. simpl. rewrite Hf.
    intros [= <- <- _]. exists E. split; [|done]. apply lookup_insert_eq. }
  pose proof (do_ops_keeps (w_clock w1) j E (fun n Hn => proj1 (Hclk n Hn))
    (fun n Hn => proj2 (Hclk n Hn)) os s1 w1 Hos Hs1 ltac:(done)) as [Hs2 Hn2].
  by eapply (revoked_refused (w_clock w1) j E (fun n Hn => proj1 (Hclk n Hn))).
Qed.

(** Rotation retires the previous token.  When a second token is issued
    under a rotation key, the token issued under it before is never accepted
    again, whatever calls follow, up to any instant [E] no later than one
    default lifetime after the rotation. *)
Theorem rotation_retires r1 r2 th1 th2 k E s w os t' claims s3 w3 :
  keys_configured -> request_ok r1 th1 -> request_ok r2 th2 ->
  rq_rotation_key r1 = Some k -> rq_rotation_key r2 = Some k ->
  let j1 := uuid_str (uuid_supply (w_uuids w)) in
  let '(_, (s1, w1)) := issue_token r1 s w in
  let '(_, (s2, w2)) := issue_token r2 s1 w1 in
  E <= clock (S (w_clock w1)) + secs (token_expiry_seconds settings) ->
  (forall n, (w_clock w2 <= n)%nat ->
     clock n < E <= clock n + secs (token_expiry_seconds settings)) ->
  Forall (fun o => forall t, o = MRevoke t -> no_forgery j1 E t) os ->
  validate_token t' (do_ops os s2 w2).1 (do_ops os s2 w2).2 = (Ok claims, (s3, w3)) ->
  jti claims <> j1.
Proof.
  intros (sk & vk & Hkp & Hsk & Hvk) Hr1 Hr2 Hk1 Hk2 j1.
  destruct (encode_total _ sk vk (token_claims r1 j1 (clock (w_clock w)) th1) None Hkp)
    as [t1 Henc1].
  destruct (issue_token_run r1 th1 s w sk t1 Hr1 Hsk Henc1) as (s1 & w1 & -> & _ & Hrot & _).
  destruct (encode_total _ sk vk (token_claims r2 (uuid_str (uuid_supply (w_uuids w1)))
    (clock (w_clock w1)) th2) None Hkp) as [t2 Henc2].
  destruct (issue_token_run r2 th2 s1 w1 sk t2 Hr2 Hsk Henc2) as (s2 & w2 & -> & Hrev & _ & _).
  intros HE Hclk Hos Hval. rewrite Hk1 in Hrot.
  unfold rotated in Hrev. rewrite Hk2, Hrot in Hrev. simpl in Hrev. rewrite lookup_insert_eq in Hrev.
  assert (Hs2 : revoked_until j1 E s2).
  { eexists. rewrite Hrev. split; [apply lookup_insert_eq|done]. }
  pose proof (do_ops_keeps (w_clock w2) j1 E (fun n Hn => proj1 (Hclk n Hn))
    (fun n Hn => proj2 (Hclk n Hn)) os s2 w2 Hos Hs2 ltac:(done)) as [Hs3 Hn3].
  by eapply (revoked_refused (w_clock w2) j1 E (fun n Hn => proj1 (Hclk n Hn))).
Qed.

(** Revoking writes down the expiry that the unverified claims give. *)
Lemma revoke_token_run t payload j e x s w :
  jwt_get_unverified_claims t = Ok payload ->
  assoc "jti" payload = Some (JStr j) -> assoc "exp" payload = Some e -> py_float e = Ok x ->
  exists w', revoke_token t s w
  = (Ok j, (mkSessionManager (<[j := x]> (_revoked_jtis s)) (_rotation_index s) (_replay_store s), w')).
Proof.
  intros Hc Hj He Hx. unfold revoke_token, revoke_jti, getitem. run_m. rewrite Hc. cbn.
  rewrite Hj. cbn. rewrite He. cbn. rewrite Hx. by eexists.
Qed.

(** C40. The revocation list trusts unverified claims.  A token is issued and revoked,
    and from then on refused as revoked until it expires.  Then someone presents for
    revocation any string whose unverified payload has the [jti] of that token and an
    expiry in the past (nothing of it need be signed): the call succeeds, and as soon as
    the clock shows that forged expiry the revoked token validates again, with all its
    claims, until it expires. *)
Theorem forged_revocation_unrevokes r th forged payload e s w :
  keys_configured -> request_ok r th ->
  let j := uuid_str (uuid_supply (w_uuids w)) in
  let claims := claims_of r j (clock (w_clock w)) th in
  jwt_get_unverified_claims forged = Ok payload ->
  assoc "jti" payload = Some (JStr j) -> assoc "exp" payload = Some (JInt e) ->
  exists token s1 w1 s2 w2 s3 w3,
    issue_token r s w = (Ok token, (s1, w1)) /\
    revoke_token token s1 w1 = (Ok j, (s2, w2)) /\
    (forall w', utc_clock (w_utc w') / 1000000 <= whole_secs (expires_at claims) ->
       clock (w_clock w') < expires_at claims -> clock (S (w_clock w')) < expires_at claims ->
       exists msg, (validate_token token s2 w').1 = Err (Exn TokenRevokedError msg None)) /\
    revoke_token forged s2 w2 = (Ok j, (s3, w3)) /\
    (forall w', utc_clock (w_utc w') / 1000000 <= whole_secs (expires_at claims) ->
       secs e <= clock (w_clock w') -> (validate_token token s3 w').1 = Ok claims).
Proof.
  intros Hk Hr j claims Hf Hfj Hfe.
  destruct (issued_then_used r th s w Hk Hr) as (token & s1 & w1 & Ei & Hu & Hval).
  destruct (revoke_token_run token (token_claims r j (clock (w_clock w)) th) j
    (JTime (expires_at claims)) (expires_at claims) s1 w1 Hu eq_refl eq_refl eq_refl) as [w2 E2].
  destruct (revoke_token_run forged payload j (JInt e) (secs e)
    (mkSessionManager (<[j := expires_at claims]> (_revoked_jtis s1)) (_rotation_index s1)
       (_replay_store s1)) w2 Hf Hfj Hfe eq_refl) as [w3 E3].
  do 7 eexists. split; [exact Ei|]. split; [exact E2|]. split; [|split; [exact E3|]].
  - intros w' Hutc Hlt1 Hlt2. match goal with |- context [validate_token token ?st w'] =>
      specialize (Hval st w') end. cbv zeta in Hval. fold j claims in Hval.
    rewrite (proj2 (Z.ltb_ge _ _)) in Hval by exact Hutc.
    rewrite bool_decide_eq_true_2 in Hval; [exact Hval|]. exists (expires_at claims).
    rewrite !purge_lookup. cbn [_revoked_jtis]. by rewrite lookup_insert_eq.
  - intros w' Hutc Hpast. match goal with |- context [validate_token token ?st w'] =>
      specialize (Hval st w') end. cbv zeta in Hval. fold j claims in Hval.
    rewrite (proj2 (Z.ltb_ge _ _)) in Hval by exact Hutc.
    rewrite bool_decide_eq_false_2 in Hval; [exact Hval|]. intros [d Hd].
    rewrite !purge_lookup in Hd. cbn [_revoked_jtis] in Hd. rewrite lookup_insert_eq in Hd.
    destruct Hd as [[[= <-] Hlt] _]. lia.
Qed.

(** The revocation list forgets a token while it is still accepted: expiry
    is checked in whole seconds and the list is purged at the exact expiry,
    so from its expiry instant to the end of that second a revoked token is
    accepted again. *)
Theorem expired_revocation_gap r th s w :
  keys_configured -> request_ok r th ->
  let j := uuid_str (uuid_supply (w_uuids w)) in
  let claims := claims_of r j (clock (w_clock w)) th in
  exists token s1 w1 s2 w2, issue_token r s w = (Ok token, (s1, w1)) /\
    revoke_token token s1 w1 = (Ok j, (s2, w2)) /\
    forall w3, expires_at claims <= clock (w_clock w3) ->
      utc_clock (w_utc w3) / 1000000 <= whole_secs (expires_at claims) ->
      exists s4 w4, validate_token token s2 w3 = (Ok claims, (s4, w4)).
Proof.
  intros (sk & vk & Hkp & Hsk & Hvk) Hr j claims.
  set (payload := token_claims r j (clock (w_clock w)) th).
  destruct (encode_total _ sk vk payload None Hkp) as [token Henc].
  destruct (issue_token_run r th s w sk token Hr Hsk Henc) as (s1 & w1 & E & _).
  pose proof (unverified_claims_encode _ _ _ _ _ Henc) as Hu.
  exists token, s1, w1. do 2 eexists. split; [exact E|]. split.
  { unfold revoke_token, revoke_jti, getitem. run_m. rewrite Hu. simpl. reflexivity. }
  intros w3 Hclk Hutc.
  pose proof (decode_encode _ sk vk payload None token (utc_clock (w_utc w3) / 1000000) Hkp
    (token_claims_checkable _ _ _ _) Henc) as Hd.
  change (expired_at payload _)
    with (whole_secs (expires_at claims) <? utc_clock (w_utc w3) / 1000000) in Hd.
  rewrite (proj2 (Z.ltb_ge _ _)) in Hd by done.
  match goal with |- context [validate_token token ?s2 w3] =>
    destruct (validate_decoded token vk payload j s2 w3 (Hvk _ _) Hd eq_refl)
      as (s3 & w4 & Hrev & _ & _ & ->) end.
  assert (Hn : _revoked_jtis s3 !! j = None);
    [|rewrite Hn; unfold payload; rewrite build_claims_run; eauto].
  rewrite Hrev. apply eq_None_not_Some. intros [d Hlive].
  rewrite !purge_lookup in Hlive. destruct Hlive as [[Hl Hlt] _]. simpl in Hl.
  rewrite lookup_insert_eq in Hl. injection Hl as <-. simpl in Hclk. lia.
Qed.

(** ** DPoP proofs *)

Lemma getitem_ok k d s w v sw :
  getitem (S := SessionManager R) k d s w = (Ok v, sw) -> assoc k d = Some v /\ sw = (s, w).
Proof.
  unfold getitem, of_option. destruct (assoc k d); intros E; [|done].
  unfold mret, M_ret in E. by simplify_eq.
Qed.

(** What a proof accepted at time [cur] satisfies. *)
Record proof_valid (proof m u : string) (at_ n_ : option string) (cur : Z)
    (p : DPoPProofClaims) : Prop := {
  pv_signed : exists header jwk pem payload t,
    jwt_get_unverified_header proof = Ok header /\
    assoc "typ" header = Some (JStr "dpop+jwt") /\
    assoc "jwk" header = Some (JObj jwk) /\
    (exists s w sw, _public_pem_from_jwk (St := SessionManager R) jwk s w = (Ok pem, sw)) /\
    jwt_decode proof pem [py_str (default (JStr "ES256") (assoc "alg" header))] t = Ok payload /\
    build_proof payload = Some p;
  pv_method : str_upper (htm p) = str_upper m;
  pv_url : htu p = u;
  pv_window : cur - secs (dpop_proof_ttl_seconds settings) <= secs (iat p)
              <= cur + secs (dpop_clock_skew_seconds settings);
  pv_nonce : forall n, n_ = Some n -> nonce p = Some n;
  pv_ath : forall t, at_ = Some t -> ath p = Some (_access_token_hash t)
}.

Lemma check_proof_claims_ok p m u at_ n_ cur s w sw :
  check_proof_claims p m u at_ n_ cur s w = (Ok tt, sw) ->
  sw = (s, w) /\ str_upper (htm p) = str_upper m /\ htu p = u /\
  cur - secs (dpop_proof_ttl_seconds settings) <= secs (iat p)
    <= cur + secs (dpop_clock_skew_seconds settings) /\
  (forall n, n_ = Some n -> nonce p = Some n) /\
  (forall t, at_ = Some t -> ath p = Some (_access_token_hash t)).
Proof.
  unfold check_proof_claims. case_bool_decide; [|done]. case_bool_decide; [|done].
  simpl negb. cbv iota zeta.
  destruct (_ || _) eqn:Ew; [done|]. bool_to_prop.
  destruct n_ as [n|], at_ as [t|]; repeat (case_bool_decide; [|done]); simpl negb; cbv iota;
    repeat (case_bool_decide; [|done]); intros [= <-]; split_and!; auto; intros ?; congruence.
Qed.

Lemma proof_header_ok proof s w h sw :
  proof_header proof s w = (Ok h, sw) ->
  jwt_get_unverified_header proof = Ok h /\ sw = (s, w).
Proof.
  unfold proof_header. intros E. apply try_ok in E; [|repeat constructor; by eexists].
  unfold of_result in E. by simplify_eq.
Qed.

Lemma embedded_jwk_ok header s w jwk sw :
  embedded_jwk header s w = (Ok jwk, sw) ->
  assoc "jwk" header = Some (JObj jwk) /\ sw = (s, w).
Proof. unfold embedded_jwk. split_matches; unfold mret, M_ret; intros E; by simplify_eq. Qed.

Lemma validate_dpop_proof_ok proof m u at_ n_ now s w p s' w' :
  validate_dpop_proof proof m u at_ n_ now s w = (Ok p, (s', w')) ->
  proof_valid proof m u at_ n_ (default (clock (w_clock w)) now) p /\
  exists w1, (w_clock w <= w_clock w1)%nat /\
    register_if_unused (proof_jti p) (dpop_proof_ttl_seconds settings) (_replay_store s) w1
    = (Ok true, (_replay_store s', w')) /\
    _revoked_jtis s' = _revoked_jtis s /\ _rotation_index s' = _rotation_index s.
Proof.
  intros Hv. unfold validate_dpop_proof in Hv. bind_inv Hv as cur s0 w0 E0.
  assert (Hcur : cur = default (clock (w_clock w)) now /\ s0 = s /\ (w_clock w <= w_clock w0)%nat).
  { destruct now; unfold mret, M_ret, time_time in E0; simplify_eq/=; split_and!; auto. }
  destruct Hcur as (-> & -> & Hn0). clear E0.
  bind_inv Hv as header s1 w1 E1. apply proof_header_ok in E1 as [Hh [= -> ->]].
  destruct (assoc "typ" header) as [[| | | |ty| |]|] eqn:Ety; try done.
  case_bool_decide; [subst ty|done]. simpl negb in Hv. cbv iota in Hv.
  bind_inv Hv as jwk s2 w2 E2. apply embedded_jwk_ok in E2 as [Hj [= -> ->]].
  bind_inv Hv as pem s3 w3 E3.
  pose proof (pem_keeps (w_clock w) (I := fun s1 => s1 = s) jwk s w0 eq_refl Hn0) as [Hs3 Hn3].
  rewrite E3 in Hs3, Hn3. simpl in Hs3, Hn3. subst s3.
  bind_inv Hv as payload s4 w4 E4. apply try_ok in E4; [|repeat constructor; intros; by eexists].
  unfold decode_now in E4. bind_inv E4 as t s5 w5 E5. unfold utc_now in E5.
  unfold of_result in E4. simplify_eq/=.
  bind_inv Hv as pc s6 w6 E6. destruct (build_proof payload) as [pc'|] eqn:Eb; [|done].
  unfold mret, M_ret in E6. simplify_eq/=.
  bind_inv Hv as un s7 w7 E7. destruct un.
  apply check_proof_claims_ok in E7 as ([= -> ->] & ? & ? & ? & ? & ?).
  bind_inv Hv as fr s8 w8 E8. destruct fr; [|done]. unfold mret, M_ret in Hv. simplify_eq/=.
  unfold zoom in E8. simpl in E8. destruct (register_if_unused _ _ _ _) as [r [st w9]] eqn:Er.
  simplify_eq/=. split; [|eexists; split_and!; [|exact Er|done|done]; simpl; lia].
  constructor; try done. do 5 eexists. split_and!; eauto.
Qed.

(** C24. Sender-constrained tokens: a request is let through only if the token
    itself is valid and bound to a key, the proof is a ["dpop+jwt"] signed
    by a key whose RFC 7638 thumbprint is exactly that bound key's, the
    proof was made for this HTTP method and URL, for this very token (its
    hash), with the nonce asked for, at an acceptable time, and the replay
    store had not seen its [jti]. *)
Theorem sender_constrained_sound token proof m u n_ now s w claims s' w' :
  validate_sender_constrained_token token proof m u n_ now s w = (Ok claims, (s', w')) ->
  exists s1 w1 c p header jwk,
    validate_token token s w = (Ok claims, (s1, w1)) /\ cnf claims = Some c /\
    jwt_get_unverified_header proof = Ok header /\ assoc "jwk" header = Some (JObj jwk) /\
    (exists s w sw, public_jwk_thumbprint (St := SessionManager R) jwk s w = (Ok (jkt c), sw)) /\
    (exists n cur, (w_clock w1 <= n)%nat /\ cur = default (clock n) now /\
       proof_valid proof m u (Some token) n_ cur p) /\
    (exists w2, register_if_unused (proof_jti p) (dpop_proof_ttl_seconds settings)
                  (_replay_store s1) w2 = (Ok true, (_replay_store s', w'))).
Proof.
  unfold validate_sender_constrained_token. intros Hv.
  bind_inv Hv as cl s0 w0 E0. destruct (cnf cl) as [c|] eqn:Ec; [|done].
  bind_inv Hv as header s1 w1 E1. apply proof_header_ok in E1 as [Hh [= -> ->]].
  bind_inv Hv as jwk s2 w2 E2. apply embedded_jwk_ok in E2 as [Hj [= -> ->]].
  bind_inv Hv as tp s3 w3 E3. case_bool_decide as Ht; [|done]. simpl negb in Hv. cbv iota in Hv.
  assert (Hk : preserves (w_clock w0) (fun s1 => s1 = s0) (public_jwk_thumbprint jwk))
    by (unfold public_jwk_thumbprint; preserve; apply jwk_keeps).
  destruct (Hk s0 w0 eq_refl ltac:(done)) as [Hs1 Hn1]. rewrite E3 in Hs1, Hn1.
  simpl in Hs1, Hn1. subst s3.
  bind_inv Hv as p s4 w4 E4. unfold mret, M_ret in Hv. simplify_eq/=.
  destruct (validate_dpop_proof_ok _ _ _ _ _ _ _ _ _ _ _ E4) as [Hp (w5 & _ & Hr & _)].
  exists s0, w0, c, p, header, jwk. split_and!; eauto 10.
Qed.

Section single_use.
Variables (n0 : nat) (j : string) (d : Z).
Hypothesis Hclk : forall n, (n0 <= n)%nat -> clock n < d.
#[local] Abbreviation held := (fun s => holds (_replay_store s) j d).
Hint Resolve jwk_keeps pem_keeps build_keeps : preserves.

Lemma purge_held now : preserves n0 held (_purge_expired_revocations now).
Proof. by apply preserves_modify. Qed.
Lemma revoke_jti_held j' o : preserves n0 held (revoke_jti j' o).
Proof. unfold revoke_jti, set_revoked. preserve; by apply preserves_modify. Qed.
Hint Resolve purge_held revoke_jti_held : preserves.

Lemma validate_held t : preserves n0 held (validate_token t).
Proof. unfold validate_token, _verification_key, decode_now, getitem, is_revoked. preserve. Qed.

Lemma proof_held p m u a n now : preserves n0 held (validate_dpop_proof p m u a n now).
Proof.
  unfold validate_dpop_proof, proof_header, embedded_jwk, decode_now, check_proof_claims,
    validation_error. preserve. apply preserves_zoom. intros s1 w1 Hs1 Hn1.
  match goal with |- context [register_if_unused ?j' ?ttl ?st ?w] =>
    pose proof (register_clock j' ttl st w) end.
  destruct (register_if_unused _ _ _ w1) as [r [t w2]] eqn:Er. simpl in *.
  split; [|lia]. eapply register_preserves; [done|by apply Hclk|done].
Qed.

Lemma do_op_held o : preserves n0 held (do_op o).
Proof.
  destruct o; cbn [do_op]; apply preserves_bind; auto with preserves.
  - unfold issue_token, public_jwk_thumbprint, _signing_key. preserve.
    by apply preserves_modify.
  - apply validate_held.
  - unfold revoke_token, getitem. preserve.
  - apply proof_held.
  - unfold validate_sender_constrained_token, proof_header, embedded_jwk,
      public_jwk_thumbprint. preserve; auto using validate_held, proof_held.
Qed.

Lemma do_ops_held os s w :
  held s -> (n0 <= w_clock w)%nat ->
  held (do_ops os s w).1 /\ (n0 <= w_clock (do_ops os s w).2)%nat.
Proof.
  revert s w. induction os as [|o os IH]; intros s w Hs Hn; [done|]. simpl.
  destruct (do_op_held o s w Hs Hn) as [Hs' Hn'].
  destruct (do_op o s w) as [r [s' w']]. by apply IH.
Qed.
End single_use.

(** C25. A DPoP proof is accepted once.  After a proof was accepted, no proof
    with the same [jti] is accepted again, whatever calls are made in
    between, while the clock stays within the proof lifetime counted from
    the registration of the first one. *)
Theorem proof_single_use proof m u at_ n_ now s w p s1 w1 :
  validate_dpop_proof proof m u at_ n_ now s w = (Ok p, (s1, w1)) ->
  exists k, (w_clock w <= k)%nat /\ forall os proof' m' u' at' n' now' p' s3 w3,
    (forall n, (w_clock w1 <= n)%nat ->
       clock n < clock k + secs (dpop_proof_ttl_seconds settings)) ->
    validate_dpop_proof proof' m' u' at' n' now' (do_ops os s1 w1).1 (do_ops os s1 w1).2
      = (Ok p', (s3, w3)) ->
    proof_jti p' <> proof_jti p.
Proof.
  intros Hv. apply validate_dpop_proof_ok in Hv as [_ (wr & Hn & Hr & _)].
  exists (w_clock wr). split; [done|]. intros os proof' m' u' at' n' now' p' s3 w3 Hclk Hv' Hj.
  apply register_fresh in Hr. unfold now_of in Hr.
  destruct (do_ops_held (w_clock w1) _ _ Hclk os s1 w1 Hr ltac:(done)) as [Hh Hn2].
  apply validate_dpop_proof_ok in Hv' as [_ (wr' & Hn' & Hr' & _)].
  rewrite Hj in Hr'. pose proof (register_refuses _ (dpop_proof_ttl_seconds settings) _ wr' _ Hh) as Hf.
  rewrite Hr' in Hf. discriminate Hf. apply Hclk. lia.
Qed.
End token_theorems.

(** ** DPoP client keys *)

Section keys.
Context `{PyText} `{FloatRepr} `{Cryptography} {St : Type}.

Lemma to_bytes_big_ok size n :
  0 <= n < 256 ^ Z.of_nat size ->
  Forall is_byte (to_bytes_big size n) /\ int_from_bytes (to_bytes_big size n) = n.
Proof.
  revert n. induction size as [|size IH]; intros n Hn; [simpl in *; split; [constructor|unfold int_from_bytes; simpl; lia]|].
  rewrite Nat2Z.inj_succ, Z.pow_succ_r in Hn by lia.
  destruct (IH (n / 256)) as [Hb He].
  { split; [apply Z.div_pos; lia|apply Z.div_lt_upper_bound; lia]. }
  simpl. split.
  - apply Forall_app. split; [done|]. apply Forall_singleton, Z.mod_pos_bound. lia.
  - unfold int_from_bytes in *. rewrite foldl_app, He. simpl.
    pose proof (Z.div_mod n 256). lia.
Qed.

(** The public JWK published for a generated P-256 key denotes that key: the
    verification key read back from it is the PEM of the very point [(x, y)]
    that was generated, leading zero bytes included. *)
Theorem dpop_key_pair_denotes pem x y (s : St) w :
  0 <= x < 2 ^ 256 -> 0 <= y < 2 ^ 256 ->
  exists jwk, generate_dpop_key_pair pem x y s w = (Ok (pem, jwk), (s, w)) /\
    public_pem_from_jwk jwk s w = (ec_public_pem "P-256" x y, (s, w)).
Proof.
  intros Hx Hy. change (2 ^ 256) with (256 ^ Z.of_nat 32) in Hx, Hy.
  destruct (to_bytes_big_ok 32 x Hx) as [Hbx Hex], (to_bytes_big_ok 32 y Hy) as [Hby Hey].
  eexists. split.
  - unfold generate_dpop_key_pair, int_to_bytes, of_result, mbind, M_bind, mret, M_ret.
    rewrite (proj2 (Z.leb_le 0 x)), (proj2 (Z.ltb_lt x _)) by apply Hx. simpl andb. cbv iota beta.
    rewrite (proj2 (Z.leb_le 0 y)), (proj2 (Z.ltb_lt y _)) by apply Hy. reflexivity.
  - match goal with |- public_pem_from_jwk ?l _ _ = _ => set (jwk := l) end.
    assert (assoc "kty" jwk = Some (JStr "EC")) as Ek by reflexivity.
    assert (assoc "crv" jwk = Some (JStr "P-256")) as Ec by reflexivity.
    assert (assoc "x" jwk = Some (JStr (_b64url_encode (to_bytes_big 32 x)))) as Ex by reflexivity.
    assert (assoc "y" jwk = Some (JStr (_b64url_encode (to_bytes_big 32 y)))) as Ey by reflexivity.
    unfold public_pem_from_jwk, _public_pem_from_jwk, getitem, decode_number, of_result,
      of_option, mbind, M_bind, mret, M_ret, _curve_from_name. rewrite Ek, Ec, Ex, Ey.
    cbv beta iota. rewrite bool_decide_true by constructor.
    rewrite !b64url_round by done. cbn [fmap option_fmap option_map]. by rewrite Hex, Hey.
Qed.
End keys.
