(* ===== verification/TokenLibrary.v ===== *)
(** * A concrete token library, and the session manager's witnesses

    [toy_jose] is an executable instance of [Jose]: a token is an injective
    text encoding of its header, its claims and the key it was signed with.
    It satisfies [JoseLaws], so the theorems of SessionMgr.v can be applied to
    concrete tokens. *)
From Stdlib Require Import ZArith Lia Ascii String.
From stdpp Require Import base gmap strings list countable.
From S2P Require Import Prelude PyDecimal PyUuid World Config PyCrypto ReplayStore SessionMgr.

(** ** JSON values are countable *)

Definition json_leaf : Type := option (bool + (Z + (Z + string))).

Fixpoint json_tree (j : json) : gen_tree json_leaf :=
  match j with
  | JNull => GenLeaf None
  | JBool b => GenLeaf (Some (inl b))
  | JInt z => GenLeaf (Some (inr (inl z)))
  | JTime t => GenLeaf (Some (inr (inr (inl t))))
  | JStr s => GenLeaf (Some (inr (inr (inr s))))
  | JList l => GenNode 0 (json_tree <$> l)
  | JObj fs => GenNode 1
      ((fun p : string * json => GenNode 2 [GenLeaf (Some (inr (inr (inr p.1)))); json_tree p.2]) <$> fs)
  end.

Fixpoint tree_json (t : gen_tree json_leaf) : json :=
  match t with
  | GenLeaf None => JNull
  | GenLeaf (Some (inl b)) => JBool b
  | GenLeaf (Some (inr (inl z))) => JInt z
  | GenLeaf (Some (inr (inr (inl t)))) => JTime t
  | GenLeaf (Some (inr (inr (inr s)))) => JStr s
  | GenNode 0 l => JList (tree_json <$> l)
  | GenNode _ l =>
      JObj ((fun t => match t with
                      | GenNode _ [GenLeaf (Some (inr (inr (inr k)))); v] => (k, tree_json v)
                      | _ => (""%string, JNull)
                      end) <$> l)
  end.

Lemma tree_json_tree : forall j, tree_json (json_tree j) = j.
Proof.
  fix IH 1. intros [| | | | |l|fs]; [reflexivity..| |]; simpl; apply f_equal.
  - induction l as [|j l IHl]; [reflexivity|].
    rewrite !fmap_cons, IH. f_equal. exact IHl.
  - induction fs as [|[k j] fs IHl]; [reflexivity|].
    rewrite !fmap_cons. cbn [fst snd]. rewrite IH. f_equal. exact IHl.
Qed.

#[global] Instance json_eq_dec : EqDecision json.
Proof.
  intros x y. destruct (decide (json_tree x = json_tree y)) as [E|E].
  - left. by rewrite <- (tree_json_tree x), E, tree_json_tree.
  - right. congruence.
Defined.
#[global] Instance json_countable : Countable json :=
  inj_countable' json_tree tree_json tree_json_tree.

(** ** Tokens as text *)

Fixpoint pos_chars (p : positive) : string :=
  match p with
  | xH => ""
  | xO p => String "0" (pos_chars p)
  | xI p => String "1" (pos_chars p)
  end.
Fixpoint chars_pos (s : string) : positive :=
  match s with
  | EmptyString => xH
  | String c s => if bool_decide (c = "0"%char) then xO (chars_pos s) else xI (chars_pos s)
  end.
Lemma chars_pos_chars p : chars_pos (pos_chars p) = p.
Proof. induction p as [p IH|p IH|]; simpl; by rewrite ?IH. Qed.

Definition toy_text (header claims : dict) (key : string) : string :=
  pos_chars (encode (JList [JObj header; JObj claims; JStr key])).
Definition toy_parts (t : string) : option (dict * dict * string) :=
  match decode (chars_pos t) with
  | Some (JList [JObj h; JObj c; JStr k]) => Some (h, c, k)
  | _ => None
  end.
Lemma toy_parts_text h c k : toy_parts (toy_text h c k) = Some (h, c, k).
Proof. unfold toy_parts, toy_text. by rewrite chars_pos_chars, countable.decode_encode. Qed.

Definition malformed : exn := Exn JWTError "Error decoding token headers." None.

#[local] Instance toy_jose : Jose := {
  jwt_encode claims key alg headers :=
    Ok (toy_text (default [] headers ++ [("alg"%string, JStr alg); ("typ"%string, JStr "JWT")])
          claims (alg +:+ ":" +:+ key));
  jwt_decode token key algs now :=
    match toy_parts token with
    | Some (_, c, k) =>
        if bool_decide (Exists (fun alg => k = alg +:+ ":" +:+ key) algs)
        then if expired_at c now
             then Err (Exn ExpiredSignatureError "Signature has expired." None)
             else Ok c
        else Err (Exn JWTError "Signature verification failed." None)
    | None => Err malformed
    end;
  jwt_get_unverified_header token :=
    match toy_parts token with Some (h, _, _) => Ok h | None => Err malformed end;
  jwt_get_unverified_claims token :=
    match toy_parts token with Some (_, c, _) => Ok c | None => Err malformed end
}.

Lemma assoc_app {A} k (l1 l2 : list (string * A)) :
  is_Some (assoc k l1) -> assoc k (l1 ++ l2) = assoc k l1.
Proof.
  induction l1 as [|[k' v] l1 IH]; simpl; [by intros []|]. by case_bool_decide.
Qed.

#[local, refine] Instance toy_jose_laws : JoseLaws := {
  key_pair alg sk vk := sk = vk
}.
Proof.
  - intros alg sk vk claims headers _. by eexists.
  - intros alg sk vk claims headers token now -> _ [= <-]. cbn [jwt_decode toy_jose].
    rewrite toy_parts_text. rewrite bool_decide_true by (by constructor). done.
  - intros alg sk claims headers token [= <-]. cbn [jwt_get_unverified_claims toy_jose].
    by rewrite toy_parts_text.
  - intros alg sk claims headers token [= <-]. cbn [jwt_get_unverified_header toy_jose].
    rewrite toy_parts_text. eexists. split; [done|]. intros k Hk. by apply assoc_app.
Defined.

(** ** A concrete process *)

#[local] Instance demo_text : PyText := {
  py_repr _ := "<value>"; upper_unicode s := s; lower_unicode s := s; float_of_str _ := None
}.
#[local] Instance demo_float_repr : FloatRepr := fun _ => "0.0"%string.
#[local] Instance demo_crypto : Cryptography := {
  ec_public_pem curve x y := Ok "client-key"%string;
  rsa_public_pem e n := Ok "client-key"%string;
  public_pem_of_private k := Ok k
}.
#[local] Instance demo_pydantic : Pydantic := {
  validation_message model _ := "1 validation error for " +:+ model;
  pyd_float_of_str _ := None;
  pyd_int_of_str _ := None
}.

(** A clock that stands still, in both its forms. *)
Definition still_env : Env := {|
  clock _ := secs 1700000000 + 2 ^ 21;
  utc_clock _ := 1700000000500000;
  uuid_supply n := mkUUID (Z.of_nat n + 1);
  http_answer _ _ := Ok (mkHttpResponse 200 (Ok (JObj [])));
  span_context _ := mkSpanContext false 0 0 0;
  counter_inc_error _ := None
|}.
#[local] Existing Instance still_env.
#[local] Instance demo_settings : HasSettings := default_settings.

Definition demo_manager : SessionManager InMemoryDPoPReplayStore :=
  SessionManager_init InMemoryDPoPReplayStore_init.
Definition demo_request : TokenRequest :=
  mkTokenRequest "finance" "alice" None (Some "session-1"%string)
    (Some ["read"%string]) None None (Some "task-1"%string) None None.

Lemma demo_keys : keys_configured (R := InMemoryDPoPReplayStore).
Proof.
  exists (token_secret_key settings), (token_secret_key settings). split; [reflexivity|].
  split; reflexivity.
Qed.

Lemma issued_token_validates_witness :
  exists token s1 w1, issue_token demo_request demo_manager w_empty = (Ok token, (s1, w1)) /\
    (validate_token token s1 w1).1
    = Ok (mkTokenClaims "00000000-0000-0000-0000-000000000001" "alice" "finance"
            (Some "session-1"%string) None ["read"%string] None
            (secs 1700000000 + 2 ^ 21) (secs 1700000900 + 2 ^ 21) [] None).
Proof.
  destruct (issued_token_validates demo_request None demo_manager w_empty demo_keys)
    as (token & s1 & w1 & E & Hv).
  { split_and!; done. }
  exists token, s1, w1. split; [exact E|].
  specialize (Hv s1 w1). cbv zeta in Hv.
  match type of Hv with if ?b then _ else _ =>
    replace b with false in Hv by (vm_compute; reflexivity) end.
  rewrite bool_decide_false in Hv; [exact Hv|].
  assert (s1 = (issue_token demo_request demo_manager w_empty).2.1) as -> by (by rewrite E).
  apply eq_None_not_Some. vm_compute. reflexivity.
Defined.

(** Two tokens for alice, and the claims of the first. *)
Definition demo_claims (n : Z) : dict :=
  token_claims demo_request (uuid_str (mkUUID n)) (clock 0) None.
Definition demo_token (n : Z) : string :=
  toy_text [("alg"%string, JStr "HS256"); ("typ"%string, JStr "JWT")] (demo_claims n)
    ("HS256:" +:+ token_secret_key settings).
Definition demo_expiry : Z := clock 0 + secs 900.

Lemma still_clock n : clock n < demo_expiry <= clock n + secs (token_expiry_seconds settings).
Proof. unfold demo_expiry. vm_compute. split; congruence. Qed.

(** Revoke the first token, issue and validate in between, validate the second. *)
Lemma revocation_lasts_witness :
  exists claims s3 w3,
    let '(_, (s1, w1)) := revoke_token (demo_token 1) demo_manager w_empty in
    let '(s2, w2) := do_ops [MIssue demo_request; MValidate (demo_token 1)] s1 w1 in
    validate_token (demo_token 2) s2 w2 = (Ok claims, (s3, w3)) /\
    jti claims <> uuid_str (mkUUID 1).
Proof.
  eexists (claims_of demo_request (uuid_str (mkUUID 2)) (clock 0) None), _, _.
  pose proof (revocation_lasts (demo_token 1) (demo_claims 1) (JTime demo_expiry) demo_expiry
    (uuid_str (mkUUID 1)) demo_manager w_empty) as H.
  destruct (revoke_token (demo_token 1) demo_manager w_empty) as [r [s1 w1]] eqn:E.
  specialize (H s1 w1 [MIssue demo_request; MValidate (demo_token 1)] (demo_token 2)
    (claims_of demo_request (uuid_str (mkUUID 2)) (clock 0) None)).
  destruct (do_ops [MIssue demo_request; MValidate (demo_token 1)] s1 w1) as [s2 w2] eqn:E2.
  vm_compute in E. injection E as <- <- <-. vm_compute in E2. injection E2 as <- <-.
  split; [vm_compute; reflexivity|].
  eapply H; [vm_compute; reflexivity|vm_compute; reflexivity|reflexivity|reflexivity
    |intros n _; apply still_clock
    |repeat constructor; intros t Ht; discriminate Ht|vm_compute; reflexivity].
Defined.

Definition rotating_request : TokenRequest :=
  mkTokenRequest "finance" "alice" None None None None None (Some "task-1"%string) None None.

(** The second token issued under a rotation key is accepted, the first is not
    the one it names. *)
Lemma rotation_retires_witness :
  let '(_, (s1, w1)) := issue_token rotating_request demo_manager w_empty in
  let '(r2, (s2, w2)) := issue_token rotating_request s1 w1 in
  exists token claims s3 w3, r2 = Ok token /\
    validate_token token s2 w2 = (Ok claims, (s3, w3)) /\ jti claims <> uuid_str (mkUUID 1).
Proof.
  pose proof (rotation_retires rotating_request rotating_request None None "task-1" demo_expiry
    demo_manager w_empty [] ) as H.
  destruct (issue_token rotating_request demo_manager w_empty) as [r1 [s1 w1]] eqn:E1.
  specialize (H (match (issue_token rotating_request s1 w1).1 with Ok t => t | _ => ""%string end)
    (claims_of rotating_request (uuid_str (mkUUID 2)) (clock 0) None)).
  destruct (issue_token rotating_request s1 w1) as [r2 [s2 w2]] eqn:E2.
  vm_compute in E1. injection E1 as <- <- <-. vm_compute in E2. injection E2 as <- <- <-.
  do 4 eexists. split; [reflexivity|]. split; [vm_compute; reflexivity|].
  eapply H; [apply demo_keys|by split_and!|by split_and!|reflexivity|reflexivity
    |vm_compute; congruence|intros n _; apply still_clock|constructor|vm_compute; reflexivity].
Defined.

(** A string nobody signed, with the id of the first token and an old expiry. *)
Definition forged_token : string :=
  toy_text [] [("jti"%string, JStr (uuid_str (mkUUID 1))); ("exp"%string, JInt 0)] "".

Lemma forged_revocation_unrevokes_witness :
  exists token s1 w1 s2 w2 s3 w3,
    issue_token demo_request demo_manager w_empty = (Ok token, (s1, w1)) /\
    revoke_token token s1 w1 = (Ok (uuid_str (mkUUID 1)), (s2, w2)) /\
    (exists msg, (validate_token token s2 w2).1 = Err (Exn TokenRevokedError msg None)) /\
    revoke_token forged_token s2 w2 = (Ok (uuid_str (mkUUID 1)), (s3, w3)) /\
    exists claims, (validate_token token s3 w3).1 = Ok claims.
Proof.
  destruct (forged_revocation_unrevokes demo_request None forged_token
    [("jti"%string, JStr (uuid_str (mkUUID 1))); ("exp"%string, JInt 0)] 0 demo_manager w_empty
    demo_keys) as (token & s1 & w1 & s2 & w2 & s3 & w3 & Ei & Er & Hrev & Ef & Hback);
    [by split_and!|vm_compute; reflexivity|reflexivity|reflexivity|].
  exists token, s1, w1, s2, w2, s3, w3. split; [exact Ei|]. split; [exact Er|].
  split; [apply Hrev; vm_compute; congruence|]. split; [exact Ef|].
  eexists. apply Hback; vm_compute; congruence.
Defined.

(** A clock one tenth of a second after the first token's expiry. *)
Definition late_env : Env := {|
  clock n := if (n <? 3)%nat then secs 1700000000 + 2 ^ 21 else secs 1700000900 + 2 ^ 21 + 419430;
  utc_clock _ := 1700000900600000;
  uuid_supply n := mkUUID (Z.of_nat n + 1);
  http_answer _ _ := Ok (mkHttpResponse 200 (Ok (JObj [])));
  span_context _ := mkSpanContext false 0 0 0;
  counter_inc_error _ := None
|}.

Lemma expired_revocation_gap_witness :
  exists token s2 w3 claims s4 w4, validate_token (H := late_env) token s2 w3 = (Ok claims, (s4, w4)) /\
    is_Some (_revoked_jtis (R := InMemoryDPoPReplayStore) s2 !! jti claims).
Proof.
  destruct (expired_revocation_gap (H := late_env) demo_request None demo_manager w_empty demo_keys)
    as (token & s1 & w1 & s2 & w2 & Ei & Er & Hv).
  { split_and!; done. }
  pose (w3 := mkWorld [] [] [] [] 3 0 1).
  destruct (Hv w3) as (s4 & w4 & E); [vm_compute; congruence|vm_compute; congruence|].
  exists token, s2, w3. do 3 eexists. split; [exact E|].
  assert (Hok : bool_decide (is_Some (_revoked_jtis (revoke_token (H := late_env)
    (match (issue_token (H := late_env) demo_request demo_manager w_empty).1 with
     | Ok t => t | Err _ => ""%string end)
    (issue_token (H := late_env) demo_request demo_manager w_empty).2.1
    (issue_token (H := late_env) demo_request demo_manager w_empty).2.2).2.1
    !! "00000000-0000-0000-0000-000000000001"%string)) = true) by (vm_compute; reflexivity).
  rewrite Ei in Hok. simpl fst in Hok. simpl snd in Hok. rewrite Er in Hok.
  apply bool_decide_eq_true_1 in Hok. exact Hok.
Defined.

Definition demo_jwk : dict :=
  [("kty", JStr "EC"); ("crv", JStr "P-256"); ("x", JStr "AQ"); ("y", JStr "Ag")]%string.
Definition demo_bound : string :=
  match (issue_sender_constrained_token demo_request demo_jwk demo_manager w_empty).1 with
  | Ok t => t | Err _ => ""
  end.
Definition demo_proof : string :=
  match (issue_dpop_proof (R := InMemoryDPoPReplayStore) "client-key" demo_jwk "post"
           "https://aegis/v1" (Some demo_bound) None None (Some "proof-1"%string)
           demo_manager w_empty).1 with
  | Ok t => t | Err _ => ""
  end.

Definition is_ok {A} (r : result A) : bool := match r with Ok _ => true | Err _ => false end.

Lemma sender_constrained_sound_witness :
  exists claims s' w' c p,
    validate_sender_constrained_token demo_bound demo_proof "POST" "https://aegis/v1" None None
      demo_manager w_empty = (Ok claims, (s', w')) /\
    cnf claims = Some c /\
    proof_valid (R := InMemoryDPoPReplayStore) demo_proof "POST" "https://aegis/v1"
      (Some demo_bound) None (clock 0) p.
Proof.
  assert (Hok : is_ok (validate_sender_constrained_token demo_bound demo_proof "POST"
                  "https://aegis/v1" None None demo_manager w_empty).1 = true)
    by (vm_compute; reflexivity).
  destruct (validate_sender_constrained_token demo_bound demo_proof "POST" "https://aegis/v1"
              None None demo_manager w_empty) as [[claims|e] [s' w']] eqn:E; [|discriminate Hok].
  destruct (sender_constrained_sound _ _ _ _ _ _ _ _ _ _ _ E)
    as (s1 & w1 & c & p & h & jwk & _ & Hc & _ & _ & _ & (n & cur & _ & -> & Hp) & _).
  exists claims, s', w', c, p. split; [reflexivity|]. split; [exact Hc|exact Hp].
Defined.

Lemma proof_single_use_witness :
  exists p s1 w1, validate_dpop_proof demo_proof "POST" "https://aegis/v1" None None None
                    demo_manager w_empty = (Ok p, (s1, w1)) /\
    forall p' s3 w3, validate_dpop_proof demo_proof "POST" "https://aegis/v1" None None None s1 w1
                     = (Ok p', (s3, w3)) -> proof_jti p' <> proof_jti p.
Proof.
  assert (Hok : is_ok (validate_dpop_proof demo_proof "POST" "https://aegis/v1" None None None
                  demo_manager w_empty).1 = true) by (vm_compute; reflexivity).
  destruct (validate_dpop_proof demo_proof "POST" "https://aegis/v1" None None None
              demo_manager w_empty) as [[p|e] [s1 w1]] eqn:E; [|discriminate Hok].
  destruct (proof_single_use _ _ _ _ _ _ _ _ _ _ _ E) as (k & _ & Hk).
  exists p, s1, w1. split; [reflexivity|]. intros p' s3 w3.
  apply (Hk []). intros n _. vm_compute. reflexivity.
Defined.

Lemma dpop_key_pair_denotes_witness :
  exists jwk, generate_dpop_key_pair "pem" 1 2 demo_manager w_empty
    = (Ok ("pem"%string, jwk), (demo_manager, w_empty)) /\
    public_pem_from_jwk jwk demo_manager w_empty
    = (ec_public_pem "P-256" 1 2, (demo_manager, w_empty)).
Proof. apply (dpop_key_pair_denotes "pem" 1 2 demo_manager w_empty); lia. Defined.
