(* ===== verification/PolicyEngine.v ===== *)
(** * src/governance/policy_engine/opa_client.py: the OPA client

    The OPA server and httpx are outside the repository; a call is an HTTP POST
    whose answer (or transport exception) the environment chooses. *)
From Stdlib Require Import ZArith Lia Ascii String.
From stdpp Require Import base gmap strings list pretty.
From S2P Require Import Prelude PyDecimal PyUuid World Config PyCrypto ReplayStore SessionMgr.

Record PolicyInput : Type := mkPolicyInput {
  pi_agent_type : string;
  pi_requester_id : string;
  pi_action : string;
  pi_resource : string;
  pi_metadata : list (string * string);
  pi_principal_role : option string;
  pi_token_expired : bool
}.

Record PolicyResult : Type := mkPolicyResult {
  allowed : bool;
  reasons : list string;
  action : string;
  fields : list string
}.

(** [input_data.model_dump()] *)
Definition model_dump (i : PolicyInput) : json :=
  JObj [("agent_type", JStr (pi_agent_type i)); ("requester_id", JStr (pi_requester_id i));
        ("action", JStr (pi_action i)); ("resource", JStr (pi_resource i));
        ("metadata", JObj (prod_map id JStr <$> pi_metadata i));
        ("principal_role", jstr_opt (pi_principal_role i));
        ("token_expired", JBool (pi_token_expired i))]%string.

(** [bool(v)] *)
Definition truthy (j : json) : bool :=
  match j with
  | JNull => false
  | JBool b => b
  | JInt z => negb (z =? 0)
  | JTime t => negb (t =? 0)
  | JStr s => negb (bool_decide (s = ""%string))
  | JList l => match l with [] => false | _ => true end
  | JObj fs => match fs with [] => false | _ => true end
  end.

Definition pyd_list_str (j : json) : option (list string) :=
  match j with JList l => mapM pyd_str l | _ => None end.

(** [v.get(k, default)]: only a dict has [get]. *)
Definition dict_get {S} (v : json) (k : string) (d : json) : M S json :=
  match v with
  | JObj fs => mret (default d (assoc k fs))
  | _ => throw (OtherException "AttributeError") "object has no attribute 'get'"
  end.

(** [response.raise_for_status()] *)
Definition raise_for_status {S} (r : HttpResponse) : M S unit :=
  if (200 <=? hs_status r) && (hs_status r <? 300) then mret tt
  else throw HTTPStatusError ("HTTP status " +:+ pretty (hs_status r)).

Record PolicyEngine : Type := mkPolicyEngine { _opa_url : string }.

Section engine.
Context `{Env} `{HasSettings} `{Pydantic} {St : Type}.

Definition PolicyEngine_init (url : option string) : PolicyEngine :=
  mkPolicyEngine (match url with
                  | Some u => if bool_decide (u = ""%string) then opa_url settings else u
                  | None => opa_url settings
                  end).

Definition policy_url (e : PolicyEngine) (policy_name : string) : string :=
  _opa_url e +:+ "/v1/data/aegis/" +:+ policy_name.

(** The decision document of a response body. *)
Definition read_decision (body : json) : M St PolicyResult :=
  result ← dict_get body "result" (JObj []);
  allow ← dict_get result "allow" (JBool false);
  let allowed := truthy allow in
  rs ← dict_get result "reasons" (JList []);
  let default_action := if negb allowed then "reject"%string else "allow"%string in
  act ← dict_get result "action" (JStr default_action);
  fs ← dict_get result "fields" (JList []);
  match (rs' ← pyd_list_str rs; act' ← pyd_str act; fs' ← pyd_list_str fs;
         Some (mkPolicyResult allowed rs' act' fs')) with
  | Some r => mret r
  | None => throw ValidationError (validation_message "PolicyResult" [])
  end.

Definition evaluate (e : PolicyEngine) (policy_name : string) (input_data : PolicyInput)
    : M St PolicyResult :=
  let url := policy_url e policy_name in
  let payload := JObj [("input"%string, model_dump input_data)] in
  response ← try_except (http_post (mkHttpRequest url payload []))
    [(ConnectError, fun exc => throw_from OpaUnavailableError
        ("OPA server unreachable at " +:+ repr_str (_opa_url e) +:+ ": " +:+ exn_str exc) exc);
     (TimeoutException, fun exc => throw_from OpaUnavailableError
        ("OPA request timed out for policy " +:+ repr_str policy_name +:+ ": " +:+ exn_str exc) exc)];
  if 500 <=? hs_status response then
    throw OpaUnavailableError ("OPA server returned HTTP " +:+ pretty (hs_status response)
                               +:+ " for policy " +:+ repr_str policy_name)
  else
    raise_for_status response ;;
    body ← of_result (hs_json response);
    read_decision body.

Definition is_allowed (e : PolicyEngine) (policy_name : string) (input_data : PolicyInput)
    : M St bool :=
  result ← evaluate e policy_name input_data; mret (allowed result).
End engine.

(** ** Properties *)

Section theorems.
Context `{Env} `{HasSettings} `{Pydantic} {St : Type}.

(** [result.allow] of an OPA answer. *)
Definition result_allow (body : json) : option json :=
  match body with
  | JObj fs => match assoc "result" fs with Some (JObj res) => assoc "allow" res | _ => None end
  | _ => None
  end.

(** The body of an OPA answer grants the request: its [result.allow] is true in
    Python's sense, which covers every non-empty string, list and object and every
    non-zero number. *)
Definition grants (body : json) : Prop :=
  exists fs res v, body = JObj fs /\ assoc "result" fs = Some (JObj res) /\
    assoc "allow" res = Some v /\ truthy v = true.

Lemma dict_get_ok {S} v k d s w x sw :
  dict_get (S := S) v k d s w = (Ok x, sw) ->
  exists fs, v = JObj fs /\ x = default d (assoc k fs) /\ sw = (s, w).
Proof. destruct v; simpl; try done. unfold mret, M_ret. intros [= <- <-]. eauto. Qed.

Lemma read_decision_allowed body (s : St) w r sw :
  read_decision body s w = (Ok r, sw) -> sw = (s, w) /\ (allowed r = true <-> grants body).
Proof.
  unfold read_decision. intros Hr.
  bind_inv Hr as res s1 w1 E1. apply dict_get_ok in E1 as (fs & -> & -> & [= -> ->]).
  bind_inv Hr as al s2 w2 E2. apply dict_get_ok in E2 as (rf & Hrf & -> & [= -> ->]).
  bind_inv Hr as rs s3 w3 E3. apply dict_get_ok in E3 as (? & _ & _ & [= -> ->]).
  bind_inv Hr as ac s4 w4 E4. apply dict_get_ok in E4 as (? & _ & _ & [= -> ->]).
  bind_inv Hr as fl s5 w5 E5. apply dict_get_ok in E5 as (? & _ & _ & [= -> ->]).
  match type of Hr with match ?o with _ => _ end _ _ = _ => destruct o as [r'|] eqn:Eo end; [|done].
  unfold mret, M_ret in Hr. injection Hr as <- <-. split; [done|].
  repeat (apply bind_Some in Eo as (? & _ & Eo)). injection Eo as <-. simpl allowed.
  unfold grants. split.
  - intros Ht. destruct (assoc "result" fs) as [v|] eqn:Ev; simpl in Hrf.
    + subst v. destruct (assoc "allow" rf) as [a|] eqn:Ea; [|done]. eauto 10.
    + injection Hrf as <-. done.
  - intros (fs' & res' & v & [= <-] & Ev & Ea & Ht). rewrite Ev in Hrf.
    injection Hrf as <-. by rewrite Ea.
Qed.

Lemma grants_allow body : grants body <-> exists v, result_allow body = Some v /\ truthy v = true.
Proof.
  unfold grants, result_allow. split.
  - intros (fs & res & v & -> & -> & Ha & Ht). eauto.
  - intros (v & Hv & Ht). destruct body as [| | | | | |fs]; try discriminate Hv.
    destruct (assoc "result" fs) as [[| | | | | |res]|] eqn:Er; try discriminate Hv. eauto 10.
Qed.

(** The answer the environment gives to an evaluation request. *)
Definition opa_answer (e : PolicyEngine) (policy : string) (i : PolicyInput) (w : World)
    : result HttpResponse :=
  http_answer (w_http w) (mkHttpRequest (policy_url e policy)
                            (JObj [("input"%string, model_dump i)]) []).

Lemma read_decision_pure body (s : St) w : (read_decision body s w).2 = (s, w).
Proof.
  unfold read_decision, mbind, M_bind, dict_get. destruct body; try reflexivity.
  unfold mret, M_ret. destruct (default (JObj []) (assoc "result" fields0)); try reflexivity.
  by match goal with |- (match ?o with _ => _ end _ _).2 = _ => destruct o end.
Qed.

Lemma read_decision_same body (s1 s2 : St) w1 w2 :
  (read_decision body s1 w1).1 = (read_decision body s2 w2).1.
Proof.
  unfold read_decision, mbind, M_bind, dict_get. destruct body; try reflexivity.
  unfold mret, M_ret. destruct (default (JObj []) (assoc "result" fields0)); try reflexivity.
  by match goal with |- (match ?o with _ => _ end _ _).1 = _ => destruct o end.
Qed.

(** The decision depends on the requests sent before, and on nothing else; no clock is
    read. *)
Lemma evaluate_same e policy i (s1 s2 : St) w1 w2 :
  w_http w1 = w_http w2 -> (evaluate e policy i s1 w1).1 = (evaluate e policy i s2 w2).1.
Proof.
  intros Hw. unfold evaluate, raise_for_status, mbind, M_bind, try_except, http_post. rewrite Hw.
  destruct (http_answer _ _) as [resp|exc]; simpl.
  - destruct (500 <=? hs_status resp); [done|]. destruct (_ && _); [|done].
    unfold of_result, mret, M_ret. destruct (hs_json resp); [apply read_decision_same|done].
  - destruct (isinstance exc ConnectError); [done|]. simpl.
    by destruct (isinstance exc TimeoutException).
Qed.
Lemma evaluate_clock e policy i (s : St) w : w_clock (evaluate e policy i s w).2.2 = w_clock w.
Proof.
  unfold evaluate, raise_for_status, mbind, M_bind, try_except, http_post.
  destruct (http_answer _ _) as [resp|exc]; simpl.
  - destruct (500 <=? hs_status resp); [done|]. destruct (_ && _); [|done].
    unfold of_result, mret, M_ret. destruct (hs_json resp); [|done].
    by rewrite read_decision_pure.
  - destruct (isinstance exc ConnectError); [done|]. simpl.
    by destruct (isinstance exc TimeoutException).
Qed.

(** An evaluation that returns read a granting or refusing body. *)
Lemma evaluate_run e policy i (s : St) w :
  match evaluate e policy i s w with
  | (Ok d, (s', w')) => s' = s /\ w_http w' = w_http w ++ [mkHttpRequest (policy_url e policy)
                            (JObj [("input"%string, model_dump i)]) []] /\
      exists resp body, opa_answer e policy i w = Ok resp /\ hs_json resp = Ok body /\
        (allowed d = true <-> grants body)
  | (Err _, (s', _)) => s' = s
  end.
Proof.
  unfold evaluate, opa_answer, raise_for_status, mbind, M_bind, try_except, http_post.
  set (req := mkHttpRequest _ _ _).
  destruct (http_answer (w_http w) req) as [resp|exc]; simpl.
  - destruct (500 <=? hs_status resp); [done|]. destruct (_ && _); [|done].
    unfold of_result, mret, M_ret. destruct (hs_json resp) as [body|e'] eqn:Eb; [|done].
    pose proof (read_decision_pure body s (w_add_http req w)) as Hpure.
    destruct (read_decision body s (w_add_http req w)) as [[d|e'] [s' w']] eqn:E;
      injection Hpure as -> ->; [|done].
    apply read_decision_allowed in E as [_ Ha]. eauto 8.
  - destruct (isinstance exc ConnectError); [done|]. simpl.
    by destruct (isinstance exc TimeoutException).
Qed.

(** C37. The policy client fails closed.  Exactly one request is sent to OPA; a
    decision is returned only for a 2xx answer whose JSON body was read, and it says
    "allowed" exactly if that body's [result.allow] is there and true in Python's sense:
    for the JSON booleans that is the boolean itself, and a missing [result] or [allow]
    is a refusal (but a non-empty string or object counts as true as well).  A refused
    connection, a timeout or a 5xx status is [OpaUnavailableError]; every other failure
    is raised as well. *)
Theorem evaluate_fails_closed e policy i (s : St) w :
  exists r, evaluate e policy i s w
    = (r, (s, w_add_http (mkHttpRequest (policy_url e policy)
                            (JObj [("input"%string, model_dump i)]) []) w)) /\
    match opa_answer e policy i w with
    | Err exc => if isinstance exc ConnectError || isinstance exc TimeoutException
                 then exists msg, r = Err (Exn OpaUnavailableError msg (Some exc))
                 else r = Err exc
    | Ok resp => if 500 <=? hs_status resp
                 then exists msg, r = Err (Exn OpaUnavailableError msg None)
                 else if (200 <=? hs_status resp) && (hs_status resp <? 300)
                 then match r with
                      | Err _ => True
                      | Ok d => exists body, hs_json resp = Ok body /\
                                  (allowed d = true <-> grants body) /\
                                  (result_allow body = None -> allowed d = false) /\
                                  (forall b, result_allow body = Some (JBool b) -> allowed d = b)
                      end
                 else exists msg, r = Err (Exn HTTPStatusError msg None)
    end.
Proof.
  unfold evaluate, opa_answer, raise_for_status, mbind, M_bind, try_except, http_post.
  set (req := mkHttpRequest _ _ _).
  destruct (http_answer (w_http w) req) as [resp|exc]; simpl.
  - destruct (500 <=? hs_status resp); [eexists; split; [reflexivity|first [done|by eexists]]|].
    destruct (_ && _); [|eexists; split; [reflexivity|first [done|by eexists]]].
    unfold of_result, mret, M_ret. destruct (hs_json resp) as [body|e'];
      [|eexists; split; [reflexivity|done]].
    destruct (read_decision body s (w_add_http req w)) as [r [s' w']] eqn:E.
    exists r. destruct r as [d|e'].
    + apply read_decision_allowed in E as [[= -> ->] Ha]. split; [done|].
      exists body. split_and!; [done|done| |].
      * intros Hn. destruct (allowed d); [|done]. exfalso.
        destruct (proj1 (grants_allow body) (proj1 Ha eq_refl)) as (v & Hv & _). congruence.
      * intros b Hb. rewrite grants_allow in Ha. destruct (allowed d), b; try done.
        -- destruct (proj1 Ha eq_refl) as (v & Hv & Ht). rewrite Hb in Hv. by injection Hv as <-.
        -- apply (proj2 Ha). by exists (JBool true).
    + pose proof (read_decision_pure body s (w_add_http req w)) as Hpure.
      rewrite E in Hpure. by injection Hpure as -> ->.
  - destruct (isinstance exc ConnectError); [eexists; split; [reflexivity|first [done|by eexists]]|]. simpl.
    destruct (isinstance exc TimeoutException); eexists; (split; [reflexivity|first [done|by eexists]]).
Qed.

(** An answer whose [allow] is the text "false" is a grant. *)
Example text_false_grants :
  grants (JObj [("result"%string, JObj [("allow"%string, JStr "false")])]).
Proof. apply grants_allow. by exists (JStr "false"). Qed.
End theorems.
