(* ===== verification/AccessPolicy.v ===== *)
(** * policies/: the Rego policies that OPA serves

    policies/agent_access.rego and policies/budget.rego, rule by rule.  A Rego
    expression has a value or is undefined ([option json]); a rule body holds when
    none of its expressions is undefined or false, and [not] holds exactly when its
    operand does not.  A complete rule with two different values is an evaluation
    error, which OPA answers with status 500. *)
From Stdlib Require Import ZArith Lia Ascii String.
From stdpp Require Import base gmap strings list sorting.
From S2P Require Import Prelude PyDecimal PyUuid World Config PyCrypto ReplayStore SessionMgr PolicyEngine.

(** ** Rego *)
Module Rego.
Definition value : Type := option json.

(** [v.k] *)
Definition ref (v : value) (k : string) : value :=
  match v with Some (JObj fs) => assoc k fs | _ => None end.
(** [table[k]] *)
Definition index {A} (table : option (list (string * A))) (k : value) : option A :=
  match table, k with Some t, Some (JStr k) => assoc k t | _, _ => None end.

Definition bool_value (b : bool) : value := Some (JBool b).
(** [v == "s"] and [v != "s"] *)
Definition is_str (s : string) (j : json) : bool :=
  match j with JStr s' => bool_decide (s' = s) | _ => false end.
Definition eq (v : value) (s : string) : value := j ← v; bool_value (is_str s j).
Definition ne (v : value) (s : string) : value := j ← v; bool_value (negb (is_str s j)).
(** [v in collection], a collection of strings *)
Definition member (v : value) (coll : option (list string)) : value :=
  j ← v; l ← coll; bool_value (existsb (fun s => is_str s j) l).
(** [startswith(v, prefix)]: undefined on anything but a string *)
Definition startswith (v : value) (p : string) : value :=
  match v with Some (JStr s) => bool_value (String.prefix p s) | _ => None end.

(** An expression of a body succeeds; [not e]. *)
Definition holds (v : value) : bool :=
  match v with None | Some (JBool false) => false | Some _ => true end.
Definition fails (v : value) : bool := negb (holds v).
(** A rule body. *)
Definition body (l : list bool) : bool := forallb id l.

Inductive outcome (A : Type) : Type :=
  | Undefined
  | Value (a : A)
  | Conflict.
Arguments Undefined {A}.
Arguments Value {A} a.
Arguments Conflict {A}.

(** A complete rule: the values of the bodies that hold must agree; the default
    applies when none holds. *)
Definition complete {A} `{EqDecision A} (dflt : option A) (rules : list (A * bool)) : outcome A :=
  match omap (fun r => if (r.2 : bool) then Some r.1 else None) rules with
  | [] => match dflt with Some d => Value d | None => Undefined end
  | a :: l => if forallb (fun b => bool_decide (b = a)) l then Value a else Conflict
  end.
(** A partial set: OPA renders it as a sorted array.  The rules are listed in the
    order of their members. *)
Definition partial_set (rules : list (string * bool)) : list string :=
  omap (fun r => if (r.2 : bool) then Some r.1 else None) rules.
End Rego.
Import Rego.

(** ** policies/agent_access.rego *)
Module AgentAccess.
Definition agent_permissions : list (string * list (string * list string)) :=
  [("finance", [("read", ["finance_db"; "reports"]); ("write", ["finance_reports"])]);
   ("hr", [("read", ["hr_db"; "employee_records"]); ("write", ["hr_reports"])]);
   ("it", [("read", ["infra_db"; "logs"; "metrics"]); ("write", ["tickets"])]);
   ("legal", [("read", ["legal_db"; "contracts"]); ("write", ["legal_reports"])]);
   ("general", [("read", ["public_kb"]); ("write", [])]);
   ("code_scalpel", [("read", ["source_code"; "ast_index"; "security_scan_results"]);
                     ("write", ["analysis_reports"])])]%string.
Definition registered_agent_types : list string := agent_permissions.*1.
Definition registered_roles : list string := ["admin"; "operator"; "viewer"; "auditor"]%string.
Definition sensitive_agent_types : list string := ["finance"; "hr"; "legal"]%string.
Definition rbac_capabilities : list (string * list string) :=
  [("admin", ["approve"; "deny"; "view"]); ("operator", ["view"]); ("viewer", ["view"]);
   ("auditor", ["view"])]%string.

Section rules.
Context (input : value).

Definition token_expired : value := ref input "token_expired".
Definition in_action : value := ref input "action".
Definition in_agent_type : value := ref input "agent_type".
Definition in_resource : value := ref input "resource".
Definition in_role : value := ref input "principal_role".

(** [input.resource in agent_permissions[input.agent_type][input.action]] *)
Definition resource_permitted : value :=
  member in_resource (index (index (Some agent_permissions) in_agent_type) in_action).
(** [input.metadata.sensitive_masking == "enabled"] *)
Definition masking_enabled : value :=
  eq (ref (ref input "metadata") "sensitive_masking") "enabled".

(** The four [allow] rules, in the order of the file. *)
Definition allow_data : bool := body [fails token_expired; holds resource_permitted].
Definition allow_llm : bool :=
  body [fails token_expired; holds (eq in_action "llm.complete");
        holds (member in_agent_type (Some registered_agent_types));
        holds (startswith in_resource "model:")].
Definition allow_masked_data : bool :=
  body [fails token_expired; holds (ne in_action "llm.complete");
        holds (member in_agent_type (Some sensitive_agent_types));
        holds masking_enabled; holds resource_permitted].
Definition allow_hitl : bool :=
  body [fails token_expired; holds (eq in_resource "workflow:pending_approval");
        holds (member in_role (Some registered_roles));
        holds (member in_action (index (Some rbac_capabilities) in_role))].

Definition allow : outcome bool :=
  complete (Some false)
    [(true, allow_data); (true, allow_llm); (true, allow_masked_data); (true, allow_hitl)].
Definition allowed_ : value :=
  match allow with Value b => bool_value b | _ => None end.

Definition action : outcome string :=
  complete (Some "reject"%string)
    [("mask"%string, body [holds allowed_; holds (member in_agent_type (Some sensitive_agent_types))]);
     ("allow"%string, body [holds allowed_; fails (member in_agent_type (Some sensitive_agent_types))])].
Definition fields : outcome (list string) :=
  complete None
    [(["prompt"]%string,
      body [holds (match action with Value a => eq (Some (JStr a)) "mask" | _ => None end)])].

Definition reasons : list string :=
  let other := holds (ne in_resource "workflow:pending_approval") in
  partial_set
    [("agent_type_not_permitted"%string,
      body [other; fails (member in_agent_type (Some registered_agent_types))]);
     ("pii_masking_required"%string,
      body [other; holds (ne in_action "llm.complete");
            holds (member in_agent_type (Some sensitive_agent_types)); fails masking_enabled]);
     ("rbac_denied"%string,
      body [holds (eq in_resource "workflow:pending_approval"); fails token_expired;
            fails (member in_action (index (Some rbac_capabilities) in_role))]);
     ("resource_not_permitted"%string,
      body [other; holds (ne in_action "llm.complete");
            bool_decide (is_Some (index (Some agent_permissions) in_agent_type));
            fails resource_permitted]);
     ("token_expired"%string,
      body [holds (j ← token_expired; bool_value (match j with JBool b => b | _ => false end))])].

(** The document [data.aegis.agent_access], unless a rule conflicts. *)
Definition jset (l : list string) : json := jstrs (merge_sort string_le l).
Definition jtable (t : list (string * list string)) : json := JObj (prod_map id jstrs <$> t).
Definition document : option json :=
  match allow, action, fields with
  | Value a, Value act, (Value _ | Undefined) as fs =>
      Some (JObj (
        [("action", JStr act);
         ("agent_permissions", JObj (prod_map id jtable <$> agent_permissions));
         ("allow", JBool a)]%string
        ++ match fs with Value fs => [("fields"%string, jstrs fs)] | _ => [] end
        ++ [("rbac_capabilities", jtable rbac_capabilities); ("reasons", jstrs reasons);
            ("registered_agent_types", jset registered_agent_types);
            ("registered_roles", jset registered_roles);
            ("sensitive_agent_types", jset sensitive_agent_types)]%string))
  | _, _, _ => None
  end.
End rules.
End AgentAccess.

(** ** policies/budget.rego

    On well-typed inputs: the amount is a number, the two names are strings. *)
Module BudgetPolicy.
Record BudgetInput : Type := mkBudgetInput {
  bi_agent_type : string;
  bi_requested_usd : Decimal;
  bi_approver_role : string
}.
Definition fifty : Decimal := mkDec false 500 (-1).
Definition five_hundred : Decimal := mkDec false 5000 (-1).

Definition allow_budget_extension (i : BudgetInput) : bool :=
  body [holds (member (Some (JStr (bi_agent_type i))) (Some ["finance"; "hr"; "it"]%string));
        dec_leb (bi_requested_usd i) fifty;
        holds (eq (Some (JStr (bi_approver_role i))) "manager")].
Definition deny_budget_extension (i : BudgetInput) : bool :=
  body [dec_ltb five_hundred (bi_requested_usd i);
        fails (eq (Some (JStr (bi_approver_role i))) "executive")].
End BudgetPolicy.

(** ** Evaluating a body *)

Lemma holds_bool b : holds (bool_value b) = b.
Proof. by destruct b. Qed.
Lemma holds_eq a s : holds (eq (Some (JStr a)) s) = bool_decide (a = s).
Proof. unfold eq. cbn. apply holds_bool. Qed.
Lemma holds_ne a s : holds (ne (Some (JStr a)) s) = negb (bool_decide (a = s)).
Proof. unfold ne. cbn. apply holds_bool. Qed.
Lemma holds_startswith a p : holds (startswith (Some (JStr a)) p) = String.prefix p a.
Proof. apply holds_bool. Qed.
Lemma holds_member a l : holds (member (Some (JStr a)) (Some l)) = bool_decide (a ∈ l).
Proof.
  unfold member. cbn [mbind option_bind]. rewrite holds_bool. induction l as [|s l IH]; cbn [existsb].
  - symmetry. apply bool_decide_eq_false_2, not_elem_of_nil.
  - rewrite IH. cbn [is_str]. rewrite <- bool_decide_or. apply bool_decide_ext.
    by rewrite elem_of_cons.
Qed.
Create Rewrite HintDb rego.
#[global] Hint Rewrite holds_bool holds_eq holds_ne holds_startswith holds_member : rego.

Lemma prefix_app p s : String.prefix p s = true <-> exists r, s = (p +:+ r)%string.
Proof.
  revert s. induction p as [|a p IH]; intros s.
  - split; [by exists s|by destruct s].
  - destruct s as [|b s]; cbn; [split; [done|by intros [r [=]]]|].
    destruct (ascii_dec a b) as [<-|Hne].
    + rewrite IH. split; intros [r Hr]; exists r; [by rewrite Hr|by injection Hr].
    + split; [done|]. intros [r Hr]. injection Hr. congruence.
Qed.

(** ** What the policy permits *)

Import AgentAccess.

(** The table grants the agent type this action on this resource. *)
Definition table_grants (agent act resource : string) : Prop :=
  exists perms l, assoc agent agent_permissions = Some perms /\ assoc act perms = Some l /\
    resource ∈ l.

(** Who may do what, whatever the metadata and the requester. *)
Inductive permitted (i : PolicyInput) : Prop :=
  | permitted_data :
      pi_token_expired i = false ->
      table_grants (pi_agent_type i) (pi_action i) (pi_resource i) ->
      permitted i
  | permitted_llm model :
      pi_token_expired i = false -> pi_action i = "llm.complete"%string ->
      pi_agent_type i ∈ registered_agent_types ->
      pi_resource i = ("model:" +:+ model)%string ->
      permitted i
  | permitted_hitl role :
      pi_token_expired i = false -> pi_resource i = "workflow:pending_approval"%string ->
      pi_principal_role i = Some role ->
      (role = "admin"%string /\ pi_action i ∈ ["approve"; "deny"; "view"]%string
       \/ role ∈ ["operator"; "viewer"; "auditor"]%string /\ pi_action i = "view"%string) ->
      permitted i.

Section on_input.
Context (i : PolicyInput).
#[local] Abbreviation inp := (Some (model_dump i)).

Lemma in_fields :
  token_expired inp = Some (JBool (pi_token_expired i)) /\
  in_action inp = Some (JStr (pi_action i)) /\
  in_agent_type inp = Some (JStr (pi_agent_type i)) /\
  in_resource inp = Some (JStr (pi_resource i)) /\
  in_role inp = Some (jstr_opt (pi_principal_role i)).
Proof. by split_and!. Qed.

Lemma fails_expired : fails (token_expired inp) = negb (pi_token_expired i).
Proof. unfold fails. destruct in_fields as [-> _]. by destruct (pi_token_expired i). Qed.

Lemma resource_permitted_iff :
  holds (resource_permitted inp) = true <->
  table_grants (pi_agent_type i) (pi_action i) (pi_resource i).
Proof.
  unfold resource_permitted, table_grants. destruct in_fields as (_ & -> & -> & -> & _). cbn [index].
  destruct (assoc (pi_agent_type i) agent_permissions) as [perms|]; cbn [index].
  - destruct (assoc (pi_action i) perms) as [l|] eqn:El.
    + rewrite holds_member, bool_decide_eq_true. split; [eauto|].
      intros (? & ? & [= <-] & Hl & Hin). rewrite El in Hl. by injection Hl as <-.
    + cbn. split; [done|]. intros (? & ? & [= <-] & Hl & _). congruence.
  - cbn. split; [done|]. by intros (? & ? & ? & _).
Qed.

Lemma hitl_iff :
  holds (member (in_role inp) (Some registered_roles)) &&
  holds (member (in_action inp) (index (Some rbac_capabilities) (in_role inp))) = true <->
  exists role, pi_principal_role i = Some role /\
    (role = "admin"%string /\ pi_action i ∈ ["approve"; "deny"; "view"]%string
     \/ role ∈ ["operator"; "viewer"; "auditor"]%string /\ pi_action i = "view"%string).
Proof.
  destruct in_fields as (_ & -> & _ & _ & ->).
  destruct (pi_principal_role i) as [role|]; cbn [jstr_opt].
  2: { split; [intros E; exfalso; revert E; cbn; discriminate|intros (? & [=] & _)]. }
  rewrite holds_member, andb_true_iff, bool_decide_eq_true.
  assert (Hcap : index (Some rbac_capabilities) (Some (JStr role))
    = if bool_decide (role = "admin"%string) then Some ["approve"; "deny"; "view"]%string
      else if bool_decide (role ∈ ["operator"; "viewer"; "auditor"]%string)
      then Some ["view"%string] else None).
  { cbn [index assoc rbac_capabilities]. case_bool_decide; [done|].
    destruct (bool_decide_reflect (role ∈ ["operator"; "viewer"; "auditor"]%string)) as [Hr|Hr];
      rewrite !elem_of_cons, elem_of_nil in Hr; repeat (case_bool_decide; [done || tauto|]); tauto. }
  rewrite Hcap. unfold registered_roles. rewrite elem_of_cons.
  case_bool_decide as Ha; [|case_bool_decide as Ho].
  - rewrite holds_member, bool_decide_eq_true. split.
    + intros [_ Hin]. exists role. auto.
    + intros (? & [= <-] & [[_ Hin]|[_ ->]]); (split; [by left|]); [exact Hin|set_solver].
  - rewrite holds_member, bool_decide_eq_true, list_elem_of_singleton. split.
    + intros [_ Hin]. exists role. auto.
    + intros (? & [= <-] & [[Hr _]|[_ ->]]); [contradiction|auto].
  - cbn [member mbind option_bind holds]. split; [by intros [_ [=]]|].
    intros (? & [= <-] & [[Hr _]|[Hr _]]); contradiction.
Qed.

Lemma allow_value v :
  allow v = Value (allow_data v || allow_llm v || allow_masked_data v || allow_hitl v).
Proof.
  unfold allow. by destruct (allow_data v), (allow_llm v), (allow_masked_data v), (allow_hitl v).
Qed.

(** The third rule adds nothing to the first. *)
Lemma masked_rule_redundant v : allow_masked_data v = true -> allow_data v = true.
Proof.
  unfold allow_masked_data, allow_data, body. cbn [forallb id].
  rewrite !andb_true_iff. tauto.
Qed.

Lemma allow_iff : allow inp = Value true <-> permitted i.
Proof.
  rewrite allow_value. split.
  - intros [= Ha]. assert (Hr : allow_data inp || allow_llm inp || allow_hitl inp = true).
    { pose proof (masked_rule_redundant inp). destruct (allow_data inp), (allow_llm inp),
        (allow_masked_data inp), (allow_hitl inp); try done; tauto. }
    clear Ha. unfold allow_data, allow_llm, allow_hitl, body in Hr. cbn [forallb id] in Hr.
    rewrite fails_expired, !andb_true_r, !orb_true_iff, !(andb_true_iff (negb _)), negb_true_iff
      in Hr.
    destruct Hr as [[[He Hd]|[He Hl]]|[He Hh]].
    + apply permitted_data; [done|]. by apply resource_permitted_iff.
    + destruct in_fields as (_ & E1 & E2 & E3 & _). rewrite E1, E2, E3 in Hl.
      rewrite holds_eq, holds_member, holds_startswith in Hl. bool_to_prop.
      match goal with H : String.prefix _ _ = true |- _ => apply prefix_app in H as [m Hm] end.
      by apply (permitted_llm i m).
    + apply andb_true_iff in Hh as [Hres Hh]. apply hitl_iff in Hh as (role & Hrole & Hcap).
      destruct in_fields as (_ & _ & _ & E3 & _). rewrite E3, holds_eq in Hres. bool_to_prop.
      by apply (permitted_hitl i role).
  - intros Hp. f_equal. unfold allow_data, allow_llm, allow_hitl, body. cbn [forallb id].
    rewrite fails_expired, !andb_true_r.
    destruct Hp as [He Hd|m He Ha Hr Hres|role He Hres Hrole Hcap]; rewrite He; cbn [negb andb].
    + apply resource_permitted_iff in Hd. by rewrite Hd.
    + destruct in_fields as (_ & E1 & E2 & E3 & _). rewrite E1, E2, E3.
      rewrite holds_eq, holds_member, holds_startswith.
      assert (Hpre : String.prefix "model:" (pi_resource i) = true) by (apply prefix_app; eauto).
      rewrite Hpre, !bool_decide_eq_true_2 by done. cbn [andb]. by rewrite orb_true_r.
    + assert (Hh := proj2 hitl_iff (ex_intro _ role (conj Hrole Hcap))). rewrite Hh.
      destruct in_fields as (_ & _ & _ & E3 & _). rewrite E3, holds_eq, bool_decide_eq_true_2 by done.
      by rewrite orb_true_r.
Qed.

#[global] Instance permitted_dec : Decision (permitted i).
Proof.
  destruct (allow inp) as [|[]|] eqn:E;
    [right|left; by apply allow_iff|right|right]; intros Hp%allow_iff; congruence.
Defined.

Lemma allow_decides : allow inp = Value (bool_decide (permitted i)).
Proof.
  case_bool_decide as Hp; [by apply allow_iff|]. rewrite allow_value.
  destruct (_ || _) eqn:E; [|done]. exfalso. apply Hp, allow_iff. by rewrite allow_value, E.
Qed.

Definition sensitive : bool := bool_decide (pi_agent_type i ∈ sensitive_agent_types).
(** The instruction to the orchestrator. *)
Definition access_action : string :=
  if bool_decide (permitted i) then (if sensitive then "mask" else "allow") else "reject".
Definition access_fields : list string :=
  if bool_decide (access_action = "mask"%string) then ["prompt"%string] else [].

Lemma action_decides : action inp = Value access_action.
Proof.
  unfold action, access_action, allowed_, fails. rewrite allow_decides.
  destruct in_fields as (_ & _ & -> & _). rewrite holds_bool, holds_member. fold sensitive.
  by destruct (bool_decide (permitted i)), sensitive.
Qed.

Lemma fields_decide :
  fields inp = if bool_decide (access_action = "mask"%string) then Value access_fields else Undefined.
Proof.
  unfold fields, access_fields. rewrite action_decides. rewrite holds_eq.
  by case_bool_decide.
Qed.

Lemma document_decides :
  exists doc, document inp = Some (JObj doc) /\
    assoc "allow" doc = Some (JBool (bool_decide (permitted i))) /\
    assoc "action" doc = Some (JStr access_action) /\
    assoc "fields" doc = (if bool_decide (access_action = "mask"%string)
                          then Some (jstrs access_fields) else None) /\
    assoc "reasons" doc = Some (jstrs (reasons inp)).
Proof.
  unfold document. rewrite allow_decides, action_decides, fields_decide.
  case_bool_decide; (eexists; split; [reflexivity|]); by split_and!.
Qed.

(** A registered agent type that asks for a completion from something that is not a
    model. *)
Definition unexplained : Prop :=
  pi_token_expired i = false /\ pi_resource i <> "workflow:pending_approval"%string /\
  pi_action i = "llm.complete"%string /\ pi_agent_type i ∈ registered_agent_types.

Lemma registered_iff :
  pi_agent_type i ∈ registered_agent_types <-> is_Some (assoc (pi_agent_type i) agent_permissions).
Proof.
  unfold registered_agent_types. generalize agent_permissions as l. clear.
  induction l as [|[k v] l IH]; cbn.
  - rewrite elem_of_nil. split; [done|by intros [? [=]]].
  - rewrite elem_of_cons, IH. case_bool_decide; [|tauto]. split; [by eexists|by left].
Qed.

Lemma partial_set_nil rules :
  partial_set rules = [] <-> Forall (fun r : string * bool => r.2 = false) rules.
Proof.
  unfold partial_set. induction rules as [|[s b] rules IH]; cbn; [by rewrite Forall_nil|].
  rewrite Forall_cons. cbn. destruct b; cbn; [split; [done|by intros []]|]. tauto.
Qed.

Lemma capable_registered :
  holds (member (in_action inp) (index (Some rbac_capabilities) (in_role inp))) = true ->
  holds (member (in_role inp) (Some registered_roles)) = true.
Proof.
  destruct in_fields as (_ & -> & _ & _ & ->).
  destruct (pi_principal_role i) as [role|]; [|done]. cbn [jstr_opt].
  rewrite holds_member, bool_decide_eq_true. cbn [index assoc rbac_capabilities].
  unfold registered_roles. rewrite !elem_of_cons.
  repeat case_bool_decide; subst; auto. cbn. discriminate.
Qed.

Lemma expired_reason :
  holds (j ← token_expired inp; bool_value (match j with JBool b => b | _ => false end))
  = pi_token_expired i.
Proof. destruct in_fields as [-> _]. apply holds_bool. Qed.

Lemma reasons_bodies :
  let other := negb (bool_decide (pi_resource i = "workflow:pending_approval"%string)) in
  let data := negb (bool_decide (pi_action i = "llm.complete"%string)) in
  reasons inp = [] <->
  other && negb (bool_decide (pi_agent_type i ∈ registered_agent_types)) = false /\
  other && data && sensitive && fails (masking_enabled inp) = false /\
  negb other && negb (pi_token_expired i)
    && fails (member (in_action inp) (index (Some rbac_capabilities) (in_role inp))) = false /\
  other && data && bool_decide (pi_agent_type i ∈ registered_agent_types)
    && fails (resource_permitted inp) = false /\
  pi_token_expired i = false.
Proof.
  intros other data. unfold reasons. rewrite partial_set_nil, !Forall_cons, Forall_nil. cbn [snd].
  unfold body. cbn [forallb id]. rewrite !andb_true_r, expired_reason, fails_expired.
  destruct in_fields as (_ & Ea & Eg & Er & _). rewrite Er, Eg, holds_ne, holds_eq. fold other.
  rewrite Ea, holds_ne. fold data. unfold fails at 1. rewrite !holds_member. fold sensitive.
  assert (Hd : bool_decide (is_Some (index (Some agent_permissions) (Some (JStr (pi_agent_type i)))))
               = bool_decide (pi_agent_type i ∈ registered_agent_types))
    by (apply bool_decide_ext; symmetry; apply registered_iff).
  rewrite Hd, !andb_assoc. unfold other. rewrite negb_involutive. tauto.
Qed.

(** A denial names its reasons, but for the one case of [unexplained]. *)
Lemma denial_explained : ~ permitted i -> (reasons inp = [] <-> unexplained).
Proof.
  intros Hp. rewrite reasons_bodies. unfold unexplained, fails. split.
  - intros (H1 & _ & H3 & H4 & He). rewrite He in *. cbn [negb] in H3.
    destruct (bool_decide_reflect (pi_resource i = "workflow:pending_approval"%string)) as [Hr|Hr];
      cbn [negb andb] in *.
    + exfalso. apply Hp. apply negb_false_iff in H3.
      pose proof (capable_registered H3) as Hreg.
      assert (Hh := conj Hreg H3). apply andb_true_iff, hitl_iff in Hh as (role & Hrole & Hcap).
      by apply (permitted_hitl i role).
    + apply negb_false_iff, bool_decide_eq_true_1 in H1. split_and!; try done.
      rewrite (bool_decide_eq_true_2 (pi_agent_type i ∈ _)) in H4 by done. rewrite andb_true_r in H4.
      case_bool_decide as Ha; [done|]. exfalso. apply Hp. apply negb_false_iff in H4.
      apply permitted_data; [done|]. by apply resource_permitted_iff.
  - intros (He & Hr & Ha & Hreg). rewrite He, !(bool_decide_eq_true_2 (pi_action i = _)) by done.
    rewrite (bool_decide_eq_true_2 (pi_agent_type i ∈ registered_agent_types)) by done.
    rewrite (bool_decide_eq_false_2 (pi_resource i = _)) by done. by split_and!.
Qed.

(** The request announces masking, which docs/policy-guide.md asks of the sensitive agent
    types. *)
Definition masked : Prop := assoc "sensitive_masking" (pi_metadata i) = Some "enabled"%string.

Lemma masking_reason :
  sensitive = true -> ~ masked -> pi_resource i <> "workflow:pending_approval"%string ->
  pi_action i <> "llm.complete"%string -> "pii_masking_required"%string ∈ reasons inp.
Proof.
  intros Hs Hm Hr Ha. unfold reasons, partial_set. apply list_elem_of_omap.
  eexists (_, _). split; [apply list_elem_of_further, list_elem_of_here|]. cbn [fst snd].
  unfold body. cbn [forallb id]. destruct in_fields as (_ & Ea & Eg & Er & _).
  rewrite Er, Ea, Eg, !holds_ne, holds_member. fold sensitive. rewrite Hs.
  rewrite !bool_decide_eq_false_2 by done. cbn [negb andb].
  assert (Hf : fails (masking_enabled inp) = true); [|by rewrite Hf].
  unfold masking_enabled, masked in *.
  change (ref inp "metadata") with (Some (JObj (prod_map id JStr <$> pi_metadata i))).
  clear -Hm. cbn [ref]. induction (pi_metadata i) as [|[k v] l IH]; [done|].
  rewrite fmap_cons. cbn [assoc] in *. cbn [prod_map assoc fst snd]. unfold id at 1.
  destruct (bool_decide ("sensitive_masking"%string = k)); [|by apply IH].
  unfold fails. rewrite holds_eq. by rewrite bool_decide_eq_false_2 by congruence.
Qed.

(** C36. What the access policy decides.  For every query of the control plane the
    document OPA serves exists (no two rules conflict) and has the types the client
    reads.  For the queries of agent types that are not sensitive, and for those of
    finance, hr and legal that announce masking, [allow] is true exactly for the inputs
    of the three kinds of [permitted] (an action of the data plane that the table
    grants, a model call of a registered agent type, a human decision that the role may
    take; never with an expired token), and [action] is "mask" with [fields] =
    ["prompt"] for the permitted requests of sensitive agent types, "allow" for the other
    permitted ones and "reject" for all others.  A sensitive agent type that does not
    announce masking gets no more than [permitted] either, and for the data plane the
    reason "pii_masking_required".  A denial gives at least one reason, except that of a
    registered agent type whose "llm.complete" does not name a model. *)
Theorem policy_decides :
  exists doc allowed_ act, document inp = Some (JObj doc) /\
    assoc "allow" doc = Some (JBool allowed_) /\ assoc "action" doc = Some (JStr act) /\
    assoc "fields" doc = (if bool_decide (act = "mask"%string)
                          then Some (jstrs ["prompt"%string]) else None) /\
    assoc "reasons" doc = Some (jstrs (reasons inp)) /\
    (sensitive = false \/ masked ->
       allowed_ = bool_decide (permitted i) /\
       act = (if allowed_ then (if sensitive then "mask" else "allow") else "reject")%string) /\
    (allowed_ = true -> permitted i /\ act <> "reject"%string) /\
    (sensitive = true -> ~ masked -> pi_resource i <> "workflow:pending_approval"%string ->
       pi_action i <> "llm.complete"%string -> "pii_masking_required"%string ∈ reasons inp) /\
    (~ permitted i -> (reasons inp = [] <-> unexplained)).
Proof.
  destruct document_decides as (doc & Hd & Ha & Hact & Hf & Hr).
  exists doc, (bool_decide (permitted i)), access_action. split_and!; auto using denial_explained.
  - rewrite Hf. unfold access_fields. by case_bool_decide.
  - intros Hp. apply bool_decide_eq_true_1 in Hp. split; [done|]. unfold access_action.
    rewrite bool_decide_eq_true_2 by done. by destruct sensitive.
  - exact masking_reason.
Qed.
End on_input.

(** ** The client in front of the policy *)

(** What OPA, serving this policy, decides for a query. *)
Definition access_decision (i : PolicyInput) : PolicyResult :=
  mkPolicyResult (bool_decide (permitted i)) (reasons (Some (model_dump i))) (access_action i)
    (access_fields i).

(** The OPA server of [e] has loaded the policy: it answers a query of the document
    with [{"result": document}] (and possibly more fields), or 500 on a conflict. *)
Class ServesPolicy `{Env} (e : PolicyEngine) : Prop := serves_policy : forall sent i,
  match document (Some i) with
  | Some doc => exists body,
      http_answer sent (mkHttpRequest (policy_url e "agent_access")
                          (JObj [("input"%string, i)]) [])
      = Ok (mkHttpResponse 200 (Ok (JObj body))) /\ assoc "result" body = Some doc
  | None => exists r,
      http_answer sent (mkHttpRequest (policy_url e "agent_access")
                          (JObj [("input"%string, i)]) [])
      = Ok (mkHttpResponse 500 r)
  end.

Section served.
Context `{Env} `{HasSettings} `{Pydantic} {St : Type}.

Lemma pyd_list_jstrs l : pyd_list_str (jstrs l) = Some l.
Proof. by apply mapM_fmap_Some. Qed.

Lemma read_decision_served body i doc (s : St) w :
  assoc "result" body = Some (JObj doc) ->
  assoc "allow" doc = Some (JBool (bool_decide (permitted i))) ->
  assoc "action" doc = Some (JStr (access_action i)) ->
  assoc "fields" doc = (if bool_decide (access_action i = "mask"%string)
                        then Some (jstrs (access_fields i)) else None) ->
  assoc "reasons" doc = Some (jstrs (reasons (Some (model_dump i)))) ->
  read_decision (JObj body) s w = (Ok (access_decision i), (s, w)).
Proof.
  intros Hres Ha Hact Hf Hr.
  unfold read_decision, dict_get, mbind, M_bind, mret, M_ret. rewrite Hres. cbn [default id].
  rewrite Ha, Hact, Hr. cbn [default id truthy].
  assert (Hfs : default (JList []) (assoc "fields" doc) = jstrs (access_fields i)).
  { rewrite Hf. unfold access_fields. by case_bool_decide. }
  unfold default, id in Hfs |- *. rewrite Hfs, !pyd_list_jstrs. reflexivity.
Qed.

(** Client and policy together.  When the OPA server has loaded the policy, a query
    never fails: [PolicyEngine.evaluate] sends one request and returns the policy's
    decision, [allowed] exactly for the permitted inputs. *)
Theorem evaluate_served e `{!ServesPolicy e} i (s : St) w :
  evaluate e "agent_access" i s w
  = (Ok (access_decision i),
     (s, w_add_http (mkHttpRequest (policy_url e "agent_access")
                       (JObj [("input"%string, model_dump i)]) []) w)).
Proof.
  destruct (document_decides i) as (doc & Hd & Ha & Hact & Hf & Hr).
  pose proof (serves_policy (w_http w) (model_dump i)) as Hs. rewrite Hd in Hs.
  destruct Hs as (body & Hans & Hres).
  unfold evaluate, http_post, try_except, raise_for_status, of_result, mbind, M_bind.
  rewrite Hans. cbn. exact (read_decision_served body i doc s _ Hres Ha Hact Hf Hr).
Qed.
End served.

(** An answer of this server that grants a query was right to. *)
Lemma granted_permitted `{Env} `{HasSettings} `{Pydantic} e `{!ServesPolicy e} i w resp body :
  opa_answer e "agent_access" i w = Ok resp -> hs_json resp = Ok body -> grants body ->
  permitted i.
Proof.
  intros Ho Hb Hg. pose proof (evaluate_served e i tt w) as He.
  pose proof (evaluate_run e "agent_access" i tt w) as Hr. rewrite He in Hr.
  destruct Hr as (_ & _ & resp' & body' & Ho' & Hb' & Ha).
  rewrite Ho in Ho'. injection Ho' as <-. rewrite Hb in Hb'. injection Hb' as <-.
  apply Ha in Hg. cbn in Hg. by apply bool_decide_eq_true_1 in Hg.
Qed.

(** ** Consequences *)

(** The metadata has no influence: the rule "Require PII masking for sensitive agent
    types on data-plane actions" grants nothing the first rule does not, and nothing
    demands masking.  The reason "pii_masking_required" can accompany a grant. *)
Theorem masking_not_enforced i md :
  let i' := mkPolicyInput (pi_agent_type i) (pi_requester_id i) (pi_action i) (pi_resource i) md
              (pi_principal_role i) (pi_token_expired i) in
  permitted i -> permitted i'.
Proof.
  intros i' [He Ht|m He Ha Hr Hres|role He Hres Hrole Hcap].
  - by apply permitted_data.
  - by apply (permitted_llm i' m).
  - by apply (permitted_hitl i' role).
Qed.

Example unmasked_finance_read :
  access_decision (mkPolicyInput "finance" "alice" "read" "finance_db" [] None false)
  = mkPolicyResult true ["pii_masking_required"%string] "mask" ["prompt"%string].
Proof. vm_compute. reflexivity. Qed.

(** A denial without a reason. *)
Example denied_without_reason :
  access_decision (mkPolicyInput "it" "alice" "llm.complete" "llama3" [] None false)
  = mkPolicyResult false [] "reject" [].
Proof. vm_compute. reflexivity. Qed.

(** Only an admin takes a decision on a pending task. *)
Lemma decision_by_admin i :
  permitted i -> pi_resource i = "workflow:pending_approval"%string ->
  pi_action i ∈ ["approve"; "deny"]%string -> pi_principal_role i = Some "admin"%string.
Proof.
  intros [He (perms & l & Hp & Hl & Hin)|m He Ha Hr Hres|role He Hres Hrole Hcap] Hpend Hact.
  - exfalso. rewrite !elem_of_cons, elem_of_nil in Hact.
    unfold agent_permissions in Hp. cbn [assoc] in Hp.
    repeat (case_bool_decide; [injection Hp as <-; cbn [assoc] in Hl;
      destruct Hact as [Ha|[Ha|[]]]; rewrite Ha in Hl; discriminate Hl|]). discriminate Hp.
  - exfalso. rewrite Hpend in Hres. discriminate Hres.
  - destruct Hcap as [[-> _]|[_ Hv]]; [exact Hrole|]. exfalso. rewrite Hv in Hact. set_solver.
Qed.

(** A model call is permitted exactly to the registered agent types. *)
Lemma model_call_permitted agent who model md :
  permitted (mkPolicyInput agent who "llm.complete" ("model:" +:+ model) md None false) <->
  agent ∈ registered_agent_types.
Proof.
  split.
  - intros [_ (perms & l & Hp & _)|m _ _ Hr _|role _ Hres _ _]; cbn in *;
      [|exact Hr|discriminate Hres].
    apply (registered_iff (mkPolicyInput agent who "" "" [] None false)). by eexists.
  - intros Hr. by apply (permitted_llm _ model).
Qed.

(** The hard cap of policies/budget.rego is never reached by its own grants. *)
Lemma extension_never_both i :
  BudgetPolicy.allow_budget_extension i = true -> BudgetPolicy.deny_budget_extension i = false.
Proof.
  unfold BudgetPolicy.allow_budget_extension, BudgetPolicy.deny_budget_extension, body.
  cbn [forallb id]. rewrite !andb_true_iff. intros (_ & Hle & _).
  apply andb_false_iff. left.
  destruct (dec_ltb_spec BudgetPolicy.five_hundred (BudgetPolicy.bi_requested_usd i)) as [Hlt|]; [|done].
  exfalso. destruct (dec_leb_spec (BudgetPolicy.bi_requested_usd i) BudgetPolicy.fifty) as [Hl|]; [|done].
  apply Hlt. apply (dle_trans _ BudgetPolicy.fifty); [exact Hl|]. vm_compute. discriminate.
Qed.
