(* ===== verification/Adapters.v ===== *)
(** * src/adapters: the LLM provider adapters

    [BaseAdapter] is the interface the control plane uses; the three adapters
    of the repository are its instances.  An adapter works on the session
    manager and the audit logger it was given, which the worker shares with the
    rest of the pipeline ([Shared]). *)
From Stdlib Require Import ZArith Lia Ascii String.
From stdpp Require Import base gmap strings list pretty.
From S2P Require Import Prelude PyDecimal PyUuid World Config AuditLogger PyCrypto ReplayStore.
From S2P Require Import SessionMgr PolicyEngine.

(** A sampling temperature is only passed on, as a JSON number. *)
Record LLMRequest : Type := mkLLMRequest {
  lr_prompt : string;
  lr_model : string;
  lr_max_tokens : Z;
  lr_temperature : json;
  lr_system_prompt : string;
  lr_metadata : list (string * string)
}.

Record LLMResponse : Type := mkLLMResponse {
  content : string;
  ls_tokens_used : Z;
  ls_model : string;
  ls_provider : string;
  finish_reason : string
}.

Record Shared (R : Type) : Type := mkShared {
  sh_session : SessionManager R;
  sh_audit : AuditLogger
}.
Arguments mkShared {R} _ _.
Arguments sh_session {R} _.
Arguments sh_audit {R} _.

Definition in_session {R A} (m : M (SessionManager R) A) : M (Shared R) A :=
  zoom sh_session (fun t s => mkShared t (sh_audit s)) m.
Definition in_audit {R A} (m : M AuditLogger A) : M (Shared R) A :=
  zoom sh_audit (fun t s => mkShared (sh_session s) t) m.

Record BaseAdapter (R : Type) : Type := mkAdapter {
  provider_name : string;
  outbound_request_binding : LLMRequest -> option (string * string);
  complete : LLMRequest -> M (Shared R) LLMResponse
}.
Arguments mkAdapter {R} _ _ _.
Arguments provider_name {R} _.
Arguments outbound_request_binding {R} _ _.
Arguments complete {R} _ _.

(** ** JSON bodies *)

(** [v[k]] and [v[0]] *)
Definition json_key {S} (v : json) (k : string) : M S json :=
  match v with
  | JObj fs => of_option (assoc k fs) KeyError (repr_str k)
  | _ => throw TypeError "indices must be integers or slices, not str"
  end.
Definition json_first {S} (v : json) : M S json :=
  match v with
  | JList (x :: _) => mret x
  | JList [] => throw (OtherException "IndexError") "list index out of range"
  | JStr s => match str_chars (str_bytes s) with
              | c :: _ => mret (JStr (bytes_str c))
              | [] => throw (OtherException "IndexError") "string index out of range"
              end
  | JObj _ => throw KeyError "0"
  | _ => throw TypeError "object is not subscriptable"
  end.

(** [a + b] *)
Definition py_add {S} (a b : json) : M S json :=
  let num (j : json) : option (Z + Z) :=
    match j with
    | JInt z => Some (inl z)
    | JBool c => Some (inl (if c then 1 else 0))
    | JTime t => Some (inr t)
    | _ => None
    end in
  match a, b with
  | JStr x, JStr y => mret (JStr (x +:+ y))
  | JList x, JList y => mret (JList (x ++ y))
  | _, _ =>
      match num a, num b with
      | Some (inl x), Some (inl y) => mret (JInt (x + y))
      | Some (inl x), Some (inr y) => mret (JTime (secs x + y))
      | Some (inr x), Some (inl y) => mret (JTime (x + secs y))
      | Some (inr x), Some (inr y) => mret (JTime (x + y))
      | _, _ => throw TypeError "unsupported operand type(s) for +"
      end
  end.

Definition AegisTokenKey : string := "aegis_token".
Definition AegisProofKey : string := "aegis_dpop_proof".
Definition AegisProtectedKey : string := "aegis_protected".

Section adapters.
Context `{Env} `{HasSettings} `{PyText} `{FloatRepr} `{Cryptography} `{Pydantic} `{Jose}.
Context {R : Type} `{!ReplayStore R}.

(** The condition under which a request must carry a bound token. *)
Definition protected (r : LLMRequest) : bool :=
  bool_decide (assoc AegisProtectedKey (lr_metadata r) = Some "true"%string)
  || require_sender_constrained_tokens settings.

Definition require_sender_constrained_request (r : LLMRequest) (http_method http_url : string)
    : M (SessionManager R) (option TokenClaims) :=
  if negb (protected r) then mret None
  else
    let token := default ""%string (assoc AegisTokenKey (lr_metadata r)) in
    let proof := default ""%string (assoc AegisProofKey (lr_metadata r)) in
    if bool_decide (token = ""%string) || bool_decide (proof = ""%string) then
      throw AdapterSecurityError
        ("Protected outbound LLM requests must include both aegis_token and "
         +:+ "aegis_dpop_proof metadata")
    else
      let wrap := fun exc => throw_from AdapterSecurityError (exn_str exc) exc in
      try_except
        (claims ← validate_sender_constrained_token token proof http_method http_url None None;
         mret (Some claims))
        [(DPoPReplayError, wrap); (DPoPProofError, wrap); (TokenBindingError, wrap)].

(** [s or "unknown"] *)
Definition or_unknown (o : option string) : string :=
  match o with
  | Some s => if bool_decide (s = ""%string) then "unknown" else s
  | None => "unknown"
  end.

(** The audit of a refused request: who it was for is read from the token when
    the token itself is valid. *)
Definition audit_rejection (provider : string) (r : LLMRequest) (exc : exn) : M (Shared R) unit :=
  let token := default ""%string (assoc AegisTokenKey (lr_metadata r)) in
  '(task_id, agent_type) ←
    (if bool_decide (token = ""%string) then mret ("unknown"%string, "unknown"%string)
     else try_except
            (c ← in_session (validate_token token);
             mret (or_unknown (tc_task_id c), tc_agent_type c))
            [(Exception, fun _ => mret ("unknown"%string, "unknown"%string))]);
  let event_name :=
    if match exn_cause exc with Some c => isinstance c DPoPReplayError | None => false end
    then "dpop.proof.replayed"%string else "dpop.proof.rejected"%string in
  in_audit (stage_event event_name "deny" "llm-invoke" task_id agent_type None
              [("provider", JStr provider); ("error_message", JStr (exn_str exc))]%string).

(** The part all three [complete] methods start with. *)
Definition outbound_guard (provider : string) (r : LLMRequest) (method url : string)
    : M (Shared R) unit :=
  claims ← try_except (in_session (require_sender_constrained_request r method url))
    [(AdapterSecurityError, fun exc => audit_rejection provider r exc ;; raise exc)];
  match claims with
  | Some c => in_audit (stage_event "dpop.proof.validated" "allow" "llm-invoke"
                          (or_unknown (tc_task_id c)) (tc_agent_type c) None
                          [("provider", JStr provider); ("jti", JStr (jti c))]%string)
  | None => mret tt
  end.

Definition or_model (m d : string) : string := if bool_decide (m = ""%string) then d else m.

(** [LLMResponse(...)] *)
Definition build_response (c t : json) (model provider : string) (f : json)
    : M (Shared R) LLMResponse :=
  match (c' ← pyd_str c; t' ← pyd_int t; f' ← pyd_str f;
         Some (mkLLMResponse c' t' model provider f')) with
  | Some r => mret r
  | None => throw ValidationError (validation_message "LLMResponse" [])
  end.

Definition chat_messages (r : LLMRequest) : json :=
  JList ((if bool_decide (lr_system_prompt r = ""%string) then []
          else [JObj [("role", JStr "system"); ("content", JStr (lr_system_prompt r))]%string])
         ++ [JObj [("role", JStr "user"); ("content", JStr (lr_prompt r))]%string]).

Definition chat_payload (r : LLMRequest) (model : string) : json :=
  JObj [("model", JStr model); ("messages", chat_messages r);
        ("max_tokens", JInt (lr_max_tokens r)); ("temperature", lr_temperature r)]%string.

(** Post and read the JSON body of a 2xx answer. *)
Definition post_json (url : string) (payload : json) (headers : list (string * string))
    : M (Shared R) json :=
  response ← http_post (mkHttpRequest url payload headers);
  raise_for_status response ;;
  of_result (hs_json response).

(** *** OpenAI *)
Definition openai_url : string := "https://api.openai.com/v1/chat/completions".
Definition openai_complete (api_key default_model : string) (r : LLMRequest)
    : M (Shared R) LLMResponse :=
  outbound_guard "openai" r "POST" openai_url ;;
  let model := or_model (lr_model r) default_model in
  body ← post_json openai_url (chat_payload r model)
           [("Authorization"%string, "Bearer " +:+ api_key)];
  choices ← json_key body "choices";
  choice ← json_first choices;
  message ← json_key choice "message";
  c ← json_key message "content";
  usage ← json_key body "usage";
  t ← json_key usage "total_tokens";
  f ← dict_get choice "finish_reason" (JStr "stop");
  build_response c t model "openai" f.

Definition OpenAIAdapter (api_key default_model : string) : BaseAdapter R :=
  mkAdapter "openai" (fun _ => Some ("POST"%string, openai_url))
    (openai_complete api_key default_model).

(** *** Anthropic *)
Definition anthropic_url : string := "https://api.anthropic.com/v1/messages".
Definition anthropic_complete (api_key default_model : string) (r : LLMRequest)
    : M (Shared R) LLMResponse :=
  outbound_guard "anthropic" r "POST" anthropic_url ;;
  let model := or_model (lr_model r) default_model in
  let payload := JObj
    ([("model"%string, JStr model); ("max_tokens"%string, JInt (lr_max_tokens r));
      ("messages"%string,
       JList [JObj [("role", JStr "user"); ("content", JStr (lr_prompt r))]%string])]
     ++ (if bool_decide (lr_system_prompt r = ""%string) then []
         else [("system"%string, JStr (lr_system_prompt r))])) in
  body ← post_json anthropic_url payload
           [("x-api-key"%string, api_key); ("anthropic-version", "2023-06-01")%string];
  blocks ← json_key body "content";
  content_block ← json_first blocks;
  usage ← dict_get body "usage" (JObj []);
  i ← dict_get usage "input_tokens" (JInt 0);
  o ← dict_get usage "output_tokens" (JInt 0);
  t ← py_add i o;
  c ← json_key content_block "text";
  f ← dict_get body "stop_reason" (JStr "stop");
  build_response c t model "anthropic" f.

Definition AnthropicAdapter (api_key default_model : string) : BaseAdapter R :=
  mkAdapter "anthropic" (fun _ => Some ("POST"%string, anthropic_url))
    (anthropic_complete api_key default_model).

(** *** Local Llama *)

(** [base_url.rstrip("/")] *)
Definition rstrip_slash (s : string) : string :=
  bytes_str (reverse ((fix strip (l : list Z) : list Z :=
                         match l with
                         | c :: l' => if c =? 47 then strip l' else l
                         | [] => []
                         end) (reverse (str_bytes s)))).
Definition llama_url (base_url : string) : string := rstrip_slash base_url +:+ "/chat/completions".

Definition llama_complete (base_url default_model : string) (r : LLMRequest)
    : M (Shared R) LLMResponse :=
  outbound_guard "local_llama" r "POST" (llama_url base_url) ;;
  let model := or_model (lr_model r) default_model in
  body ← post_json (llama_url base_url) (chat_payload r model) [];
  choices ← json_key body "choices";
  choice ← json_first choices;
  usage ← dict_get body "usage" (JObj []);
  t ← dict_get usage "total_tokens" (JInt 0);
  message ← json_key choice "message";
  c ← json_key message "content";
  f ← dict_get choice "finish_reason" (JStr "stop");
  build_response c t model "local_llama" f.

Definition LocalLlamaAdapter (base_url default_model : string) : BaseAdapter R :=
  mkAdapter "local_llama" (fun _ => Some ("POST"%string, llama_url base_url))
    (llama_complete base_url default_model).
End adapters.

(** ** Properties *)

Section theorems.
Context `{Env} `{HasSettings} `{PyText} `{FloatRepr} `{Cryptography} `{Pydantic} `{Jose}.
Context {R : Type} `{!ReplayStore R}.
Implicit Types (s : Shared R) (w : World) (r : LLMRequest).

(** The adapters of the repository, with any configuration. *)
Inductive repo_adapter : BaseAdapter R -> Prop :=
  | is_openai key model : repo_adapter (OpenAIAdapter key model)
  | is_anthropic key model : repo_adapter (AnthropicAdapter key model)
  | is_llama url model : repo_adapter (LocalLlamaAdapter url model).

(** The exchange sends one request, to its URL. *)
Lemma exchange_sends {A} url payload headers (k : json -> M (Shared R) A) s w :
  (forall b, quiet (k b)) ->
  w_http ((post_json url payload headers ≫= k) s w).2.2
  = w_http w ++ [mkHttpRequest url payload headers].
Proof.
  intros Hk. unfold post_json, http_post, raise_for_status, of_result, mbind, M_bind.
  destruct (http_answer _ _) as [resp|e]; [|done]. cbn. destruct (_ && _); [|done]. cbn.
  destruct (hs_json resp) as [body|e]; [|done]. cbn. by rewrite Hk.
Qed.

(** Every [complete] is the guard at its own URL followed by the exchange. *)
Lemma complete_guarded a r :
  repo_adapter a -> exists url k, outbound_request_binding a r = Some ("POST"%string, url) /\
    complete a r = (outbound_guard (provider_name a) r "POST" url ≫= fun _ : unit => k) /\
    forall s w, exists q, w_http (k s w).2.2 = w_http w ++ [q] /\ hr_url q = url.
Proof.
  intros []; (eexists _, _; split_and!; [reflexivity|reflexivity|]); intros s w;
    (eexists; split; [apply exchange_sends|reflexivity]); intros b;
    unfold json_key, json_first, dict_get, py_add, build_response; hush.
Qed.

Lemma require_ok r m u (st : SessionManager R) w o sw :
  require_sender_constrained_request r m u st w = (Ok o, sw) -> protected r = true ->
  exists token proof claims, assoc AegisTokenKey (lr_metadata r) = Some token /\
    assoc AegisProofKey (lr_metadata r) = Some proof /\ o = Some claims /\
    validate_sender_constrained_token token proof m u None None st w = (Ok claims, sw).
Proof.
  intros E Hp. unfold require_sender_constrained_request in E. rewrite Hp in E. simpl in E.
  destruct (assoc AegisTokenKey (lr_metadata r)) as [token|]; [|done].
  destruct (assoc AegisProofKey (lr_metadata r)) as [proof|]; simpl default in E.
  - destruct (_ || _); [done|]. apply try_ok in E; [|repeat constructor; intros; by eexists].
    bind_inv E as c s2 w2 E2. unfold mret, M_ret in E. simplify_eq. eauto 10.
  - rewrite (bool_decide_true (""%string = ""%string)) in E by done.
    by rewrite orb_true_r in E.
Qed.

Lemma quiet_audit_rejection p r exc : quiet (audit_rejection (R := R) p r exc).
Proof. unfold audit_rejection, in_session, in_audit. hush. Qed.

Lemma quiet_guard p r m u :
  (forall j ttl, quiet (register_if_unused (R := R) j ttl)) -> quiet (outbound_guard (R := R) p r m u).
Proof.
  intros Hst. unfold outbound_guard, require_sender_constrained_request,
    validate_sender_constrained_token, validate_dpop_proof, proof_header, embedded_jwk, decode_now,
    check_proof_claims, validation_error, _public_pem_from_jwk, _curve_from_name, decode_number,
    getitem, in_session, in_audit.
  hush; try apply quiet_audit_rejection; try apply Hst.
Qed.

(** C23. Protected requests are bound to their sender.  Whatever comes of it, an
    adapter of the repository that is given a protected request sends at most one HTTP
    request (a POST, as all requests of the model are), to the URL of its outbound
    binding, and only after the session manager has validated the token in the request
    metadata as sender-constrained, with the proof in the metadata, for POST and that very
    URL; and it returns a completion only if it has sent that request.  The replay store
    itself is taken to send no HTTP request. *)
Theorem protected_request_bound a r s w :
  (forall j ttl, quiet (register_if_unused (R := R) j ttl)) ->
  repo_adapter a -> protected r = true ->
  exists url, outbound_request_binding a r = Some ("POST"%string, url) /\
    let '(res, (_, w')) := complete a r s w in
    (w_http w' = w_http w /\ exists e, res = Err e) \/
    exists q token proof claims sw,
      w_http w' = w_http w ++ [q] /\ hr_url q = url /\
      assoc AegisTokenKey (lr_metadata r) = Some token /\
      assoc AegisProofKey (lr_metadata r) = Some proof /\
      validate_sender_constrained_token token proof "POST" url None None (sh_session s) w
        = (Ok claims, sw).
Proof.
  intros Hst Ha Hp. destruct (complete_guarded a r Ha) as (url & k & Hb & -> & Hk).
  exists url. split; [exact Hb|]. unfold mbind, M_bind.
  pose proof (quiet_guard (provider_name a) r "POST" url Hst s w) as Hq.
  destruct (outbound_guard (provider_name a) r "POST" url s w) as [[un|e] [s1 w1]] eqn:Eg;
    cbn in Hq; [|left; eauto].
  destruct (Hk s1 w1) as (q & Hs & Hu). rewrite Hq in Hs.
  destruct (k s1 w1) as [res [s' w']]. right.
  unfold outbound_guard in Eg. bind_inv Eg as o s2 w2 E2. clear Eg.
  unfold try_except, in_session, zoom in E2.
  destruct (require_sender_constrained_request r "POST" url (sh_session s) w)
    as [[o'|e] [s3 w3]] eqn:Er.
  - destruct (require_ok _ _ _ _ _ _ _ Er Hp) as (token & proof & claims & Ht & Hpr & _ & Hv).
    exists q, token, proof, claims. eauto 10.
  - exfalso. cbn [dispatch] in E2. destruct (isinstance e AdapterSecurityError); [|done].
    bind_inv E2 as un2 s4 w4 E4. done.
Qed.

(** The refusal is audited, unless reading the token is interrupted. *)
Lemma audit_rejection_run p r exc s w :
  exists res s' w', audit_rejection p r exc s w = (res, (s', w')) /\
    match res with Ok _ => True | Err e => isinstance e Exception = false end.
Proof.
  unfold audit_rejection, mbind, M_bind.
  match goal with |- context [match ?m s w with _ => _ end] =>
    assert (Hm1 : exists x s1 w1, m s w = (x, (s1, w1)) /\
      match x with Ok _ => True | Err e => isinstance e Exception = false end) end.
  { case_bool_decide; [by do 3 eexists|]. unfold try_except.
    match goal with |- context [match ?m s w with _ => _ end] =>
      destruct (m s w) as [[x|e] [s1 w1]] end; [by do 3 eexists|]. cbn [dispatch].
    destruct (isinstance e Exception) eqn:Ee; by do 3 eexists. }
  destruct Hm1 as ([[t ag]|e] & s1 & w1 & -> & He); [|by do 3 eexists].
  unfold in_audit, zoom.
  destruct (stage_event_total
    (if match exn_cause exc with Some c => isinstance c DPoPReplayError | None => false end
     then "dpop.proof.replayed"%string else "dpop.proof.rejected"%string)
    "deny" "llm-invoke" t ag
    [("provider", JStr p); ("error_message", JStr (exn_str exc))]%string
    (sh_audit s1) w1) as (l' & w2 & ->). by do 3 eexists.
Qed.

(** A protected request without its token or its proof goes nowhere: the
    adapter sends no HTTP request and raises [AdapterSecurityError] (or the
    interruption, such as a cancellation, that hit it while it was reading
    the token for the audit event). *)
Theorem unbound_request_not_sent a r s w :
  repo_adapter a -> protected r = true ->
  assoc AegisTokenKey (lr_metadata r) = None \/ assoc AegisProofKey (lr_metadata r) = None ->
  exists e s' w', complete a r s w = (Err e, (s', w')) /\ w_http w' = w_http w /\
    (exn_class e = AdapterSecurityError \/ isinstance e Exception = false).
Proof.
  intros Ha Hp Hm. destruct (complete_guarded a r Ha) as (url & k & _ & -> & _).
  set (exc := Exn AdapterSecurityError
         ("Protected outbound LLM requests must include both aegis_token and "
          +:+ "aegis_dpop_proof metadata") None).
  assert (Er : require_sender_constrained_request r "POST" url (sh_session s) w
               = (Err exc, (sh_session s, w))).
  { unfold require_sender_constrained_request. rewrite Hp. simpl.
    destruct Hm as [-> | ->]; simpl default; rewrite (bool_decide_true (""%string = _)) by done;
      by rewrite ?orb_true_r. }
  pose proof (quiet_audit_rejection (provider_name a) r exc s w) as Hq.
  destruct (audit_rejection_run (provider_name a) r exc s w) as (res & s' & w' & Ea & Hres).
  rewrite Ea in Hq. unfold outbound_guard, in_session, zoom, try_except, mbind, M_bind.
  rewrite Er.
  assert (mkShared (sh_session s) (sh_audit s) = s) as -> by (by destruct s).
  cbn [dispatch]. change (isinstance exc AdapterSecurityError) with true. cbv beta iota.
  rewrite Ea. destruct res as [un|e]; do 3 eexists; (split; [reflexivity|]); auto.
Qed.
End theorems.
