(* ===== verification/Orchestrator.v ===== *)
(** * src/control_plane/orchestrator.py: the five-stage pipeline

    [run] is the method of the same name, cut at its stages.  The state is what
    the pipeline mutates: the session manager and audit logger shared with the
    adapter, the budget enforcer and the loop detector, each present or not.
    The final [logger.info] of the standard logging module (below its default
    level) is left out. *)
From Stdlib Require Import ZArith Lia Ascii String.
From stdpp Require Import base gmap strings list pretty.
From S2P Require Import Prelude PyDecimal PyUuid World Config AuditLogger BudgetEnforcer LoopDetector.
From S2P Require Import PyCrypto ReplayStore Regex Guardrails SessionMgr PolicyEngine Adapters.

Record OrchestratorRequest : Type := mkRequest {
  task_id : option UUID;
  prompt : string;
  or_agent_type : string;
  requester_id : string;
  session_token : option string;
  or_model_name : string;
  max_tokens : Z;
  temperature : json;
  system_prompt : string;
  or_metadata : list (string * string);
  protect_outbound_request : bool;
  budget_session_id : option UUID;
  cost_per_token : Decimal;
  loop_session_id : option UUID;
  loop_signal : LoopSignal;
  loop_token_delta : option Z
}.

Record OrchestratorResult : Type := mkOrchestratorResult {
  res_task_id : UUID;
  response : LLMResponse;
  res_session_token : string;
  sanitized_prompt : string;
  pii_found_in_prompt : list string;
  pii_found_in_response : list string
}.

Record OState (R : Type) : Type := mkOState {
  o_shared : Shared R;
  o_budget : option BudgetEnforcer;
  o_loop : option LoopDetector
}.
Arguments mkOState {R} _ _ _.
Arguments o_shared {R} _.
Arguments o_budget {R} _.
Arguments o_loop {R} _.

Definition on_shared {R A} (m : M (Shared R) A) : M (OState R) A :=
  zoom o_shared (fun t s => mkOState t (o_budget s) (o_loop s)) m.
Definition on_session {R A} (m : M (SessionManager R) A) : M (OState R) A :=
  on_shared (in_session m).
Definition on_audit {R A} (m : M AuditLogger A) : M (OState R) A := on_shared (in_audit m).

(** ** Spans *)

Definition _CONTROLLED_EXC : list exc_class :=
  [PolicyDeniedError; TokenExpiredError; TokenRevokedError; TokenScopeError; BudgetLimitError;
   LoopHaltError; LoopVelocityError; LoopApprovalError].
Definition controlled (e : exn) : bool := existsb (isinstance e) _CONTROLLED_EXC.

Section orchestrator.
Context `{Env} `{HasSettings} `{PyText} `{FloatRepr} `{Cryptography} `{Pydantic} `{Jose}.
Context `{UnicodeData} `{KeyGen}.
Context {R : Type} `{!ReplayStore R}.
Abbreviation OM := (M (OState R)).

Definition count_error (stage_key agent : string) : OM unit :=
  metric (CounterInc "aegis_orchestrator_errors_total"
            [("stage", stage_key); ("agent_type", agent)]%string 1).

Definition _stage_error_guard {A} (stage agent : string) (body : OM A) : OM A :=
  try_except body [(Exception, fun exc => count_error stage agent ;; raise exc)].

Definition _span_stage {A} (span_name stage_key agent task : string) (body : OM A) : OM A :=
  with_span span_name
    (span (SpanAttr span_name "task_id" (JStr task)) ;;
     span (SpanAttr span_name "agent_type" (JStr agent)) ;;
     try_except
       (x ← body;
        span (SpanAttr span_name "span.status" (JStr "OK")) ;;
        span (SpanStatusOk span_name) ;;
        mret x)
       [(Exception, fun exc =>
           span (SpanAttr span_name "span.status" (JStr "ERROR")) ;;
           span (SpanAttr span_name "error" (JBool true)) ;;
           span (SpanAttr span_name "error.message" (JStr (exn_str exc))) ;;
           span (SpanStatusError span_name (exn_str exc)) ;;
           span (SpanException span_name exc) ;;
           count_error stage_key agent ;;
           (if controlled exc then mret tt
            else on_audit (stage_event "stage.error" "error" span_name task agent None
                             [("error_message"%string, JStr (exn_str exc))])) ;;
           raise exc)]).

(** ** The stages *)

Section stages.
Variables (r : OrchestratorRequest) (task : UUID) (policy : PolicyEngine).
Let agent := or_agent_type r.
Let tid := uuid_str task.
Let who := ("requester_id"%string, JStr (requester_id r)).

Definition event (name outcome stage : string) (kw : list (string * json)) : OM unit :=
  on_audit (stage_event name outcome stage tid agent None kw).

(** Stage 1: prompt injection check and PII masking of the prompt. *)
Definition stage_pre_sanitize : OM (string * list string) :=
  _span_stage "pre-pii-scrub" "pre_pii_scrub" agent tid
    (check_prompt_injection (prompt r) ;;
     let pre_mask := mask_pii (prompt r) in
     let pii := found_types pre_mask in
     event "guardrails.pre_sanitize" (if bool_decide (pii = []) then "allow" else "redact")
       "pre-pii-scrub" [("pii_types"%string, jstrs pii)] ;;
     mret (mr_text pre_mask, pii)).

Definition policy_input : PolicyInput :=
  mkPolicyInput agent (requester_id r) "llm.complete" ("model:" +:+ or_model_name r)
    (or_metadata r) None false.

(** Stage 2: policy evaluation, deny unless explicitly allowed. *)
Definition stage_policy : OM PolicyResult :=
  _span_stage "policy-eval" "policy_eval" agent tid
    (policy_result ← try_except (evaluate policy "agent_access" policy_input)
       [(OpaUnavailableError, fun exc =>
           event "policy.opa_unavailable" "error" "policy-eval"
             [who; ("error_message"%string, JStr (exn_str exc))] ;;
           throw_from PolicyDeniedError "OPA unavailable – request denied (fail-closed)" exc)];
     if negb (allowed policy_result) || bool_decide (action policy_result = "reject"%string) then
       event "policy.denied" "deny" "policy-eval"
         [who; ("reasons"%string, jstrs (reasons policy_result))] ;;
       throw PolicyDeniedError ("OPA denied request for agent_type=" +:+ repr_str agent +:+ ": "
                                +:+ py_repr (jstrs (reasons policy_result)))
     else
       event "policy.allowed" "allow" "policy-eval" [] ;;
       mret policy_result).

(** [for field in fields: if field == "prompt": ...] *)
Fixpoint mask_fields (fs : list string) (p : string) (pii : list string)
    : string * list string :=
  match fs with
  | [] => (p, pii)
  | f :: fs =>
      if bool_decide (f = "prompt"%string) then
        let m := scrub p in
        mask_fields fs (mr_text m)
          (fold_left (fun acc t => if bool_decide (t ∈ acc) then acc else acc ++ [t])
             (found_types m) pii)
      else mask_fields fs p pii
  end.

(** Stage 2b: re-scrub the fields the policy asks to mask. *)
Definition stage_mask (pr : PolicyResult) (p : string) (pii : list string)
    : OM (string * list string) :=
  if bool_decide (action pr = "mask"%string) then
    _span_stage "policy-mask" "policy_mask" agent tid
      (let '(p', pii') := mask_fields (fields pr) p pii in
       event "policy.mask_applied" "redact" "policy-eval" [("fields"%string, jstrs (fields pr))] ;;
       mret (p', pii'))
  else mret (p, pii).

(** Stage 3, first branch: the caller's token. *)
Definition accept_token (token : string) : OM unit :=
  claims ← try_except (on_session (validate_token token))
    [(TokenExpiredError, fun exc =>
        event "token.expired" "deny" "jit-token-issue" [who] ;;
        throw_from TokenExpiredError "Session token has expired" exc);
     (TokenRevokedError, fun exc =>
        event "token.revoked" "deny" "jit-token-issue" [who] ;;
        throw_from PermissionError "Session token has been revoked" exc);
     (JWTError, fun exc => raise exc)];
  expired ← on_session (is_expired claims);
  if (expired : bool) then
    event "token.expired" "deny" "jit-token-issue" [who] ;;
    throw TokenExpiredError "Session token has expired"
  else if negb (bool_decide (tc_agent_type claims = agent)) then
    event "token.scope_violation" "deny" "jit-token-issue" [who] ;;
    throw TokenScopeError ("Token is scoped to agent_type=" +:+ repr_str (tc_agent_type claims)
                           +:+ " but request declares agent_type=" +:+ repr_str agent)
  else event "token.validated" "allow" "jit-token-issue" [].

(** Stage 3, second branch: a fresh token. *)
Definition fresh_token : OM string :=
  token ← on_session (issue_token (mkTokenRequest agent (requester_id r) (Some (or_metadata r))
             None None None None None (Some tid) None));
  issued ← on_session (validate_token token);
  event "token.issued" "allow" "jit-token-issue" [("jti"%string, JStr (jti issued)); who] ;;
  mret token.

(** Stage 3, protected flows: a token bound to a new key, and its proof. *)
Definition bind_token (name : string) (binding : option (string * string))
    : OM (string * string) :=
  match binding with
  | None => throw ValueError ("Adapter " +:+ repr_str name +:+ " does not expose an outbound "
                              +:+ "request binding for protected flows")
  | Some (http_method, http_url) =>
      k ← (fun s w => (Ok (draw_key w), (s, w)));
      let '(pem0, x, y) := (k : string * Z * Z) in
      '(pem, public_jwk) ← on_session (generate_dpop_key_pair pem0 x y);
      token ← on_session (issue_sender_constrained_token
                (mkTokenRequest agent (requester_id r) (Some (or_metadata r)) None
                   (Some ["llm.invoke"%string]) None None (Some ("adapter:" +:+ tid))
                   (Some tid) None) public_jwk);
      proof ← on_session (issue_dpop_proof pem public_jwk http_method http_url (Some token)
                None None None);
      claims ← on_session (validate_token token);
      event "token.sender_constrained_issued" "allow" "jit-token-issue"
        [("jti"%string, JStr (jti claims)); who] ;;
      mret (token, proof)
  end.

Definition llm_request (p : string) (metadata : list (string * string)) : LLMRequest :=
  mkLLMRequest p (or_model_name r) (max_tokens r) (temperature r) (system_prompt r) metadata.

(** Stage 3: the token of the session, the token for the adapter and the
    proof of possession, if any. *)
Definition stage_token (name : string) (binding : LLMRequest -> option (string * string))
    (p : string) : OM (string * string * option string) :=
  _span_stage "jit-token-issue" "jit_token_issue" agent tid
    (token ← (if match session_token r with
                 | Some t => negb (bool_decide (t = ""%string)) | None => false end
              then let t := default ""%string (session_token r) in accept_token t ;; mret t
              else fresh_token);
     if protect_outbound_request r then
       '(adapter_token, proof) ←
         bind_token name (binding (llm_request p [(AegisTokenKey, token)]));
       mret (token, adapter_token, Some proof)
     else mret (token, token, None)).

(** Stage 3.5: refuse when the budget is already exhausted. *)
Definition stage_budget_check : OM unit :=
  st ← get;
  match o_budget st, budget_session_id r with
  | Some b, Some sid =>
      _span_stage "watchdog.pre-llm" "watchdog_pre" agent tid
        (try_except (zoom (fun s => default b (o_budget s))
                       (fun t s => mkOState (o_shared s) (Some t) (o_loop s)) (check_budget sid))
           [(BudgetExceededError, fun exc =>
               event "budget.exceeded" "deny" "watchdog.pre-llm"
                 [("budget_session_id", JStr (uuid_str sid));
                  ("error_message", JStr (exn_str exc))]%string ;;
               throw_from BudgetLimitError (exn_str exc) exc)] ;;
         event "budget.pre_check" "allow" "watchdog.pre-llm"
           [("budget_session_id"%string, JStr (uuid_str sid))])
  | _, _ => mret tt
  end.

(** Stage 4: the completion, with the token in the request metadata. *)
Definition llm_metadata (adapter_token : string) (proof : option string)
    : list (string * string) :=
  (AegisTokenKey, adapter_token)
  :: match proof with
     | Some p => [(AegisProofKey, p); (AegisProtectedKey, "true"%string)]
     | None => []
     end.

Definition stage_llm (complete : LLMRequest -> M (Shared R) LLMResponse)
    (p adapter_token : string) (proof : option string) : OM LLMResponse :=
  _span_stage "llm-invoke" "llm_invoke" agent tid
    (resp ← on_shared (complete (llm_request p (llm_metadata adapter_token proof)));
     event "llm.completed" "allow" "llm-invoke"
       [("model", JStr (or_model_name r)); ("tokens_used", JInt (ls_tokens_used resp))]%string ;;
     mret resp).

(** Stage 4.5: debit the actual cost. *)
Definition stage_spend (resp : LLMResponse) : OM unit :=
  st ← get;
  match o_budget st, budget_session_id r with
  | Some b, Some sid =>
      _span_stage "watchdog.record-spend" "watchdog_record" agent tid
        (let spend := dec_mul (dec_of_int (ls_tokens_used resp)) (cost_per_token r) in
         try_except (zoom (fun s => default b (o_budget s))
                       (fun t s => mkOState (o_shared s) (Some t) (o_loop s))
                       (record_spend sid spend None) ;; mret tt)
           [(BudgetExceededError, fun exc =>
               event "budget.exceeded_on_record" "deny" "watchdog.record-spend"
                 [("error_message"%string, JStr (exn_str exc))] ;;
               throw_from BudgetLimitError (exn_str exc) exc)] ;;
         event "budget.spend_recorded" "allow" "watchdog.record-spend" [])
  | _, _ => mret tt
  end.

(** Stage 4.6: record the step in the loop detector. *)
Definition stage_loop (resp : LLMResponse) : OM unit :=
  st ← get;
  match o_loop st, loop_session_id r with
  | Some d, Some sid =>
      _span_stage "watchdog.loop-detect" "watchdog_loop" agent tid
        (let halt (name : string) (cls : exc_class) (exc : exn) : OM unit :=
           event name "deny" "watchdog.loop-detect"
             [("error_message"%string, JStr (exn_str exc))] ;;
           throw_from cls (exn_str exc) exc in
         let delta := default (ls_tokens_used resp) (loop_token_delta r) in
         try_except (zoom (fun s => default d (o_loop s))
                       (fun t s => mkOState (o_shared s) (o_budget s) (Some t))
                       (record_step sid delta (loop_signal r) "") ;; mret tt)
           [(LoopDetectedError, halt "loop.halted"%string LoopHaltError);
            (TokenVelocityError, halt "loop.velocity_exceeded"%string LoopVelocityError);
            (PendingApprovalError, halt "loop.pending_approval"%string LoopApprovalError)] ;;
         event "loop.step_recorded" "allow" "watchdog.loop-detect" [])
  | _, _ => mret tt
  end.

(** Stage 5: mask the response. *)
Definition stage_post_sanitize (resp : LLMResponse) : OM (LLMResponse * list string) :=
  _span_stage "post-sanitize" "post_sanitize" agent tid
    (let post_mask := mask_pii (content resp) in
     let pii := found_types post_mask in
     event "guardrails.post_sanitize" (if bool_decide (pii = []) then "allow" else "redact")
       "post-sanitize" [("pii_types"%string, jstrs pii)] ;;
     mret (mkLLMResponse (mr_text post_mask) (ls_tokens_used resp) (ls_model resp)
             (ls_provider resp) (finish_reason resp), pii)).
End stages.

(** Everything before the adapter is called: the prompt, the PII types, the
    session token, the adapter token and the proof. *)
Definition before_llm (r : OrchestratorRequest) (task : UUID) (policy : PolicyEngine)
    (name : string) (binding : LLMRequest -> option (string * string))
    : OM (string * list string * string * string * option string) :=
  '(p, pii) ← stage_pre_sanitize r task;
  policy_result ← stage_policy r task policy;
  '(p, pii) ← stage_mask r task policy_result p pii;
  '(token, adapter_token, proof) ← stage_token r task name binding p;
  stage_budget_check r task ;;
  mret (p, pii, token, adapter_token, proof).

Definition run (policy : PolicyEngine) (adapter : BaseAdapter R) (r : OrchestratorRequest)
    : OM OrchestratorResult :=
  match task_id r with
  | None => throw MissingTaskIdError
              ("task_id must not be None — every pipeline request requires "
               +:+ "a unique task identifier for audit correlation")
  | Some task =>
      with_span "orchestrator.run"
        (span (SpanAttr "orchestrator.run" "task_id" (JStr (uuid_str task))) ;;
         span (SpanAttr "orchestrator.run" "agent_type" (JStr (or_agent_type r))) ;;
         span (SpanAttr "orchestrator.run" "requester_id" (JStr (requester_id r))) ;;
         '(p, pii, token, adapter_token, proof) ←
           before_llm r task policy (provider_name adapter) (outbound_request_binding adapter);
         resp ← stage_llm r task (complete adapter) p adapter_token proof;
         stage_spend r task resp ;;
         stage_loop r task resp ;;
         '(final, pii_resp) ← stage_post_sanitize r task resp;
         mret (mkOrchestratorResult task final token p pii pii_resp))
  end.
End orchestrator.

(** ** Worlds up to spans *)

(** Equal but for the spans opened and closed. *)
Definition span_eq (w1 w2 : World) : Prop :=
  w_log w1 = w_log w2 /\ w_metrics w1 = w_metrics w2 /\ w_http w1 = w_http w2 /\
  w_clock w1 = w_clock w2 /\ w_utc w1 = w_utc w2 /\ w_uuids w1 = w_uuids w2.
#[global] Instance span_eq_equiv : Equivalence span_eq.
Proof.
  split.
  - by intros w.
  - intros w1 w2 (? & ? & ? & ? & ? & ?). by split_and!.
  - intros w1 w2 w3 (? & ? & ? & ? & ? & ?) (? & ? & ? & ? & ? & ?). split_and!; congruence.
Qed.
Lemma span_eq_add c w : span_eq (w_add_span c w) w.
Proof. by split_and!. Qed.
#[global] Instance w_log_proper : Proper (span_eq ==> eq) w_log.
Proof. by intros w1 w2 (? & _). Qed.
#[global] Instance w_http_proper : Proper (span_eq ==> eq) w_http.
Proof. by intros w1 w2 (_ & _ & ? & _). Qed.

Section theorems.
Context `{Env} `{HasSettings} `{PyText} `{FloatRepr} `{Cryptography} `{Pydantic} `{Jose}.
Context `{UnicodeData} `{KeyGen}.
Context {R : Type} `{!ReplayStore R}.
Implicit Types (s : OState R) (w : World) (r : OrchestratorRequest).

(** Pass a bind whose first computation only records a span. *)
Ltac skip_span H :=
  let E := fresh "E" in
  apply bind_ok in H as (? & ? & ? & E & H); unfold span, set_world in E; simplify_eq/=.

(** A stage that returns ran its body to the same result, up to spans. *)
Lemma span_stage_ok {A} n k ag t (body : M (OState R) A) s w x s' w' :
  _span_stage n k ag t body s w = (Ok x, (s', w')) ->
  exists w1 w2, body s w1 = (Ok x, (s', w2)) /\ span_eq w1 w /\ span_eq w2 w'.
Proof.
  unfold _span_stage, with_span. intros E.
  match type of E with (let '(_, _) := ?m in _) = _ =>
    destruct m as [res [s1 w1]] eqn:Em end.
  injection E as -> -> <-.
  do 2 skip_span Em.
  unfold try_except in Em.
  match type of Em with context [(body ≫= ?k) ?s0 ?w0] =>
    destruct ((body ≫= k) s0 w0) as [[y|e] [s2 w2]] eqn:Eb end.
  - simplify_eq. bind_inv Eb as y s3 w3 E3. do 2 skip_span Eb.
    unfold mret, M_ret in Eb. simplify_eq/=.
    do 2 eexists. split; [exact E3|]. by split.
  - exfalso. cbn [dispatch] in Em. destruct (isinstance e Exception); [|done].
    do 7 (apply bind_ok in Em as (? & ? & ? & _ & Em)). done.
Qed.

(** An audit event of the pipeline: one more line with its name, level,
    outcome and task, after at most one clock-skew warning; nothing but the
    audit logger changes. *)
Lemma on_audit_emits e o st t a kw s w :
  exists l w' pre fs,
    on_audit (stage_event e o st t a None kw) s w
    = (Ok tt, (mkOState (mkShared (sh_session (o_shared s)) l) (o_budget s) (o_loop s), w')) /\
    w_log w' = w_log w ++ pre ++ [mkEntry (outcome_level o) e fs] /\
    (length pre <= 1)%nat /\ log_only w w' /\
    ("outcome"%string ∉ kw.*1 -> assoc "outcome" fs = Some (JStr o)) /\
    ("stage"%string ∉ kw.*1 -> assoc "stage" fs = Some (JStr st)) /\
    ("task_id"%string ∉ kw.*1 -> assoc "task_id" fs = Some (JStr t)).
Proof.
  destruct (stage_event_emits e o st t a kw (sh_audit (o_shared s)) w)
    as (l' & w' & pre & fs & E & Hrest).
  exists l', w', pre, fs. split; [|exact Hrest].
  unfold on_audit, on_shared, in_audit, zoom. by rewrite E.
Qed.

(** The world in which the body of a stage starts. *)
Definition stage_world (n ag t : string) (w : World) : World :=
  w_add_span (SpanAttr n "agent_type" (JStr ag))
    (w_add_span (SpanAttr n "task_id" (JStr t)) (w_add_span (SpanStart n) w)).

Lemma stage_failure {A} n k ag t (body : M (OState R) A) s w e s1 w1 :
  body s (stage_world n ag t w) = (Err e, (s1, w1)) ->
  exists s' w', _span_stage n k ag t body s w = (Err e, (s', w')) /\
    o_budget s' = o_budget s1 /\ o_loop s' = o_loop s1 /\
    sh_session (o_shared s') = sh_session (o_shared s1) /\ w_http w' = w_http w1 /\
    w_metrics w' = w_metrics w1 ++
      (if isinstance e Exception
       then [CounterInc "aegis_orchestrator_errors_total"
               [("stage", k); ("agent_type", ag)]%string 1] else []) /\
    if isinstance e Exception && negb (controlled e)
    then exists pre fs, (length pre <= 1)%nat /\
           w_log w' = w_log w1 ++ pre ++ [mkEntry Error "stage.error" fs] /\
           assoc "stage" fs = Some (JStr n) /\ assoc "task_id" fs = Some (JStr t) /\
           assoc "outcome" fs = Some (JStr "error")
    else w_log w' = w_log w1.
Proof.
  intros Hb. unfold _span_stage, with_span.
  unfold mbind at 1 2, M_bind at 1 2, span at 1 2, set_world at 1 2, try_except.
  unfold mbind at 1, M_bind at 1. unfold stage_world in Hb. rewrite Hb. cbn [dispatch].
  destruct (isinstance e Exception); simpl andb; cbv iota.
  - unfold count_error, metric, span, set_world, mbind, M_bind. destruct (controlled e); simpl.
    + do 2 eexists. split; [reflexivity|]. by split_and!.
    + match goal with |- context [on_audit (stage_event ?e1 ?o ?st ?t1 ?a None ?kw) ?s0 ?w0] =>
        destruct (on_audit_emits e1 o st t1 a kw s0 w0)
          as (l & w' & pre & fs & E & Hl & Hlen & Hw & Ho & Hst & Ht) end.
      rewrite E. do 2 eexists. split; [reflexivity|]. destruct Hw as (Hm & Hh & _ & _).
      split_and!; try done. exists pre, fs.
      split_and!; [done|exact Hl|apply Hst|apply Ht|apply Ho]; simpl;
        by rewrite list_elem_of_singleton.
  - do 2 eexists. split; [reflexivity|]. rewrite app_nil_r. by split_and!.
Qed.

Lemma span_stage_err {A} n k ag t (body : M (OState R) A) s w e s1 w1 :
  body s (stage_world n ag t w) = (Err e, (s1, w1)) ->
  exists s' w', _span_stage n k ag t body s w = (Err e, (s', w')).
Proof.
  intros Hb. destruct (stage_failure n k ag t body s w e s1 w1 Hb) as (s' & w' & E & _). eauto.
Qed.

(** Nothing the token stage looks at has changed: the session manager is the same, and
    no request was sent and no clock read. *)
Definition untouched (s : OState R) w (s' : OState R) w' : Prop :=
  sh_session (o_shared s') = sh_session (o_shared s) /\ w_http w' = w_http w /\
  w_clock w' = w_clock w.
Lemma untouched_trans s w s1 w1 s2 w2 :
  untouched s w s1 w1 -> untouched s1 w1 s2 w2 -> untouched s w s2 w2.
Proof. intros (? & ? & ?) (? & ? & ?). split_and!; congruence. Qed.
Lemma untouched_spans s w w1 s' w2 w' :
  span_eq w1 w -> span_eq w2 w' -> untouched s w1 s' w2 -> untouched s w s' w'.
Proof.
  intros (_ & _ & ? & ? & _) (_ & _ & ? & ? & _) (? & ? & ?). split_and!; congruence.
Qed.

Lemma event_ok r task name o st kw s w x s' w' :
  event r task name o st kw s w = (Ok x, (s', w')) ->
  untouched s w s' w' /\ o_budget s' = o_budget s /\ o_loop s' = o_loop s.
Proof.
  unfold event. destruct (on_audit_emits name o st (uuid_str task) (or_agent_type r) kw s w)
    as (l & w1 & pre & fs & -> & _ & _ & (_ & Hh & Hc & _) & _).
  intros E. by simplify_eq.
Qed.

(** Stage 1 returns only on a prompt without injection, masked. *)
Lemma stage_pre_sanitize_ok r task s w p pii s' w' :
  stage_pre_sanitize r task s w = (Ok (p, pii), (s', w')) ->
  Forall (fun q => ~ occurs q.2 (points (prompt r))) _INJECTION_PATTERNS /\
  p = mr_text (mask_pii (prompt r)) /\ pii = found_types (mask_pii (prompt r)) /\
  untouched s w s' w'.
Proof.
  intros E. apply span_stage_ok in E as (w1 & w2 & E & Hw1 & Hw2).
  bind_inv E as un s1 w3 E1. destruct un.
  apply check_prompt_injection_ok in E1 as [[= -> ->] Hf].
  bind_inv E as un s2 w4 E2. apply event_ok in E2 as (Hh & _).
  unfold mret, M_ret in E. simplify_eq. split_and!; try done.
  exact (untouched_spans _ _ _ _ _ _ Hw1 Hw2 Hh).
Qed.

(** Stage 2 returns only when OPA granted the request. *)
Lemma stage_policy_ok r task policy s w pr s' w' :
  stage_policy r task policy s w = (Ok pr, (s', w')) ->
  allowed pr = true /\ action pr <> "reject"%string /\
  (evaluate policy "agent_access" (policy_input r) s w).1 = Ok pr /\
  (exists resp body, opa_answer policy "agent_access" (policy_input r) w = Ok resp /\
     hs_json resp = Ok body /\ grants body) /\
  sh_session (o_shared s') = sh_session (o_shared s) /\ w_clock w' = w_clock w.
Proof.
  intros E. apply span_stage_ok in E as (w1 & w2 & E & Hw1 & Hw2).
  bind_inv E as d s1 w3 E1. unfold try_except in E1.
  pose proof (evaluate_run policy "agent_access" (policy_input r) s w1) as Hev.
  pose proof (evaluate_clock policy "agent_access" (policy_input r) s w1) as Hck.
  rewrite (evaluate_same policy _ _ s s w w1) by (by rewrite Hw1).
  destruct (evaluate policy "agent_access" (policy_input r) s w1) as [[d'|exc] [s2 w4]] eqn:Ee.
  - simplify_eq. destruct (negb (allowed d) || bool_decide (action d = "reject"%string)) eqn:Ed.
    { bind_inv E as un s3 w5 E3. done. }
    bind_inv E as un s3 w5 E3. unfold mret, M_ret in E. simplify_eq. bool_to_prop.
    destruct Hev as (-> & _ & resp & body & Ho & Hb & Hg). apply event_ok in E3 as ((Hs & _ & Hc) & _).
    split_and!; try done; [|by destruct Hw1 as (_ & _ & _ & Hw1 & _), Hw2 as (_ & _ & _ & Hw2 & _);
                             cbn in Hck; congruence].
    exists resp, body. split_and!; [|done|by apply Hg].
    unfold opa_answer in *. by rewrite <- Hw1.
  - exfalso. cbn [dispatch] in E1. destruct (isinstance exc OpaUnavailableError); [|done].
    bind_inv E1 as un s3 w5 E3. done.
Qed.

(** The caller's token is used only if it validates, for this agent type, and
    has not expired. *)
Lemma accept_token_ok r task t s w s' w' :
  accept_token r task t s w = (Ok tt, (s', w')) ->
  exists claims st w2, validate_token t (sh_session (o_shared s)) w = (Ok claims, (st, w2)) /\
    tc_agent_type claims = or_agent_type r /\ clock (w_clock w2) <= expires_at claims.
Proof.
  unfold accept_token. intros E. bind_inv E as claims s1 w1 E1.
  unfold try_except, on_session, on_shared, in_session, zoom in E1.
  destruct (validate_token t (sh_session (o_shared s)) w) as [[c|exc] [st w2]] eqn:Ev.
  - simplify_eq. bind_inv E as ex s2 w3 E2.
    unfold is_expired, on_session, on_shared, in_session, zoom, mbind, M_bind, time_time in E2.
    simpl in E2. simplify_eq. destruct (Z.ltb_spec (expires_at claims) (clock (w_clock w1))).
    { bind_inv E as un s3 w4 E3. done. }
    case_bool_decide; simpl in E; [|bind_inv E as un s3 w4 E3; done]. eauto 10.
  - exfalso. cbn [dispatch] in E1.
    destruct (isinstance exc TokenExpiredError); [bind_inv E1 as un s2 w3 E2; done|].
    destruct (isinstance exc TokenRevokedError); [bind_inv E1 as un s2 w3 E2; done|].
    by destruct (isinstance exc JWTError).
Qed.

Definition presented (r : OrchestratorRequest) (t : string) : Prop :=
  session_token r = Some t /\ t <> ""%string.

(** The manager validates the token, at the clock of [w], for the agent type of the
    request, and it has not expired when the clock is read again. *)
Definition token_valid (r : OrchestratorRequest) (t : string) (sm : SessionManager R) (n : nat)
    : Prop :=
  exists claims w1 st w2, w_clock w1 = n /\ validate_token t sm w1 = (Ok claims, (st, w2)) /\
    tc_agent_type claims = or_agent_type r /\ clock (w_clock w2) <= expires_at claims.

Lemma stage_token_ok r task name binding p s w token tok proof s' w' :
  stage_token r task name binding p s w = (Ok (token, tok, proof), (s', w')) ->
  (forall t, presented r t ->
     token = t /\ token_valid r t (sh_session (o_shared s)) (w_clock w)) /\
  (protect_outbound_request r = true -> is_Some proof).
Proof.
  intros E. apply span_stage_ok in E as (w1 & w2 & E & (_ & _ & _ & Hc & _) & _).
  bind_inv E as token' s1 w3 E1. split.
  - intros t [Ht Hne]. rewrite Ht, bool_decide_false in E1 by done. simpl in E1.
    bind_inv E1 as un s2 w4 E2. destruct un. unfold mret, M_ret in E1. simplify_eq.
    split; [|apply accept_token_ok in E2 as (c & st & w5 & ? & ? & ?); by exists c, w1, st, w5].
    destruct (protect_outbound_request r).
    + bind_inv E as x s3 w5 E3. destruct x. unfold mret, M_ret in E. by simplify_eq.
    + unfold mret, M_ret in E. by simplify_eq.
  - intros Hp. rewrite Hp in E. bind_inv E as x s3 w5 E3. destruct x.
    unfold mret, M_ret in E. simplify_eq. eauto.
Qed.

(** The prompt and the PII types after the policy's mask instruction. *)
Definition prompt_after_mask (r : OrchestratorRequest) (pr : PolicyResult) : string * list string :=
  let m := mask_pii (prompt r) in
  if bool_decide (action pr = "mask"%string)
  then mask_fields (fields pr) (mr_text m) (found_types m)
  else (mr_text m, found_types m).

Lemma stage_mask_ok r task pr p pii s w p' pii' s' w' :
  stage_mask r task pr p pii s w = (Ok (p', pii'), (s', w')) ->
  (p', pii') = (if bool_decide (action pr = "mask"%string) then mask_fields (fields pr) p pii
                else (p, pii)) /\ untouched s w s' w'.
Proof.
  unfold stage_mask. case_bool_decide; intros E; [|unfold mret, M_ret in E; by simplify_eq].
  apply span_stage_ok in E as (w1 & w2 & E & Hw1 & Hw2).
  destruct (mask_fields (fields pr) p pii) as [p1 pii1].
  bind_inv E as un s1 w3 E1. unfold mret, M_ret in E. simplify_eq. apply event_ok in E1 as (Hu & _).
  split; [done|]. exact (untouched_spans _ _ _ _ _ _ Hw1 Hw2 Hu).
Qed.

(** The world after the root span of a run has been opened. *)
Definition root_world (r : OrchestratorRequest) (task : UUID) (w : World) : World :=
  let n := "orchestrator.run"%string in
  w_add_span (SpanAttr n "requester_id" (JStr (requester_id r)))
    (w_add_span (SpanAttr n "agent_type" (JStr (or_agent_type r)))
      (w_add_span (SpanAttr n "task_id" (JStr (uuid_str task))) (w_add_span (SpanStart n) w))).

(** The body of a stage that returns, in the world where it starts. *)
Lemma span_stage_at {A} n k ag t (body : M (OState R) A) s w x s' w' :
  _span_stage n k ag t body s w = (Ok x, (s', w')) ->
  exists w2, body s (stage_world n ag t w) = (Ok x, (s', w2)).
Proof.
  intros E. destruct (body s (stage_world n ag t w)) as [[y|e] [s1 w1]] eqn:Eb.
  - exists w1. revert E. unfold _span_stage, with_span, try_except.
    unfold mbind at 1 2 3, M_bind at 1 2 3, span at 1 2, set_world at 1 2.
    unfold stage_world in Eb. rewrite Eb. unfold mbind, M_bind, span, set_world, mret, M_ret.
    by intros [= <- <- <-].
  - destruct (span_stage_err n k ag t body s w e s1 w1 Eb) as (s2 & w2 & Ee). congruence.
Qed.

Lemma stage_llm_ok r task (c : LLMRequest -> M (Shared R) LLMResponse) p tok proof s w resp s' w' :
  stage_llm r task c p tok proof s w = (Ok resp, (s', w')) ->
  exists sw, c (llm_request r p (llm_metadata tok proof)) (o_shared s)
    (stage_world "llm-invoke" (or_agent_type r) (uuid_str task) w) = (Ok resp, sw).
Proof.
  intros E. apply span_stage_at in E as [w2 E]. bind_inv E as resp' s1 w1 E1.
  bind_inv E as un s2 w3 E2. unfold mret, M_ret in E. simplify_eq.
  unfold on_shared, zoom in E1. destruct (c _ _ _) as [x [sh wc]]. simplify_eq. by eexists.
Qed.

Lemma stage_post_ok r task resp s w final pii s' w' :
  stage_post_sanitize r task resp s w = (Ok (final, pii), (s', w')) ->
  content final = mr_text (mask_pii (content resp)) /\ pii = found_types (mask_pii (content resp)).
Proof.
  intros E. apply span_stage_at in E as [w2 E]. bind_inv E as un s1 w1 E1.
  unfold mret, M_ret in E. by simplify_eq.
Qed.

(** What has been checked when the stages before the adapter let a request through:
    the prompt that goes on, the PII types, the session token and the proof. *)
Definition cleared policy r s w (p : string) (pii : list string) (token : string)
    (proof : option string) : Prop :=
  Forall (fun q => ~ occurs q.2 (points (prompt r))) _INJECTION_PATTERNS /\
  (exists pr resp body,
     (evaluate policy "agent_access" (policy_input r) s w).1 = Ok pr /\
     opa_answer policy "agent_access" (policy_input r) w = Ok resp /\ hs_json resp = Ok body /\
     grants body /\ action pr <> "reject"%string /\ (p, pii) = prompt_after_mask r pr) /\
  (forall t, presented r t -> token = t /\ token_valid r t (sh_session (o_shared s)) (w_clock w)) /\
  (protect_outbound_request r = true -> is_Some proof).

Lemma cleared_spans policy r s w w' p pii token proof :
  span_eq w w' -> cleared policy r s w p pii token proof -> cleared policy r s w' p pii token proof.
Proof.
  intros (_ & _ & Hh & Hc & _) (Hi & (pr & resp & body & He & Ho & Hrest) & Ht & Hp).
  split; [done|]. split; [|split; [by rewrite <- Hc|done]]. exists pr, resp, body.
  rewrite (evaluate_same policy _ _ s s w' w) by done. unfold opa_answer in *. by rewrite <- Hh.
Qed.

Lemma before_llm_ok r task policy name binding s w p pii token tok proof s' w' :
  before_llm r task policy name binding s w = (Ok (p, pii, token, tok, proof), (s', w')) ->
  cleared policy r s w p pii token proof.
Proof.
  intros E. unfold before_llm in E. bind_inv E as y s7 w7 E7. destruct y as [p0 pii0].
  bind_inv E as pr s8 w8 E8. bind_inv E as y s9 w9 E9. destruct y as [p1 pii1].
  bind_inv E as y s10 w10 E10. destruct y as [[token1 tok1] proof1].
  bind_inv E as u3 s11 w11 E11. unfold mret, M_ret in E. simplify_eq.
  apply stage_pre_sanitize_ok in E7 as (Hinj & -> & -> & Hs7 & Hh7 & Hc7).
  apply stage_policy_ok in E8 as (_ & Hact & Hev & (resp & body & Ho & Hb & Hg) & Hs8 & Hc8).
  apply stage_mask_ok in E9 as (Hm & Hs9 & _ & Hc9). apply stage_token_ok in E10 as [Htok Hprot].
  split; [done|]. split; [|split; [|done]].
  - exists pr, resp, body. unfold opa_answer in *. rewrite Hh7 in Ho.
    rewrite (evaluate_same policy _ _ s s7 w w7) by done. by split_and!.
  - rewrite Hs9, Hs8, Hs7, Hc9, Hc8, Hc7 in Htok. exact Htok.
Qed.

Definition same_face (a a' : BaseAdapter R) : Prop :=
  provider_name a' = provider_name a /\ outbound_request_binding a' = outbound_request_binding a.

(** The run consults the adapter's [complete] at one point only, the request [q] in the
    state [sh] and world [w1]: it is the same run for every adapter that answers as [a]
    does there (and has its name and binding). *)
Definition consults_once policy (a : BaseAdapter R) r s w q sh w1 : Prop :=
  forall a', same_face a a' -> complete a' q sh w1 = complete a q sh w1 ->
    run policy a' r s w = run policy a r s w.

Lemma stage_llm_at r task (c c' : LLMRequest -> M (Shared R) LLMResponse) p tok proof s w :
  let q := llm_request r p (llm_metadata tok proof) in
  let w1 := stage_world "llm-invoke" (or_agent_type r) (uuid_str task) w in
  c' q (o_shared s) w1 = c q (o_shared s) w1 ->
  stage_llm r task c' p tok proof s w = stage_llm r task c p tok proof s w.
Proof.
  intros q w1 Hc. unfold stage_llm, _span_stage, with_span, try_except, on_shared, zoom.
  unfold mbind, M_bind, span, set_world. fold q. unfold w1, stage_world in Hc. by rewrite Hc.
Qed.

(** A run either stops before the adapter, or was cleared and consults it once. *)
Lemma run_adapter policy (a : BaseAdapter R) r s w :
  (forall a', same_face a a' -> run policy a' r s w = run policy a r s w) /\
  (forall res s' w', run policy a r s w <> (Ok res, (s', w')))
  \/ exists p pii token tok proof sh w1,
       cleared policy r s w p pii token proof /\
       let q := llm_request r p (llm_metadata tok proof) in
       consults_once policy a r s w q sh w1 /\
       (forall res s' w', run policy a r s w = (Ok res, (s', w')) ->
          sanitized_prompt res = p /\ pii_found_in_prompt res = pii /\
          res_session_token res = token /\
          exists resp sw, complete a q sh w1 = (Ok resp, sw) /\
            content (response res) = mr_text (mask_pii (content resp)) /\
            pii_found_in_response res = found_types (mask_pii (content resp))).
Proof.
  destruct (task_id r) as [task|] eqn:Ht; [|left; unfold run; rewrite Ht; by split].
  assert (Hrun : forall a', same_face a a' -> run policy a' r s w
    = let '(x, (s1, w1)) := before_llm r task policy (provider_name a) (outbound_request_binding a)
                              s (root_world r task w) in
      let '(res, (s2, w2)) := match x with
        | Err e => (Err e, (s1, w1))
        | Ok (p, pii, token, tok, proof) =>
            (resp ← stage_llm r task (complete a') p tok proof;
             stage_spend r task resp ;; stage_loop r task resp ;;
             '(final, pii_resp) ← stage_post_sanitize r task resp;
             mret (mkOrchestratorResult task final token p pii pii_resp)) s1 w1
        end in (res, (s2, w_add_span (SpanEnd "orchestrator.run") w2))).
  { intros a' [Hn Hb]. unfold run. rewrite Ht, Hn, Hb. unfold with_span.
    unfold mbind at 1 2 3 4, M_bind at 1 2 3 4, span, set_world. fold (root_world r task w).
    unfold root_world. destruct (before_llm _ _ _ _ _ _ _) as [[[[[[p pii] tk] tok] pf]|e] [s1 w1]];
      reflexivity. }
  assert (Hself : same_face a a) by done.
  destruct (before_llm r task policy _ _ s (root_world r task w))
    as [[[[[[p pii] token] tok] proof]|e] [s1 w1]] eqn:Eb.
  - right. exists p, pii, token, tok, proof, (o_shared s1),
      (stage_world "llm-invoke" (or_agent_type r) (uuid_str task) w1).
    split; [|cbv zeta; split].
    { eapply cleared_spans; [|exact (before_llm_ok _ _ _ _ _ _ _ _ _ _ _ _ _ _ Eb)]. by split_and!. }
    + intros a' Ha' Hc. rewrite !Hrun by done. unfold mbind at 1 5, M_bind at 1 5.
      by rewrite (stage_llm_at r task (complete a) (complete a') p tok proof s1 w1 Hc).
    + intros res s' w' E. rewrite Hrun in E by done.
      match type of E with (let '(_, _) := ?m in _) = _ => destruct m as [x [s2 w2]] eqn:Em end.
      injection E as -> -> <-. bind_inv Em as resp s3 w3 E3. bind_inv Em as u1 s4 w4 E4.
      bind_inv Em as u2 s5 w5 E5. bind_inv Em as fin s6 w6 E6. destruct fin as [final pii_resp].
      unfold mret, M_ret in Em. simplify_eq. cbn. split_and!; try done.
      apply stage_post_ok in E6 as [-> ->]. destruct (stage_llm_ok _ _ _ _ _ _ _ _ _ _ _ E3). eauto.
  - left. split; [intros a' Ha'; by rewrite !Hrun by done|]. intros res s' w'.
    rewrite Hrun by done. discriminate.
Qed.

Lemma run_ok policy (a : BaseAdapter R) r s w res s' w' :
  run policy a r s w = (Ok res, (s', w')) ->
  exists tok proof sh w1 resp sw,
    let q := llm_request r (sanitized_prompt res) (llm_metadata tok proof) in
    cleared policy r s w (sanitized_prompt res) (pii_found_in_prompt res) (res_session_token res)
      proof /\
    complete a q sh w1 = (Ok resp, sw) /\ consults_once policy a r s w q sh w1 /\
    content (response res) = mr_text (mask_pii (content resp)) /\
    pii_found_in_response res = found_types (mask_pii (content resp)).
Proof.
  intros E. destruct (run_adapter policy a r s w)
    as [[_ Hn]|(p & pii & token & tok & proof & sh & w1 & Hc & Honce & Hres)].
  - exfalso. exact (Hn _ _ _ E).
  - destruct (Hres _ _ _ E) as (<- & <- & <- & resp & sw & Hcomp & Hcont & Hpii).
    exists tok, proof, sh, w1, resp, sw. by split_and!.
Qed.

(** C21. What a result of the pipeline guarantees.  When [run] returns: no
    injection pattern occurs in the prompt; OPA, asked from the state of things at the
    start, granted the request, and its decision did not say "reject"; a token the caller
    presented was validated by this orchestrator's session manager as it was at the
    start (so it is not on its revocation list), is for the declared agent type and had
    not expired; the adapter was called once, with the prompt masked as the instruction
    of that decision demands, and with a proof of possession when the outbound request is
    protected, and with nothing else, neither the raw prompt nor any other request: any
    adapter that answers this one call alike gives the very same run; and the text
    returned is the masked form of the adapter's answer.  (The system prompt is passed on
    as the caller gave it.) *)
Theorem run_success policy (a : BaseAdapter R) r s w res s' w' :
  run policy a r s w = (Ok res, (s', w')) ->
  Forall (fun q => ~ occurs q.2 (points (prompt r))) _INJECTION_PATTERNS /\
  (exists pr resp body,
     (evaluate policy "agent_access" (policy_input r) s w).1 = Ok pr /\
     opa_answer policy "agent_access" (policy_input r) w = Ok resp /\ hs_json resp = Ok body /\
     grants body /\ action pr <> "reject"%string /\
     (sanitized_prompt res, pii_found_in_prompt res) = prompt_after_mask r pr) /\
  (forall t, presented r t -> res_session_token res = t /\
     token_valid r t (sh_session (o_shared s)) (w_clock w)) /\
  exists tok proof sh w1 resp sw,
    let q := llm_request r (sanitized_prompt res) (llm_metadata tok proof) in
    complete a q sh w1 = (Ok resp, sw) /\
    (forall a', same_face a a' -> complete a' q sh w1 = complete a q sh w1 ->
       run policy a' r s w = run policy a r s w) /\
    (protect_outbound_request r = true -> is_Some proof) /\
    content (response res) = mr_text (mask_pii (content resp)) /\
    pii_found_in_response res = found_types (mask_pii (content resp)).
Proof.
  intros E. destruct (run_ok policy a r s w res s' w' E)
    as (tok & proof & sh & w1 & resp & sw & (Hinj & Hpol & Htok & Hprot) & Hc & Honce & Hrest).
  do 3 (split; [assumption|]). exists tok, proof, sh, w1, resp, sw. auto.
Qed.

(** ** Requests that stop before the adapter *)

Lemma quiet_with_span {A} n (m : M (OState R) A) : quiet m -> quiet (with_span n m).
Proof.
  intros Hm s w. unfold with_span. specialize (Hm s (w_add_span (SpanStart n) w)).
  by destruct (m s _) as [x [s' w']].
Qed.
Lemma quiet_on_audit {A} (m : M AuditLogger A) : quiet m -> quiet (on_audit (R := R) m).
Proof. intros Hm. unfold on_audit, on_shared, in_audit. hush. Qed.
Lemma quiet_on_session {A} (m : M (SessionManager R) A) : quiet m -> quiet (on_session m).
Proof. intros Hm. unfold on_session, on_shared, in_session. hush. Qed.
Lemma quiet_event r task n o st kw : quiet (event (R := R) r task n o st kw).
Proof. unfold event. apply quiet_on_audit. auto with quiet. Qed.
Hint Resolve quiet_with_span quiet_on_audit quiet_on_session quiet_event : quiet.

Lemma quiet_span_stage {A} n k ag t (body : M (OState R) A) :
  quiet body -> quiet (_span_stage n k ag t body).
Proof. intros Hb. unfold _span_stage, count_error. apply quiet_with_span. hush. Qed.
Hint Resolve quiet_span_stage : quiet.

Lemma quiet_injection {S} ps t : quiet (S := S) (injection_loop ps t).
Proof. induction ps as [|[src p] ps IH]; simpl; hush. Qed.
Lemma quiet_check_budget sid : quiet (check_budget sid).
Proof. unfold check_budget, _get_session, warning. hush. Qed.
Lemma quiet_key_pair pem x y :
  quiet (S := SessionManager R) (generate_dpop_key_pair pem x y).
Proof. unfold generate_dpop_key_pair. hush. Qed.
Hint Resolve quiet_injection quiet_check_budget quiet_key_pair : quiet.

Lemma quiet_stage1 r task : quiet (stage_pre_sanitize (R := R) r task).
Proof. apply quiet_span_stage. unfold check_prompt_injection. hush. Qed.
Lemma quiet_stage_mask r task pr p pii : quiet (stage_mask (R := R) r task pr p pii).
Proof. unfold stage_mask. hush. apply quiet_span_stage. hush. Qed.
Lemma quiet_bind_token r task n b : quiet (bind_token (R := R) r task n b).
Proof. unfold bind_token, issue_sender_constrained_token. hush; by intros ? ?. Qed.
Lemma quiet_stage_token r task n b p : quiet (stage_token (R := R) r task n b p).
Proof.
  apply quiet_span_stage. unfold accept_token, fresh_token, is_expired. hush;
    first [apply quiet_on_session; hush|apply quiet_bind_token].
Qed.
Lemma quiet_stage_budget r task : quiet (stage_budget_check (R := R) r task).
Proof. unfold stage_budget_check. hush. apply quiet_span_stage. hush. Qed.
Hint Resolve quiet_stage1 quiet_stage_mask quiet_stage_token quiet_stage_budget : quiet.

(** The one request the governance stages send. *)
Definition opa_request (policy : PolicyEngine) (r : OrchestratorRequest) : HttpRequest :=
  mkHttpRequest (policy_url policy "agent_access")
    (JObj [("input"%string, model_dump (policy_input r))]) [].

(** At most [q] was sent. *)
Definition sends_at_most {A} (q : HttpRequest) (m : M (OState R) A) : Prop :=
  forall s w, w_http (m s w).2.2 = w_http w \/ w_http (m s w).2.2 = w_http w ++ [q].

Lemma sends_quiet_l {A B} q (m : M (OState R) A) (k : A -> M (OState R) B) :
  quiet m -> (forall a, sends_at_most q (k a)) -> sends_at_most q (m ≫= k).
Proof.
  intros Hm Hk s w. specialize (Hm s w). unfold mbind, M_bind.
  destruct (m s w) as [[a|e] [s1 w1]]; simpl in Hm; [|by left]. rewrite <- Hm. apply Hk.
Qed.
Lemma sends_quiet_r {A B} q (m : M (OState R) A) (k : A -> M (OState R) B) :
  sends_at_most q m -> (forall a, quiet (k a)) -> sends_at_most q (m ≫= k).
Proof.
  intros Hm Hk s w. specialize (Hm s w). unfold mbind, M_bind.
  destruct (m s w) as [[a|e] [s1 w1]]; [|done]. by rewrite Hk.
Qed.

Lemma sends_with_span {A} q n (m : M (OState R) A) :
  sends_at_most q m -> sends_at_most q (with_span n m).
Proof.
  intros Hm s w. specialize (Hm s (w_add_span (SpanStart n) w)). unfold with_span.
  by destruct (m s _) as [x [s1 w1]].
Qed.
Lemma sends_try {A} q (m : M (OState R) A) hs :
  sends_at_most q m -> Forall (fun p => forall e, quiet (p.2 e)) hs ->
  sends_at_most q (try_except m hs).
Proof.
  intros Hm Hhs s w. specialize (Hm s w). unfold try_except.
  destruct (m s w) as [[x|e] [s1 w1]]; [done|]. simpl in Hm.
  assert (w_http (dispatch hs e s1 w1).2.2 = w_http w1) as ->; [|done].
  clear Hm. induction Hhs as [|[c h] hs Hh _ IH]; [done|]. simpl.
  destruct (isinstance e c); [apply Hh|done].
Qed.

Lemma sends_stage {A} q n k ag t (body : M (OState R) A) :
  sends_at_most q body -> sends_at_most q (_span_stage n k ag t body).
Proof.
  intros Hb. apply sends_with_span. do 2 (apply sends_quiet_l; [auto with quiet|intros _]).
  apply sends_try; [apply sends_quiet_r; [done|intros ?; hush]|].
  apply Forall_cons_2; [|apply Forall_nil_2]. intros e. unfold count_error. cbn [snd]. hush.
Qed.

Lemma evaluate_sends policy i (s : OState R) w :
  w_http (evaluate policy "agent_access" i s w).2.2
  = w_http w ++ [mkHttpRequest (policy_url policy "agent_access")
                   (JObj [("input"%string, model_dump i)]) []].
Proof.
  unfold evaluate. unfold mbind at 1, M_bind at 1, try_except, http_post.
  set (q := mkHttpRequest _ _ _).
  destruct (http_answer (w_http w) q) as [resp|exc].
  - match goal with |- w_http (?m s (w_add_http q w)).2.2 = _ =>
      assert (Hq : quiet m) end.
    { unfold raise_for_status. hush. unfold read_decision, dict_get. hush. }
    by rewrite Hq.
  - cbn [dispatch]. by destruct (isinstance exc ConnectError), (isinstance exc TimeoutException).
Qed.

Lemma before_llm_sends r task policy n b :
  sends_at_most (opa_request policy r) (before_llm (R := R) r task policy n b).
Proof.
  unfold before_llm. apply sends_quiet_l; [auto with quiet|]. intros [p pii].
  apply sends_quiet_r; [|intros ?; hush; by destruct a0 as [? ?]].
  apply sends_stage. apply sends_quiet_r; [|intros ?; hush].
  intros s w. unfold try_except. pose proof (evaluate_sends policy (policy_input r) s w) as He.
  destruct (evaluate policy "agent_access" (policy_input r) s w) as [[d|e] [s1 w1]];
    [by right|]. cbn [dispatch]. destruct (isinstance e OpaUnavailableError); [|by right].
  right. match goal with |- w_http (?m s1 w1).2.2 = _ => assert (Hq : quiet m) by hush end.
  by rewrite Hq.
Qed.

(** C22. No LLM call without governance.  When any stage before the adapter
    refuses a request (injection, policy, token, budget), the run ends with
    that very error, it is the same run for every adapter with the same name
    and binding (the adapter's [complete] is never called), and the only HTTP
    request that may have been sent is the policy query. *)
Theorem refused_without_llm r task policy (a : BaseAdapter R) s w e s1 w1 :
  task_id r = Some task ->
  before_llm r task policy (provider_name a) (outbound_request_binding a) s
    (root_world r task w) = (Err e, (s1, w1)) ->
  (forall a', provider_name a' = provider_name a ->
     outbound_request_binding a' = outbound_request_binding a ->
     run policy a' r s w = (Err e, (s1, w_add_span (SpanEnd "orchestrator.run") w1))) /\
  (w_http w1 = w_http w \/ w_http w1 = w_http w ++ [opa_request policy r]).
Proof.
  intros Ht Hb. split.
  - intros a' Hn Hbind. unfold run. rewrite Ht, Hn, Hbind. unfold with_span.
    unfold mbind at 1 2 3 4, M_bind at 1 2 3 4, span, set_world.
    unfold root_world in Hb. by rewrite Hb.
  - pose proof (before_llm_sends r task policy (provider_name a) (outbound_request_binding a)
      s (root_world r task w)) as Hs. rewrite Hb in Hs. exact Hs.
Qed.

(** ** Budgets *)

Section keep_budget.
Variable b : option BudgetEnforcer.
Abbreviation kept := (fun s : OState R => o_budget s = b).

(** Tokens, events and adapters do not touch the budgets. *)
Lemma kept_shared {A} (m : M (Shared R) A) : preserves 0 kept (on_shared m).
Proof. apply preserves_zoom. intros s w Hs _. split; [done|lia]. Qed.
Lemma kept_with_span {A} n (m : M (OState R) A) :
  preserves 0 kept m -> preserves 0 kept (with_span n m).
Proof.
  intros Hm s w Hs _. specialize (Hm s (w_add_span (SpanStart n) w) Hs ltac:(lia)).
  unfold with_span. destruct (m s _) as [x [s' w']]. destruct Hm. split; [done|lia].
Qed.
Hint Resolve kept_shared : preserves.
Lemma kept_event r task n o st kw : preserves 0 kept (event r task n o st kw).
Proof. apply kept_shared. Qed.
Hint Resolve kept_event : preserves.

Lemma kept_stage {A} n k ag t (body : M (OState R) A) :
  preserves 0 kept body -> preserves 0 kept (_span_stage n k ag t body).
Proof.
  intros Hb. apply kept_with_span. unfold count_error, on_audit. preserve.
Qed.

Lemma kept_injection p : preserves 0 kept (check_prompt_injection p).
Proof.
  intros s w Hs _. unfold check_prompt_injection.
  destruct (injection_loop_spec _INJECTION_PATTERNS (points p) s w) as [[-> _]|(m & -> & _)];
    (split; [done|lia]).
Qed.
Lemma kept_evaluate policy n i : preserves 0 kept (evaluate policy n i).
Proof.
  unfold evaluate, raise_for_status, read_decision, dict_get. preserve.
Qed.
Hint Resolve kept_injection kept_evaluate : preserves.

Lemma kept_stages r task policy name binding pr p pii :
  preserves 0 kept (stage_pre_sanitize r task) /\
  preserves 0 kept (stage_policy r task policy) /\
  preserves 0 kept (stage_mask r task pr p pii) /\
  preserves 0 kept (stage_token r task name binding p).
Proof.
  split_and!.
  - apply kept_stage. preserve.
  - apply kept_stage. preserve.
  - unfold stage_mask. preserve. apply kept_stage. preserve.
  - apply kept_stage. unfold accept_token, fresh_token, bind_token, on_session. preserve.
    intros ? ? ? _. split; [done|lia].
Qed.
End keep_budget.

Lemma check_budget_exhausted b sid bs w :
  be_sessions b !! sid = Some bs -> dec_leb (budget_limit_usd bs) (cost_usd bs) = true ->
  exists msg w', check_budget sid b w = (Err (Exn BudgetExceededError msg None), (b, w')).
Proof.
  intros Hb Hle. unfold check_budget, _get_session, warning, log_line, _add_timestamp_if_missing.
  run_m. rewrite Hb. simpl. rewrite Hle. simpl. by do 2 eexists.
Qed.

(** Stage 3.5 on an exhausted session. *)
Lemma stage_budget_exhausted r task s w b sid bs :
  o_budget s = Some b -> budget_session_id r = Some sid -> be_sessions b !! sid = Some bs ->
  dec_leb (budget_limit_usd bs) (cost_usd bs) = true ->
  exists msg cause s1 w1, stage_budget_check r task s w
    = (Err (Exn BudgetLimitError msg (Some cause)), (s1, w1)).
Proof.
  intros Hb Hsid Hbs Hle. unfold stage_budget_check, mbind, M_bind, get. rewrite Hb, Hsid.
  match goal with |- context [_span_stage ?n ?k ?ag ?t ?body s w] => set (m := body) end.
  assert (Hm : forall w0, exists msg cause s1 w1,
            m s w0 = (Err (Exn BudgetLimitError msg (Some cause)), (s1, w1))).
  { intros w0. unfold m, try_except, zoom, mbind, M_bind. rewrite Hb. simpl default.
    destruct (check_budget_exhausted b sid bs w0 Hbs Hle) as (msg & w1 & ->).
    cbn [dispatch]. change (isinstance _ BudgetExceededError) with true. cbv iota beta.
    unfold event. match goal with |- context [on_audit (stage_event ?e ?o ?st ?t ?a None ?kw) ?s0 w1] =>
      destruct (on_audit_emits e o st t a kw s0 w1) as (l & w2 & pre & fs & -> & _) end.
    by do 4 eexists. }
  match goal with |- context [_span_stage ?n ?k ?ag ?t m s w] =>
    destruct (Hm (stage_world n ag t w)) as (msg & cause & s1 & w1 & E);
    destruct (span_stage_err n k ag t m s w _ s1 w1 E) as (s' & w' & ->) end.
  by do 4 eexists.
Qed.

(** An exhausted budget stops the pipeline before the LLM: when the request
    names a budget session whose recorded cost has reached its limit, the
    governance stages never complete, so the adapter is never called, and
    the budget stage itself raises [BudgetLimitError]. *)
Theorem exhausted_budget_blocks r task policy name binding s w b sid bs :
  o_budget s = Some b -> budget_session_id r = Some sid -> be_sessions b !! sid = Some bs ->
  dec_leb (budget_limit_usd bs) (cost_usd bs) = true ->
  (exists e s1 w1, before_llm r task policy name binding s w = (Err e, (s1, w1))) /\
  (exists msg cause s1 w1, stage_budget_check r task s w
     = (Err (Exn BudgetLimitError msg (Some cause)), (s1, w1))).
Proof.
  intros Hb Hsid Hbs Hle. split; [|by eapply stage_budget_exhausted].
  assert (Hno : forall x sw, before_llm r task policy name binding s w <> (Ok x, sw)).
  { intros x sw E. unfold before_llm in E.
    bind_inv E as y s1 w1 E1. destruct y as [p pii].
    bind_inv E as pr s2 w2 E2. bind_inv E as y s3 w3 E3. destruct y as [p' pii'].
    bind_inv E as y s4 w4 E4. destruct y as [[tk tok] pf]. bind_inv E as u s5 w5 E5.
    destruct (kept_stages (Some b) r task policy name binding pr p pii) as (K1 & K2 & K3 & _).
    destruct (kept_stages (Some b) r task policy name binding pr p' pii) as (_ & _ & _ & K4).
    destruct (K1 s w Hb ltac:(lia)) as [B1 _]. rewrite E1 in B1. simpl in B1.
    destruct (K2 s1 w1 B1 ltac:(lia)) as [B2 _]. rewrite E2 in B2. simpl in B2.
    destruct (K3 s2 w2 B2 ltac:(lia)) as [B3 _]. rewrite E3 in B3. simpl in B3.
    destruct (K4 s3 w3 B3 ltac:(lia)) as [B4 _]. rewrite E4 in B4. simpl in B4.
    destruct (stage_budget_exhausted r task s4 w4 b sid bs B4 Hsid Hbs Hle)
      as (? & ? & ? & ? & E6). by rewrite E6 in E5. }
  destruct (before_llm r task policy name binding s w) as [[x|e] [s1 w1]] eqn:E;
    [by destruct (Hno x (s1, w1))|eauto].
Qed.
End theorems.
