(* ===== verification/AuditTrace.v ===== *)
(** * What a failing request leaves in the log

    [_span_stage] (src/control_plane/orchestrator.py) writes a [stage.error] line for an
    exception it does not know and leaves the classes of [_CONTROLLED_EXC] to the body of
    the stage.  [accounts] follows the log through a computation and says that the body
    did write its line; it is proved of the bodies one by one, by structural rules. *)
From Stdlib Require Import ZArith Lia Ascii String.
From stdpp Require Import base gmap strings list pretty.
From S2P Require Import Prelude PyDecimal PyUuid World Config AuditLogger BudgetEnforcer LoopDetector.
From S2P Require Import PyCrypto ReplayStore Regex Guardrails SessionMgr PolicyEngine Adapters.
From S2P Require Import Orchestrator.

(** A log line that reports that the task was refused or failed. *)
Definition refusal_line (tid : string) (l : LogEntry) : Prop :=
  assoc "task_id" (le_fields l) = Some (JStr tid) /\
  (assoc "outcome" (le_fields l) = Some (JStr "deny") \/
   assoc "outcome" (le_fields l) = Some (JStr "error")).

(** A run of [m] only adds to the log, and when it raises an exception selected by [c],
    a refusal line of the task is among the new ones. *)
Definition accounts {S A} (tid : string) (c : exn -> bool) (m : M S A) : Prop :=
  forall s w, wp m (fun x _ w' => exists new, w_log w' = w_log w ++ new /\
    forall e, x = Err e -> c e = true -> Exists (refusal_line tid) new) s w.

(** None of the clauses catches [e]. *)
Definition uncaught {S A} (hs : list (exc_class * (exn -> M S A))) (e : exn) : bool :=
  negb (existsb (fun h => isinstance e h.1) hs).

Section rules.
Context {S : Type} (tid : string) (c : exn -> bool).

Lemma accounts_same {A} (m : M S A) :
  (forall s w, w_log (m s w).2.2 = w_log w) ->
  (forall s w e, (m s w).1 = Err e -> c e = false) -> accounts tid c m.
Proof.
  intros Hl He s w. specialize (Hl s w). specialize (He s w). apply wp_intro.
  intros x s' w' E. rewrite E in Hl, He. exists []. rewrite app_nil_r. split; [done|].
  intros e -> Hc. by rewrite (He e eq_refl) in Hc.
Qed.
Lemma accounts_ret {A} (a : A) : accounts tid c (mret a : M S A).
Proof. by apply accounts_same. Qed.
Lemma accounts_raise {A} e : c e = false -> accounts tid c (raise e : M S A).
Proof. intros Hc. apply accounts_same; [done|]. by intros s w e' [= <-]. Qed.
Lemma accounts_result {A} (r : result A) :
  (forall e, r = Err e -> c e = false) -> accounts tid c (of_result r : M S A).
Proof. intros Hr. apply accounts_same; [done|]. intros s w e E. by apply Hr. Qed.
Lemma accounts_option {A} (o : option A) k msg :
  c (Exn k msg None) = false -> accounts tid c (of_option o k msg : M S A).
Proof. intros Hc. destruct o; [apply accounts_ret|by apply accounts_raise]. Qed.
Lemma accounts_metric l : accounts tid c (metric l : M S unit).
Proof. by apply accounts_same. Qed.
Lemma accounts_span l : accounts tid c (span l : M S unit).
Proof. by apply accounts_same. Qed.
Lemma accounts_modify f : accounts tid c (modify f : M S unit).
Proof. by apply accounts_same. Qed.
Lemma accounts_get : accounts tid c (get : M S S).
Proof. by apply accounts_same. Qed.
Lemma accounts_gets {A} (f : S -> A) : accounts tid c (gets f).
Proof. by apply accounts_same. Qed.
Lemma accounts_emit l e fs : accounts tid c (emit l e fs : M S unit).
Proof. intros s w. apply wp_set_world. by exists [mkEntry l e fs]. Qed.

Lemma accounts_bind_with {A B} (m : M S A) (k : A -> M S B) Q :
  accounts tid c m -> returns m Q -> (forall a, Q a -> accounts tid c (k a)) ->
  accounts tid c (m ≫= k).
Proof.
  intros Hm HQ Hk s w. apply wp_bind, wp_intro. intros x s1 w1 E.
  destruct (wp_run _ _ _ _ _ _ _ (Hm s w) E) as (new & Hl & He).
  destruct x as [a|e]; [|exists new; split; [done|]; intros e' [= <-]; by apply (He e)].
  eapply wp_mono; [by apply Hk, (HQ s w a s1 w1)|]. intros x s2 w2 (new' & Hl' & He').
  exists (new ++ new'). rewrite Hl', Hl, app_assoc. split; [done|]. intros e -> Hc.
  apply Exists_app. right. by apply (He' e).
Qed.
Lemma accounts_bind {A B} (m : M S A) (k : A -> M S B) :
  accounts tid c m -> (forall a, accounts tid c (k a)) -> accounts tid c (m ≫= k).
Proof. intros Hm Hk. by apply (accounts_bind_with m k _ Hm (returns_any m)). Qed.
Lemma accounts_zoom {T A} (view : S -> T) update (m : M T A) :
  accounts tid c m -> accounts tid c (zoom view update m).
Proof. intros Hm s w. apply wp_zoom, Hm. Qed.

(** The clauses answer for what they catch, the body for the rest. *)
Lemma accounts_try {A} (m : M S A) hs :
  accounts tid (fun e => c e && uncaught hs e) m ->
  Forall (fun h => forall e, isinstance e h.1 = true -> accounts tid c (h.2 e)) hs ->
  accounts tid c (try_except m hs).
Proof.
  intros Hm Hhs s w. apply wp_try. eapply wp_mono; [apply Hm|].
  intros [a|e] s1 w1 (new & Hl & He); [by exists new|].
  assert (Hd : uncaught hs e = true /\ dispatch hs e s1 w1 = (Err e, (s1, w1)) \/
               accounts tid c (dispatch hs e)).
  { clear -Hhs. unfold uncaught. induction Hhs as [|[k h] hs Hh _ IH]; simpl; [by left|].
    destruct (isinstance e k) eqn:E; simpl; [right; by apply Hh|exact IH]. }
  destruct Hd as [[Hu E]|Hd].
  - unfold wp. rewrite E. exists new. split; [done|]. intros e' [= <-] Hc.
    apply (He e eq_refl). by rewrite Hc, Hu.
  - eapply wp_mono; [apply Hd|]. intros x s2 w2 (new' & Hl' & He'). exists (new ++ new').
    rewrite Hl', Hl, app_assoc. split; [done|]. intros e' -> Hc. apply Exists_app.
    right. by apply (He' e').
Qed.

Lemma accounts_with_span {A} n (m : M S A) :
  accounts tid c m -> accounts tid c (with_span n m).
Proof.
  intros Hm s w. specialize (Hm s (w_add_span (SpanStart n) w)). unfold wp, with_span in *.
  by destruct (m s _) as [x [s' w']].
Qed.

Context `{Env}.
Lemma accounts_time : accounts tid c (time_time : M S Z).
Proof. by apply accounts_same. Qed.
Lemma accounts_utc : accounts tid c (utc_now : M S Z).
Proof. by apply accounts_same. Qed.
Lemma accounts_http q :
  (forall l e, http_answer l q = Err e -> c e = false) ->
  accounts tid c (http_post q : M S HttpResponse).
Proof. intros Hq. apply accounts_same; [done|]. intros s w e E. exact (Hq _ _ E). Qed.
End rules.

Create HintDb accounts.
#[export] Hint Resolve accounts_ret accounts_metric accounts_span accounts_modify accounts_get
  accounts_gets accounts_emit accounts_time accounts_utc : accounts.

(** Walk through a computation; leaves what the hints do not know. *)
Ltac account_step :=
  match goal with
  | |- accounts _ _ (_ ≫= _) => apply accounts_bind; [|intros ?]
  | |- accounts _ _ (try_except _ _) =>
      apply accounts_try;
      [|repeat (apply Forall_cons_2; [intros ? ?; cbn [fst snd] in *|]); try apply Forall_nil_2]
  | |- accounts _ _ (match ?x with _ => _ end) => destruct x eqn:?
  | |- accounts _ _ (let x := ?v in _) => cbv zeta
  | |- accounts _ _ (throw _ _) => apply accounts_raise; reflexivity
  | |- accounts _ _ (throw_from _ _ _) => apply accounts_raise; reflexivity
  | |- accounts _ _ (of_option _ _ _) => apply accounts_option; reflexivity
  | |- accounts _ _ (zoom _ _ _) => apply accounts_zoom
  | |- _ => solve [auto with accounts]
  end.
Ltac account := repeat account_step.

(** ** The bodies of the stages *)

Section trace.
Context `{Env} `{HasSettings} `{PyText} `{FloatRepr} `{Cryptography} `{Pydantic} `{Jose}.
Context `{UnicodeData} `{KeyGen}.
Context {R : Type} `{!ReplayStore R}.
Implicit Types (s : OState R) (w : World) (r : OrchestratorRequest).

(** The libraries raise exceptions of their own, never the pipeline's: httpx when a
    request is sent or an answer parsed, python-jose when a token is decoded, and
    cryptography when a key is read. *)
Definition foreign_errors : Prop :=
  (forall l q e, http_answer l q = Err e -> controlled e = false) /\
  (forall l q resp e, http_answer l q = Ok resp -> hs_json resp = Err e -> controlled e = false) /\
  (forall t k algs n e, jwt_decode t k algs n = Err e -> controlled e = false) /\
  (forall pem e, public_pem_of_private pem = Err e -> controlled e = false).

(** A stage whose body returns only adds spans. *)
Lemma span_stage_run {A} n k ag t (body : M (OState R) A) s w x s1 w1 :
  body s (stage_world n ag t w) = (Ok x, (s1, w1)) ->
  _span_stage n k ag t body s w
  = (Ok x, (s1, w_add_span (SpanEnd n) (w_add_span (SpanStatusOk n)
              (w_add_span (SpanAttr n "span.status" (JStr "OK")) w1)))).
Proof.
  intros Eb. unfold _span_stage, with_span, try_except.
  unfold mbind at 1 2 3, M_bind at 1 2 3, span at 1 2, set_world at 1 2.
  unfold stage_world in Eb. by rewrite Eb.
Qed.

(** A stage answers for every exception when its body answers for the controlled ones. *)
Lemma accounts_stage {A} n k ag tid (body : M (OState R) A) :
  accounts tid controlled body ->
  accounts tid (fun e => isinstance e Exception) (_span_stage n k ag tid body).
Proof.
  intros Hb s w. apply wp_intro. intros x s' w' E.
  specialize (Hb s (stage_world n ag tid w)). unfold wp in Hb.
  destruct (body s (stage_world n ag tid w)) as [[y|e] [s1 w1]] eqn:Eb.
  - rewrite (span_stage_run n k ag tid body s w y s1 w1 Eb) in E. injection E as <- <- <-.
    destruct Hb as (new & Hl & _). by exists new.
  - destruct Hb as (new & Hl & He). change (w_log (stage_world n ag tid w)) with (w_log w) in Hl.
    destruct (stage_failure n k ag tid body s w e s1 w1 Eb)
      as (s2 & w2 & E2 & _ & _ & _ & _ & _ & Hlog).
    rewrite E in E2. injection E2 as -> -> ->.
    destruct (isinstance e Exception) eqn:Hx; simpl in Hlog.
    + destruct (controlled e) eqn:Hc; simpl in Hlog.
      * exists new. rewrite Hlog. split; [done|]. intros e' [= <-] _. by apply (He e).
      * destruct Hlog as (pre & fs & _ & -> & _ & Ht & Ho).
        exists (new ++ pre ++ [mkEntry Error "stage.error" fs]). rewrite Hl, <- app_assoc.
        split; [done|]. intros e' [= <-] _. rewrite !Exists_app, Exists_cons. right. right.
        left. split; [exact Ht|by right].
    + exists new. rewrite Hlog. split; [done|]. intros e' [= <-] Hc. by rewrite Hx in Hc.
Qed.

(** An audit event never raises; one that reports a refusal answers for what follows. *)
Lemma accounts_event r task c n o st kw :
  accounts (uuid_str task) c (event (R := R) r task n o st kw).
Proof.
  intros s w. unfold event, wp.
  destruct (on_audit_emits n o st (uuid_str task) (or_agent_type r) kw s w)
    as (l & w' & pre & fs & -> & Hl & _). rewrite Hl. eexists. split; [reflexivity|]. by intros e.
Qed.
Lemma accounts_refuse {A} r task c n o st kw (e : exn) :
  (o = "deny" \/ o = "error")%string -> "outcome"%string ∉ kw.*1 -> "task_id"%string ∉ kw.*1 ->
  accounts (uuid_str task) c (event (R := R) r task n o st kw ;; (raise e : M (OState R) A)).
Proof.
  intros Ho Hk1 Hk2 s w. unfold event, wp, mbind, M_bind.
  destruct (on_audit_emits n o st (uuid_str task) (or_agent_type r) kw s w)
    as (l & w' & pre & fs & -> & Hl & _ & _ & Ho' & _ & Ht). unfold raise. rewrite Hl.
  eexists. split; [reflexivity|].
  intros e' _ _. rewrite Exists_app, Exists_cons. right. left. split; [by apply Ht|].
  simpl le_fields. rewrite (Ho' Hk1). destruct Ho as [-> | ->]; auto.
Qed.
Hint Resolve accounts_event : accounts.

(** Close [accounts] of a refusing event followed by [throw] or [throw_from]. *)
Ltac refuse :=
  apply accounts_refuse; [auto|apply (bool_decide_unpack _); reflexivity..].

(** What the components raise is not a controlled exception; the pipeline makes it one. *)
Lemma accounts_injection tid ps t : accounts (S := OState R) tid controlled (injection_loop ps t).
Proof. induction ps as [|[src p] ps IH]; simpl; account. Qed.
Lemma accounts_warning {S} tid c e kw : accounts (S := S) tid c (warning e kw).
Proof. unfold warning, log_line, _add_timestamp_if_missing. account. Qed.
Hint Resolve accounts_injection accounts_warning : accounts.
Lemma accounts_check_budget tid sid : accounts tid controlled (check_budget sid).
Proof. unfold check_budget, _get_session. account. Qed.
Lemma accounts_record_spend tid sid a op : accounts tid controlled (record_spend sid a op).
Proof. unfold record_spend, _get_session, update_session, budget_gauge. account. Qed.
Lemma accounts_record_step tid sid d sg desc : accounts tid controlled (record_step sid d sg desc).
Proof. unfold record_step, _get_context, set_context. account. Qed.
Lemma accounts_evaluate tid policy n i :
  foreign_errors -> accounts (S := OState R) tid controlled (evaluate policy n i).
Proof.
  intros (Hh & Hj & _). unfold evaluate.
  set (q := mkHttpRequest _ _ _).
  apply accounts_bind_with with (fun resp => exists l, http_answer l q = Ok resp).
  - account. apply accounts_http. intros l e E. by rewrite (Hh _ _ _ E).
  - intros s w resp s' w' E. try_inv E. unfold http_post in E. simplify_eq. eauto.
  - intros resp (l & El). unfold raise_for_status, read_decision, dict_get. account.
    apply accounts_result. intros e. by apply (Hj _ _ _ _ El).
Qed.
Hint Resolve accounts_check_budget accounts_record_spend accounts_record_step
  accounts_evaluate : accounts.

(** Fewer exceptions to answer for. *)
Lemma accounts_sub {S A} tid (c c' : exn -> bool) (m : M S A) :
  (forall e, c' e = true -> c e = true) -> accounts tid c m -> accounts tid c' m.
Proof.
  intros Hc Hm s w. eapply wp_mono; [apply Hm|]. intros x s' w' (new & Hl & He).
  exists new. split; [done|]. intros e -> He'. by apply (He e eq_refl), Hc.
Qed.

(** An error of the JWT library is not a controlled exception. *)
Lemma jwt_error_uncontrolled e : isinstance e JWTError = true -> controlled e = false.
Proof. destruct e as [[] m k]; vm_compute; congruence. Qed.

Lemma py_list_error j e : py_list j = Err e -> controlled e = false.
Proof. destruct j; simpl; intros E; simplify_eq; reflexivity. Qed.

(** A clause list in front of a component that raises no controlled exception. *)
Ltac guarded :=
  apply accounts_try;
  [apply (accounts_sub _ controlled); [by intros ? [? _]%andb_prop|account]
  |repeat (apply Forall_cons_2; [intros ? ?; cbn [fst snd] in *; refuse|]); apply Forall_nil_2].

Lemma accounts_pre_sanitize r task :
  accounts (uuid_str task) (fun e => isinstance e Exception) (stage_pre_sanitize (R := R) r task).
Proof. apply accounts_stage. unfold check_prompt_injection. account. Qed.

Lemma accounts_policy r task policy :
  foreign_errors ->
  accounts (uuid_str task) (fun e => isinstance e Exception)
    (stage_policy (R := R) r task policy).
Proof.
  intros Hf. apply accounts_stage, accounts_bind; [guarded|]. intros pr.
  destruct (negb _ || _); [refuse|account].
Qed.

Lemma accounts_mask r task pr p pii :
  accounts (uuid_str task) (fun e => isinstance e Exception)
    (stage_mask (R := R) r task pr p pii).
Proof. unfold stage_mask. destruct (bool_decide _); [apply accounts_stage|]; account. Qed.

(** The token check raises two controlled exceptions, for an expired and for a revoked token. *)
Definition not_token_error (e : exn) : bool :=
  controlled e && negb (isinstance e TokenExpiredError || isinstance e TokenRevokedError).
Lemma accounts_validate_token tid token :
  foreign_errors ->
  accounts (S := SessionManager R) tid not_token_error (validate_token token).
Proof.
  intros (_ & _ & Hj & Hp). unfold validate_token, _verification_key, decode_now, is_revoked,
    _purge_expired_revocations, set_revoked, build_claims, validation_error, getitem.
  account; apply accounts_result; intros e E; unfold not_token_error;
    first [by rewrite (Hp _ _ E)|by rewrite (Hj _ _ _ _ _ E)|by rewrite (py_list_error _ _ E)].
Qed.

(** The caller's token: expired, revoked and foreign tokens are reported. *)
Lemma accounts_accept_token r task token :
  foreign_errors -> accounts (uuid_str task) controlled (accept_token (R := R) r task token).
Proof.
  intros Hf. unfold accept_token. apply accounts_bind.
  - apply accounts_try.
    + apply (accounts_sub _ not_token_error).
      * intros e. unfold not_token_error, uncaught. simpl. by destruct (controlled e),
          (isinstance e TokenExpiredError), (isinstance e TokenRevokedError).
      * unfold on_session, on_shared, in_session. account. by apply accounts_validate_token.
    + apply Forall_cons_2; [intros ? _; refuse|]. apply Forall_cons_2; [intros ? _; refuse|].
      apply Forall_cons_2; [|apply Forall_nil_2]. intros e He. cbn [fst snd] in *.
      by apply accounts_raise, jwt_error_uncontrolled.
  - intros claims. apply accounts_bind.
    + unfold on_session, on_shared, in_session, is_expired. account.
    + intros [|]; [refuse|]. destruct (negb _); [refuse|account].
Qed.

(** With the caller's own token and no protected flow the token stage answers for all. *)
Definition caller_token r : Prop :=
  protect_outbound_request r = false /\ exists t, session_token r = Some t /\ t <> ""%string.

Lemma accounts_token r task name binding p :
  foreign_errors -> caller_token r ->
  accounts (uuid_str task) (fun e => isinstance e Exception)
    (stage_token (R := R) r task name binding p).
Proof.
  intros Hf (Hp & t & Ht & Hne). apply accounts_stage. rewrite Ht, Hp, bool_decide_false by done.
  apply accounts_bind; [|by account]. apply accounts_bind; [by apply accounts_accept_token|account].
Qed.

Lemma accounts_budget_check r task :
  accounts (uuid_str task) (fun e => isinstance e Exception) (stage_budget_check (R := R) r task).
Proof.
  unfold stage_budget_check. apply accounts_bind; [account|]. intros s.
  destruct (o_budget s), (budget_session_id r); try apply accounts_ret.
  apply accounts_stage, accounts_bind; [guarded|account].
Qed.
Lemma accounts_spend r task resp :
  accounts (uuid_str task) (fun e => isinstance e Exception) (stage_spend (R := R) r task resp).
Proof.
  unfold stage_spend. apply accounts_bind; [account|]. intros s.
  destruct (o_budget s), (budget_session_id r); try apply accounts_ret.
  apply accounts_stage, accounts_bind; [guarded|account].
Qed.
Lemma accounts_loop r task resp :
  accounts (uuid_str task) (fun e => isinstance e Exception) (stage_loop (R := R) r task resp).
Proof.
  unfold stage_loop. apply accounts_bind; [account|]. intros s.
  destruct (o_loop s), (loop_session_id r); try apply accounts_ret.
  apply accounts_stage, accounts_bind; [guarded|account].
Qed.
Lemma accounts_post_sanitize r task resp :
  accounts (uuid_str task) (fun e => isinstance e Exception)
    (stage_post_sanitize (R := R) r task resp).
Proof. apply accounts_stage. account. Qed.
Hint Resolve accounts_pre_sanitize accounts_policy accounts_mask accounts_token
  accounts_budget_check accounts_spend accounts_loop accounts_post_sanitize : accounts.

(** ** The adapters *)

Lemma accounts_stage_event tid c n o st t ag kw :
  accounts (S := Shared R) tid c (in_audit (stage_event n o st t ag None kw)).
Proof.
  unfold in_audit. apply accounts_zoom. intros l w. unfold wp.
  destruct (stage_event_emits n o st t ag kw l w) as (l' & w' & pre & fs & -> & Hl & _).
  rewrite Hl. eexists. split; [reflexivity|]. by intros e.
Qed.
Hint Resolve accounts_stage_event : accounts.

Lemma security_error_uncontrolled e :
  isinstance e AdapterSecurityError = true -> controlled e = false.
Proof. destruct e as [[] m k]; vm_compute; congruence. Qed.
Lemma controlled_exception e : controlled e = true -> isinstance e Exception = true.
Proof. destruct e as [[] m k]; vm_compute; congruence. Qed.

Lemma accounts_rejection tid p q exc :
  foreign_errors -> accounts tid controlled (audit_rejection (R := R) p q exc).
Proof.
  intros Hf. unfold audit_rejection. account. apply (accounts_sub _ not_token_error).
  - intros e [Hc Hu]%andb_prop. unfold uncaught in Hu. simpl in Hu.
    by rewrite (controlled_exception e Hc) in Hu.
  - account. unfold in_session. account. by apply accounts_validate_token.
Qed.

(** Without a proof the guard never comes to validate the token. *)
Lemma accounts_guard tid p q m u :
  foreign_errors -> assoc AegisProofKey (lr_metadata q) = None ->
  accounts tid controlled (outbound_guard (R := R) p q m u).
Proof.
  intros Hf Hq. unfold outbound_guard, require_sender_constrained_request, in_session.
  rewrite Hq. simpl default. rewrite (bool_decide_true (""%string = ""%string)), orb_true_r by done.
  account; [by apply accounts_rejection|].
  by apply accounts_raise, security_error_uncontrolled.
Qed.

Lemma accounts_post tid url payload hs :
  foreign_errors -> accounts tid controlled (post_json (R := R) url payload hs).
Proof.
  intros (Hh & Hj & _). unfold post_json. set (q := mkHttpRequest _ _ _).
  apply accounts_bind_with with (fun resp => exists l, http_answer l q = Ok resp).
  - apply accounts_http. intros l e E. by rewrite (Hh _ _ _ E).
  - intros s w resp s' w' E. unfold http_post in E. simplify_eq. eauto.
  - intros resp (l & El). unfold raise_for_status. account.
    apply accounts_result. intros e. by apply (Hj _ _ _ _ El).
Qed.

Lemma accounts_complete tid a q :
  foreign_errors -> repo_adapter a -> assoc AegisProofKey (lr_metadata q) = None ->
  accounts (S := Shared R) tid controlled (complete a q).
Proof.
  intros Hf Ha Hq. destruct Ha; simpl complete;
    unfold openai_complete, anthropic_complete, llama_complete, json_key, json_first, dict_get,
      py_add, build_response;
    (apply accounts_bind; [by apply accounts_guard|intros _]); cbv zeta;
    (apply accounts_bind; [by apply accounts_post|intros body]); account.
Qed.

Lemma accounts_llm r task a p tok :
  foreign_errors -> repo_adapter a ->
  accounts (uuid_str task) (fun e => isinstance e Exception)
    (stage_llm (R := R) r task (complete a) p tok None).
Proof.
  intros Hf Ha. apply accounts_stage. unfold on_shared. account. by apply accounts_complete.
Qed.

(** ** The pipeline *)

(** A request that is not protected goes out without a proof. *)
Lemma unprotected_token r task name binding p :
  protect_outbound_request r = false ->
  returns (stage_token (R := R) r task name binding p) (fun x => x.2 = None).
Proof.
  intros Hp s w x s' w' E. apply span_stage_at in E as [w2 E]. rewrite Hp in E.
  bind_inv E as t s1 w1 E1. unfold mret, M_ret in E. by simplify_eq.
Qed.
Lemma unprotected_before_llm r task policy name binding :
  protect_outbound_request r = false ->
  returns (before_llm (R := R) r task policy name binding) (fun x => x.2 = None).
Proof.
  intros Hp. unfold before_llm. apply returns_bind_any. intros [p pii].
  apply returns_bind_any. intros pr. apply returns_bind_any. intros [p' pii'].
  eapply returns_bind; [by apply unprotected_token|]. intros [[tk tok] proof] Hpr.
  apply returns_bind_any. intros _. by apply returns_ret.
Qed.

Lemma accounts_before_llm r task policy name binding :
  foreign_errors -> caller_token r ->
  accounts (uuid_str task) (fun e => isinstance e Exception)
    (before_llm (R := R) r task policy name binding).
Proof.
  intros Hf Hc. unfold before_llm. account.
Qed.

Lemma accounts_run policy a r task :
  foreign_errors -> repo_adapter a -> task_id r = Some task -> caller_token r ->
  accounts (uuid_str task) (fun e => isinstance e Exception) (run (R := R) policy a r).
Proof.
  intros Hf Ha Ht Hc. unfold run. rewrite Ht. apply accounts_with_span.
  do 3 (apply accounts_bind; [account|intros _]).
  eapply accounts_bind_with;
    [by apply accounts_before_llm|apply unprotected_before_llm, Hc|].
  intros [[[[p pii] tk] tok] proof] Hpr. simpl in Hpr. subst proof.
  apply accounts_bind; [by apply accounts_llm|].
  intros resp. account.
Qed.

(** C26. Failures leave a line in the log.  (1) Whatever exception leaves the body of a
    stage, the stage raises it again; an [Exception] adds one to the error counter of the
    stage; if its class is not in [_CONTROLLED_EXC], one [stage.error] line with the
    stage, the task and the outcome "error" follows what the body logged, and otherwise
    the instrumentation adds none; budgets, loop contexts, session manager and requests
    sent are as the body left them.  (2) The lines that (1) leaves to the bodies are
    written: when a run with a token of the caller and without the protected flow,
    through an adapter of the repository, ends in any [Exception], the log has only
    grown, and among the new lines is one for this task with the outcome "deny" or
    "error", given that httpx, python-jose and cryptography raise exceptions of their own
    classes.  (For fresh and for bound tokens this is not claimed: one that expires
    between issue and use is refused without a line.) *)
Theorem stage_failure_audited :
  (forall A n k ag t (body : M (OState R) A) s w e s1 w1,
     body s (stage_world n ag t w) = (Err e, (s1, w1)) ->
     exists s' w', _span_stage n k ag t body s w = (Err e, (s', w')) /\
       o_budget s' = o_budget s1 /\ o_loop s' = o_loop s1 /\
       sh_session (o_shared s') = sh_session (o_shared s1) /\ w_http w' = w_http w1 /\
       w_metrics w' = w_metrics w1 ++
         (if isinstance e Exception
          then [CounterInc "aegis_orchestrator_errors_total"
                  [("stage", k); ("agent_type", ag)]%string 1] else []) /\
       if isinstance e Exception && negb (controlled e)
       then exists pre fs, (length pre <= 1)%nat /\
              w_log w' = w_log w1 ++ pre ++ [mkEntry Error "stage.error" fs] /\
              assoc "stage" fs = Some (JStr n) /\ assoc "task_id" fs = Some (JStr t) /\
              assoc "outcome" fs = Some (JStr "error")
       else w_log w' = w_log w1) /\
  (forall policy a r task s w e s' w',
     foreign_errors -> repo_adapter a -> task_id r = Some task -> caller_token r ->
     run policy a r s w = (Err e, (s', w')) -> isinstance e Exception = true ->
     exists new, w_log w' = w_log w ++ new /\ Exists (refusal_line (uuid_str task)) new).
Proof.
  split; [intros A; apply stage_failure|].
  intros policy a r task s w e s' w' Hf Ha Ht Hc E He.
  destruct (wp_run _ _ _ _ _ _ _ (accounts_run policy a r task Hf Ha Ht Hc s w) E)
    as (new & Hl & Hx). exists new. split; [exact Hl|]. by apply (Hx e).
Qed.
End trace.
