(* ===== verification/PipelineExamples.v ===== *)
(** * Concrete runs of the pipeline

    A small process (token library of TokenLibrary.v, a policy server that
    grants, a model that answers) on which the theorems of Adapters.v and
    Orchestrator.v are applied. *)
From Stdlib Require Import ZArith Lia Ascii String.
From stdpp Require Import base gmap strings list.
From S2P Require Import Prelude PyDecimal PyUuid World Config AuditLogger BudgetEnforcer LoopDetector.
From S2P Require Import PyCrypto ReplayStore Regex Guardrails SessionMgr TokenLibrary PolicyEngine Adapters.
From S2P Require Import Orchestrator AuditTrace.

#[local] Existing Instance toy_jose.
#[local] Existing Instance demo_text.
#[local] Existing Instance demo_float_repr.
#[local] Existing Instance demo_crypto.
#[local] Existing Instance demo_pydantic.
#[local] Existing Instance ascii_data.
#[local] Instance pipeline_settings : HasSettings := default_settings.
#[local] Instance demo_keygen : KeyGen := fun _ => ("client-key"%string, 1, 2).

Definition opa_says (allow : bool) : json :=
  JObj [("result"%string, JObj [("allow"%string, JBool allow)])].
Definition llm_says (text : string) : json :=
  JObj [("choices", JList [JObj [("message", JObj [("content", JStr text)])]]);
        ("usage", JObj [("total_tokens", JInt 12)])]%string.

(** A still clock; OPA answers as told, every other URL is the model. *)
Definition pipeline_env (allow : bool) : Env := {|
  clock _ := secs 1700000000;
  utc_clock _ := 1700000000000000;
  uuid_supply n := mkUUID (Z.of_nat n + 1);
  http_answer _ q :=
    Ok (mkHttpResponse 200 (Ok (if String.prefix "http://localhost:8181" (hr_url q)
                                then opa_says allow else llm_says "mail bob@corp.com")));
  span_context _ := mkSpanContext false 0 0 0;
  counter_inc_error _ := None
|}.
#[local] Instance granting : Env := pipeline_env true.

Definition demo_state : OState InMemoryDPoPReplayStore :=
  mkOState (mkShared demo_manager AuditLogger_init) None None.
Definition demo_adapter : BaseAdapter InMemoryDPoPReplayStore :=
  LocalLlamaAdapter "http://localhost:11434/v1/" "llama3".
Definition demo_policy : PolicyEngine := mkPolicyEngine "http://localhost:8181".
Definition demo_task : UUID := mkUUID 99.
Definition demo_req (prompt : string) (token : option string) (protect : bool)
    (budget : option UUID) : OrchestratorRequest :=
  mkRequest (Some demo_task) prompt "finance" "alice" token "llama3" 64 (JInt 0) "" [] protect
    budget DEFAULT_COST_PER_TOKEN None NO_PROGRESS None.

(** The PII of prompt and answer is masked on the way. *)
Lemma run_success_witness :
  exists res s' w', run demo_policy demo_adapter (demo_req "ssn 123-45-6789" None false None)
                      demo_state w_empty = (Ok res, (s', w')) /\
    Forall (fun q => ~ occurs q.2 (points "ssn 123-45-6789")) _INJECTION_PATTERNS.
Proof.
  assert (Hok : is_ok (run demo_policy demo_adapter (demo_req "ssn 123-45-6789" None false None)
                  demo_state w_empty).1 = true) by (vm_compute; reflexivity).
  destruct (run demo_policy demo_adapter (demo_req "ssn 123-45-6789" None false None)
              demo_state w_empty) as [[res|e] [s' w']] eqn:E; [|discriminate Hok].
  exists res, s', w'. split; [reflexivity|].
  destruct (run_success _ _ _ _ _ _ _ _ E) as [Hi _]. exact Hi.
Defined.

Example run_masks :
  match (run demo_policy demo_adapter (demo_req "ssn 123-45-6789" None false None)
           demo_state w_empty).1 with
  | Ok res => (sanitized_prompt res, content (response res))
              = ("ssn [REDACTED-SSN]", "mail [REDACTED-EMAIL]")%string
  | Err _ => False
  end.
Proof. vm_compute. reflexivity. Qed.

Definition class_of {A} (r : result A) : option exc_class :=
  match r with Ok _ => None | Err e => Some (exn_class e) end.

(** A denied request: the run ends with the policy error for every adapter. *)
Lemma refused_without_llm_witness :
  exists e s1 w1, forall a' : BaseAdapter InMemoryDPoPReplayStore,
    provider_name a' = "local_llama"%string ->
    outbound_request_binding a' = outbound_request_binding demo_adapter ->
    run (H := pipeline_env false) demo_policy a' (demo_req "hello" None false None) demo_state w_empty
    = (Err e, (s1, w_add_span (SpanEnd "orchestrator.run") w1)).
Proof.
  assert (Hok : is_ok (before_llm (H := pipeline_env false) (demo_req "hello" None false None)
    demo_task demo_policy "local_llama" (outbound_request_binding demo_adapter) demo_state
    (root_world (demo_req "hello" None false None) demo_task w_empty)).1 = false)
    by (vm_compute; reflexivity).
  destruct (before_llm (H := pipeline_env false) (demo_req "hello" None false None)
    demo_task demo_policy "local_llama" (outbound_request_binding demo_adapter) demo_state
    (root_world (demo_req "hello" None false None) demo_task w_empty)) as [[x|e] [s1 w1]] eqn:E;
    [discriminate Hok|].
  exists e, s1, w1. intros a' Hn Hb.
  apply (refused_without_llm (H := pipeline_env false) (demo_req "hello" None false None) demo_task
    demo_policy demo_adapter demo_state w_empty e s1 w1 eq_refl E); [exact Hn|exact Hb].
Defined.

Definition spent_session : BudgetSession :=
  mkBudgetSession demo_task "finance" (mkDec false 1 0) 10 (mkDec false 1 0) [] ∅.
Definition spent_budgets : BudgetEnforcer := mkEnforcer {[demo_task := spent_session]}.

Lemma exhausted_budget_blocks_witness :
  exists e s1 w1, before_llm (demo_req "hello" None false (Some demo_task)) demo_task demo_policy
    "local_llama" (outbound_request_binding demo_adapter)
    (mkOState (mkShared demo_manager AuditLogger_init) (Some spent_budgets) None) w_empty
    = (Err e, (s1, w1)).
Proof.
  apply (exhausted_budget_blocks (demo_req "hello" None false (Some demo_task)) demo_task
    demo_policy "local_llama" (outbound_request_binding demo_adapter)
    (mkOState (mkShared demo_manager AuditLogger_init) (Some spent_budgets) None) w_empty
    spent_budgets demo_task spent_session); vm_compute; reflexivity.
Defined.

(** A token issued to an agent of another type. *)
Definition hr_token : string :=
  match (issue_token (mkTokenRequest "hr" "bob" None None None None None None None None)
           demo_manager w_empty).1 with
  | Ok t => t | Err _ => ""
  end.
Lemma demo_foreign_errors : foreign_errors.
Proof.
  split_and!.
  - intros l q e [=].
  - intros l q resp e [= <-] [=].
  - intros t k algs n e. simpl. destruct (toy_parts t) as [[[h c] k']|]; [|by intros [= <-]].
    destruct (bool_decide _); [|by intros [= <-]]. destruct (expired_at c n); [|done].
    by intros [= <-].
  - intros pem e [=].
Defined.

(** The foreign token is refused, and the refusal is in the log. *)
Lemma stage_failure_audited_witness :
  exists e s' w' new, run demo_policy demo_adapter (demo_req "hello" (Some hr_token) false None)
      demo_state w_empty = (Err e, (s', w')) /\ exn_class e = TokenScopeError /\
    w_log w' = w_log w_empty ++ new /\ Exists (refusal_line (uuid_str demo_task)) new.
Proof.
  assert (Hc : match (run demo_policy demo_adapter (demo_req "hello" (Some hr_token) false None)
                  demo_state w_empty).1 with Ok _ => false
               | Err e => bool_decide (exn_class e = TokenScopeError) end = true)
    by (vm_compute; reflexivity).
  destruct (run demo_policy demo_adapter (demo_req "hello" (Some hr_token) false None)
              demo_state w_empty) as [[res|e] [s' w']] eqn:E; [discriminate Hc|].
  apply bool_decide_eq_true in Hc.
  destruct (proj2 stage_failure_audited demo_policy demo_adapter
    (demo_req "hello" (Some hr_token) false None) demo_task demo_state w_empty e s' w'
    demo_foreign_errors (is_llama _ _) eq_refl) as (new & Hl & Hn).
  - split; [reflexivity|]. exists hr_token. split; [reflexivity|].
    apply (bool_decide_unpack _). vm_compute. exact I.
  - exact E.
  - unfold isinstance. rewrite Hc. reflexivity.
  - exists e, s', w', new. auto.
Defined.

(** ** Adapters *)

Definition protected_request (token proof : string) : LLMRequest :=
  mkLLMRequest "hello" "llama3" 64 (JInt 0) ""
    [(AegisTokenKey, token); (AegisProofKey, proof); (AegisProtectedKey, "true"%string)].
Definition demo_bound_token : string :=
  match (issue_sender_constrained_token demo_request demo_jwk demo_manager w_empty).1 with
  | Ok t => t | Err _ => ""
  end.
Definition demo_bound_proof : string :=
  match (issue_dpop_proof (R := InMemoryDPoPReplayStore) "client-key" demo_jwk "POST"
           "http://localhost:11434/v1/chat/completions" (Some demo_bound_token) None None
           (Some "proof-1"%string) demo_manager w_empty).1 with
  | Ok t => t | Err _ => ""
  end.

Lemma protected_request_bound_witness :
  exists q claims sw,
    w_http (complete demo_adapter (protected_request demo_bound_token demo_bound_proof)
              (o_shared demo_state) w_empty).2.2 = [q] /\
    hr_url q = "http://localhost:11434/v1/chat/completions"%string /\
    validate_sender_constrained_token demo_bound_token demo_bound_proof "POST"
      "http://localhost:11434/v1/chat/completions" None None demo_manager w_empty
    = (Ok claims, sw).
Proof.
  assert (Hok : is_ok (complete demo_adapter (protected_request demo_bound_token demo_bound_proof)
                  (o_shared demo_state) w_empty).1 = true) by (vm_compute; reflexivity).
  destruct (protected_request_bound demo_adapter
    (protected_request demo_bound_token demo_bound_proof) (o_shared demo_state) w_empty)
    as (url & Hb & Hr); [|exact (is_llama _ _)|reflexivity|].
  { intros j ttl. unfold register_if_unused, in_memory_store, in_memory_register. hush. }
  injection Hb as <-.
  destruct (complete demo_adapter (protected_request demo_bound_token demo_bound_proof)
              (o_shared demo_state) w_empty) as [res [s' w']].
  destruct Hr as [[_ [e ->]]|(q & t & p & c & sw & Hs & Hu & Ht & Hp & Hv)]; [discriminate Hok|].
  injection Ht as <-. injection Hp as <-. exists q, c, sw. split; [exact Hs|].
  split; [exact Hu|exact Hv].
Defined.

Lemma unbound_request_not_sent_witness :
  exists e s' w', complete demo_adapter
      (mkLLMRequest "hello" "llama3" 64 (JInt 0) "" [(AegisProtectedKey, "true"%string)])
      (o_shared demo_state) w_empty = (Err e, (s', w')) /\ w_http w' = [].
Proof.
  destruct (unbound_request_not_sent demo_adapter
    (mkLLMRequest "hello" "llama3" 64 (JInt 0) "" [(AegisProtectedKey, "true"%string)])
    (o_shared demo_state) w_empty (is_llama _ _) eq_refl (or_introl eq_refl))
    as (e & s' & w' & E & Hh & _).
  exists e, s', w'. split; [exact E|exact Hh].
Defined.
