(* ===== verification/Workflow.v ===== *)
(** * src/control_plane/scheduler.py: the durable workflow

    [AgentTaskWorkflow] is a coroutine that the Temporal server drives: it
    suspends at every activity and at the approval gate, and signal handlers run
    while it is suspended.  A suspended or finished coroutine is a [step]; what
    the server delivers is an [event]; [wstep] is the transition relation and
    [execs] its runs.  What an activity returns is the server's business: every
    theorem here holds for arbitrary outcomes.

    [workflow.now()] is an event too, so that time is arbitrary.  [Done] says that the
    coroutine has returned or raised; [closes] says whether that ends the workflow. *)
From Stdlib Require Import ZArith Lia String.
From stdpp Require Import base gmap strings list pretty.
From S2P Require Import Prelude PyDecimal PyUuid World BudgetEnforcer LoopDetector AuditLogger.

(** ** Enumerations *)

Module WorkflowStatus.
Inductive t : Type :=
  | PENDING | RUNNING | COMPLETED | FAILED | HUMAN_INTERVENTION_REQUIRED.
#[global] Instance t_eq_dec : EqDecision t.
Proof. solve_decision. Defined.
Definition value (x : t) : string :=
  match x with
  | PENDING => "pending"
  | RUNNING => "running"
  | COMPLETED => "completed"
  | FAILED => "failed"
  | HUMAN_INTERVENTION_REQUIRED => "human_intervention_required"
  end.
End WorkflowStatus.

Module PendingApprovalState.
Inductive t : Type :=
  | NOT_REQUIRED | AWAITING_APPROVAL | APPROVED | DENIED | TIMED_OUT.
#[global] Instance t_eq_dec : EqDecision t.
Proof. solve_decision. Defined.
Definition value (x : t) : string :=
  match x with
  | NOT_REQUIRED => "not-required"
  | AWAITING_APPROVAL => "awaiting-approval"
  | APPROVED => "approved"
  | DENIED => "denied"
  | TIMED_OUT => "timed-out"
  end.
End PendingApprovalState.

(** ** Activity inputs and outputs *)

Record ApprovalSignalPayload : Type := mkDecision {
  approver_id : string;
  reason : string;
  approved : bool
}.

Record ApprovalStatusSnapshot : Type := mkStatus {
  st_task_id : string;
  st_session_id : option string;
  st_agent_type : string;
  st_workflow_status : string;
  st_approval_state : string;
  st_pending_since : option Z
}.

Record WorkflowInput : Type := mkWorkflowInput {
  wi_task_id : string;
  wi_prompt : string;
  wi_agent_type : string;
  wi_requester_id : string;
  wi_model : string;
  wi_max_tokens : Z;
  wi_temperature : json;
  wi_system_prompt : string;
  wi_protect_outbound_request : bool;
  wi_session_id : option string;
  wi_budget_session_id : option string;
  wi_budget_limit_usd : option string;
  wi_cost_per_token_usd : string;
  wi_loop_session_id : option string;
  wi_loop_signal : LoopSignal;
  wi_loop_token_delta : option Z;
  wi_loop_max_agent_steps : option Z;
  wi_loop_max_token_velocity : option Z;
  wi_projected_spend_usd : string;
  wi_approval_timeout_seconds : Z;
  wi_traceparent : option string
}.

Record PrePIIScrubResult : Type := mkScrub {
  sr_sanitized_prompt : string;
  sr_pii_types : list string
}.

Record PolicyEvalInput : Type := mkPolicyEvalInput {
  pv_task_id : string;
  pv_sanitized_prompt : string;
  pv_agent_type : string;
  pv_requester_id : string;
  pv_model : string;
  pv_traceparent : option string
}.
Record PolicyEvalResult : Type := mkPolicyEvalResult {
  pr_allowed : bool;
  pr_action : string;
  pr_fields : list string;
  pr_sanitized_prompt : string;
  pr_extra_pii_types : list string
}.

Record JITTokenInput : Type := mkJITTokenInput {
  ji_agent_type : string;
  ji_requester_id : string;
  ji_task_id : string;
  ji_protect_outbound_request : bool;
  ji_session_id : option string;
  ji_allowed_actions : list string;
  ji_role : option string;
  ji_rotation_key : option string;
  ji_traceparent : option string
}.
Record JITTokenResult : Type := mkJITTokenResult {
  jr_token : string;
  jr_jti : string;
  jr_protected_private_key_pem : option string;
  jr_protected_public_jwk : option (list (string * json))
}.

Record LLMInvokeInput : Type := mkLLMInvokeInput {
  li_task_id : string;
  li_token : string;
  li_sanitized_prompt : string;
  li_agent_type : string;
  li_requester_id : string;
  li_model : string;
  li_max_tokens : Z;
  li_temperature : json;
  li_system_prompt : string;
  li_protect_outbound_request : bool;
  li_session_id : option string;
  li_allowed_actions : list string;
  li_role : option string;
  li_rotation_key : option string;
  li_protected_private_key_pem : option string;
  li_protected_public_jwk : option (list (string * json));
  li_traceparent : option string
}.
Record LLMInvokeResult : Type := mkLLMInvokeResult {
  lv_content : string;
  lv_tokens_used : Z;
  lv_model : string;
  lv_provider : string;
  lv_retry_count : Z
}.

Record PostSanitizeInput : Type := mkPostSanitizeInput {
  si_task_id : string;
  si_agent_type : string;
  si_content : string;
  si_tokens_used : Z;
  si_model : string;
  si_provider : string;
  si_session_id : option string;
  si_total_retries : Z;
  si_traceparent : option string
}.
Record PostSanitizeResult : Type := mkPostSanitizeResult {
  sv_sanitized_content : string;
  sv_pii_types : list string
}.

Record WorkflowOutput : Type := mkWorkflowOutput {
  wo_task_id : string;
  wo_content : string;
  wo_sanitized_prompt : string;
  wo_pii_types : list string;
  wo_tokens_used : Z;
  wo_model : string;
  wo_workflow_status : string;
  wo_approval_state : string;
  wo_approver_id : option string;
  wo_reason : option string;
  wo_budget_spent_usd : option string
}.

Record WorkflowAuditInput : Type := mkWorkflowAudit {
  ai_event : string;
  ai_outcome : string;
  ai_stage : string;
  ai_task_id : string;
  ai_agent_type : string;
  ai_session_id : option string;
  ai_workflow_status : string;
  ai_event_type : option string;
  ai_details : list (string * json);
  ai_traceparent : option string
}.

Record BudgetPreCheckInput : Type := mkBudgetPreCheck {
  bi_task_id : string;
  bi_agent_type : string;
  bi_budget_session_id : string;
  bi_budget_limit_usd : string;
  bi_history : list BudgetHistoryEntry;
  bi_traceparent : option string
}.
Record BudgetPreCheckResult : Type := mkBudgetPreCheckResult {
  bc_snapshot : BudgetSessionSnapshot
}.

Record BudgetRecordInput : Type := mkBudgetRecord {
  br_task_id : string;
  br_agent_type : string;
  br_budget_session_id : string;
  br_budget_limit_usd : string;
  br_tokens_used : Z;
  br_cost_per_token_usd : string;
  br_history : list BudgetHistoryEntry;
  br_traceparent : option string
}.
Record BudgetRecordResult : Type := mkBudgetRecordResult {
  bv_snapshot : BudgetSessionSnapshot;
  bv_history : list BudgetHistoryEntry
}.

Record LoopRecordInput : Type := mkLoopRecord {
  lo_task_id : string;
  lo_agent_type : string;
  lo_loop_session_id : string;
  lo_token_delta : Z;
  lo_signal : LoopSignal;
  lo_description : string;
  lo_checkpoint : option ExecutionCheckpoint;
  lo_max_agent_steps : option Z;
  lo_max_token_velocity : option Z;
  lo_traceparent : option string
}.
Record LoopRecordResult : Type := mkLoopRecordResult {
  lw_checkpoint : ExecutionCheckpoint;
  lw_step_count : Z;
  lw_total_tokens : Z;
  lw_loop_detected : bool;
  lw_intervention_required : bool
}.

(** ** Activities *)

(** The activities registered with the worker, by the type of their result. *)
Inductive activity : Type -> Type :=
  | PrePIIScrub (inp : WorkflowInput) : activity PrePIIScrubResult
  | PolicyEval (inp : PolicyEvalInput) : activity PolicyEvalResult
  | JITTokenIssue (inp : JITTokenInput) : activity JITTokenResult
  | BudgetPreCheck (inp : BudgetPreCheckInput) : activity BudgetPreCheckResult
  | LLMInvoke (inp : LLMInvokeInput) : activity LLMInvokeResult
  | BudgetRecordSpend (inp : BudgetRecordInput) : activity BudgetRecordResult
  | LoopRecordStep (inp : LoopRecordInput) : activity LoopRecordResult
  | PostSanitize (inp : PostSanitizeInput) : activity PostSanitizeResult
  | WorkflowAudit (inp : WorkflowAuditInput) : activity unit.

(** [RetryPolicy] (intervals in seconds) and the options of [execute_activity]. *)
Record RetryPolicy : Type := mkRetryPolicy {
  initial_interval : Z;
  backoff_coefficient : Z;
  maximum_attempts : Z;
  non_retryable_error_types : list string
}.
Definition attempts (n : Z) (non_retryable : list string) : RetryPolicy :=
  mkRetryPolicy 1 2 n non_retryable.

Definition LLM_RETRY_POLICY : RetryPolicy :=
  mkRetryPolicy 1 2 5
    ["PolicyDeniedError"; "TokenScopeError"; "TokenExpiredError"; "HITLEscalationError"]%string.

Record activity_options : Type := mkOptions {
  schedule_to_close_timeout : Z;
  retry_policy : RetryPolicy
}.

(** The failure the server reports: [exc.cause] is the [ApplicationError] of the
    last attempt, or something else (a time-out, a cancellation, nothing). *)
Inductive failure_cause : Type :=
  | CauseApplication (type : option string) (message : string)
  | CauseOther (e : exn)
  | CauseNone.
Record ActivityFailure : Type := mkActivityFailure {
  af_message : string;
  af_cause : failure_cause;
  af_retry_state : string
}.

(** An exception inside the workflow. *)
Inductive wf_exn : Type :=
  | WfActivityError (e : ActivityFailure)
  | WfApplicationError (type message : string) (source : ActivityFailure)
  | WfEscalation (message : string) (source : ActivityFailure)
  | WfRaised (e : exn).

(** What leaves the coroutine ends the workflow: a result does, a [FailureError] of
    temporalio does ([ActivityError] and [ApplicationError] are), and a cancellation.
    [HITLEscalationError] derives from [Exception] directly; worker.py registers no
    failure exception types, so temporalio fails the workflow task instead, and tries it
    again. *)
Definition closes {A} (r : wf_exn + A) : bool :=
  match r with
  | inr _ | inl (WfActivityError _) | inl (WfApplicationError _ _ _) => true
  | inl (WfEscalation _ _) => false
  | inl (WfRaised e) => isinstance e CancelledError
  end.

(** How an [await] can end: an activity completes, fails, or the coroutine is
    interrupted (cancelled) before it was scheduled. *)
Inductive outcome (X : Type) : Type :=
  | Completed (x : X)
  | Failed (e : ActivityFailure)
  | Aborted (e : exn).
Arguments Completed {X} x.
Arguments Failed {X} e.
Arguments Aborted {X} e.

Inductive wait_outcome : Type := Woken | TimedOut | Interrupted (e : exn).

(** ** Coroutines *)

(** The fields of a workflow instance. *)
Record Instance_ : Type := mkInstance {
  _task_id : string;
  _session_id : option string;
  _agent_type : string;
  _workflow_status : string;
  _approval_state : PendingApprovalState.t;
  _approval_signal : option ApprovalSignalPayload;
  _pending_since_epoch_seconds : option Z
}.

Definition AgentTaskWorkflow_init : Instance_ :=
  mkInstance "" None "general" (WorkflowStatus.value WorkflowStatus.PENDING)
    PendingApprovalState.NOT_REQUIRED None None.

Inductive step (A : Type) : Type :=
  | Done (r : wf_exn + A) (s : Instance_)
  | Activity {X : Type} (a : activity X) (o : activity_options) (s : Instance_)
      (k : outcome X -> Instance_ -> step A)
  | Wait (timeout_seconds : Z) (s : Instance_) (k : wait_outcome -> Instance_ -> step A)
  | Now (s : Instance_) (k : Z -> Instance_ -> step A).
Arguments Done {A} r s.
Arguments Activity {A X} a o s k.
Arguments Wait {A} timeout_seconds s k.
Arguments Now {A} s k.

Definition WF (A : Type) : Type := Instance_ -> step A.

Fixpoint step_bind {A B} (c : step A) (f : A -> WF B) : step B :=
  match c with
  | Done (inl e) s => Done (inl e) s
  | Done (inr a) s => f a s
  | Activity a o s k => Activity a o s (fun r s => step_bind (k r s) f)
  | Wait t s k => Wait t s (fun r s => step_bind (k r s) f)
  | Now s k => Now s (fun t s => step_bind (k t s) f)
  end.

Fixpoint step_try {A} (c : step A) (h : wf_exn -> WF A) : step A :=
  match c with
  | Done (inl e) s => h e s
  | Done (inr a) s => Done (inr a) s
  | Activity a o s k => Activity a o s (fun r s => step_try (k r s) h)
  | Wait t s k => Wait t s (fun r s => step_try (k r s) h)
  | Now s k => Now s (fun t s => step_try (k t s) h)
  end.

#[global] Instance WF_ret : MRet WF := fun A a s => Done (inr a) s.
#[global] Instance WF_bind : MBind WF := fun A B f m s => step_bind (m s) f.
Definition wf_raise {A} (e : wf_exn) : WF A := fun s => Done (inl e) s.
Definition wf_try {A} (m : WF A) (h : wf_exn -> WF A) : WF A := fun s => step_try (m s) h.
Definition assign (f : Instance_ -> Instance_) : WF unit := fun s => Done (inr tt) (f s).
Definition self : WF Instance_ := fun s => Done (inr s) s.

Definition execute_activity {X} (a : activity X) (o : activity_options) : WF X := fun s =>
  Activity a o s (fun r s =>
    Done (match r with
          | Completed x => inr x
          | Failed e => inl (WfActivityError e)
          | Aborted e => inl (WfRaised e)
          end) s).
(** [workflow.wait_condition(lambda: self._approval_signal is not None, timeout)] *)
Definition wait_condition (timeout_seconds : Z) : WF unit := fun s =>
  Wait timeout_seconds s (fun r s =>
    Done (match r with
          | Woken => inr tt
          | TimedOut => inl (WfRaised (Exn TimeoutError "" None))
          | Interrupted e => inl (WfRaised e)
          end) s).
Definition workflow_now : WF Z := fun s => Now s (fun t s => Done (inr t) s).

(** ** AgentTaskWorkflow *)

Definition set_status (v : string) (s : Instance_) : Instance_ :=
  mkInstance (_task_id s) (_session_id s) (_agent_type s) v (_approval_state s)
    (_approval_signal s) (_pending_since_epoch_seconds s).
Definition set_approval (v : PendingApprovalState.t) (s : Instance_) : Instance_ :=
  mkInstance (_task_id s) (_session_id s) (_agent_type s) (_workflow_status s) v
    (_approval_signal s) (_pending_since_epoch_seconds s).
Definition set_signal (d : ApprovalSignalPayload) (s : Instance_) : Instance_ :=
  mkInstance (_task_id s) (_session_id s) (_agent_type s) (_workflow_status s)
    (_approval_state s) (Some d) (_pending_since_epoch_seconds s).
Definition set_pending (v : option Z) (s : Instance_) : Instance_ :=
  mkInstance (_task_id s) (_session_id s) (_agent_type s) (_workflow_status s)
    (_approval_state s) (_approval_signal s) v.

(** The signal handlers. *)
Definition approve (decision : ApprovalSignalPayload) (s : Instance_) : Instance_ :=
  if bool_decide (_approval_state s = PendingApprovalState.AWAITING_APPROVAL)
  then set_signal decision s else s.
Definition deny (decision : ApprovalSignalPayload) (s : Instance_) : Instance_ :=
  if bool_decide (_approval_state s = PendingApprovalState.AWAITING_APPROVAL)
  then set_signal decision s else s.

(** The query handler. *)
Definition approval_status (s : Instance_) : ApprovalStatusSnapshot :=
  mkStatus (_task_id s) (_session_id s) (_agent_type s) (_workflow_status s)
    (PendingApprovalState.value (_approval_state s)) (_pending_since_epoch_seconds s).

Definition minutes (n : Z) : Z := 60 * n.

(** [await workflow.execute_activity("WorkflowAudit", WorkflowAuditInput(...))]
    with [workflow_status=self._workflow_status]. *)
Definition audit_opts : activity_options := mkOptions (minutes 1) (attempts 3 []).
Definition audit_input (inp : WorkflowInput) (event outcome stage : string)
    (event_type : option LifecycleEvent) (details : list (string * json)) (status : string)
    : WorkflowAuditInput :=
  mkWorkflowAudit event outcome stage (wi_task_id inp) (wi_agent_type inp) (wi_session_id inp)
    status (LifecycleEvent_value <$> event_type) details None.
Definition audit_event (mk : string -> WorkflowAuditInput) : WF unit :=
  s ← self; execute_activity (WorkflowAudit (mk (_workflow_status s))) audit_opts.

(** The four events of the gate and the two of a failed LLM call. *)
Definition pending_audit (inp : WorkflowInput) : string -> WorkflowAuditInput :=
  audit_input inp "workflow.pending_approval" "allow" "pending-approval" (Some PENDING_APPROVAL)
    [("projected_spend_usd"%string, JStr (wi_projected_spend_usd inp))].
Definition timeout_audit (inp : WorkflowInput) : string -> WorkflowAuditInput :=
  audit_input inp "workflow.timed_out" "deny" "pending-approval" (Some DENIED)
    [("approver_id"%string, JStr "timeout")].
Definition decision_audit (inp : WorkflowInput) (d : ApprovalSignalPayload)
    : string -> WorkflowAuditInput :=
  audit_input inp (if approved d then "workflow.approved" else "workflow.denied")
    (if approved d then "allow" else "deny") "pending-approval"
    (Some (if approved d then APPROVED else DENIED))
    [("approver_id"%string, JStr (approver_id d)); ("reason"%string, JStr (reason d))].
Definition failed_audit (inp : WorkflowInput) (ty message : string)
    : string -> WorkflowAuditInput :=
  audit_input inp "workflow.failed" "error" "llm-invoke" (Some FAILED)
    [("error_type"%string, JStr ty); ("reason"%string, JStr message)].
Definition hitl_audit (inp : WorkflowInput) (exc : ActivityFailure)
    : string -> WorkflowAuditInput :=
  audit_input inp "workflow.hitl_required" "error" "llm-invoke" None
    [("maximum_attempts"%string, JStr (pretty (maximum_attempts LLM_RETRY_POLICY)));
     ("retry_state"%string, JStr (af_retry_state exc))].
Definition timeout_decision : ApprovalSignalPayload :=
  mkDecision "timeout" "Approval timed out" false.

(** The [except TimeoutError] clause. *)
Definition record_timeout (inp : WorkflowInput) : WF ApprovalSignalPayload :=
  assign (set_approval PendingApprovalState.TIMED_OUT) ;;
  assign (set_status (PendingApprovalState.value PendingApprovalState.TIMED_OUT)) ;;
  assign (set_pending None) ;;
  audit_event (timeout_audit inp) ;;
  mret timeout_decision.

(** What follows the wait. *)
Definition record_decision (inp : WorkflowInput) (signal : ApprovalSignalPayload)
    : WF ApprovalSignalPayload :=
  assign (set_approval (if approved signal then PendingApprovalState.APPROVED
                        else PendingApprovalState.DENIED)) ;;
  assign (set_status (if approved signal then WorkflowStatus.value WorkflowStatus.RUNNING
                      else PendingApprovalState.value PendingApprovalState.DENIED)) ;;
  assign (set_pending None) ;;
  audit_event (decision_audit inp signal) ;;
  mret signal.

Definition _await_pending_approval (inp : WorkflowInput) : WF ApprovalSignalPayload :=
  assign (set_approval PendingApprovalState.AWAITING_APPROVAL) ;;
  assign (set_status (WorkflowStatus.value WorkflowStatus.HUMAN_INTERVENTION_REQUIRED)) ;;
  now ← workflow_now;
  assign (set_pending (Some now)) ;;
  audit_event (pending_audit inp) ;;
  timed_out ← wf_try (wait_condition (wi_approval_timeout_seconds inp) ;; mret false)
    (fun e => match e with
              | WfRaised x => if isinstance x TimeoutError then mret true else wf_raise e
              | _ => wf_raise e
              end);
  if (timed_out : bool) then record_timeout inp
  else
    s ← self;
    match _approval_signal s with
    | None => wf_raise (WfRaised (Exn AssertionError "" None))
    | Some signal => record_decision inp signal
    end.

(** [Decimal(s)] *)
Definition decimal (s : string) : WF Decimal :=
  match dec_parse s with
  | Some d => mret d
  | None => wf_raise (WfRaised (Exn InvalidOperation "[<class 'decimal.ConversionSyntax'>]" None))
  end.

(** [for t in l: if t not in acc: acc.append(t)] *)
Definition merge_types (acc l : list string) : list string :=
  foldl (fun acc t => if bool_decide (t ∈ acc) then acc else acc ++ [t]) acc l.

Definition scrub_opts : activity_options := mkOptions (minutes 5) (attempts 3 []).
Definition policy_opts : activity_options :=
  mkOptions (minutes 5) (attempts 1 ["PolicyDeniedError"%string]).
Definition jit_opts : activity_options := mkOptions (minutes 5) (attempts 3 []).
Definition precheck_opts : activity_options :=
  mkOptions (minutes 5) (attempts 1 ["BudgetExceededError"%string]).
Definition llm_opts : activity_options := mkOptions (minutes 10) LLM_RETRY_POLICY.
Definition record_opts : activity_options :=
  mkOptions (minutes 5) (attempts 3 ["BudgetExceededError"%string]).
Definition post_opts : activity_options := mkOptions (minutes 5) (attempts 3 []).

Definition policy_eval_input (inp : WorkflowInput) (scrub : PrePIIScrubResult)
    : PolicyEvalInput :=
  mkPolicyEvalInput (wi_task_id inp) (sr_sanitized_prompt scrub) (wi_agent_type inp)
    (wi_requester_id inp) (wi_model inp) (wi_traceparent inp).

Definition jit_token_input (inp : WorkflowInput) : JITTokenInput :=
  mkJITTokenInput (wi_agent_type inp) (wi_requester_id inp) (wi_task_id inp)
    (wi_protect_outbound_request inp) (wi_session_id inp) ["llm:complete"%string] None
    (Some ("llm:" +:+ wi_task_id inp)) (wi_traceparent inp).

Definition llm_invoke_input (inp : WorkflowInput) (policy : PolicyEvalResult)
    (token : JITTokenResult) : LLMInvokeInput :=
  mkLLMInvokeInput (wi_task_id inp) (jr_token token) (pr_sanitized_prompt policy)
    (wi_agent_type inp) (wi_requester_id inp) (wi_model inp) (wi_max_tokens inp)
    (wi_temperature inp) (wi_system_prompt inp) (wi_protect_outbound_request inp)
    (wi_session_id inp) ["llm:complete"%string] None (Some ("llm:" +:+ wi_task_id inp))
    (jr_protected_private_key_pem token) (jr_protected_public_jwk token) (wi_traceparent inp).

Definition post_sanitize_input (inp : WorkflowInput) (llm : LLMInvokeResult)
    : PostSanitizeInput :=
  mkPostSanitizeInput (wi_task_id inp) (wi_agent_type inp) (lv_content llm) (lv_tokens_used llm)
    (lv_model llm) (lv_provider llm) (wi_session_id inp) (lv_retry_count llm)
    (wi_traceparent inp).

(** The budget session of a task: both fields are given. *)
Definition budget_of (inp : WorkflowInput) : option (string * string) :=
  match wi_budget_session_id inp, wi_budget_limit_usd inp with
  | Some sid, Some limit => Some (sid, limit)
  | _, _ => None
  end.

Definition precheck_input (inp : WorkflowInput) (sid limit : string) : BudgetPreCheckInput :=
  mkBudgetPreCheck (wi_task_id inp) (wi_agent_type inp) sid limit [] (wi_traceparent inp).
Definition record_input (inp : WorkflowInput) (llm : LLMInvokeResult) (sid limit : string)
    : BudgetRecordInput :=
  mkBudgetRecord (wi_task_id inp) (wi_agent_type inp) sid limit (lv_tokens_used llm)
    (wi_cost_per_token_usd inp) [] (wi_traceparent inp).

(** The error types that end the workflow with the activity's own error. *)
Definition terminal_types : list string :=
  ["PolicyDeniedError"; "TokenScopeError"; "TokenExpiredError"]%string.
Definition terminal_cause (c : failure_cause) : option (string * string) :=
  match c with
  | CauseApplication (Some ty) message =>
      if bool_decide (ty ∈ terminal_types) then Some (ty, message) else None
  | _ => None
  end.

Definition escalation_message (inp : WorkflowInput) (exc : ActivityFailure) : string :=
  "LLMInvoke exhausted " +:+ pretty (maximum_attempts LLM_RETRY_POLICY)
  +:+ " attempts for task_id=" +:+ wi_task_id inp +:+ ": " +:+ af_message exc.

(** The [except ActivityError] clause around LLMInvoke. *)
Definition llm_failed {A} (inp : WorkflowInput) (exc : ActivityFailure) : WF A :=
  match terminal_cause (af_cause exc) with
  | Some (ty, message) =>
      assign (set_status (WorkflowStatus.value WorkflowStatus.FAILED)) ;;
      audit_event (failed_audit inp ty message) ;;
      wf_raise (WfApplicationError ty message exc)
  | None =>
      assign (set_status (WorkflowStatus.value WorkflowStatus.HUMAN_INTERVENTION_REQUIRED)) ;;
      audit_event (hitl_audit inp exc) ;;
      wf_raise (WfEscalation (escalation_message inp exc) exc)
  end.

Definition refused_output (inp : WorkflowInput) (scrub : PrePIIScrubResult)
    (policy : PolicyEvalResult) (decision : ApprovalSignalPayload) (status : string)
    (state : PendingApprovalState.t) : WorkflowOutput :=
  mkWorkflowOutput (wi_task_id inp) "" (pr_sanitized_prompt policy) (sr_pii_types scrub) 0
    (wi_model inp) status (PendingApprovalState.value state)
    (Some (approver_id decision)) (Some (reason decision)) None.

Definition completed_output (inp : WorkflowInput) (scrub : PrePIIScrubResult)
    (policy : PolicyEvalResult) (llm : LLMInvokeResult) (post : PostSanitizeResult)
    (spent : option string) (state : PendingApprovalState.t) : WorkflowOutput :=
  let all_pii_types :=
    merge_types (merge_types (sr_pii_types scrub) (pr_extra_pii_types policy))
      (sv_pii_types post) in
  mkWorkflowOutput (wi_task_id inp) (sv_sanitized_content post) (pr_sanitized_prompt policy)
    all_pii_types (lv_tokens_used llm) (lv_model llm) "completed"
    (PendingApprovalState.value state) None None spent.

(** The part of [run] from the budget pre-check on. *)
Definition run_cleared (inp : WorkflowInput) (scrub : PrePIIScrubResult)
    (policy : PolicyEvalResult) (token : JITTokenResult) : WF WorkflowOutput :=
  spent ← (match budget_of inp with
           | Some (sid, limit) =>
               r ← execute_activity (BudgetPreCheck (precheck_input inp sid limit)) precheck_opts;
               mret (Some (snap_cost_usd (bc_snapshot r)))
           | None => mret None
           end);
  llm ← wf_try (execute_activity (LLMInvoke (llm_invoke_input inp policy token)) llm_opts)
    (fun e => match e with WfActivityError exc => llm_failed inp exc | _ => wf_raise e end);
  spent ← (match budget_of inp with
           | Some (sid, limit) =>
               r ← execute_activity (BudgetRecordSpend (record_input inp llm sid limit))
                     record_opts;
               mret (Some (snap_cost_usd (bv_snapshot r)))
           | None => mret spent
           end);
  post ← execute_activity (PostSanitize (post_sanitize_input inp llm)) post_opts;
  assign (set_status (WorkflowStatus.value WorkflowStatus.COMPLETED)) ;;
  s ← self;
  mret (completed_output inp scrub policy llm post spent (_approval_state s)).

Definition start (inp : WorkflowInput) (s : Instance_) : Instance_ :=
  mkInstance (wi_task_id inp) (wi_session_id inp) (wi_agent_type inp)
    (WorkflowStatus.value WorkflowStatus.RUNNING) (_approval_state s) (_approval_signal s) None.

Definition run (inp : WorkflowInput) : WF WorkflowOutput :=
  assign (start inp) ;;
  scrub ← execute_activity (PrePIIScrub inp) scrub_opts;
  policy ← execute_activity (PolicyEval (policy_eval_input inp scrub)) policy_opts;
  token ← execute_activity (JITTokenIssue (jit_token_input inp)) jit_opts;
  projected ← decimal (wi_projected_spend_usd inp);
  threshold ← decimal "50.00";
  if dec_ltb threshold projected then
    decision ← _await_pending_approval inp;
    if negb (approved decision) then
      s ← self;
      mret (refused_output inp scrub policy decision (_workflow_status s) (_approval_state s))
    else run_cleared inp scrub policy token
  else run_cleared inp scrub policy token.

(** ** What the server does to a workflow *)

Inductive signal : Type :=
  | Approve (d : ApprovalSignalPayload)
  | Deny (d : ApprovalSignalPayload).
Definition payload (g : signal) : ApprovalSignalPayload :=
  match g with Approve d | Deny d => d end.
Definition handle (g : signal) (s : Instance_) : Instance_ :=
  match g with Approve d => approve d s | Deny d => deny d s end.
Definition handle_all (gs : list signal) (s : Instance_) : Instance_ :=
  foldl (fun s g => handle g s) s gs.

Inductive event : Type :=
  | ESignal (g : signal)
  | EActivity {X : Type} (a : activity X) (r : outcome X)
  | EWait (r : wait_outcome)
  | ENow (t : Z).

(** The wait ends when the condition holds; a time-out or an interruption
    (anything but [TimeoutError]) may hit a waiting workflow at any moment. *)
Definition wait_ok (r : wait_outcome) (s : Instance_) : Prop :=
  match r with
  | Woken => is_Some (_approval_signal s)
  | TimedOut => True
  | Interrupted e => isinstance e TimeoutError = false
  end.

Inductive wstep {A : Type} : step A -> event -> step A -> Prop :=
  | ws_signal_activity X (a : activity X) o s k g :
      wstep (Activity a o s k) (ESignal g) (Activity a o (handle g s) k)
  | ws_signal_wait t s k g :
      wstep (Wait t s k) (ESignal g) (Wait t (handle g s) k)
  | ws_activity X (a : activity X) o s k r :
      wstep (Activity a o s k) (EActivity a r) (k r s)
  | ws_wait t s k r : wait_ok r s -> wstep (Wait t s k) (EWait r) (k r s)
  | ws_now s k t : wstep (Now s k) (ENow t) (k t s).

Inductive execs {A : Type} : step A -> list event -> step A -> Prop :=
  | execs_refl c : execs c [] c
  | execs_cons c e c' es c'' : wstep c e c' -> execs c' es c'' -> execs c (e :: es) c''.

(** ** A logic for workflows

    [wsafe Req Post h c]: with the history [h] behind it, the coroutine [c]
    requests an activity [a] only where [Req h a s] holds, whatever signals
    arrive and whatever the server answers, and ends only where [Post] holds.
    [Req], and [Gate] at the approval gate, are checked after any signals that
    arrive while the coroutine is suspended. *)
Section logic.
Variable Req : forall X, list event -> activity X -> Instance_ -> Prop.
Variable Gate : list event -> Instance_ -> Prop.

Fixpoint wsafe {A} (Post : list event -> wf_exn + A -> Instance_ -> Prop)
    (h : list event) (c : step A) : Prop :=
  match c with
  | Done r s => Post h r s
  | Activity a _ s k =>
      forall gs, Req _ (h ++ (ESignal <$> gs)) a (handle_all gs s)
        /\ forall r, wsafe Post (h ++ (ESignal <$> gs) ++ [EActivity a r]) (k r (handle_all gs s))
  | Wait _ s k =>
      forall gs, Gate (h ++ (ESignal <$> gs)) (handle_all gs s)
        /\ forall r, wait_ok r (handle_all gs s) ->
             wsafe Post (h ++ (ESignal <$> gs) ++ [EWait r]) (k r (handle_all gs s))
  | Now s k => forall t, wsafe Post (h ++ [ENow t]) (k t s)
  end.

Lemma wsafe_step {A} Post h (c : step A) e c' :
  wsafe Post h c -> wstep c e c' -> wsafe Post (h ++ [e]) c'.
Proof.
  intros Hc Hs. destruct Hs as [X a o s k g|t s k g|X a o s k r|t s k r Hr|s k t]; simpl in *.
  - intros gs. destruct (Hc (g :: gs)) as [HR Hk]. rewrite <- app_assoc. split; [exact HR|].
    intros r. rewrite <- app_assoc. exact (Hk r).
  - intros gs. destruct (Hc (g :: gs)) as [HR Hk]. rewrite <- app_assoc. split; [exact HR|].
    intros r Hr. rewrite <- app_assoc. exact (Hk r Hr).
  - exact (proj2 (Hc []) r).
  - exact (proj2 (Hc []) r Hr).
  - exact (Hc t).
Qed.

(** Adequacy: safety is kept along every execution. *)
Lemma wsafe_execs {A} Post h (c : step A) es c' :
  wsafe Post h c -> execs c es c' -> wsafe Post (h ++ es) c'.
Proof.
  intros Hc He. revert h Hc. induction He as [c|c e c' es c'' Hs He IH]; intros h Hc.
  - rewrite app_nil_r. exact Hc.
  - rewrite cons_middle, app_assoc. apply IH. exact (wsafe_step _ _ _ _ _ Hc Hs).
Qed.

Lemma wsafe_mono {A} (P Q : list event -> wf_exn + A -> Instance_ -> Prop) h (c : step A) :
  (forall h r s, P h r s -> Q h r s) -> wsafe P h c -> wsafe Q h c.
Proof.
  intros HPQ. revert h. induction c as [r s|X a o s k IH|t s k IH|s k IH]; simpl; intros h Hc.
  - exact (HPQ _ _ _ Hc).
  - intros gs. destruct (Hc gs) as [HR Hk]. split; [exact HR|]. intros r. apply IH, Hk.
  - intros gs. destruct (Hc gs) as [HR Hk]. split; [exact HR|]. intros r Hr. apply IH, Hk, Hr.
  - intros t. apply IH, Hc.
Qed.

Lemma wsafe_bind {A B} (Post : list event -> wf_exn + B -> Instance_ -> Prop) h
    (c : step A) (f : A -> WF B) :
  wsafe (fun h r s => match r with
                      | inl e => Post h (inl e) s
                      | inr a => wsafe Post h (f a s)
                      end) h c ->
  wsafe Post h (step_bind c f).
Proof.
  revert h. induction c as [[e|a] s|X a o s k IH|t s k IH|s k IH]; simpl; intros h Hc; auto.
  - intros gs. destruct (Hc gs) as [HR Hk]. split; [exact HR|]. intros r. apply IH, Hk.
  - intros gs. destruct (Hc gs) as [HR Hk]. split; [exact HR|]. intros r Hr. apply IH, Hk, Hr.
Qed.

Lemma wsafe_try {A} (Post : list event -> wf_exn + A -> Instance_ -> Prop) h
    (c : step A) (f : wf_exn -> WF A) :
  wsafe (fun h r s => match r with
                      | inl e => wsafe Post h (f e s)
                      | inr a => Post h (inr a) s
                      end) h c ->
  wsafe Post h (step_try c f).
Proof.
  revert h. induction c as [[e|a] s|X a o s k IH|t s k IH|s k IH]; simpl; intros h Hc; auto.
  - intros gs. destruct (Hc gs) as [HR Hk]. split; [exact HR|]. intros r. apply IH, Hk.
  - intros gs. destruct (Hc gs) as [HR Hk]. split; [exact HR|]. intros r Hr. apply IH, Hk, Hr.
Qed.
End logic.

(** ** The approval gate, abstractly

    What approval means, as an automaton on the events the server delivers: the
    gate opens once, decisions count only while it is open, the last one
    delivered before the workflow wakes is the decision, and a closed gate stays
    as it is. *)
Definition gate_state : Type := PendingApprovalState.t * option ApprovalSignalPayload.

Definition gate_step (g : gate_state) (e : event) : gate_state :=
  match g, e with
  | (PendingApprovalState.NOT_REQUIRED, d), ENow _ => (PendingApprovalState.AWAITING_APPROVAL, d)
  | (PendingApprovalState.AWAITING_APPROVAL, _), ESignal x =>
      (PendingApprovalState.AWAITING_APPROVAL, Some (payload x))
  | (PendingApprovalState.AWAITING_APPROVAL, Some d), EWait Woken =>
      (if approved d then PendingApprovalState.APPROVED else PendingApprovalState.DENIED, Some d)
  | (PendingApprovalState.AWAITING_APPROVAL, d), EWait TimedOut =>
      (PendingApprovalState.TIMED_OUT, d)
  | _, _ => g
  end.
Definition gate_of (h : list event) : gate_state :=
  foldl gate_step (PendingApprovalState.NOT_REQUIRED, None) h.

(** The instance implements the automaton, and says since when it is waiting
    exactly while it is. *)
Record refines (h : list event) (s : Instance_) : Prop := {
  refines_gate : (_approval_state s, _approval_signal s) = gate_of h;
  refines_pending :
    is_Some (_pending_since_epoch_seconds s)
    <-> _approval_state s = PendingApprovalState.AWAITING_APPROVAL
}.

(** Everything but the signals: what the workflow itself asked for, the reading of the
    workflow clock ([workflow.now()], no await) included. *)
Definition is_act (e : event) : bool := match e with ESignal _ => false | _ => true end.
Definition acts (h : list event) : list event := List.filter is_act h.

(** What the workflow awaited: activities and the wait at the gate. *)
Definition is_await (e : event) : bool :=
  match e with EActivity _ _ | EWait _ => true | _ => false end.
Definition awaits (h : list event) : list event := List.filter is_await h.

Lemma gate_of_snoc h e : gate_of (h ++ [e]) = gate_step (gate_of h) e.
Proof. unfold gate_of. rewrite foldl_app. reflexivity. Qed.

Lemma acts_app h1 h2 : acts (h1 ++ h2) = acts h1 ++ acts h2.
Proof. apply List.filter_app. Qed.

Lemma acts_snoc h e : is_act e = true -> acts (h ++ [e]) = acts h ++ [e].
Proof. intros He. rewrite acts_app. simpl. rewrite He. reflexivity. Qed.

Lemma refines_signal h s g : refines h s -> refines (h ++ [ESignal g]) (handle g s).
Proof.
  intros [Hg Hp]. unfold handle, approve, deny.
  destruct (bool_decide_reflect (_approval_state s = PendingApprovalState.AWAITING_APPROVAL)) as [E|E].
  - split; [|destruct g; exact Hp].
    rewrite gate_of_snoc, <- Hg, E.
    destruct g; simpl; rewrite E; destruct (_approval_signal s); reflexivity.
  - split; [|destruct g; exact Hp].
    rewrite gate_of_snoc, <- Hg.
    destruct g; simpl; destruct (_approval_state s), (_approval_signal s); congruence.
Qed.

