(* ===== verification/WorkflowSafety.v ===== *)
(** * What the durable workflow guarantees

    The theorems about [AgentTaskWorkflow] (Workflow.v), for every sequence of
    signals, answers, time-outs and failures the server may deliver: which
    activities have completed when the LLM is called, what a returned result or
    a raised error means, that the approval state is the abstract gate
    automaton, and that every run is finite.

    The proofs run the coroutine symbolically in the logic [wsafe]; [at_]
    describes a point of the program between two signals. *)
From Stdlib Require Import ZArith Lia String.
From stdpp Require Import base gmap strings list pretty.
From S2P Require Import Prelude PyDecimal PyUuid World BudgetEnforcer LoopDetector AuditLogger.
From S2P Require Import Workflow.

(** ** Program points *)

(** A gate that is closed in state [x], or open. *)
Definition gate_is (o : option gate_state) (g : gate_state) : Prop :=
  match o with
  | Some x => g = x /\ x.1 <> PendingApprovalState.AWAITING_APPROVAL
  | None => g.1 = PendingApprovalState.AWAITING_APPROVAL
  end.

Record at_ (hist : list event) (o : option gate_state) (status : string)
    (h : list event) (s : Instance_) : Prop := {
  at_hist : acts h = hist;
  at_refines : refines h s;
  at_gate : gate_is o (gate_of h);
  at_status : _workflow_status s = status
}.

Lemma handle_status g s : _workflow_status (handle g s) = _workflow_status s.
Proof. destruct g; simpl; unfold approve, deny; case_bool_decide; reflexivity. Qed.

Lemma gate_is_signal o g x : gate_is o g -> gate_is o (gate_step g (ESignal x)).
Proof.
  destruct o as [y|]; simpl.
  - intros [-> Hy]. destruct y as [[] [d|]]; simpl in *; tauto.
  - destruct g as [[] [d|]]; simpl; congruence.
Qed.

Lemma at_signals hist o st h s gs :
  at_ hist o st h s -> at_ hist o st (h ++ (ESignal <$> gs)) (handle_all gs s).
Proof.
  revert h s. induction gs as [|g gs IH]; intros h s [Hh Hr Hg Hs]; simpl.
  - rewrite app_nil_r. split; assumption.
  - rewrite cons_middle, app_assoc. apply IH. split.
    + rewrite acts_app, Hh. apply app_nil_r.
    + apply refines_signal, Hr.
    + rewrite gate_of_snoc. apply gate_is_signal, Hg.
    + rewrite handle_status. exact Hs.
Qed.

(** An activity moves neither the gate nor the pending time. *)
Lemma gate_of_activity {X} h (a : activity X) r : gate_of (h ++ [EActivity a r]) = gate_of h.
Proof. rewrite gate_of_snoc. destruct (gate_of h) as [[] [d|]]; reflexivity. Qed.

Lemma at_activity {X} hist o st h s (a : activity X) r :
  at_ hist o st h s -> at_ (hist ++ [EActivity a r]) o st (h ++ [EActivity a r]) s.
Proof.
  intros [Hh [Hg Hp] Hgt Hs]. split.
  - rewrite acts_snoc, Hh; reflexivity.
  - split; [rewrite gate_of_activity; exact Hg|exact Hp].
  - rewrite gate_of_activity. exact Hgt.
  - exact Hs.
Qed.

Lemma at_set_status hist o st h s v :
  at_ hist o st h s -> at_ hist o v h (set_status v s).
Proof. intros [Hh [Hg Hp] Hgt Hs]. split; [exact Hh|split; assumption|exact Hgt|reflexivity]. Qed.

(** The gate opens. *)
Lemma at_open hist st h s t v :
  at_ hist (Some (PendingApprovalState.NOT_REQUIRED, None)) st h s ->
  at_ (hist ++ [ENow t]) None v (h ++ [ENow t])
    (set_pending (Some t)
       (set_status v (set_approval PendingApprovalState.AWAITING_APPROVAL s))).
Proof.
  intros [Hh [Hg Hp] [Hgt _] Hs]. rewrite Hgt in Hg. injection Hg as Ha Hsig. split.
  - rewrite acts_snoc, Hh; reflexivity.
  - split; [|split; [reflexivity|eauto]].
    rewrite gate_of_snoc, Hgt. simpl. rewrite Hsig. reflexivity.
  - rewrite gate_of_snoc, Hgt. reflexivity.
  - reflexivity.
Qed.

(** The gate closes, woken by a decision or by the clock. *)
Lemma at_closed hist st h s r v x :
  at_ hist None st h s ->
  (r = Woken \/ r = TimedOut) ->
  (r = Woken -> is_Some (_approval_signal s)) ->
  (x = match r, _approval_signal s with
       | Woken, Some d => if approved d then PendingApprovalState.APPROVED
                          else PendingApprovalState.DENIED
       | _, _ => PendingApprovalState.TIMED_OUT
       end) ->
  at_ (hist ++ [EWait r]) (Some (x, _approval_signal s)) v (h ++ [EWait r])
    (set_pending None (set_status v (set_approval x s))).
Proof.
  intros [Hh [Hg Hp] Hgt Hs] Hr Hsig Hx.
  assert (Hgs : gate_of (h ++ [EWait r]) = (x, _approval_signal s)
                /\ x <> PendingApprovalState.AWAITING_APPROVAL).
  { rewrite gate_of_snoc, <- Hg. rewrite <- Hg in Hgt. simpl in Hgt. rewrite Hgt.
    destruct Hr as [->| ->], (_approval_signal s) as [d|]; subst x; simpl.
    - destruct (approved d); split; congruence.
    - destruct (Hsig eq_refl) as [? [=]].
    - split; congruence.
    - split; congruence. }
  destruct Hgs as [Hgs Hna]. split.
  - rewrite acts_snoc, Hh; reflexivity.
  - split; [exact (eq_sym Hgs)|]. simpl. split; [intros [? [=]]|intros; contradiction].
  - rewrite Hgs. split; [reflexivity|exact Hna].
  - reflexivity.
Qed.

(** ** Proof rules *)

Section rules.
Context (Req : forall X, list event -> activity X -> Instance_ -> Prop).
Context (Gate : list event -> Instance_ -> Prop).
Abbreviation wsafe := (wsafe Req Gate).

(** [x = await execute_activity(...)] followed by the rest. *)
Lemma wsafe_activity {X A} (a : activity X) opts (f : X -> WF A) hist o st h s
    (Post : list event -> wf_exn + A -> Instance_ -> Prop) :
  at_ hist o st h s ->
  (forall h s, at_ hist o st h s -> Req X h a s) ->
  (forall h s e, at_ (hist ++ [EActivity a (Failed e)]) o st h s ->
     Post h (inl (WfActivityError e)) s) ->
  (forall h s e, at_ (hist ++ [EActivity a (Aborted e)]) o st h s ->
     Post h (inl (WfRaised e)) s) ->
  (forall h s x, at_ (hist ++ [EActivity a (Completed x)]) o st h s ->
     wsafe Post h (f x s)) ->
  wsafe Post h ((execute_activity a opts ≫= f) s).
Proof.
  intros Ha HR HF HA HC. unfold mbind, WF_bind, execute_activity. simpl. intros gs.
  pose proof (at_signals _ _ _ _ _ gs Ha) as Ha'. split; [apply HR, Ha'|].
  intros r. rewrite app_assoc. destruct r as [x|e|e]; simpl;
    [apply HC|apply HF|apply HA]; apply at_activity, Ha'.
Qed.

Lemma wsafe_try_activity {X A} (a : activity X) opts (hd : wf_exn -> WF X) (f : X -> WF A)
    hist o st h s (Post : list event -> wf_exn + A -> Instance_ -> Prop) :
  at_ hist o st h s ->
  (forall h s, at_ hist o st h s -> Req X h a s) ->
  (forall h s e, at_ (hist ++ [EActivity a (Failed e)]) o st h s ->
     wsafe Post h ((hd (WfActivityError e) ≫= f) s)) ->
  (forall h s e, at_ (hist ++ [EActivity a (Aborted e)]) o st h s ->
     wsafe Post h ((hd (WfRaised e) ≫= f) s)) ->
  (forall h s x, at_ (hist ++ [EActivity a (Completed x)]) o st h s ->
     wsafe Post h (f x s)) ->
  wsafe Post h ((wf_try (execute_activity a opts) hd ≫= f) s).
Proof.
  intros Ha HR HF HA HC. unfold mbind, WF_bind, wf_try, execute_activity. simpl. intros gs.
  pose proof (at_signals _ _ _ _ _ gs Ha) as Ha'. split; [apply HR, Ha'|].
  intros r. rewrite app_assoc. destruct r as [x|e|e]; simpl;
    [apply HC|apply HF|apply HA]; apply at_activity, Ha'.
Qed.

Lemma wsafe_assoc {A B C} (m : WF A) (f : A -> WF B) (g : B -> WF C) h s Post :
  wsafe Post h ((m ≫= fun x => f x ≫= g) s) -> wsafe Post h (((m ≫= f) ≫= g) s).
Proof.
  unfold mbind, WF_bind. generalize (m s). intros c. revert h.
  induction c as [[e|a] s'|X a o s' k IH|t s' k IH|s' k IH]; simpl; intros h Hc; auto.
  - intros gs. destruct (Hc gs) as [HR Hk]. split; [exact HR|]. intros r. apply IH, Hk.
  - intros gs. destruct (Hc gs) as [HR Hk]. split; [exact HR|]. intros r Hr. apply IH, Hk, Hr.
Qed.

Lemma wsafe_assign {A} (g : Instance_ -> Instance_) (f : WF A) h s Post :
  wsafe Post h (f (g s)) -> wsafe Post h ((assign g ;; f) s).
Proof. intros H. exact H. Qed.

(** [await self._audit(...)] followed by the rest. *)
Lemma wsafe_audit {A} (mk : string -> WorkflowAuditInput) (f : WF A) hist o st h s
    (Post : list event -> wf_exn + A -> Instance_ -> Prop) :
  at_ hist o st h s ->
  (forall h s, at_ hist o st h s -> Req unit h (WorkflowAudit (mk st)) s) ->
  (forall h s e, at_ (hist ++ [EActivity (WorkflowAudit (mk st)) (Failed e)]) o st h s ->
     Post h (inl (WfActivityError e)) s) ->
  (forall h s e, at_ (hist ++ [EActivity (WorkflowAudit (mk st)) (Aborted e)]) o st h s ->
     Post h (inl (WfRaised e)) s) ->
  (forall h s, at_ (hist ++ [EActivity (WorkflowAudit (mk st)) (Completed tt)]) o st h s ->
     wsafe Post h (f s)) ->
  wsafe Post h ((audit_event mk ;; f) s).
Proof.
  intros Ha HR HF HA HC.
  change (wsafe Post h
            ((execute_activity (WorkflowAudit (mk (_workflow_status s))) audit_opts
              ≫= fun _ => f) s)).
  rewrite (at_status _ _ _ _ _ Ha).
  eapply wsafe_activity; eauto. intros h' s' [] Hc. exact (HC _ _ Hc).
Qed.
End rules.

(** ** What may happen, in which order *)

Section spec.
Variable inp : WorkflowInput.

Definition needs_approval : bool :=
  match dec_parse (wi_projected_spend_usd inp) with
  | Some p => dec_ltb (mkDec false 5000 (-2)) p
  | None => false
  end.

(** The three governance activities. *)
Definition governed (scrub : PrePIIScrubResult) (policy : PolicyEvalResult)
    (token : JITTokenResult) : list event :=
  [EActivity (PrePIIScrub inp) (Completed scrub);
   EActivity (PolicyEval (policy_eval_input inp scrub)) (Completed policy);
   EActivity (JITTokenIssue (jit_token_input inp)) (Completed token)].

Definition hitl_status : string :=
  WorkflowStatus.value WorkflowStatus.HUMAN_INTERVENTION_REQUIRED.
Definition running_status : string := WorkflowStatus.value WorkflowStatus.RUNNING.

Definition decided (d : ApprovalSignalPayload) : PendingApprovalState.t :=
  if approved d then PendingApprovalState.APPROVED else PendingApprovalState.DENIED.
Definition decided_status (d : ApprovalSignalPayload) : string :=
  if approved d then running_status else PendingApprovalState.value PendingApprovalState.DENIED.

(** The approval gate and its verdict: the state it ends in and the decision
    the workflow goes by. *)
Inductive gate_log : PendingApprovalState.t -> ApprovalSignalPayload -> list event -> Prop :=
  | gate_decided t d :
      gate_log (decided d) d
        [ENow t; EActivity (WorkflowAudit (pending_audit inp hitl_status)) (Completed tt);
         EWait Woken;
         EActivity (WorkflowAudit (decision_audit inp d (decided_status d))) (Completed tt)]
  | gate_timed_out t :
      gate_log PendingApprovalState.TIMED_OUT timeout_decision
        [ENow t; EActivity (WorkflowAudit (pending_audit inp hitl_status)) (Completed tt);
         EWait TimedOut;
         EActivity (WorkflowAudit
           (timeout_audit inp (PendingApprovalState.value PendingApprovalState.TIMED_OUT)))
           (Completed tt)].

(** Cleared for the LLM, with [g] done at the gate: no approval is needed and
    nothing was asked, or the gate's automaton is in state APPROVED with the
    decision that approves. *)
Definition cleared (h g : list event) : Prop :=
  if needs_approval then
    exists d, gate_log PendingApprovalState.APPROVED d g /\ approved d = true
      /\ gate_of h = (PendingApprovalState.APPROVED, Some d)
  else g = [] /\ gate_of h = (PendingApprovalState.NOT_REQUIRED, None).

(** The budget pre-check and the recording of the spend, when the task has a
    budget session, with the cost they report. *)
Inductive precheck_log : option string -> list event -> Prop :=
  | precheck_none : budget_of inp = None -> precheck_log None []
  | precheck_some sid limit r :
      budget_of inp = Some (sid, limit) ->
      precheck_log (Some (snap_cost_usd (bc_snapshot r)))
        [EActivity (BudgetPreCheck (precheck_input inp sid limit)) (Completed r)].
Inductive record_log (llm : LLMInvokeResult) : option string -> list event -> Prop :=
  | record_none : budget_of inp = None -> record_log llm None []
  | record_some sid limit r :
      budget_of inp = Some (sid, limit) ->
      record_log llm (Some (snap_cost_usd (bv_snapshot r)))
        [EActivity (BudgetRecordSpend (record_input inp llm sid limit)) (Completed r)].

(** The LLM is about to be called with [li], after [h]. *)
Definition llm_cleared (h : list event) (li : LLMInvokeInput) : Prop :=
  exists scrub policy token g spent b,
    acts h = governed scrub policy token ++ g ++ b
    /\ cleared h g /\ precheck_log spent b /\ li = llm_invoke_input inp policy token.

(** What a result means. *)
Inductive output_log (h : list event) : WorkflowOutput -> Prop :=
  | output_completed scrub policy token g spent b llm spent' b' post :
      cleared h g -> precheck_log spent b -> record_log llm spent' b' ->
      acts h = governed scrub policy token ++ g ++ b
        ++ [EActivity (LLMInvoke (llm_invoke_input inp policy token)) (Completed llm)] ++ b'
        ++ [EActivity (PostSanitize (post_sanitize_input inp llm)) (Completed post)] ->
      output_log h (completed_output inp scrub policy llm post spent' (gate_of h).1)
  | output_refused scrub policy token st d g :
      needs_approval = true -> gate_log st d g -> approved d = false -> (gate_of h).1 = st ->
      acts h = governed scrub policy token ++ g ->
      output_log h (refused_output inp scrub policy d (PendingApprovalState.value st) st).

Definition is_llm {X} (a : activity X) : bool :=
  match a with LLMInvoke _ => true | _ => false end.

(** What an error means: the last thing that happened, and the exception. *)
Inductive error_log (h : list event) : wf_exn -> Prop :=
  | error_activity X (a : activity X) hist e :
      acts h = hist ++ [EActivity a (Failed e)] -> is_llm a = false ->
      error_log h (WfActivityError e)
  | error_interrupted hist e ev :
      acts h = hist ++ [ev] ->
      ((exists X (a : activity X), ev = EActivity a (Aborted e)) \/ ev = EWait (Interrupted e)) ->
      error_log h (WfRaised e)
  | error_projection scrub policy token :
      dec_parse (wi_projected_spend_usd inp) = None -> acts h = governed scrub policy token ->
      error_log h (WfRaised (Exn InvalidOperation "[<class 'decimal.ConversionSyntax'>]" None))
  | error_terminal hist li exc ty message :
      acts h = hist
        ++ [EActivity (LLMInvoke li) (Failed exc);
            EActivity (WorkflowAudit (failed_audit inp ty message
                         (WorkflowStatus.value WorkflowStatus.FAILED))) (Completed tt)] ->
      terminal_cause (af_cause exc) = Some (ty, message) ->
      error_log h (WfApplicationError ty message exc)
  | error_escalated hist li exc :
      acts h = hist
        ++ [EActivity (LLMInvoke li) (Failed exc);
            EActivity (WorkflowAudit (hitl_audit inp exc hitl_status)) (Completed tt)] ->
      terminal_cause (af_cause exc) = None ->
      error_log h (WfEscalation (escalation_message inp exc) exc).
End spec.

(** ** The workflow meets its specification *)

Section proof.
Variable inp : WorkflowInput.

Definition req (X : Type) (h : list event) (a : activity X) (s : Instance_) : Prop :=
  refines h s /\
  match a with
  | LLMInvoke li => llm_cleared inp h li
  | LoopRecordStep _ => False
  | _ => True
  end.
Definition gate_req (h : list event) (s : Instance_) : Prop :=
  refines h s /\ _approval_state s = PendingApprovalState.AWAITING_APPROVAL.
Definition post (h : list event) (r : wf_exn + WorkflowOutput) (s : Instance_) : Prop :=
  refines h s /\
  match r with inr out => output_log inp h out | inl e => error_log inp h e end.
Abbreviation safe := (wsafe req gate_req post).

Lemma req_other {X} (a : activity X) hist o st :
  match a with LLMInvoke _ | LoopRecordStep _ => False | _ => True end ->
  forall h s, at_ hist o st h s -> req X h a s.
Proof. intros Ha h s Hat. split; [apply Hat|]. destruct a; tauto. Qed.

Lemma post_failed {X} (a : activity X) hist o st :
  is_llm a = false ->
  forall h s e, at_ (hist ++ [EActivity a (Failed e)]) o st h s ->
    post h (inl (WfActivityError e)) s.
Proof.
  intros Ha h s e Hat. split; [apply Hat|].
  eapply error_activity; [apply Hat|exact Ha].
Qed.

Lemma post_aborted {X} (a : activity X) hist o st :
  forall h s e, at_ (hist ++ [EActivity a (Aborted e)]) o st h s ->
    post h (inl (WfRaised e)) s.
Proof.
  intros h s e Hat. split; [apply Hat|].
  eapply error_interrupted; [apply Hat|eauto].
Qed.

(** The [except ActivityError] clause. *)
Lemma llm_failed_safe {X} (f : X -> WF WorkflowOutput) hist o st li exc h s :
  at_ (hist ++ [EActivity (LLMInvoke li) (Failed exc)]) o st h s ->
  safe h ((llm_failed inp exc ≫= f) s).
Proof.
  intros Hat. unfold llm_failed.
  destruct (terminal_cause (af_cause exc)) as [[ty msg]|] eqn:E.
  - apply wsafe_assoc, wsafe_assign, wsafe_assoc.
    eapply wsafe_audit; [exact (at_set_status _ _ _ _ _ _ Hat)|..];
      [apply req_other; exact I|apply post_failed; reflexivity|apply post_aborted|].
    intros h' s' Hat'. split; [apply Hat'|].
    eapply (error_terminal inp h' hist); [|exact E].
    rewrite (at_hist _ _ _ _ _ Hat'), <- app_assoc. reflexivity.
  - apply wsafe_assoc, wsafe_assign, wsafe_assoc.
    eapply wsafe_audit; [exact (at_set_status _ _ _ _ _ _ Hat)|..];
      [apply req_other; exact I|apply post_failed; reflexivity|apply post_aborted|].
    intros h' s' Hat'. split; [apply Hat'|].
    eapply (error_escalated inp h' hist); [|exact E].
    rewrite (at_hist _ _ _ _ _ Hat'), <- app_assoc. reflexivity.
Qed.

Section cleared.
Variables (scrub : PrePIIScrubResult) (policy : PolicyEvalResult) (token : JITTokenResult).
Variables (g : list event) (x : gate_state).
Hypothesis Hx : forall h, gate_of h = x -> cleared inp h g.

Lemma at_cleared hist st h s : at_ hist (Some x) st h s -> cleared inp h g.
Proof. intros Hat. apply Hx, Hat. Qed.

(** From PostSanitize on. *)
Lemma finish_safe spent b llm spent' b' st h s :
  precheck_log inp spent b -> record_log inp llm spent' b' ->
  at_ (governed inp scrub policy token ++ g ++ b
       ++ [EActivity (LLMInvoke (llm_invoke_input inp policy token)) (Completed llm)] ++ b')
    (Some x) st h s ->
  safe h ((post ← execute_activity (PostSanitize (post_sanitize_input inp llm)) post_opts;
           assign (set_status (WorkflowStatus.value WorkflowStatus.COMPLETED)) ;;
           s ← self;
           mret (completed_output inp scrub policy llm post spent' (_approval_state s))) s).
Proof.
  intros Hb Hb' Hat.
  eapply wsafe_activity; [exact Hat|apply req_other; exact I|apply post_failed; reflexivity|
                          apply post_aborted|].
  intros h' s' res Hat'. apply (at_set_status _ _ _ _ _ (WorkflowStatus.value WorkflowStatus.COMPLETED)) in Hat'.
  split; [apply Hat'|]. simpl.
  destruct (at_refines _ _ _ _ _ Hat') as [Hg _]. simpl in Hg.
  replace (_approval_state s') with (gate_of h').1 by (rewrite <- Hg; reflexivity).
  eapply output_completed; [eapply at_cleared, Hat'|exact Hb|exact Hb'|].
  rewrite (at_hist _ _ _ _ _ Hat'), <- !app_assoc. reflexivity.
Qed.

Lemma run_cleared_safe st h s :
  at_ (governed inp scrub policy token ++ g) (Some x) st h s ->
  safe h (run_cleared inp scrub policy token s).
Proof.
  intros Hat. unfold run_cleared.
  assert (Hllm : forall spent b,
    precheck_log inp spent b ->
    forall h s, at_ (governed inp scrub policy token ++ g ++ b) (Some x) st h s ->
      req _ h (LLMInvoke (llm_invoke_input inp policy token)) s).
  { intros spent b Hb h' s' Hat'. split; [apply Hat'|].
    exists scrub, policy, token, g, spent, b. split_and!; [apply Hat'| |exact Hb|reflexivity].
    eapply at_cleared, Hat'. }
  destruct (budget_of inp) as [[sid limit]|] eqn:E.
  - apply wsafe_assoc.
    eapply wsafe_activity; [exact Hat|apply req_other; exact I|apply post_failed; reflexivity|
                            apply post_aborted|].
    intros h1 s1 r H1. rewrite <- app_assoc in H1.
    pose proof (precheck_some inp sid limit r E) as Hb.
    eapply wsafe_try_activity; [exact H1|exact (Hllm _ _ Hb)|..].
    + intros h2 s2 e H2. eapply llm_failed_safe, H2.
    + intros h2 s2 e H2. eapply post_aborted, H2.
    + intros h2 s2 llm H2. apply wsafe_assoc.
      eapply wsafe_activity; [exact H2|apply req_other; exact I|apply post_failed; reflexivity|
                              apply post_aborted|].
      intros h3 s3 r' H3. eapply finish_safe; [exact Hb|exact (record_some inp llm sid limit r' E)|].
      rewrite <- !app_assoc in H3. exact H3.
  - pose proof (precheck_none inp E) as Hb.
    assert (H1 : at_ (governed inp scrub policy token ++ g ++ []) (Some x) st h s)
      by (rewrite app_nil_r; exact Hat).
    eapply wsafe_try_activity; [exact H1|exact (Hllm _ _ Hb)|..].
    + intros h2 s2 e H2. eapply llm_failed_safe, H2.
    + intros h2 s2 e H2. eapply post_aborted, H2.
    + intros h2 s2 llm H2.
      eapply (finish_safe None [] llm None []); [exact Hb|exact (record_none inp llm E)|].
      rewrite app_nil_r, <- !app_assoc in H2. rewrite !app_nil_r, app_assoc in *. exact H2.
Qed.
End cleared.

(** The gate, whatever follows it. *)
Section gate.
Context {A : Type} (f : ApprovalSignalPayload -> WF A).
Context (Post : list event -> wf_exn + A -> Instance_ -> Prop) (hist : list event).
Hypothesis HPost : forall h e s, post h (inl e) s -> Post h (inl e) s.
Hypothesis Hf : forall h s x d g sig status,
  gate_log inp x d g -> at_ (hist ++ g) (Some (x, sig)) status h s ->
  (approved d = true -> sig = Some d) ->
  (approved d = false -> status = PendingApprovalState.value x) ->
  wsafe req gate_req Post h (f d s).

Lemma record_decision_safe t d h s :
  at_ ((hist ++ [ENow t])
       ++ [EActivity (WorkflowAudit (pending_audit inp hitl_status)) (Completed tt)])
    None hitl_status h s ->
  _approval_signal s = Some d ->
  wsafe req gate_req Post (h ++ [EWait Woken]) ((record_decision inp d ≫= f) s).
Proof.
  intros Hat Hd. unfold record_decision.
  do 3 (apply wsafe_assoc, wsafe_assign). apply wsafe_assoc.
  eapply wsafe_audit; [eapply (at_closed _ _ _ _ Woken (decided_status d) (decided d)); eauto|..].
  - rewrite Hd. reflexivity.
  - apply req_other; exact I.
  - intros h' s' e H'. eapply HPost, post_failed, H'. reflexivity.
  - intros h' s' e H'. eapply HPost, post_aborted, H'.
  - intros h' s' H'. rewrite Hd, <- !app_assoc in H'.
    eapply (Hf _ _ _ d); [apply (gate_decided inp t d)|exact H'|reflexivity|].
    intros Hn. unfold decided_status, decided. rewrite Hn. reflexivity.
Qed.

Lemma record_timeout_safe t h s :
  at_ ((hist ++ [ENow t])
       ++ [EActivity (WorkflowAudit (pending_audit inp hitl_status)) (Completed tt)])
    None hitl_status h s ->
  wsafe req gate_req Post (h ++ [EWait TimedOut]) ((record_timeout inp ≫= f) s).
Proof.
  intros Hat. unfold record_timeout.
  do 3 (apply wsafe_assoc, wsafe_assign). apply wsafe_assoc.
  eapply wsafe_audit;
    [eapply (at_closed _ _ _ _ TimedOut (PendingApprovalState.value PendingApprovalState.TIMED_OUT)
               PendingApprovalState.TIMED_OUT); eauto; discriminate|..].
  - apply req_other; exact I.
  - intros h' s' e H'. eapply HPost, post_failed, H'. reflexivity.
  - intros h' s' e H'. eapply HPost, post_aborted, H'.
  - intros h' s' H'. rewrite <- !app_assoc in H'.
    eapply (Hf _ _ _ timeout_decision); [apply (gate_timed_out inp t)|exact H'|discriminate|reflexivity].
Qed.

Lemma gate_safe st h s :
  at_ hist (Some (PendingApprovalState.NOT_REQUIRED, None)) st h s ->
  wsafe req gate_req Post h ((_await_pending_approval inp ≫= f) s).
Proof.
  intros Hat. unfold _await_pending_approval.
  apply wsafe_assoc, wsafe_assign, wsafe_assoc, wsafe_assign, wsafe_assoc.
  intros t. pose proof (at_open _ _ _ _ t hitl_status Hat) as H1.
  apply wsafe_assoc, wsafe_assign, wsafe_assoc.
  eapply wsafe_audit; [exact H1|apply req_other; exact I|..].
  { intros h' s' e H'. eapply HPost, post_failed, H'; reflexivity. }
  { intros h' s' e H'. eapply HPost, post_aborted, H'. }
  intros h2 s2 H2. apply wsafe_assoc. intros gs.
  pose proof (at_signals _ _ _ _ _ gs H2) as H3. clear H1 H2.
  set (h3 := h2 ++ (ESignal <$> gs)) in *. set (s3 := handle_all gs s2) in *.
  split.
  { split; [apply H3|]. destruct H3 as [_ [Hg _] Hgt _]. rewrite <- Hg in Hgt. exact Hgt. }
  intros r Hr. rewrite app_assoc. fold h3. destruct r as [| |e].
  - destruct Hr as [d Hd]. unfold mbind at 1 2, WF_bind at 1 2; simpl. rewrite Hd.
    eapply record_decision_safe; eauto.
  - eapply record_timeout_safe; eauto.
  - simpl in Hr. unfold mbind, WF_bind; simpl. rewrite Hr. simpl. apply HPost. split.
    + destruct H3 as [_ [Hg Hp] Hgt _]. split; [|exact Hp].
      rewrite gate_of_snoc, <- Hg. rewrite <- Hg in Hgt. simpl in Hgt. rewrite Hgt.
      destruct (_approval_signal s3); reflexivity.
    + eapply error_interrupted; [|right; reflexivity].
      rewrite acts_snoc, (at_hist _ _ _ _ _ H3); reflexivity.
Qed.
End gate.

Lemma at_start :
  at_ [] (Some (PendingApprovalState.NOT_REQUIRED, None)) running_status []
    (start inp AgentTaskWorkflow_init).
Proof.
  split; [reflexivity| |split; [reflexivity|discriminate]|reflexivity].
  split; [reflexivity|]. split; [intros [? [=]]|discriminate].
Qed.

Lemma run_safe : safe [] (run inp AgentTaskWorkflow_init).
Proof.
  unfold run. apply wsafe_assign.
  eapply wsafe_activity; [exact at_start|apply req_other; exact I|
                          apply post_failed; reflexivity|apply post_aborted|].
  intros h1 s1 scrub H1.
  eapply wsafe_activity; [exact H1|apply req_other; exact I|
                          apply post_failed; reflexivity|apply post_aborted|].
  intros h2 s2 policy H2.
  eapply wsafe_activity; [exact H2|apply req_other; exact I|
                          apply post_failed; reflexivity|apply post_aborted|].
  intros h3 s3 token H3.
  change (at_ (governed inp scrub policy token)
            (Some (PendingApprovalState.NOT_REQUIRED, None)) running_status h3 s3) in H3.
  unfold decimal. destruct (dec_parse (wi_projected_spend_usd inp)) as [p|] eqn:Ep.
  2: { split; [apply H3|]. eapply error_projection; [exact Ep|apply H3]. }
  change (safe h3 ((if dec_ltb (mkDec false 5000 (-2)) p
                    then decision ← _await_pending_approval inp;
                         if negb (approved decision) then
                           s ← self;
                           mret (refused_output inp scrub policy decision (_workflow_status s)
                                   (_approval_state s))
                         else run_cleared inp scrub policy token
                    else run_cleared inp scrub policy token) s3)).
  assert (Hn : needs_approval inp = dec_ltb (mkDec false 5000 (-2)) p)
    by (unfold needs_approval; rewrite Ep; reflexivity).
  destruct (dec_ltb (mkDec false 5000 (-2)) p).
  - eapply gate_safe; [auto| |exact H3].
    intros h4 s4 x d g sig status Hg H4 Hsig Hst. destruct (approved d) eqn:Ed.
    + simpl. eapply run_cleared_safe; [|exact H4].
      intros h' Hh'. unfold cleared. rewrite Hn. exists d.
      rewrite (Hsig eq_refl) in Hh'. inversion Hg; subst;
        [|discriminate]. unfold decided in *. rewrite Ed in *. auto.
    + split; [apply H4|]. simpl.
      rewrite (at_status _ _ _ _ _ H4), (Hst eq_refl).
      destruct (at_refines _ _ _ _ _ H4) as [Hr _], (at_gate _ _ _ _ _ H4) as [Hgt _].
      rewrite Hgt in Hr. injection Hr as -> _.
      eapply output_refused; [exact Hn|exact Hg|exact Ed|rewrite Hgt; reflexivity|apply H4].
  - eapply (run_cleared_safe _ _ _ []); [|rewrite app_nil_r; exact H3].
    intros h' Hh'. unfold cleared. rewrite Hn. auto.
Qed.
End proof.

(** ** Every run is finite *)

(** At most [n] awaits are left, whatever the server answers. *)
Fixpoint at_most {A} (n : nat) (c : step A) {struct c} : Prop :=
  match c with
  | Done _ _ => True
  | Activity _ _ _ k => match n with O => False | S n => forall r s, at_most n (k r s) end
  | Wait _ _ k => match n with O => False | S n => forall r s, at_most n (k r s) end
  | Now _ k => n <> O /\ forall t s, at_most n (k t s)
  end.

Lemma at_most_mono {A} j n (c : step A) : at_most n c -> at_most (j + n) c.
Proof.
  revert j n. induction c as [r s|X a o s k IH|t s k IH|s k IH]; intros j n Hm;
    [exact I|destruct n as [|n]; [done|]..|];
    [rewrite Nat.add_succ_r; intros ??; apply IH, Hm..|].
  destruct Hm as [Hn Hm]. split; [lia|]. intros t s'. apply IH, Hm.
Qed.

Lemma at_most_bind {A B} n m (c : step A) (f : A -> WF B) :
  at_most n c -> (forall a s, at_most m (f a s)) -> at_most (n + m) (step_bind c f).
Proof.
  intros Hc Hf.
  revert n Hc. induction c as [[e|a] s|X a o s k IH|t s k IH|s k IH]; intros n Hc;
    simpl in *; [exact I|apply at_most_mono, Hf|destruct n as [|n]; [done|]..|].
  - intros r s'. apply IH, Hc.
  - intros r s'. apply IH, Hc.
  - destruct Hc as [Hn Hc]. split; [lia|]. intros t s'. apply IH, Hc.
Qed.

Lemma at_most_activity {X} (a : activity X) o s : at_most 1 (execute_activity a o s).
Proof. intros r s'. exact I. Qed.

Lemma at_most_audit mk s : at_most 1 (audit_event mk s).
Proof. exact (at_most_activity _ _ s). Qed.

Lemma at_most_audit_then {A} mk (f : WF A) s :
  (forall s, at_most 0 (f s)) -> at_most 1 ((audit_event mk ;; f) s).
Proof. intros Hf. exact (at_most_bind 1 0 _ _ (at_most_audit _ _) (fun _ => Hf)). Qed.

(** A failed LLM call: one audit event, then the error. *)
Lemma at_most_llm_failed {X A} inp exc (f : X -> WF A) s :
  at_most 1 ((llm_failed inp exc ≫= f) s).
Proof.
  unfold llm_failed. destruct (terminal_cause (af_cause exc)) as [[ty msg]|];
    intros r s'; destruct r; exact I.
Qed.

Lemma at_most_gate inp s : at_most 3 (_await_pending_approval inp s).
Proof.
  unfold _await_pending_approval. cbn -[record_timeout record_decision isinstance].
  split; [done|]. intros t _ r s1. destruct r as [[]|e|e]; try exact I.
  intros r s2. destruct r as [| |e].
  - change (at_most 1 (match _approval_signal s2 with
                       | Some d => record_decision inp d
                       | None => wf_raise (WfRaised (Exn AssertionError "" None))
                       end s2)).
    destruct (_approval_signal s2) as [d|]; [|exact I].
    apply (at_most_audit_then _ (mret d)). intros; exact I.
  - apply (at_most_audit_then _ (mret timeout_decision)). intros; exact I.
  - unfold mbind, WF_bind; cbn -[isinstance record_timeout].
    destruct (isinstance e TimeoutError); [|exact I].
    apply (at_most_audit_then _ (mret timeout_decision)). intros; exact I.
Qed.

Lemma at_most_cleared inp scrub policy token s :
  at_most 4 (run_cleared inp scrub policy token s).
Proof.
  unfold run_cleared. apply (at_most_bind 1 3).
  { destruct (budget_of inp) as [[sid limit]|]; [|exact I].
    intros r s'. destruct r; exact I. }
  intros spent s1 r s2. destruct r as [llm|exc|e]; [|apply (at_most_mono 1), at_most_llm_failed|exact I].
  destruct (budget_of inp) as [[sid limit]|].
  - intros r s3. destruct r; try exact I. intros r s4. destruct r; exact I.
  - intros r s3. destruct r; exact I.
Qed.

Lemma run_at_most inp s : at_most 10 (run inp s).
Proof.
  unfold run. intros r1 s1. destruct r1 as [scrub|e|e]; try exact I.
  intros r2 s2. destruct r2 as [policy|e|e]; try exact I.
  intros r3 s3. destruct r3 as [token|e|e]; try exact I.
  unfold decimal. cbn [mbind WF_bind step_bind].
  destruct (dec_parse (wi_projected_spend_usd inp)) as [p|]; [|exact I].
  change (at_most 7 ((if dec_ltb (mkDec false 5000 (-2)) p
                    then decision ← _await_pending_approval inp;
                         if negb (approved decision) then
                           s ← self;
                           mret (refused_output inp scrub policy decision (_workflow_status s)
                                   (_approval_state s))
                         else run_cleared inp scrub policy token
                    else run_cleared inp scrub policy token) s3)).
  destruct (dec_ltb (mkDec false 5000 (-2)) p).
  - apply (at_most_bind 3 4); [apply at_most_gate|]. intros d s4.
    destruct (approved d); [apply at_most_cleared|exact I].
  - apply (at_most_mono 3), at_most_cleared.
Qed.

Lemma execs_at_most {A} (c : step A) es c' n :
  execs c es c' -> at_most n c ->
  (length (awaits es) <= n)%nat /\ at_most (n - length (awaits es)) c'.
Proof.
  intros He. revert n. induction He as [c|c e c1 es c2 Hs He IH]; intros n Hn.
  - simpl. rewrite Nat.sub_0_r. split; [lia|exact Hn].
  - destruct Hs; try exact (IH n Hn); [destruct n as [|n]; [done|]..|exact (IH n (proj2 Hn t _))];
      (destruct (IH n) as [Hl Hm]; [apply Hn|]; split; [simpl; lia|exact Hm]).
Qed.

(** ** Theorems *)

(** A server that answers every request, delivers the signals [gs] at the gate and
    then ends the wait with [w]. *)
Fixpoint serve {A} (answer : forall X, activity X -> outcome X) (gs : list signal)
    (w : wait_outcome) (now : Z) (c : step A) : list event * (wf_exn + A) * Instance_ :=
  match c with
  | Done r s => ([], r, s)
  | Activity a _ s k =>
      let '(es, r, s') := serve answer gs w now (k (answer _ a) s) in
      (EActivity a (answer _ a) :: es, r, s')
  | Wait _ s k =>
      let '(es, r, s') := serve answer gs w now (k w (handle_all gs s)) in
      ((ESignal <$> gs) ++ EWait w :: es, r, s')
  | Now s k =>
      let '(es, r, s') := serve answer gs w now (k now s) in (ENow now :: es, r, s')
  end.

(** The signals that wake the workflow are there when it waits. *)
Fixpoint serves_ok {A} (answer : forall X, activity X -> outcome X) (gs : list signal)
    (w : wait_outcome) (now : Z) (c : step A) : Prop :=
  match c with
  | Done _ _ => True
  | Activity a _ s k => serves_ok answer gs w now (k (answer _ a) s)
  | Wait _ s k => wait_ok w (handle_all gs s) /\ serves_ok answer gs w now (k w (handle_all gs s))
  | Now s k => serves_ok answer gs w now (k now s)
  end.

Lemma execs_signals {A} gs es t s k (c : step A) :
  execs (Wait t (handle_all gs s) k) es c ->
  execs (Wait t s k) ((ESignal <$> gs) ++ es) c.
Proof.
  revert s. induction gs as [|g gs IH]; intros s He; [exact He|].
  eapply execs_cons; [apply ws_signal_wait|]. apply IH, He.
Qed.

Lemma serve_execs {A} answer gs w now (c : step A) es r s :
  serve answer gs w now c = (es, r, s) -> serves_ok answer gs w now c -> execs c es (Done r s).
Proof.
  revert es. induction c as [r' s'|X a o s' k IH|t s' k IH|s' k IH]; simpl; intros es E Hok.
  - injection E as <- <- <-. apply execs_refl.
  - destruct (serve _ _ _ _ _) as [[es' r''] s''] eqn:E'. injection E as <- -> ->.
    eapply execs_cons; [apply ws_activity|]. eapply IH; [exact E'|exact Hok].
  - destruct (serve _ _ _ _ _) as [[es' r''] s''] eqn:E'. injection E as <- -> ->.
    apply execs_signals. eapply execs_cons; [apply ws_wait, Hok|].
    eapply IH; [exact E'|apply Hok].
  - destruct (serve _ _ _ _ _) as [[es' r''] s''] eqn:E'. injection E as <- -> ->.
    eapply execs_cons; [apply ws_now|]. eapply IH; [exact E'|exact Hok].
Qed.

(** Every request, and the end, of every execution is as specified. *)
Lemma run_requests inp es X (a : activity X) o s k :
  execs (run inp AgentTaskWorkflow_init) es (Activity a o s k) -> req inp X es a s.
Proof.
  intros He. pose proof (wsafe_execs _ _ _ _ _ _ _ (run_safe inp) He) as Hs.
  destruct (Hs []) as [Hr _]. simpl in Hr. rewrite app_nil_r in Hr. exact Hr.
Qed.

Lemma run_ends inp es r s :
  execs (run inp AgentTaskWorkflow_init) es (Done r s) -> post inp es r s.
Proof. intros He. exact (wsafe_execs _ _ _ _ _ _ _ (run_safe inp) He). Qed.

(** No LLM call without clearance.  Whatever the server delivers, when the
    workflow asks for LLMInvoke, exactly the governance activities have completed
    before, in order (PrePIIScrub on the input, PolicyEval on its result,
    JITTokenIssue), then, if the projected spend is above $50, the approval gate
    ended with an approving decision, then the budget pre-check completed if the
    task has a budget; and the request carries the prompt PolicyEval returned and
    the token that was issued. *)
Theorem llm_call_cleared inp es li o s k :
  execs (run inp AgentTaskWorkflow_init) es (Activity (LLMInvoke li) o s k) ->
  llm_cleared inp es li.
Proof. intros He. exact (proj2 (run_requests _ _ _ _ _ _ _ He)). Qed.

(** C6. What a result means.  A workflow that returns either completed (every
    activity of the pipeline ran exactly once and in order, cleared as above, and
    the content is what PostSanitize returned for the LLM's answer), or was
    refused at the approval gate, and then neither the budget nor the LLM was
    touched and the content is empty. *)
Theorem workflow_result_sound inp es out s :
  execs (run inp AgentTaskWorkflow_init) es (Done (inr out) s) -> output_log inp es out.
Proof. intros He. exact (proj2 (run_ends _ _ _ _ He)). Qed.

(** C7. What an error means.  Every way a workflow can fail: an activity other than
    LLMInvoke failed for good, the workflow was interrupted, the projected spend is
    not a number, or LLMInvoke failed; in that case the failure was audited first,
    and the error is the activity's own for a policy or token error and
    [HITLEscalationError] for anything else. *)
Theorem workflow_error_sound inp es e s :
  execs (run inp AgentTaskWorkflow_init) es (Done (inl e) s) -> error_log inp es e.
Proof. intros He. exact (proj2 (run_ends _ _ _ _ He)). Qed.

(** C8. The approval state is the abstract gate.  At every point where the workflow
    can be queried, its approval state and stored decision are those of the gate
    automaton run on the events delivered so far, and the query reports a
    pending-since time exactly while it reports "awaiting-approval". *)
Theorem approval_refines_gate inp es c s :
  execs (run inp AgentTaskWorkflow_init) es c ->
  (exists X (a : activity X) o k, c = Activity a o s k) \/ (exists t k, c = Wait t s k)
    \/ (exists r, c = Done r s) ->
  (_approval_state s, _approval_signal s) = gate_of es
  /\ (is_Some (st_pending_since (approval_status s))
      <-> st_approval_state (approval_status s) = "awaiting-approval"%string).
Proof.
  intros He Hc. pose proof (wsafe_execs _ _ _ _ _ _ _ (run_safe inp) He) as Hs. simpl in Hs.
  assert (Hr : refines es s).
  { destruct Hc as [(X & a & o & k & ->)|[(t & k & ->)|(r & ->)]].
    - destruct (Hs []) as [[Hr _] _]. rewrite app_nil_r in Hr. exact Hr.
    - destruct (Hs []) as [[Hr _] _]. rewrite app_nil_r in Hr. exact Hr.
    - apply Hs. }
  destruct Hr as [Hg Hp]. split; [exact Hg|]. simpl. rewrite Hp.
  destruct (_approval_state s); simpl; split; congruence.
Qed.

(** The ends that leave the workflow open: the escalation of an LLM call that failed
    for no terminal reason, a projected spend that is no number, and an interruption
    other than a cancellation. *)
Inductive left_open inp (h : list event) : wf_exn -> Prop :=
  | open_escalated hist li exc :
      acts h = hist
        ++ [EActivity (LLMInvoke li) (Failed exc);
            EActivity (WorkflowAudit (hitl_audit inp exc hitl_status)) (Completed tt)] ->
      terminal_cause (af_cause exc) = None ->
      left_open inp h (WfEscalation (escalation_message inp exc) exc)
  | open_projection :
      dec_parse (wi_projected_spend_usd inp) = None ->
      left_open inp h (WfRaised (Exn InvalidOperation "[<class 'decimal.ConversionSyntax'>]" None))
  | open_interrupted hist e ev :
      acts h = hist ++ [ev] ->
      ((exists X (a : activity X), ev = EActivity a (Aborted e)) \/ ev = EWait (Interrupted e)) ->
      isinstance e CancelledError = false -> left_open inp h (WfRaised e).

(** C10. Every run of the workflow coroutine is finite.  At most ten awaits happen
    (activities and the wait at the approval gate), whatever the server answers; after
    the tenth the coroutine has ended.  An ended coroutine closes the workflow, with a
    result, a failure or a cancellation, unless it raised the escalation of an LLM call
    that failed without a terminal cause (after its audit), the projected spend does not
    parse, or the workflow was interrupted by something other than a cancellation; in
    these cases the exception is no [FailureError], and the workflow stays open. *)
Theorem workflow_bounded inp es c :
  execs (run inp AgentTaskWorkflow_init) es c ->
  (length (awaits es) <= 10)%nat
  /\ (length (awaits es) = 10%nat -> exists r s, c = Done r s)
  /\ (forall r s, c = Done r s ->
        closes r = true \/ exists e, r = inl e /\ closes r = false /\ left_open inp es e).
Proof.
  intros He. destruct (execs_at_most _ _ _ _ He (run_at_most inp _)) as [Hl Hm].
  split; [exact Hl|]. split.
  - intros Hn. rewrite Hn in Hm. destruct c as [r s|X a o s k|t s k|s k]; [eauto|done|done|].
    by destruct (proj1 Hm).
  - intros r s ->. destruct (closes r) eqn:Hc; [by left|right]. destruct r as [e|]; [|done].
    exists e. do 2 (split; [reflexivity|]). pose proof (proj2 (run_ends _ _ _ _ He)) as Hlog.
    simpl in Hlog.
    destruct Hlog; try discriminate Hc;
      eauto using open_escalated, open_projection, open_interrupted.
Qed.

Lemma handle_all_awaiting gs s d :
  _approval_state s = PendingApprovalState.AWAITING_APPROVAL ->
  payload <$> last gs = Some d -> handle_all gs s = set_signal d s.
Proof.
  intros Hs. revert s Hs. induction gs as [|g gs IH]; intros s Hs Hl; [discriminate|].
  assert (Hg : handle g s = set_signal (payload g) s)
    by (destruct g; simpl; unfold approve, deny; rewrite bool_decide_eq_true_2 by exact Hs;
        reflexivity).
  change (handle_all gs (handle g s) = set_signal d s). rewrite Hg.
  destruct gs as [|g' gs]; [injection Hl as ->; reflexivity|].
  rewrite (IH (set_signal (payload g) s) Hs Hl). reflexivity.
Qed.

(** C9. Approved work gets done: when the projected spend is a number, every activity
    completes and the last decision delivered at the gate approves (with either
    signal), the workflow reaches its end with status "completed" and the content PostSanitize returned. *)
Theorem approved_task_completes inp (f : forall X, activity X -> X) gs d now p :
  dec_parse (wi_projected_spend_usd inp) = Some p ->
  payload <$> last gs = Some d -> approved d = true ->
  exists es out s,
    serve (fun X a => Completed (f X a)) gs Woken now (run inp AgentTaskWorkflow_init)
      = (es, inr out, s)
    /\ execs (run inp AgentTaskWorkflow_init) es (Done (inr out) s)
    /\ wo_workflow_status out = "completed"%string
    /\ exists li, wo_content out
         = sv_sanitized_content
             (f _ (PostSanitize (post_sanitize_input inp (f _ (LLMInvoke li))))).
Proof.
  intros Hp Hl Ha.
  assert (Hrun : exists es out s,
    serve (fun X a => Completed (f X a)) gs Woken now (run inp AgentTaskWorkflow_init)
      = (es, inr out, s)
    /\ serves_ok (fun X a => Completed (f X a)) gs Woken now (run inp AgentTaskWorkflow_init)
    /\ wo_workflow_status out = "completed"%string
    /\ exists li, wo_content out
         = sv_sanitized_content
             (f _ (PostSanitize (post_sanitize_input inp (f _ (LLMInvoke li)))))).
  { unfold run, decimal. rewrite Hp. unfold mbind, WF_bind. simpl.
    destruct (dec_ltb _ p); simpl.
    - rewrite (handle_all_awaiting gs _ d) by auto. simpl. rewrite Ha. simpl.
      unfold run_cleared. destruct (budget_of inp) as [[sid limit]|]; simpl;
        do 3 eexists; (split; [reflexivity|]); eauto 10.
    - unfold run_cleared. destruct (budget_of inp) as [[sid limit]|]; simpl;
        do 3 eexists; (split; [reflexivity|]); eauto 10. }
  destruct Hrun as (es & out & s & Hr & Hok & Hst & Hc).
  exists es, out, s. split; [exact Hr|]. split; [exact (serve_execs _ _ _ _ _ _ _ _ Hr Hok)|auto].
Qed.

(** ** Concrete runs *)

Definition demo_input (projected : string) : WorkflowInput :=
  mkWorkflowInput "task-1" "hello" "finance" "alice" "gpt-4o-mini" 1024 (JStr "0.7") "" false
    (Some "session-1"%string) None None "0.000002" None NO_PROGRESS None None None
    projected 86400 None.
Definition demo_snapshot : BudgetSessionSnapshot :=
  mkBudgetSnapshot "" "finance" "10.0" 0 "0" [] None.
Definition demo_completes (X : Type) (a : activity X) : X :=
  match a with
  | PrePIIScrub i => mkScrub (wi_prompt i) []
  | PolicyEval i => mkPolicyEvalResult true "allow" [] (pv_sanitized_prompt i) []
  | JITTokenIssue _ => mkJITTokenResult "token" "jti" None None
  | BudgetPreCheck _ => mkBudgetPreCheckResult demo_snapshot
  | LLMInvoke _ => mkLLMInvokeResult "answer" 12 "gpt-4o-mini" "openai" 0
  | BudgetRecordSpend _ => mkBudgetRecordResult demo_snapshot []
  | LoopRecordStep i => mkLoopRecordResult (mkCheckpoint "" "" 0 false false []) 1 0 false false
  | PostSanitize i => mkPostSanitizeResult (si_content i) []
  | WorkflowAudit _ => tt
  end.
Definition demo_answer (X : Type) (a : activity X) : outcome X := Completed (demo_completes X a).
Definition demo_failure : ActivityFailure :=
  mkActivityFailure "Activity task failed" (CauseApplication (Some "RateLimitError"%string) "429")
    "RetryState.MAXIMUM_ATTEMPTS_REACHED".
(** The LLM is rate-limited at every attempt. *)
Definition demo_rate_limited (X : Type) (a : activity X) : outcome X :=
  match a with
  | LLMInvoke _ => Failed demo_failure
  | a => Completed (demo_completes _ a)
  end.
Definition yes : ApprovalSignalPayload := mkDecision "bob" "fine" true.
Definition no : ApprovalSignalPayload := mkDecision "bob" "too much" false.

(** A deny signal whose payload says "approved" approves: the handlers do not
    look at it. *)
Example llm_call_cleared_witness :
  exists es o s k,
    ESignal (Deny yes) ∈ es
    /\ execs (run (demo_input "75.00") AgentTaskWorkflow_init) es
         (Activity (LLMInvoke (llm_invoke_input (demo_input "75.00")
            (mkPolicyEvalResult true "allow" [] "hello" [])
            (mkJITTokenResult "token" "jti" None None))) o s k)
    /\ llm_cleared (demo_input "75.00") es
         (llm_invoke_input (demo_input "75.00") (mkPolicyEvalResult true "allow" [] "hello" [])
            (mkJITTokenResult "token" "jti" None None)).
Proof.
  assert (H : exists es o s k, ESignal (Deny yes) ∈ es
    /\ execs (run (demo_input "75.00") AgentTaskWorkflow_init) es
         (Activity (LLMInvoke (llm_invoke_input (demo_input "75.00")
            (mkPolicyEvalResult true "allow" [] "hello" [])
            (mkJITTokenResult "token" "jti" None None))) o s k)).
  { eexists [_; _; _; _; _; _; _; _], _, _, _. split;
      [do 5 apply list_elem_of_further; apply list_elem_of_here|].
    eapply execs_cons; [apply ws_activity with (r := Completed (mkScrub "hello" []))|].
    eapply execs_cons;
      [apply ws_activity with (r := Completed (mkPolicyEvalResult true "allow" [] "hello" []))|].
    eapply execs_cons;
      [apply ws_activity with (r := Completed (mkJITTokenResult "token" "jti" None None))|].
    eapply execs_cons; [apply ws_now with (t := 7)|].
    eapply execs_cons; [apply ws_activity with (r := Completed tt)|].
    eapply execs_cons; [apply ws_signal_wait|].
    eapply execs_cons; [apply ws_wait with (r := Woken); eexists; reflexivity|].
    eapply execs_cons; [apply ws_activity with (r := Completed tt)|].
    apply execs_refl. }
  destruct H as (es & o & s & k & Hin & He). exists es, o, s, k.
  split; [exact Hin|]. split; [exact He|]. exact (llm_call_cleared _ _ _ _ _ _ He).
Defined.

Lemma demo_run inp answer gs w :
  serves_ok answer gs w 7 (run inp AgentTaskWorkflow_init) ->
  let '(es, r, s) := serve answer gs w 7 (run inp AgentTaskWorkflow_init) in
  execs (run inp AgentTaskWorkflow_init) es (Done r s).
Proof.
  intros Hok. destruct (serve answer gs w 7 _) as [[es r] s] eqn:E.
  exact (serve_execs _ _ _ _ _ _ _ _ E Hok).
Qed.

Lemma workflow_result_sound_witness :
  exists es out s,
    execs (run (demo_input "75.00") AgentTaskWorkflow_init) es (Done (inr out) s)
    /\ wo_approval_state out = "denied"%string /\ output_log (demo_input "75.00") es out.
Proof.
  pose proof (demo_run (demo_input "75.00") demo_answer [Approve no] Woken) as H.
  assert (Hok : serves_ok demo_answer [Approve no] Woken 7
                  (run (demo_input "75.00") AgentTaskWorkflow_init))
    by (vm_compute; eauto).
  specialize (H Hok). clear Hok.
  destruct (serve demo_answer [Approve no] Woken 7 _) as [[es r] s] eqn:E.
  vm_compute in E. injection E as <- <- <-.
  do 3 eexists. split; [exact H|]. split; [reflexivity|]. exact (workflow_result_sound _ _ _ _ H).
Defined.

Lemma workflow_error_sound_witness :
  exists es e s,
    execs (run (demo_input "10.00") AgentTaskWorkflow_init) es (Done (inl e) s)
    /\ error_log (demo_input "10.00") es e.
Proof.
  pose proof (demo_run (demo_input "10.00") demo_rate_limited [] Woken) as H.
  assert (Hok : serves_ok demo_rate_limited [] Woken 7
                  (run (demo_input "10.00") AgentTaskWorkflow_init))
    by (vm_compute; exact I).
  specialize (H Hok). clear Hok.
  destruct (serve demo_rate_limited [] Woken 7 _) as [[es r] s] eqn:E.
  vm_compute in E. injection E as <- <- <-.
  do 3 eexists. split; [exact H|]. exact (workflow_error_sound _ _ _ _ H).
Defined.

Lemma approval_refines_gate_witness :
  exists es c s, execs (run (demo_input "75.00") AgentTaskWorkflow_init) es c
    /\ (_approval_state s, _approval_signal s) = gate_of es
    /\ gate_of es = (PendingApprovalState.TIMED_OUT, Some yes).
Proof.
  pose proof (demo_run (demo_input "75.00") demo_answer [Approve no; Approve yes] TimedOut) as H.
  assert (Hok : serves_ok demo_answer [Approve no; Approve yes] TimedOut 7
                  (run (demo_input "75.00") AgentTaskWorkflow_init))
    by (vm_compute; auto).
  specialize (H Hok). clear Hok.
  destruct (serve demo_answer [Approve no; Approve yes] TimedOut 7 _) as [[es r] s] eqn:E.
  vm_compute in E. injection E as <- <- <-.
  do 3 eexists. split; [exact H|].
  pose proof (approval_refines_gate _ _ _ _ H (or_intror (or_intror (ex_intro _ _ eq_refl))))
    as [Hg _].
  split; [exact Hg|]. reflexivity.
Defined.

(** A rate-limited LLM ends in the escalation, which does not close the workflow. *)
Lemma escalation_leaves_open :
  exists es e s, execs (run (demo_input "10.00") AgentTaskWorkflow_init) es (Done (inl e) s)
    /\ closes (inl e : wf_exn + WorkflowOutput) = false.
Proof.
  pose proof (demo_run (demo_input "10.00") demo_rate_limited [] Woken) as H.
  assert (Hok : serves_ok demo_rate_limited [] Woken 7
                  (run (demo_input "10.00") AgentTaskWorkflow_init)) by (vm_compute; exact I).
  specialize (H Hok). clear Hok.
  destruct (serve demo_rate_limited [] Woken 7 _) as [[es r] s] eqn:E.
  vm_compute in E. injection E as <- <- <-. do 3 eexists. split; [exact H|reflexivity].
Qed.

Lemma workflow_bounded_witness :
  exists es e, (length (awaits es) <= 10)%nat /\ left_open (demo_input "10.00") es e.
Proof.
  destruct escalation_leaves_open as (es & e & s & H & Hc).
  destruct (workflow_bounded _ _ _ H) as (Hl & _ & Hd).
  destruct (Hd _ _ eq_refl) as [Ht|(e' & _ & _ & Hlo)].
  - rewrite Hc in Ht. discriminate Ht.
  - exists es, e'. split; [exact Hl|exact Hlo].
Defined.

Lemma approved_task_completes_witness :
  exists es out s,
    execs (run (demo_input "75.00") AgentTaskWorkflow_init) es (Done (inr out) s)
    /\ wo_workflow_status out = "completed"%string.
Proof.
  destruct (approved_task_completes (demo_input "75.00") demo_completes [Approve no; Approve yes]
              yes 7 (mkDec false 7500 (-2))) as (es & out & s & _ & He & Hst & _);
    [reflexivity..|].
  exists es, out, s. auto.
Defined.
