(* ===== verification/Activities.v ===== *)
(** * src/control_plane/scheduler.py: the activities

    [AegisActivities] and [WorkflowAuditActivities]: the code the Temporal worker
    runs for the workflow's requests.  The activities share the session manager and
    the audit logger with the adapter ([Shared]) and keep a budget enforcer; every
    loop activity builds its own detector.  [activity.info()] is the argument
    [info].  The parent context extracted from [traceparent] only feeds the
    tracer, whose current context is arbitrary ([World.current_span_context]). *)
From Stdlib Require Import ZArith Lia Ascii String.
From stdpp Require Import base gmap strings list pretty.
From S2P Require Import Prelude PyDecimal PyUuid World Config AuditLogger BudgetEnforcer.
From S2P Require Import LoopDetector PyCrypto ReplayStore Regex Guardrails SessionMgr.
From S2P Require Import PolicyEngine Adapters Determined Workflow.

(** What [activity.info()] says about the running attempt. *)
Record ActivityInfo : Type := mkActivityInfo {
  info_workflow_id : option string;
  info_activity_id : string;
  info_attempt : Z
}.

Record AState (R : Type) : Type := mkAState {
  a_shared : Shared R;
  a_budget : BudgetEnforcer
}.
Arguments mkAState {R} _ _.
Arguments a_shared {R} _.
Arguments a_budget {R} _.

Definition at_shared {R A} (m : M (Shared R) A) : M (AState R) A :=
  zoom a_shared (fun t s => mkAState t (a_budget s)) m.
Definition at_session {R A} (m : M (SessionManager R) A) : M (AState R) A :=
  at_shared (in_session m).
Definition at_audit {R A} (m : M AuditLogger A) : M (AState R) A := at_shared (in_audit m).
Definition at_budget {R A} (m : M BudgetEnforcer A) : M (AState R) A :=
  zoom a_budget (fun t s => mkAState (a_shared s) t) m.

(** Run [m] with an object [t] of its own, dropped at the end. *)
Definition with_local {S T A} (t : T) (m : M (S * T) A) : M S A := fun s w =>
  let '(r, (st, w')) := m (s, t) w in (r, (st.1, w')).
Definition on_fst {S T A} (m : M S A) : M (S * T) A := zoom fst (fun s st => (s, st.2)) m.
Definition on_snd {S T A} (m : M T A) : M (S * T) A := zoom snd (fun t st => (st.1, t)) m.

(** ** Spans *)

Definition _attach_span_context {S} (name task agent : string) : M S unit :=
  span (SpanAttr name "task_id" (JStr task)) ;;
  span (SpanAttr name "agent_type" (JStr agent)).
Definition _mark_span_success {S} (name : string) : M S unit :=
  span (SpanAttr name "span.status" (JStr "OK")) ;;
  span (SpanStatusOk name).
Definition _mark_span_error {S} (name : string) (exc : exn) : M S unit :=
  span (SpanAttr name "span.status" (JStr "ERROR")) ;;
  span (SpanAttr name "error" (JBool true)) ;;
  span (SpanAttr name "error.message" (JStr (exn_str exc))) ;;
  span (SpanException name exc) ;;
  span (SpanStatusError name (exn_str exc)).

(** The last clause of every activity: mark the span and re-raise. *)
Definition or_mark_error {S A} (name : string) : exc_class * (exn -> M S A) :=
  (Exception, fun exc => _mark_span_error name exc ;; raise exc).

Lemma never_ok_mark {S A} name e : never_ok ((@or_mark_error S A name).2 e).
Proof. cbn [or_mark_error snd]. auto with never_ok. Qed.
#[export] Hint Resolve never_ok_mark : never_ok.

(** ** The activities *)

Section activities.
Context `{Env} `{HasSettings} `{PyText} `{FloatRepr} `{Cryptography} `{Pydantic} `{Jose}.
Context `{UnicodeData} `{KeyGen}.
Context {R : Type} `{!ReplayStore R}.
Abbreviation AM := (M (AState R)).

Definition _require_task_id {S} (task_id stage agent : string) : M S string :=
  if negb (bool_decide (task_id = ""%string)) then mret task_id
  else
    error "audit.propagation_error"
      [("stage", JStr stage); ("task_id", JStr "missing-task-id"); ("agent_type", JStr agent);
       ("error_message", JStr "Temporal activity input is missing task_id")]%string ;;
    throw MissingTaskIdError
      ("Temporal activity input for stage " +:+ repr_str stage +:+ " is missing task_id").

(** [with tracer.start_as_current_span(stage, ...): ...] *)
Definition activity_span {S A} (stage task agent : string) (body : M S A) : M S A :=
  with_span stage (_attach_span_context stage task agent ;; body).

Definition outcome_of (pii : list string) : string :=
  if bool_decide (pii = []) then "allow" else "redact".

Definition pre_pii_scrub (inp : WorkflowInput) : AM PrePIIScrubResult :=
  let agent := wi_agent_type inp in
  task_id ← _require_task_id (wi_task_id inp) "pre-pii-scrub" agent;
  activity_span "pre-pii-scrub" task_id agent
    (try_except
       (at_audit (lifecycle_event "workflow.started" (LifecycleEvent_value STARTED) task_id agent
                    (wi_session_id inp) (WorkflowStatus.value WorkflowStatus.RUNNING)
                    "workflow-lifecycle" None []) ;;
        check_prompt_injection (wi_prompt inp) ;;
        let mask_result := mask_pii (wi_prompt inp) in
        at_audit (stage_event "guardrails.pre_sanitize" (outcome_of (found_types mask_result))
                    "pre-pii-scrub" task_id agent None
                    [("pii_types"%string, jstrs (found_types mask_result))]) ;;
        _mark_span_success "pre-pii-scrub" ;;
        mret (mkScrub (mr_text mask_result) (found_types mask_result)))
       [or_mark_error "pre-pii-scrub"]).

(** [for fld in result.fields: if fld == "prompt": ...] *)
Fixpoint scrub_fields (fs : list string) (p : string) (extra : list string)
    : string * list string :=
  match fs with
  | [] => (p, extra)
  | f :: fs =>
      if bool_decide (f = "prompt"%string) then
        let m := scrub p in scrub_fields fs (mr_text m) (extra ++ found_types m)
      else scrub_fields fs p extra
  end.

Definition eval_policy_input (inp : PolicyEvalInput) : PolicyInput :=
  mkPolicyInput (pv_agent_type inp) (pv_requester_id inp) "llm.complete"
    ("model:" +:+ pv_model inp) [] None false.

Definition policy_eval (policy : PolicyEngine) (inp : PolicyEvalInput) : AM PolicyEvalResult :=
  let agent := pv_agent_type inp in
  task_id ← _require_task_id (pv_task_id inp) "policy-eval" agent;
  let ev name outcome kw := at_audit (stage_event name outcome "policy-eval" task_id agent None kw) in
  activity_span "policy-eval" task_id agent
    (try_except
       (result ← try_except (evaluate policy "agent_access" (eval_policy_input inp))
          [(OpaUnavailableError, fun exc =>
              ev "policy.opa_unavailable"%string "error"%string
                [("error_message"%string, JStr (exn_str exc))] ;;
              throw_from (ApplicationError "PolicyDeniedError")
                "OPA unavailable – request denied (fail-closed)" exc)];
        if negb (allowed result) || bool_decide (action result = "reject"%string) then
          ev "policy.denied"%string "deny"%string [("reasons"%string, jstrs (reasons result))] ;;
          throw (ApplicationError "PolicyDeniedError")
            ("OPA denied request for agent_type=" +:+ repr_str agent +:+ ": "
             +:+ py_repr (jstrs (reasons result)))
        else
          ev "policy.allowed"%string "allow"%string [] ;;
          '(sanitized_prompt, extra_pii_types) ←
            (if bool_decide (action result = "mask"%string) then
               let pe := scrub_fields (fields result) (pv_sanitized_prompt inp) [] in
               ev "policy.mask_applied"%string "redact"%string
                 [("fields"%string, jstrs (fields result))] ;;
               mret pe
             else mret (pv_sanitized_prompt inp, []));
          _mark_span_success "policy-eval" ;;
          mret (mkPolicyEvalResult (allowed result) (action result) (fields result)
                  sanitized_prompt extra_pii_types))
       [or_mark_error "policy-eval"]).

Definition dec_of (s : string) : AM Decimal :=
  of_option (dec_parse s) InvalidOperation "[<class 'decimal.ConversionSyntax'>]".
Definition uuid_of {S} (s : string) : M S UUID :=
  of_option (uuid_parse s) ValueError "badly formed hexadecimal UUID string".

Definition _restore_budget_session (budget_session_id agent budget_limit_usd : string)
    (history : list BudgetHistoryEntry) : AM (UUID * BudgetSession) :=
  session_id ← uuid_of budget_session_id;
  limit ← dec_of budget_limit_usd;
  restored ← at_budget (restore_from_history session_id agent limit history);
  mret (session_id, restored).

(** The [try] of [budget_pre_check]. *)
Definition precheck_body (inp : BudgetPreCheckInput) (task_id : string)
    : AM BudgetPreCheckResult :=
  let agent := bi_agent_type inp in
  let ev name outcome kw :=
    at_audit (stage_event name outcome "watchdog.pre-llm" task_id agent None
                (("budget_session_id"%string, JStr (bi_budget_session_id inp)) :: kw)) in
  try_except
    ('(session_id, restored) ←
       _restore_budget_session (bi_budget_session_id inp) agent (bi_budget_limit_usd inp)
         (bi_history inp);
     at_budget (check_budget session_id) ;;
     ev "budget.pre_check"%string "allow"%string
       [("spent_usd"%string, JStr (dec_str (cost_usd restored)))] ;;
     _mark_span_success "watchdog.pre-llm" ;;
     mret (mkBudgetPreCheckResult (serialize restored)))
    [(BudgetExceededError, fun exc =>
        ev "budget.exceeded"%string "deny"%string
          [("error_message"%string, JStr (exn_str exc))] ;;
        _mark_span_error "watchdog.pre-llm" exc ;;
        throw_from (ApplicationError "BudgetExceededError") (exn_str exc) exc);
     or_mark_error "watchdog.pre-llm"].

Definition budget_pre_check (inp : BudgetPreCheckInput) : AM BudgetPreCheckResult :=
  task_id ← _require_task_id (bi_task_id inp) "watchdog.pre-llm" (bi_agent_type inp);
  activity_span "watchdog.pre-llm" task_id (bi_agent_type inp) (precheck_body inp task_id).

(** The idempotency key of a spend: the same for every attempt of the activity. *)
Definition spend_operation_id (info : ActivityInfo) : string :=
  match info_workflow_id info with
  | Some w => w +:+ ":" +:+ info_activity_id info
  | None => info_activity_id info
  end.

Definition budget_record_spend (info : ActivityInfo) (inp : BudgetRecordInput)
    : AM BudgetRecordResult :=
  let agent := br_agent_type inp in
  task_id ← _require_task_id (br_task_id inp) "watchdog.record-spend" agent;
  let ev name outcome kw :=
    at_audit (stage_event name outcome "watchdog.record-spend" task_id agent None
                (("budget_session_id"%string, JStr (br_budget_session_id inp)) :: kw)) in
  activity_span "watchdog.record-spend" task_id agent
    (try_except
       (let op := spend_operation_id info in
        '(session_id, restored) ←
          _restore_budget_session (br_budget_session_id inp) agent (br_budget_limit_usd inp)
            (br_history inp);
        cost ← dec_of (br_cost_per_token_usd inp);
        session ← at_budget (record_tokens session_id (br_tokens_used inp) cost (Some op));
        let history :=
          if bool_decide (op ∈ applied_operation_ids restored) then br_history inp
          else br_history inp
                 ++ [mkHistoryEntry op
                       (dec_str (dec_mul cost (dec_of_int (br_tokens_used inp))))
                       (br_tokens_used inp)] in
        ev "budget.spend_recorded"%string "allow"%string
          [("spent_usd"%string, JStr (dec_str (cost_usd session)))] ;;
        _mark_span_success "watchdog.record-spend" ;;
        mret (mkBudgetRecordResult (serialize session) history))
       [(BudgetExceededError, fun exc =>
           ev "budget.exceeded_on_record"%string "deny"%string
             [("error_message"%string, JStr (exn_str exc))] ;;
           _mark_span_error "watchdog.record-spend" exc ;;
           throw_from (ApplicationError "BudgetExceededError") (exn_str exc) exc);
        or_mark_error "watchdog.record-spend"]).

Definition _build_loop_detector (max_agent_steps max_token_velocity : option Z) : LoopDetector :=
  LoopDetector_init max_agent_steps max_token_velocity.

(** The error of a tripped breaker, with the totals of the context. *)
Definition breaker_tripped (name type task agent : string) (sid : UUID)
    : exn -> M (AState R * LoopDetector) LoopRecordResult := fun exc =>
  loop_ctx ← on_snd (get_context sid);
  let step_count := from_option (fun c => Z.of_nat (length (steps c))) 0 loop_ctx in
  let total := from_option total_tokens 0 loop_ctx in
  on_fst (at_audit (stage_event name "deny" "watchdog.loop-detect" task agent None
                      [("error_message"%string, JStr (exn_str exc))])) ;;
  _mark_span_error "watchdog.loop-detect" exc ;;
  throw_from (ApplicationError type)
    (exn_str exc +:+ " [step_count=" +:+ pretty step_count +:+ " total_tokens="
     +:+ pretty total +:+ "]") exc.

(** The [try] of [loop_record_step], on the activity's own detector. *)
Definition loop_attempt (inp : LoopRecordInput) (task_id : string) (sid : UUID)
    : M (AState R * LoopDetector) LoopRecordResult :=
  let agent := lo_agent_type inp in
  try_except
    (match lo_checkpoint inp with
     | None => on_snd (create_context sid agent)
     | Some ck => on_snd (restore ck)
     end ;;
     ctx ← on_snd (record_step sid (lo_token_delta inp) (lo_signal inp) (lo_description inp));
     on_fst (at_audit (stage_event "loop.step_recorded" "allow" "watchdog.loop-detect"
               task_id agent None
               [("step", JStr (pretty (Z.of_nat (length (steps ctx)))));
                ("signal", JStr (LoopSignal_value (lo_signal inp)))]%string)) ;;
     _mark_span_success "watchdog.loop-detect" ;;
     ck ← on_snd (checkpoint sid);
     mret (mkLoopRecordResult ck (Z.of_nat (length (steps ctx))) (total_tokens ctx)
             (loop_detected ctx) (intervention_required ctx)))
    [(LoopDetectedError,
      breaker_tripped "loop.halted" "LoopDetectedError" task_id agent sid);
     (TokenVelocityError,
      breaker_tripped "loop.velocity_exceeded" "TokenVelocityError" task_id agent sid);
     (PendingApprovalError,
      breaker_tripped "loop.pending_approval" "PendingApprovalError" task_id agent sid);
     or_mark_error "watchdog.loop-detect"].

Definition loop_record_step (inp : LoopRecordInput) : AM LoopRecordResult :=
  let agent := lo_agent_type inp in
  task_id ← _require_task_id (lo_task_id inp) "watchdog.loop-detect" agent;
  activity_span "watchdog.loop-detect" task_id agent
    (sid ← uuid_of (lo_loop_session_id inp);
     let detector := _build_loop_detector (lo_max_agent_steps inp) (lo_max_token_velocity inp) in
     with_local detector (loop_attempt inp task_id sid)).

Definition jit_token_request (inp : JITTokenInput) : TokenRequest :=
  mkTokenRequest (ji_agent_type inp) (ji_requester_id inp) None (ji_session_id inp)
    (Some (ji_allowed_actions inp)) (ji_role inp) None (ji_rotation_key inp) None None.

Definition jit_token_issue (inp : JITTokenInput) : AM JITTokenResult :=
  let agent := ji_agent_type inp in
  task_id ← _require_task_id (ji_task_id inp) "jit-token-issue" agent;
  activity_span "jit-token-issue" task_id agent
    (try_except
       (keys ← (if ji_protect_outbound_request inp then
                  k ← (fun s w => (Ok (draw_key w), (s, w)));
                  let '(pem0, x, y) := (k : string * Z * Z) in
                  '(pem, jwk) ← at_session (generate_dpop_key_pair pem0 x y);
                  mret (Some pem, Some jwk)
                else mret (None, None));
        token ← at_session (issue_token (jit_token_request inp));
        claims ← at_session (validate_token token);
        at_audit (stage_event "token.issued" "allow" "jit-token-issue" task_id agent None
                    [("jti"%string, JStr (jti claims))]) ;;
        _mark_span_success "jit-token-issue" ;;
        mret (mkJITTokenResult token (jti claims) keys.1 keys.2))
       [or_mark_error "jit-token-issue"]).

Definition reissue_request (inp : LLMInvokeInput) : TokenRequest :=
  mkTokenRequest (li_agent_type inp) (li_requester_id inp) None (li_session_id inp)
    (Some (li_allowed_actions inp)) (li_role inp) None (li_rotation_key inp) None None.

(** The token of a retried attempt. *)
Definition reissue_token (info : ActivityInfo) (inp : LLMInvokeInput) (task_id : string)
    : AM string :=
  let agent := li_agent_type inp in
  token ← at_session (issue_token (reissue_request inp));
  claims ← at_session (validate_token token);
  at_audit (stage_event "token.reissued" "allow" "jit-token-issue" task_id agent None
              [("attempt", JInt (info_attempt info)); ("jti", JStr (jti claims))]%string) ;;
  at_audit (stage_event "llm.retried" "retried" "llm-invoke" task_id agent None
              [("attempt"%string, JInt (info_attempt info))]) ;;
  at_audit (lifecycle_event "llm.retried" (LifecycleEvent_value RETRIED) task_id agent
              (li_session_id inp) (WorkflowStatus.value WorkflowStatus.RUNNING) "llm-invoke" None
              [("retry_count"%string, JInt (info_attempt info - 1))]) ;;
  mret token.

Definition invoke_request (inp : LLMInvokeInput) (metadata : list (string * string))
    : LLMRequest :=
  mkLLMRequest (li_sanitized_prompt inp) (li_model inp) (li_max_tokens inp) (li_temperature inp)
    (li_system_prompt inp) metadata.

(** The sender-constrained token and its proof for a protected request. *)
Definition bind_invocation (adapter : BaseAdapter R) (inp : LLMInvokeInput)
    (task_id token : string) : AM (string * string) :=
  let agent := li_agent_type inp in
  match li_protected_private_key_pem inp, li_protected_public_jwk inp with
  | Some pem, Some public_jwk =>
      match outbound_request_binding adapter (invoke_request inp [(AegisTokenKey, token)]) with
      | None => throw ValueError ("Adapter " +:+ repr_str (provider_name adapter)
                                  +:+ " does not expose an outbound request binding for "
                                  +:+ "protected flows")
      | Some (http_method, http_url) =>
          adapter_token ← at_session (issue_sender_constrained_token
            (mkTokenRequest agent (li_requester_id inp) None (li_session_id inp)
               (Some ["llm.invoke"%string]) (li_role inp) None
               (Some ("scheduler-adapter:" +:+ task_id)) (Some task_id) None) public_jwk);
          dpop_proof ← at_session (issue_dpop_proof pem public_jwk http_method http_url
                                     (Some adapter_token) None None None);
          adapter_claims ← at_session (validate_token adapter_token);
          at_audit (stage_event "token.sender_constrained_issued" "allow" "jit-token-issue"
                      task_id agent None [("jti"%string, JStr (jti adapter_claims))]) ;;
          mret (adapter_token, dpop_proof)
      end
  | _, _ => throw ValueError ("Protected outbound requests require DPoP key material from "
                              +:+ "JITTokenIssue")
  end.

Definition invoke_metadata (adapter_token : string) (proof : option string)
    : list (string * string) :=
  (AegisTokenKey, adapter_token)
  :: match proof with
     | Some p => [(AegisProofKey, p); (AegisProtectedKey, "true"%string)]
     | None => []
     end.

Definition llm_invoke (adapter : BaseAdapter R) (info : ActivityInfo) (inp : LLMInvokeInput)
    : AM LLMInvokeResult :=
  let agent := li_agent_type inp in
  task_id ← _require_task_id (li_task_id inp) "llm-invoke" agent;
  activity_span "llm-invoke" task_id agent
    (try_except
       (token ← (if 1 <? info_attempt info then reissue_token info inp task_id
                 else mret (li_token inp));
        '(adapter_token, dpop_proof) ←
          (if li_protect_outbound_request inp then
             '(t, p) ← bind_invocation adapter inp task_id token; mret (t, Some p)
           else mret (token, None));
        response ← at_shared (complete adapter
                     (invoke_request inp (invoke_metadata adapter_token dpop_proof)));
        at_audit (stage_event "llm.completed" "allow" "llm-invoke" task_id agent None
                    [("model", JStr (ls_model response));
                     ("tokens_used", JInt (ls_tokens_used response))]%string) ;;
        _mark_span_success "llm-invoke" ;;
        mret (mkLLMInvokeResult (content response) (ls_tokens_used response) (ls_model response)
                (ls_provider response) (info_attempt info - 1)))
       [or_mark_error "llm-invoke"]).

Definition post_sanitize (inp : PostSanitizeInput) : AM PostSanitizeResult :=
  let agent := si_agent_type inp in
  task_id ← _require_task_id (si_task_id inp) "post-sanitize" agent;
  activity_span "post-sanitize" task_id agent
    (try_except
       (let mask_result := mask_pii (si_content inp) in
        at_audit (stage_event "guardrails.post_sanitize" (outcome_of (found_types mask_result))
                    "post-sanitize" task_id agent None
                    [("pii_types"%string, jstrs (found_types mask_result))]) ;;
        at_audit (lifecycle_event "workflow.completed" (LifecycleEvent_value COMPLETED) task_id
                    agent (si_session_id inp) (WorkflowStatus.value WorkflowStatus.COMPLETED)
                    "workflow-lifecycle" None
                    [("total_retries"%string, JInt (si_total_retries inp))]) ;;
        _mark_span_success "post-sanitize" ;;
        mret (mkPostSanitizeResult (mr_text mask_result) (found_types mask_result)))
       [or_mark_error "post-sanitize"]).

(** *** WorkflowAuditActivities *)

(** Python refuses a call in which [**details] repeats a named argument. *)
Definition kwargs_clash (names : list string) (details : list (string * json)) : bool :=
  existsb (fun kv => bool_decide (kv.1 ∈ names)) details.

Definition record_event (inp : WorkflowAuditInput) : AM unit :=
  let plain lv :=
    if kwargs_clash ["event"; "task_id"; "agent_type"]%string (ai_details inp) then
      throw TypeError "got multiple values for keyword argument"
    else log_line lv (ai_event inp)
           ([("task_id", JStr (ai_task_id inp)); ("agent_type", JStr (ai_agent_type inp))]%string
            ++ ai_details inp) in
  match ai_event_type inp with
  | Some ty =>
      if kwargs_clash ["event"; "event_type"; "task_id"; "agent_type"; "session_id";
                       "workflow_status"; "stage"; "timestamp_override"]%string
           (ai_details inp) then
        throw TypeError "got multiple values for keyword argument"
      else
        at_audit (lifecycle_event (ai_event inp) ty (ai_task_id inp) (ai_agent_type inp)
                    (ai_session_id inp) (ai_workflow_status inp) (ai_stage inp) None
                    (ai_details inp))
  | None =>
      if bool_decide (ai_outcome inp = "deny"%string) then plain Warning
      else if bool_decide (ai_outcome inp = "error"%string) then plain Error
      else plain Info
  end.

(** The activities the worker registers (src/control_plane/worker.py). *)
Definition perform (policy : PolicyEngine) (adapter : BaseAdapter R) (info : ActivityInfo)
    {X} (a : activity X) : AM X :=
  match a with
  | PrePIIScrub inp => pre_pii_scrub inp
  | PolicyEval inp => policy_eval policy inp
  | JITTokenIssue inp => jit_token_issue inp
  | BudgetPreCheck inp => budget_pre_check inp
  | LLMInvoke inp => llm_invoke adapter info inp
  | BudgetRecordSpend inp => budget_record_spend info inp
  | LoopRecordStep inp => loop_record_step inp
  | PostSanitize inp => post_sanitize inp
  | WorkflowAudit inp => record_event inp
  end.
End activities.

(** ** Properties *)

Section theorems.
Context `{Env} `{HasSettings} `{PyText} `{FloatRepr} `{Cryptography} `{Pydantic} `{Jose}.
Context `{UnicodeData} `{KeyGen}.
Context {R : Type} `{!ReplayStore R}.
Implicit Types (s : AState R) (w : World).

(** A completed activity had a task id, and its body completed inside the span. *)
Lemma activity_ok {A} task stage agent (body : string -> M (AState R) A) s w x s' w' :
  (t ← _require_task_id task stage agent; activity_span stage t agent (body t)) s w
    = (Ok x, (s', w')) ->
  task <> ""%string /\
  exists w1 w2, body task s w1 = (Ok x, (s', w2)) /\ w_http w1 = w_http w.
Proof.
  intros E. bind_inv E as t s1 w1 E1. unfold _require_task_id in E1.
  case_bool_decide as Ht; simpl in E1.
  { bind_inv E1 as u s2 w2 E2. discriminate E1. }
  injection E1 as <- <- <-. split; [exact Ht|].
  apply with_span_ok in E as [w2 Eb].
  bind_inv Eb as u s3 w3 E3. unfold _attach_span_context, span, set_world, mbind, M_bind in E3.
  injection E3 as <- <- <-.
  do 2 eexists. split; [exact Eb|reflexivity].
Qed.

(** An activity with a task id runs its body. *)
Lemma activity_run {A} task stage agent (body : string -> M (AState R) A) s w :
  task <> ""%string ->
  exists w1, ((t ← _require_task_id task stage agent; activity_span stage t agent (body t)) s w).1
             = (body task s w1).1.
Proof.
  intros Ht. unfold _require_task_id. rewrite bool_decide_false by exact Ht. simpl.
  unfold activity_span, _attach_span_context, with_span. run_m.
  destruct (body task s _) as [r [s' w']] eqn:E. eexists. by rewrite E.
Qed.

Lemma at_audit_total (e o st t a : string) kw s w :
  exists s' w', at_audit (stage_event e o st t a None kw) s w = (Ok tt, (s', w')).
Proof.
  unfold at_audit, at_shared, in_audit, zoom.
  edestruct (stage_event_total e o st t a kw) as (l' & w' & ->). eauto.
Qed.

Lemma pre_pii_scrub_ok inp s w r s' w' :
  pre_pii_scrub inp s w = (Ok r, (s', w')) ->
  Forall (fun q => ~ occurs q.2 (points (wi_prompt inp))) _INJECTION_PATTERNS /\
  r = mkScrub (mr_text (mask_pii (wi_prompt inp))) (found_types (mask_pii (wi_prompt inp))).
Proof.
  intros E. apply activity_ok in E as (_ & w1 & w2 & E & _). try_inv E.
  bind_inv E as u s1 w3 E1. bind_inv E as u' s2 w4 E2. destruct u'.
  apply check_prompt_injection_ok in E2 as [_ Hinj].
  bind_inv E as u'' s3 w5 E3. bind_inv E as u3 s4 w6 E4.
  injection E as <- _ _. auto.
Qed.

(** What PolicyEval asks OPA to be granted. *)
Definition policy_granted (policy : PolicyEngine) (inp : PolicyEvalInput) : Prop :=
  exists w resp body, opa_answer policy "agent_access" (eval_policy_input inp) w = Ok resp /\
    hs_json resp = Ok body /\ grants body.

(** OPA decided [d]. *)
Definition policy_answered (policy : PolicyEngine) (inp : PolicyEvalInput) (d : PolicyResult)
    : Prop :=
  exists s w sw, evaluate policy "agent_access" (eval_policy_input inp) (s : AState R) w
                 = (Ok d, sw).

(** The prompt as the decision [d] leaves it. *)
Definition instructed (d : PolicyResult) (p : string) : string * list string :=
  if bool_decide (action d = "mask"%string) then scrub_fields (fields d) p [] else (p, []).

Lemma policy_eval_ok policy inp s w r s' w' :
  policy_eval policy inp s w = (Ok r, (s', w')) ->
  policy_granted policy inp /\ pr_allowed r = true /\ pr_action r <> "reject"%string /\
  exists d, policy_answered policy inp d /\
    (pr_sanitized_prompt r, pr_extra_pii_types r) = instructed d (pv_sanitized_prompt inp).
Proof.
  intros E. apply activity_ok in E as (_ & w1 & w2 & E & _). try_inv E.
  bind_inv E as d s1 w3 E1.
  try_inv E1.
  pose proof (evaluate_run policy "agent_access" (eval_policy_input inp) s w1) as Hev.
  rewrite E1 in Hev. destruct Hev as (_ & _ & resp & body & Ho & Hb & Hg).
  destruct (negb (allowed d) || bool_decide (action d = "reject"%string)) eqn:Ed.
  { bind_inv E as u s3 w5 E3. done. }
  bind_inv E as u s3 w5 E3. bind_inv E as pe s4 w6 E4. destruct pe as [p ex].
  bind_inv E as u2 s5 w7 E5. injection E as <- _ _. bool_to_prop.
  split; [exists w1, resp, body; split_and!; [done|done|by apply Hg]|].
  split_and!; [done|done|]. exists d. split; [by exists s, w1; eexists|].
  unfold instructed. simpl. case_bool_decide.
  - bind_inv E4 as u3 s6 w8 E6. injection E4 as <- _ _. done.
  - by injection E4 as <- <- _ _.
Qed.

Lemma post_sanitize_ok inp s w r s' w' :
  post_sanitize inp s w = (Ok r, (s', w')) ->
  r = mkPostSanitizeResult (mr_text (mask_pii (si_content inp)))
        (found_types (mask_pii (si_content inp))).
Proof.
  intros E. apply activity_ok in E as (_ & w1 & w2 & E & _). try_inv E.
  bind_inv E as u s1 w3 E1. bind_inv E as u1 s2 w4 E2. bind_inv E as u2 s3 w5 E3.
  by injection E as <- _ _.
Qed.

(** A completed LLM call: the adapter answered a request with the prompt of the
    input, carrying a token issued by this session manager (or the one given) and,
    when protected, a proof. *)
Lemma llm_invoke_ok adapter info inp s w r s' w' :
  llm_invoke adapter info inp s w = (Ok r, (s', w')) ->
  exists tok proof sh w1 resp sw,
    complete adapter (invoke_request inp (invoke_metadata tok proof)) sh w1 = (Ok resp, sw) /\
    (li_protect_outbound_request inp = true -> is_Some proof) /\
    r = mkLLMInvokeResult (content resp) (ls_tokens_used resp) (ls_model resp)
          (ls_provider resp) (info_attempt info - 1).
Proof.
  intros E. apply activity_ok in E as (_ & w1 & w2 & E & _). try_inv E.
  bind_inv E as tok s1 w3 E1. bind_inv E as tp s2 w4 E2. destruct tp as [at_ proof].
  bind_inv E as resp s3 w5 E3. bind_inv E as u s4 w6 E4. bind_inv E as u1 s5 w7 E5.
  injection E as <- _ _. unfold at_shared, zoom in E3.
  destruct (complete adapter _ _ _) as [cr [sh wc]] eqn:Ec. simplify_eq.
  do 6 eexists. split_and!; [exact Ec| |reflexivity].
  intros Hp. rewrite Hp in E2. bind_inv E2 as tp' s6 w8 E6. destruct tp'.
  injection E2 as _ <- _ _. eauto.
Qed.

(** *** The budget activities are stateless *)

Definition same_session (sid : UUID) (b1 b2 : BudgetEnforcer) : Prop :=
  be_sessions b1 !! sid = be_sessions b2 !! sid.

Lemma determined_get_session sid :
  determined (same_session sid) (same_session sid) (_get_session sid).
Proof.
  unfold _get_session. eapply determined_bind; [|intros; apply determined_of_option].
  intros b1 w1 b2 w2 Hs. split; [exact (f_equal Ok Hs)|]. intros; exact Hs.
Qed.

Lemma determined_set_session sid x : determined any (same_session sid) (set_session sid x).
Proof.
  intros b1 w1 b2 w2 _. split; [reflexivity|]. intros _ _. unfold same_session. simpl.
  rewrite !lookup_insert_eq. reflexivity.
Qed.

Lemma determined_update_session sid f :
  determined (same_session sid) (same_session sid) (update_session sid f).
Proof.
  intros b1 w1 b2 w2 Hs. split; [reflexivity|]. intros _ _. unfold same_session. simpl.
  rewrite !lookup_alter_eq, Hs. reflexivity.
Qed.
Hint Resolve determined_get_session determined_set_session determined_update_session : determined.

Lemma determined_record_tokens sid n c op :
  determined (same_session sid) (same_session sid) (record_tokens sid n c op).
Proof.
  unfold record_tokens, record_spend, budget_gauge, counter_inc, warning. determine.
Qed.
Hint Resolve determined_record_tokens : determined.

Lemma determined_restore_from_history sid agent limit history :
  determined any (same_session sid) (restore_from_history sid agent limit history).
Proof.
  unfold restore_from_history, budget_gauge. determine.
  induction history as [|e history IH]; simpl; [apply determined_ret|].
  unfold replay_entry, _resolve_cost_per_token. determine.
Qed.

Definition same_budget (sid : UUID) (s1 s2 : AState R) : Prop :=
  same_session sid (a_budget s1) (a_budget s2).

Lemma determined_at_audit_any {A} (m : M AuditLogger A) :
  determined any any m -> determined (S := AState R) any any (at_audit m).
Proof.
  intros Hm. unfold at_audit, at_shared, in_audit.
  eapply (determined_zoom _ _ _ _ _ any any); [intros; exact I|intros; exact I|].
  eapply (determined_zoom _ _ _ _ _ any any); [intros; exact I|intros; exact I|exact Hm].
Qed.

Lemma determined_at_audit {A} sid (m : M AuditLogger A) :
  determined any any m -> determined (same_budget sid) (same_budget sid) (at_audit m).
Proof.
  intros Hm. unfold at_audit, at_shared, in_audit.
  eapply (determined_zoom _ _ _ _ _ any any); [intros; exact I|intros ???? Hs _; exact Hs|].
  eapply (determined_zoom _ _ _ _ _ any any); [intros; exact I|intros; exact I|exact Hm].
Qed.

Lemma determined_at_budget {A} (I J : BudgetEnforcer -> BudgetEnforcer -> Prop) (m : M BudgetEnforcer A) :
  determined I J m ->
  determined (S := AState R) (fun s1 s2 => I (a_budget s1) (a_budget s2))
    (fun s1 s2 => J (a_budget s1) (a_budget s2)) (at_budget m).
Proof. intros Hm. eapply determined_zoom; [..|exact Hm]; auto. Qed.

Hint Resolve determined_at_audit determined_at_audit_any : determined.

Lemma determined_mark_error {A} name exc :
  determined any any (_mark_span_error name exc ;; raise exc : M (AState R) A).
Proof. unfold _mark_span_error. determine. Qed.

Lemma determined_require {S} (I : S -> S -> Prop) task stage agent :
  determined I I (_require_task_id task stage agent).
Proof. unfold _require_task_id, error. determine. Qed.
Hint Resolve determined_require : determined.

Lemma restore_budget_returns sid id agent limit history :
  uuid_parse id = Some sid ->
  returns (S := AState R) (_restore_budget_session id agent limit history) (fun p => p.1 = sid).
Proof.
  intros Hu s w p s' w' E. unfold _restore_budget_session, uuid_of in E. rewrite Hu in E.
  bind_inv E as u s1 w1 E1. injection E1 as <- _ _.
  bind_inv E as l s2 w2 E2. bind_inv E as b s3 w3 E3. injection E as <- _ _. reflexivity.
Qed.

Lemma determined_restore_budget sid id agent limit history :
  uuid_parse id = Some sid ->
  determined any (same_budget sid) (_restore_budget_session (R := R) id agent limit history).
Proof.
  intros Hu. unfold _restore_budget_session, uuid_of. rewrite Hu.
  change (determined any (same_budget sid)
            (limit ← dec_of limit;
             restored ← at_budget (R := R) (restore_from_history sid agent limit history);
             mret (sid, restored))).
  eapply determined_bind; [apply determined_of_option|intros l].
  eapply determined_bind; [|intros; apply determined_ret].
  apply (determined_at_budget any (same_session sid)), determined_restore_from_history.
Qed.

(** What follows the replay only looks at the replayed session. *)
Lemma determined_after_restore {A} id agent limit history
    (k : UUID * BudgetSession -> M (AState R) A) :
  (forall sid restored, determined (same_budget sid) any (k (sid, restored))) ->
  determined any any (_restore_budget_session id agent limit history ≫= k).
Proof.
  intros Hk. destruct (uuid_parse id) as [sid|] eqn:Hu.
  - eapply determined_bind_returns;
      [apply determined_restore_budget, Hu|apply restore_budget_returns, Hu|].
    intros [sid' restored] Hs. simpl in Hs. subst sid'. apply Hk.
  - unfold _restore_budget_session, uuid_of. rewrite Hu. intros s1 w1 s2 w2 _.
    split; [reflexivity|discriminate].
Qed.

Lemma determined_forget {A} sid (m : M (AState R) A) :
  determined (same_budget sid) (same_budget sid) m -> determined (same_budget sid) any m.
Proof. intros Hm. eapply determined_weaken; [..|exact Hm]; [auto|intros; exact I]. Qed.

Lemma determined_budget_pre_check inp : determined any any (budget_pre_check (R := R) inp).
Proof.
  unfold budget_pre_check, precheck_body, activity_span, _attach_span_context, _mark_span_success, or_mark_error.
  eapply determined_bind; [apply determined_require|intros task]. cbv zeta.
  apply determined_with_span. eapply determined_bind; [determine|intros ?].
  eapply determined_try.
  - apply determined_after_restore. intros sid restored. apply determined_forget.
    eapply determined_bind; [apply (determined_at_budget (same_session sid) (same_session sid))|].
    { unfold check_budget, warning. determine. }
    intros ?. determine.
  - apply Forall_cons_2; [intros exc; cbn [snd]; unfold _mark_span_error; determine|].
    apply Forall_cons_2; [intros exc; apply determined_mark_error|apply Forall_nil_2].
Qed.

Lemma determined_budget_record_spend info inp :
  determined any any (budget_record_spend (R := R) info inp).
Proof.
  unfold budget_record_spend, activity_span, _attach_span_context, _mark_span_success,
    or_mark_error.
  eapply determined_bind; [apply determined_require|intros task]. cbv zeta.
  apply determined_with_span. eapply determined_bind; [determine|intros ?].
  eapply determined_try.
  - apply determined_after_restore. intros sid restored. apply determined_forget.
    eapply determined_bind; [apply determined_of_option|intros cost].
    eapply determined_bind;
      [apply (determined_at_budget (same_session sid) (same_session sid)), determined_record_tokens|].
    intros ?. determine.
  - apply Forall_cons_2; [intros exc; cbn [snd]; unfold _mark_span_error; determine|].
    apply Forall_cons_2; [intros exc; apply determined_mark_error|apply Forall_nil_2].
Qed.

(** A replay marks exactly the operation ids of the history. *)
Lemma replay_marks sid h : forall b w b' w' x,
  be_sessions b !! sid = Some x ->
  for_each h (replay_entry sid) b w = (Ok tt, (b', w')) ->
  exists x', be_sessions b' !! sid = Some x' /\
    forall op, op ∈ applied_operation_ids x' <->
      op ∈ applied_operation_ids x \/ op ∈ operation_id <$> h.
Proof.
  induction h as [|e h IH]; intros b w b' w' x Hx E; simpl in E.
  - injection E as <- <-. exists x. split; [exact Hx|]. intros op.
    rewrite fmap_nil, elem_of_nil. tauto.
  - bind_inv E as u b1 w1 E1. unfold replay_entry in E1.
    bind_inv E1 as c b2 w2 E2. bind_inv E1 as y b3 w3 E3. injection E1 as <- <- <-.
    assert (b2 = b) as ->.
    { unfold _resolve_cost_per_token in E2. destruct (_ =? 0); [by injection E2|].
      bind_inv E2 as q b4 w4 E4. destruct (dec_parse _); [|discriminate E4].
      injection E4 as <- <- <-. destruct (dec_div _ _); [by injection E2|discriminate E2]. }
    apply (record_tokens_marks _ _ _ _ _ _ x) in E3 as (x1 & Hx1 & Hm); [|exact Hx].
    destruct (IH _ _ _ _ _ Hx1 E) as (x' & Hx' & Hids). exists x'.
    split; [exact Hx'|]. intros op.
    rewrite Hids, Hm, elem_of_union, elem_of_singleton, fmap_cons, elem_of_cons. tauto.
Qed.

Lemma restore_from_history_marks sid agent limit h b w x b' w' op :
  restore_from_history sid agent limit h b w = (Ok x, (b', w')) ->
  op ∈ applied_operation_ids x <-> op ∈ operation_id <$> h.
Proof.
  intros E. unfold restore_from_history in E.
  bind_inv E as u b1 w1 E1. injection E1 as <- <- <-.
  bind_inv E as u2 b2 w2 E2. injection E2 as <- <- <-.
  bind_inv E as u3 b3 w3 E3. destruct u3.
  apply (replay_marks _ _ _ _ _ _ (new_session sid agent limit)) in E3 as (x' & Hx' & Hids);
    [|apply lookup_insert_eq].
  unfold _get_session, mbind, M_bind, gets, of_option in E. rewrite Hx' in E.
  injection E as <- _ _. rewrite Hids. simpl. rewrite elem_of_empty. tauto.
Qed.

(** The ledger after an operation: one new entry at its end, priced from the input,
    unless the operation is already in it. *)
Definition ledger_with (op : string) (inp : BudgetRecordInput) (cost : Decimal)
    : list BudgetHistoryEntry :=
  if bool_decide (op ∈ operation_id <$> br_history inp) then br_history inp
  else br_history inp ++ [ledger_entry op (br_tokens_used inp) cost].

(** C19. Spending is recorded once, however often Temporal runs the activity.  The
    result of BudgetRecordSpend (the new snapshot and ledger, or the error) is the
    same for every attempt, on every worker and in every state, because it is
    rebuilt from the workflow's own ledger; the ledger it returns is the one it was
    given, plus one entry that carries this activity's operation id and the price
    read from the input if the ledger does not have that id yet.  BudgetPreCheck is
    stateless in the same way. *)
Theorem budget_activities_stateless info1 info2 inp pre :
  info_workflow_id info1 = info_workflow_id info2 ->
  info_activity_id info1 = info_activity_id info2 ->
  forall s1 w1 s2 w2,
    (budget_record_spend info1 inp s1 w1).1 = (budget_record_spend info2 inp s2 w2).1 /\
    (budget_pre_check pre s1 w1).1 = (budget_pre_check pre s2 w2).1 /\
    (forall r, (budget_record_spend info1 inp s1 w1).1 = Ok r ->
       exists cost, dec_parse (br_cost_per_token_usd inp) = Some cost /\
         bv_history r = ledger_with (spend_operation_id info1) inp cost).
Proof.
  intros Hw Ha s1 w1 s2 w2. split; [|split].
  - assert (Hop : budget_record_spend (R := R) info1 inp = budget_record_spend info2 inp)
      by (unfold budget_record_spend, spend_operation_id; rewrite Hw, Ha; reflexivity).
    rewrite Hop. apply determined_budget_record_spend. exact I.
  - apply determined_budget_pre_check. exact I.
  - intros r Er. destruct (budget_record_spend info1 inp s1 w1) as [r' [s' w']] eqn:E.
    simpl in Er. subst r'. apply activity_ok in E as (_ & w3 & w4 & E & _). try_inv E.
    bind_inv E as p t1 v1 E1. destruct p as [sid restored].
    bind_inv E as cost t2 v2 E2. bind_inv E as x t3 v3 E3. bind_inv E as u t4 v4 E4.
    bind_inv E as u' t5 v5 E5. injection E as <- _ _. exists cost.
    split; [unfold dec_of, of_option in E2; destruct (dec_parse _); by inversion E2|].
    unfold _restore_budget_session in E1.
    bind_inv E1 as id t6 v6 E6. bind_inv E1 as l t7 v7 E7. bind_inv E1 as y t8 v8 E8.
    injection E1 as <- <- _ _. unfold at_budget, zoom in E8.
    destruct (restore_from_history _ _ _ _ _ _) as [q [b' v9]] eqn:Eq.
    injection E8 as -> _ _. unfold ledger_with, ledger_entry. simpl.
    by rewrite (bool_decide_ext _ _ (restore_from_history_marks _ _ _ _ _ _ _ _ _ _ Eq)).
Qed.

(** *** The pre-check of the workflow *)

Lemma restore_empty_run sid agent limit b w :
  exists w', restore_from_history sid agent limit [] b w
    = (Ok (new_session sid agent limit),
       (mkEnforcer (<[sid := new_session sid agent limit]> (be_sessions b)), w')).
Proof.
  unfold restore_from_history, set_session, budget_gauge, _get_session. run_m.
  rewrite lookup_insert_eq. eauto.
Qed.

Lemma check_budget_run sid b w x :
  be_sessions b !! sid = Some x ->
  if dec_leb (budget_limit_usd x) (cost_usd x)
  then exists msg w', check_budget sid b w = (Err (Exn BudgetExceededError msg None), (b, w'))
  else check_budget sid b w = (Ok tt, (b, w)).
Proof.
  intros Hx. unfold check_budget, _get_session, warning.
  rewrite (bind_run _ _ _ _ x b w) by (run_m; rewrite Hx; reflexivity).
  destruct (dec_leb _ _); [|reflexivity].
  edestruct (log_line_run (S := BudgetEnforcer)) as (w' & f & El & _).
  erewrite bind_run by exact El. unfold throw, raise. eauto.
Qed.

(** The workflow's budget pre-check looks at no past spending.  The workflow hands
    it an empty ledger, so that for a task with a well-formed budget session it lets
    the task through exactly when the limit is above zero, whatever the session has
    spent in earlier tasks; otherwise it fails with [BudgetExceededError]. *)
Theorem workflow_precheck_iff inp sid limit u l s w :
  wi_task_id inp <> ""%string -> uuid_parse sid = Some u -> dec_parse limit = Some l ->
  let r := (budget_pre_check (precheck_input inp sid limit) s w).1 in
  if dec_leb l dec_zero
  then exists msg e, r = Err (Exn (ApplicationError "BudgetExceededError") msg (Some e))
  else r = Ok (mkBudgetPreCheckResult (serialize (new_session u (wi_agent_type inp) l))).
Proof.
  intros Ht Hu Hl r.
  destruct (activity_run (wi_task_id inp) "watchdog.pre-llm" (wi_agent_type inp)
    (precheck_body (precheck_input inp sid limit)) s w Ht) as [w1 E].
  change (budget_pre_check (precheck_input inp sid limit)) with
    (t ← _require_task_id (wi_task_id inp) "watchdog.pre-llm" (wi_agent_type inp);
     activity_span "watchdog.pre-llm" t (wi_agent_type inp)
       (precheck_body (R := R) (precheck_input inp sid limit) t)) in r.
  subst r. rewrite E. clear E.
  assert (Er : exists w2, _restore_budget_session sid (wi_agent_type inp) limit [] s w1
    = (Ok (u, new_session u (wi_agent_type inp) l),
       (mkAState (a_shared s) (mkEnforcer (<[u := new_session u (wi_agent_type inp) l]>
                                 (be_sessions (a_budget s)))), w2))).
  { unfold _restore_budget_session, uuid_of, dec_of, at_budget. rewrite Hu, Hl. run_m.
    destruct (restore_empty_run u (wi_agent_type inp) l (a_budget s) w1) as [w2 ->]. eauto. }
  destruct Er as [w2 Er].
  pose proof (check_budget_run u (mkEnforcer (<[u := new_session u (wi_agent_type inp) l]>
    (be_sessions (a_budget s)))) w2 _ (lookup_insert_eq _ _ _)) as Hc. simpl in Hc.
  unfold precheck_body, try_except. rewrite (bind_run _ _ _ _ _ _ _ Er).
  destruct (dec_leb l dec_zero).
  - destruct Hc as (msg & w3 & Ec).
    erewrite bind_run_err by (unfold at_budget, zoom; simpl; rewrite Ec; reflexivity).
    cbn [dispatch]. rewrite (eq_refl : isinstance (Exn BudgetExceededError msg None)
                                        BudgetExceededError = true).
    edestruct at_audit_total as (s' & w' & Ea). erewrite bind_run by exact Ea.
    unfold _mark_span_error. run_m. eauto.
  - erewrite bind_run by (unfold at_budget, zoom; simpl; rewrite Hc; reflexivity).
    edestruct at_audit_total as (s' & w' & Ea). erewrite bind_run by exact Ea.
    reflexivity.
Qed.
End theorems.
