(* ===== verification/MetricsSafety.v ===== *)
(** * The metrics of a running system

    Every metric call of the orchestrator and of the activities is one the declared
    metrics accept, and the budget gauge shows the remaining budget of every session. *)
From Stdlib Require Import ZArith Lia Ascii String.
From stdpp Require Import base gmap strings list pretty.
From S2P Require Import Prelude PyDecimal PyUuid World Metrics Config AuditLogger BudgetEnforcer.
From S2P Require Import LoopDetector PyCrypto ReplayStore Regex Guardrails SessionMgr PolicyEngine.
From S2P Require Import Adapters Orchestrator Workflow Activities.

(** ** Well-typed calls *)

Section typed.
Context `{Env} `{HasSettings} `{PyText} `{FloatRepr} `{Cryptography} `{Pydantic} `{Jose}.
Context `{UnicodeData} `{KeyGen}.
Context {R : Type} `{!ReplayStore R}.
#[local] Abbreviation typed m := (emits (fun c => call_typed c = true) m).
(** The replay store sets no metric. *)
Hypothesis store_typed : forall j ttl, typed (register_if_unused (R := R) j ttl).

Lemma typed_log_line {S} l e kw : typed (log_line l e kw : M S unit).
Proof. unfold log_line, _add_timestamp_if_missing. emitting. Qed.
#[local] Hint Resolve typed_log_line : emits.
Lemma typed_stage_event e o st t a ts kw : typed (stage_event e o st t a ts kw).
Proof.
  unfold stage_event, _reserve_task_event_metadata, _current_traceparent,
    _emit_clock_skew_warning, error, warning, info. emitting.
Qed.
Lemma typed_lifecycle_event e ty t a sid ws st ts kw :
  typed (lifecycle_event e ty t a sid ws st ts kw).
Proof.
  unfold lifecycle_event, _reserve_task_event_metadata, _current_traceparent,
    _emit_clock_skew_warning, error, warning, info. emitting.
Qed.
#[local] Hint Resolve typed_stage_event typed_lifecycle_event : emits.

(** *** Watchdog *)

Lemma typed_budget_gauge sid v : typed (budget_gauge sid v).
Proof. unfold budget_gauge. by emitting. Qed.
Lemma typed_get_session sid : typed (_get_session sid).
Proof. unfold _get_session. emitting. Qed.
#[local] Hint Resolve typed_budget_gauge typed_get_session : emits.
Lemma typed_record_spend sid a op : typed (record_spend sid a op).
Proof. unfold record_spend, update_session, warning. emitting. Qed.
#[local] Hint Resolve typed_record_spend : emits.
Lemma typed_record_tokens sid n c op : typed (record_tokens sid n c op).
Proof. unfold record_tokens, update_session. by emitting. Qed.
#[local] Hint Resolve typed_record_tokens : emits.
Lemma typed_check_budget sid : typed (check_budget sid).
Proof. unfold check_budget, warning. emitting. Qed.
Lemma typed_replay sid ag l h : typed (restore_from_history sid ag l h).
Proof.
  unfold restore_from_history, set_session, replay_entry, _resolve_cost_per_token. emitting.
Qed.
Lemma typed_create_session sid ag l : typed (create_session sid ag l).
Proof. unfold create_session, set_session, info. emitting. Qed.
Lemma typed_restore_session snap : typed (restore_session snap).
Proof. unfold restore_session, set_session. emitting. Qed.
Lemma typed_loop_step sid d sg desc : typed (record_step sid d sg desc).
Proof. unfold record_step, set_context, LoopDetector._get_context, warning, error, info. emitting. Qed.
Lemma typed_loop_context sid : typed (get_context sid).
Proof. unfold get_context. emitting. Qed.
Lemma typed_loop_create sid ag : typed (create_context sid ag).
Proof. unfold create_context, set_context, LoopDetector._get_context, info. emitting. Qed.
Lemma typed_loop_checkpoint sid : typed (checkpoint sid).
Proof. unfold checkpoint, LoopDetector._get_context. emitting. Qed.
Lemma typed_loop_restore ck : typed (restore ck).
Proof. unfold restore, set_context, LoopDetector._get_context, info. emitting. Qed.
#[local] Hint Resolve typed_check_budget typed_replay typed_create_session typed_restore_session
  typed_loop_step typed_loop_context typed_loop_create typed_loop_checkpoint typed_loop_restore : emits.

(** *** Governance *)

Lemma typed_thumbprint {S} jwk : typed (public_jwk_thumbprint jwk : M S string).
Proof. unfold public_jwk_thumbprint, _required_jwk_fields, getitem. emitting. Qed.
Lemma typed_public_pem {S} jwk : typed (_public_pem_from_jwk jwk : M S string).
Proof. unfold _public_pem_from_jwk, _curve_from_name, decode_number, getitem. emitting. Qed.
#[local] Hint Resolve typed_thumbprint typed_public_pem : emits.
Lemma typed_issue_token r : typed (issue_token (R := R) r).
Proof.
  unfold issue_token, _purge_expired_revocations, revoke_jti, set_revoked, _signing_key. emitting.
Qed.
Lemma typed_validate_token t : typed (validate_token (R := R) t).
Proof.
  unfold validate_token, build_claims, decode_now, is_revoked, _purge_expired_revocations,
    set_revoked, _verification_key, getitem, validation_error. emitting.
Qed.
Lemma typed_key_pair {S} pem x y : typed (generate_dpop_key_pair pem x y : M S _).
Proof. unfold generate_dpop_key_pair. emitting. Qed.
Lemma typed_dpop_proof pem jwk m u t n i j : typed (issue_dpop_proof (R := R) pem jwk m u t n i j).
Proof. unfold issue_dpop_proof. emitting. Qed.
#[local] Hint Resolve typed_issue_token typed_validate_token typed_key_pair typed_dpop_proof : emits.
Lemma typed_dpop_check p m u a n now : typed (validate_dpop_proof (R := R) p m u a n now).
Proof.
  unfold validate_dpop_proof, proof_header, embedded_jwk, decode_now, check_proof_claims,
    validation_error. emitting.
Qed.
#[local] Hint Resolve typed_dpop_check : emits.
Lemma typed_sender t p m u n now : typed (validate_sender_constrained_token (R := R) t p m u n now).
Proof. unfold validate_sender_constrained_token, proof_header, embedded_jwk. emitting. Qed.
Lemma typed_injection {S} p : typed (check_prompt_injection p : M S unit).
Proof.
  unfold check_prompt_injection. induction _INJECTION_PATTERNS as [|[s r] ps IH];
    cbn [injection_loop]; emitting.
Qed.
Lemma typed_evaluate {S} e p i : typed (evaluate e p i : M S PolicyResult).
Proof. unfold evaluate, raise_for_status, read_decision, dict_get. emitting. Qed.
#[local] Hint Resolve typed_sender typed_injection typed_evaluate : emits.

(** *** The adapters *)

Lemma typed_guard p r m u : typed (outbound_guard (R := R) p r m u).
Proof.
  unfold outbound_guard, audit_rejection, require_sender_constrained_request, in_session, in_audit.
  emitting.
Qed.
#[local] Hint Resolve typed_guard : emits.

Lemma repo_adapter_typed a : repo_adapter (R := R) a -> forall r, typed (complete a r).
Proof.
  intros [] r; cbn [complete OpenAIAdapter AnthropicAdapter LocalLlamaAdapter];
    unfold openai_complete, anthropic_complete, llama_complete, post_json, raise_for_status,
      json_key, json_first, dict_get, py_add, build_response; emitting.
Qed.

(** *** The orchestrator *)

Context (adapter : BaseAdapter R) (adapter_typed : forall r, typed (complete adapter r)).

Lemma typed_span_stage {A} n k ag t (body : M (OState R) A) :
  typed body -> typed (_span_stage n k ag t body).
Proof.
  intros Hb. unfold _span_stage, count_error, on_audit, on_shared, in_audit. by emitting.
Qed.
Lemma typed_event r task n o st kw : typed (Orchestrator.event (R := R) r task n o st kw).
Proof. unfold Orchestrator.event, on_audit, on_shared, in_audit. emitting. Qed.
#[local] Hint Resolve typed_event : emits.

Lemma typed_before_llm r task policy n b : typed (before_llm (R := R) r task policy n b).
Proof.
  unfold before_llm, stage_pre_sanitize, stage_policy, stage_mask, stage_token, accept_token,
    fresh_token, bind_token, is_expired, stage_budget_check, issue_sender_constrained_token,
    on_session, on_shared, in_session.
  repeat first [emitting_step|apply typed_span_stage|apply emits_none; done].
Qed.
#[local] Hint Resolve typed_before_llm : emits.

Lemma run_typed policy r : typed (Orchestrator.run policy adapter r).
Proof.
  unfold Orchestrator.run, stage_llm, stage_spend, stage_loop, stage_post_sanitize, on_shared.
  repeat first [emitting_step|apply typed_span_stage|apply adapter_typed].
Qed.

(** *** The activities *)

Lemma typed_with_local {S T A} (x : T) (m : M (S * T) A) : typed m -> typed (with_local x m).
Proof.
  intros Hm s w. destruct (Hm (s, x) w) as (cs & Hcs & HP). exists cs. unfold with_local.
  by destruct (m (s, x) w) as [r [st w']].
Qed.
Lemma typed_audit_event {A} (m : M AuditLogger A) : typed m -> typed (at_audit (R := R) m).
Proof. intros Hm. unfold at_audit, at_shared, in_audit. by emitting. Qed.
Lemma typed_require {S} t st ag : typed (_require_task_id t st ag : M S string).
Proof. unfold _require_task_id, error. emitting. Qed.
Lemma typed_mark_success {S} n : typed (_mark_span_success n : M S unit).
Proof. unfold _mark_span_success. emitting. Qed.
Lemma typed_mark_error {S} n e : typed (_mark_span_error n e : M S unit).
Proof. unfold _mark_span_error. emitting. Qed.
#[local] Hint Resolve typed_require typed_mark_success typed_mark_error : emits.

Ltac activity_step :=
  first [emitting_step|apply typed_audit_event|apply typed_with_local|apply adapter_typed
        |apply emits_none; done].

Lemma perform_typed policy info {X} (a : activity X) : typed (perform policy adapter info a).
Proof.
  destruct a; cbn [perform];
    unfold pre_pii_scrub, policy_eval, jit_token_issue, budget_pre_check, precheck_body,
      llm_invoke, reissue_token, bind_invocation, budget_record_spend, _restore_budget_session,
      dec_of, loop_record_step, uuid_of, loop_attempt, breaker_tripped, post_sanitize, record_event,
      activity_span, _attach_span_context, or_mark_error, issue_sender_constrained_token,
      on_fst, on_snd, at_session, at_shared, at_budget, in_session;
    repeat activity_step.
Qed.
End typed.

(** C16. Every metric call is one the declared metrics accept.  Whatever a request or an
    activity does and however it ends, with any of the repository's adapters and a
    replay store that sets no metrics, each call it makes names a declared metric of
    the right kind with exactly its label names; [labels] never raises. *)
Theorem metric_calls_typed `{Env} `{HasSettings} `{PyText} `{FloatRepr} `{Cryptography}
    `{Pydantic} `{Jose} `{UnicodeData} `{KeyGen} {R} `{!ReplayStore R} (adapter : BaseAdapter R) :
  (forall j ttl, emits (fun c => call_typed c = true) (register_if_unused (R := R) j ttl)) ->
  repo_adapter adapter ->
  (forall policy r, emits (fun c => call_typed c = true) (Orchestrator.run policy adapter r)) /\
  (forall policy info X (a : activity X),
     emits (fun c => call_typed c = true) (perform policy adapter info a)).
Proof.
  intros Hs Ha. pose proof (repo_adapter_typed Hs adapter Ha) as Hc.
  split; intros; [by apply run_typed|by apply perform_typed].
Qed.

(** ** The budget gauge *)

Lemma uuid_parse_wf s u : uuid_parse s = Some u -> uuid_wf u.
Proof.
  unfold uuid_parse. destruct (_ =? 32)%nat; [|discriminate].
  destruct (int16 _) as [v|]; [|discriminate]. cbn.
  destruct ((0 <=? v) && (v <? 2 ^ 128)) eqn:E; [|discriminate]. intros [= <-].
  unfold uuid_wf. cbn [uuid_int]. bool_to_prop. lia.
Qed.

Lemma uuid_str_inj u v : uuid_wf u -> uuid_wf v -> uuid_str u = uuid_str v -> u = v.
Proof. intros Hu Hv E. apply uuid_parse_str in Hu, Hv. rewrite E in Hu. congruence. Qed.

Section gauge.
Context `{Env} `{HasSettings}.
Implicit Types (b : BudgetEnforcer) (w : World) (s : BudgetSession).

Definition session_labels (sid : UUID) : list (string * string) :=
  [("session_id"%string, uuid_str sid)].
Definition remaining_shown (sid : UUID) w : option GaugeValue :=
  gauge_value budget_remaining (session_labels sid) (w_metrics w).

(** What the gauge of a session should show: the limit less the cost, at least zero; a
    session nothing was charged to shows its limit. *)
Definition shows (s : BudgetSession) (v : Decimal) : Prop :=
  v = dec_max (dec_sub (budget_limit_usd s) (cost_usd s)) dec_zero
  \/ cost_usd s = dec_zero /\ v = budget_limit_usd s.

Definition gauge_faithful b w : Prop := forall sid s,
  be_sessions b !! sid = Some s ->
  uuid_wf sid /\ exists v, remaining_shown sid w = Some (GDecimal v) /\ shows s v.

Lemma shown_set sid sid' v w :
  uuid_wf sid -> uuid_wf sid' ->
  remaining_shown sid'
    (w_add_metric (GaugeSet "aegis_budget_remaining_usd" (session_labels sid) v) w)
  = if bool_decide (sid = sid') then Some (GDecimal v) else remaining_shown sid' w.
Proof.
  intros Hu Hv. unfold remaining_shown. cbn [w_metrics w_add_metric].
  rewrite gauge_value_snoc. cbn [gauge_after].
  destruct (bool_decide_reflect (sid = sid')) as [->|Hne].
  - by rewrite bool_decide_eq_true_2.
  - rewrite bool_decide_eq_false_2; [done|]. intros [_ E].
    unfold session_labels in E. apply Hne, uuid_str_inj; [done|done|]. congruence.
Qed.

Lemma faithful_set b w sid s v :
  gauge_faithful b w -> uuid_wf sid -> shows s v ->
  gauge_faithful (with_session b sid s)
    (w_add_metric (GaugeSet "aegis_budget_remaining_usd" (session_labels sid) v) w).
Proof.
  intros Hb Hu Hv sid' s' Hs'. cbn in Hs'. apply lookup_insert_Some in Hs' as [[<- <-]|[Hne Hs']].
  - split; [done|]. exists v. rewrite shown_set, bool_decide_eq_true_2 by done. done.
  - destruct (Hb _ _ Hs') as (Hu' & v' & Hg & Hsh). split; [done|]. exists v'.
    by rewrite shown_set, bool_decide_eq_false_2.
Qed.

(** Anything that neither changes a limit or a cost nor sets a gauge. *)
Lemma faithful_same b b' w w' :
  gauge_faithful b w ->
  (forall sid, remaining_shown sid w' = remaining_shown sid w) ->
  (forall sid s', be_sessions b' !! sid = Some s' -> exists s, be_sessions b !! sid = Some s /\
     budget_limit_usd s' = budget_limit_usd s /\ cost_usd s' = cost_usd s) ->
  gauge_faithful b' w'.
Proof.
  intros Hb Hw Hs sid s' Hs'. destruct (Hs _ _ Hs') as (s & Hl & E1 & E2).
  destruct (Hb _ _ Hl) as (Hu & v & Hg & Hv). split; [done|]. exists v. rewrite Hw. split; [done|].
  unfold shows in *. by rewrite E1, E2.
Qed.

Lemma alter_same (f : BudgetSession -> BudgetSession) b sid sid' s' :
  (forall s, budget_limit_usd (f s) = budget_limit_usd s /\ cost_usd (f s) = cost_usd s) ->
  be_sessions (mkEnforcer (alter f sid (be_sessions b))) !! sid' = Some s' ->
  exists s, be_sessions b !! sid' = Some s /\
    budget_limit_usd s' = budget_limit_usd s /\ cost_usd s' = cost_usd s.
Proof.
  intros Hf. cbn. rewrite lookup_alter. case_decide as E; [subst|eauto].
  destruct (be_sessions b !! sid'); [|discriminate]. intros [= <-]. eexists. split; [done|]. apply Hf.
Qed.

Lemma record_spend_faithful sid a op b w :
  gauge_faithful b w -> wp (record_spend sid a op) (fun _ b' w' => gauge_faithful b' w') b w.
Proof.
  intros Hb. unfold record_spend. apply wp_bind, wp_get_session; [|done]. intros s Hs.
  destruct (_is_duplicate_operation s op); [done|].
  destruct (Hb _ _ Hs) as [Hu _].
  apply wp_bind, wp_modify, wp_bind, wp_modify, wp_bind.
  set (b1 := mkEnforcer _).
  assert (Hb1 : b1 = with_session b sid (charged a op s)).
  { unfold b1, with_session. cbn [be_sessions].
    rewrite (alter_Some (add_cost a) sid (be_sessions b) s) by done.
    rewrite (alter_Some _ sid _ (add_cost a s)) by apply lookup_insert_eq.
    by rewrite insert_insert_eq. }
  rewrite Hb1. apply wp_get_session; cbn [be_sessions with_session]; rewrite lookup_insert_eq;
    [|discriminate]. intros s1 [= <-]. cbv zeta.
  assert (Hf : gauge_faithful (with_session b sid (charged a op s))
    (w_add_metric (GaugeSet "aegis_budget_remaining_usd" (session_labels sid)
       (dec_max (dec_sub (budget_limit_usd (charged a op s)) (cost_usd (charged a op s))) dec_zero)) w))
    by (apply faithful_set; [done|done|by left]).
  apply wp_bind, wp_set_world. destruct (dec_ltb _ _); [|done].
  apply wp_bind, wp_modify. unfold warning.
  match goal with |- wp _ _ ?b2 ?w2 =>
    assert (Hb2 : gauge_faithful b2 w2)
      by (eapply faithful_same; [exact Hf|done|intros sid' s'; by apply alter_same]);
    destruct (log_line_run (S := BudgetEnforcer) Warning "budget.exceeded"
      (exceeded_fields sid (charged a op s)) b2 w2) as (w3 & f & El & _ & Hl & _) end.
  apply wp_bind. unfold wp at 1. rewrite El. apply wp_raise.
  eapply faithful_same; [exact Hb2| |eauto]. intros sid'. unfold remaining_shown.
  by rewrite (proj1 Hl).
Qed.

Lemma record_tokens_faithful sid n c op b w :
  gauge_faithful b w -> wp (record_tokens sid n c op) (fun _ b' w' => gauge_faithful b' w') b w.
Proof.
  intros Hb. unfold record_tokens. apply wp_bind, wp_get_session; [|done]. intros s Hs.
  destruct (_is_duplicate_operation s op); [done|]. apply wp_bind, wp_modify, wp_bind.
  assert (Hb1 : gauge_faithful (mkEnforcer (alter (add_tokens n) sid (be_sessions b))) w)
    by (eapply faithful_same; [exact Hb|done|intros sid' s'; by apply alter_same]).
  unfold counter_inc. destruct (counter_inc_error n); [by apply wp_raise|]. apply wp_set_world.
  apply record_spend_faithful. eapply faithful_same; [exact Hb1| |eauto].
  intros sid'. unfold remaining_shown. cbn [w_metrics w_add_metric]. by rewrite gauge_value_snoc.
Qed.

Lemma replay_faithful sid h b w :
  gauge_faithful b w ->
  wp (for_each h (replay_entry sid)) (fun _ b' w' => gauge_faithful b' w') b w.
Proof.
  revert b w. induction h as [|e h IH]; intros b w Hb; cbn [for_each]; [by apply wp_ret|].
  apply wp_bind. unfold replay_entry. apply wp_bind.
  assert (Hc : wp (_resolve_cost_per_token e) (fun _ b' w' => b' = b /\ w' = w) b w).
  { unfold wp, _resolve_cost_per_token. destruct (_ =? 0); run_m; [done|].
    destruct (dec_parse (amount_usd e)); run_m; [|done]. by destruct (dec_div _ _). }
  eapply wp_mono; [exact Hc|]. intros [c|ex] b1 w1 [-> ->]; [|done].
  apply wp_bind. eapply wp_mono; [by apply record_tokens_faithful|].
  intros [?|?] b2 w2 Hb2; [by apply IH|done].
Qed.

(** New ids are UUIDs of 128 bits. *)
Definition op_ids_wf (o : budget_op) : Prop :=
  match o with OpCreate sid _ _ | OpReplay sid _ _ _ => uuid_wf sid | _ => True end.

Lemma new_session_faithful b w sid ag limit :
  gauge_faithful b w -> uuid_wf sid ->
  gauge_faithful (with_session b sid (new_session sid ag limit))
    (w_add_metric (GaugeSet "aegis_budget_remaining_usd" (session_labels sid) limit) w).
Proof. intros Hb Hu. apply faithful_set; [done|done|]. by right. Qed.

Lemma do_op_faithful o b w :
  gauge_faithful b w -> op_ids_wf o -> wp (BudgetEnforcer.do_op o) (fun _ b' w' => gauge_faithful b' w') b w.
Proof.
  intros Hb Ho. destruct o as [sid ag lim|sid a op|sid|sid n c op|snap|sid ag lim h]; cbn in Ho |- *.
  - apply wp_bind. unfold create_session. apply wp_bind.
    assert (Hl : forall d, wp (set_session sid (new_session sid ag d) ;; budget_gauge sid d ;;
      info "budget.session_created" [("session_id", JStr (uuid_str sid)); ("agent_type", JStr ag);
        ("budget_limit_usd", JStr (dec_str d))] ;; _get_session sid)
      (fun r b' w' => match r with Ok _ => wp (mret tt) (fun _ b' w' => gauge_faithful b' w') b' w'
                      | Err _ => gauge_faithful b' w' end) b w).
    { intros d. pose proof (new_session_faithful b w sid ag d Hb Ho) as Hn.
      apply wp_bind, wp_modify, wp_bind, wp_set_world, wp_bind. unfold info.
      edestruct (log_line_run (S := BudgetEnforcer)) as (w3 & f & El & _ & Hg & _).
      unfold wp at 1. rewrite El.
      assert (Hn' : gauge_faithful (with_session b sid (new_session sid ag d)) w3).
      { eapply faithful_same; [exact Hn| |eauto]. intros sid'. unfold remaining_shown.
        by rewrite (proj1 Hg). }
      by apply wp_get_session. }
    destruct lim as [|r|d]; unfold wp at 1; [| |exact (Hl d)].
    + unfold of_option. destruct (dec_parse _); [exact (Hl _)|exact Hb].
    + unfold of_option. destruct (dec_parse _); [exact (Hl _)|exact Hb].
  - apply wp_bind. eapply wp_mono; [by apply record_spend_faithful|]. by intros [?|?].
  - unfold check_budget. apply wp_bind, wp_get_session; [|done]. intros s Hs.
    destruct (dec_leb _ _); [|done]. cbv zeta. unfold warning.
    edestruct (log_line_run (S := BudgetEnforcer)) as (w3 & f & El & _ & Hg & _).
    apply wp_bind. unfold wp at 1. rewrite El. apply wp_raise.
    eapply faithful_same; [exact Hb| |eauto]. intros sid'. unfold remaining_shown.
    by rewrite (proj1 Hg).
  - apply wp_bind. eapply wp_mono; [by apply record_tokens_faithful|]. by intros [?|?].
  - unfold wp, restore_session; run_m. destruct (deserialize snap) as [s|] eqn:Es; run_m; [|done].
    apply faithful_set; [done| |by left]. unfold deserialize in Es.
    destruct (uuid_parse (snap_session_id snap)) as [u|] eqn:Eu; [|discriminate].
    destruct (dec_parse _); [|discriminate]. destruct (dec_parse _); [|discriminate].
    injection Es as <-. exact (uuid_parse_wf _ _ Eu).
  - apply wp_bind. unfold restore_from_history.
    apply wp_bind, wp_modify, wp_bind, wp_set_world, wp_bind.
    eapply wp_mono; [apply replay_faithful; by apply new_session_faithful|].
    intros [?|?] b' w' Hb'; [|done]. by apply wp_get_session.
Qed.

(** C17. The budget gauge is right.  After any sequence of creations, spends, token
    recordings, checks, restores and replays on a new enforcer (over-budget and
    refused calls included), the series of every registered session exists and shows
    what is left of its budget: the limit less the recorded cost, or zero when that is
    negative; a session nothing has been charged to shows its limit. *)
Theorem budget_gauge_faithful os w :
  Forall op_ids_wf os ->
  let '(b, w') := BudgetEnforcer.do_ops os BudgetEnforcer_init w in
  forall sid s, be_sessions b !! sid = Some s ->
    exists v, remaining_shown sid w' = Some (GDecimal v) /\ shows s v.
Proof.
  intros Hos.
  assert (Hinv : gauge_faithful (BudgetEnforcer.do_ops os BudgetEnforcer_init w).1 (BudgetEnforcer.do_ops os BudgetEnforcer_init w).2).
  { assert (Hb : gauge_faithful BudgetEnforcer_init w) by (intros ? ? [=]).
    revert Hb. generalize BudgetEnforcer_init. revert w.
    induction Hos as [|o os Ho _ IH]; intros w b Hb; [done|]. cbn [BudgetEnforcer.do_ops].
    pose proof (do_op_faithful o b w Hb Ho) as Hw. unfold wp in Hw.
    destruct (BudgetEnforcer.do_op o b w) as [r [b' w']]. by apply IH. }
  destruct (BudgetEnforcer.do_ops os BudgetEnforcer_init w) as [b w']. intros sid s Hs.
  by destruct (Hinv _ _ Hs) as [_ Hv].
Qed.

(** *** The token counter *)

Definition agent_labels (agent : string) : list (string * string) := [("agent_type"%string, agent)].

Lemma counter_unchanged m ls cs :
  Forall (fun c => counted m ls c = 0) cs -> counter_value m ls cs = 0.
Proof. induction 1 as [|c cs Hc _ IH]; [done|]. unfold counter_value in *. cbn. lia. Qed.

Lemma spend_not_counted ls sid a op :
  emits (fun c => counted tokens_consumed ls c = 0) (record_spend sid a op).
Proof.
  unfold record_spend, _get_session, update_session, budget_gauge, warning, log_line,
    _add_timestamp_if_missing. by emitting.
Qed.

(** A token recording that is not a redelivery is counted under the agent type of its
    session, also when it then raises for an exceeded budget. *)
Theorem tokens_counted sid n c op b w s :
  be_sessions b !! sid = Some s -> _is_duplicate_operation s op = false ->
  counter_inc_error n = None ->
  counter_value tokens_consumed (agent_labels (agent_type s))
    (w_metrics (record_tokens sid n c op b w).2.2)
  = counter_value tokens_consumed (agent_labels (agent_type s)) (w_metrics w) + n.
Proof.
  intros Hs Hd Hn. unfold record_tokens, _get_session. run_m. rewrite Hs. cbn. rewrite Hd.
  unfold counter_inc. rewrite Hn. unfold metric, set_world, update_session, modify. cbn.
  match goal with |- context [record_spend ?i ?a ?o ?b1 ?w1] =>
    destruct (spend_not_counted (agent_labels (agent_type s)) i a o b1 w1) as (cs & -> & Hcs) end.
  cbn [w_metrics w_add_metric]. rewrite !counter_value_app, (counter_unchanged _ _ cs Hcs).
  unfold counter_value at 2. cbn. rewrite bool_decide_eq_true_2 by done. lia.
Qed.
End gauge.
