(* ===== verification/DurableLoop.v ===== *)
(** * The loop detector behind LoopRecordStep

    Between two steps of a durable task nothing is kept in memory: every
    LoopRecordStep activity builds a detector, restores the checkpoint it is given,
    records one step and returns a new checkpoint.  This file shows that the chain
    of checkpoints is the detector of src/watchdog/loop_detector.py kept in memory
    for the whole task. *)
From Stdlib Require Import ZArith Lia Ascii String.
From stdpp Require Import base gmap strings list pretty.
From S2P Require Import Prelude PyDecimal PyUuid World Config AuditLogger BudgetEnforcer.
From S2P Require Import LoopDetector PyCrypto ReplayStore Regex Guardrails SessionMgr.
From S2P Require Import PolicyEngine Adapters Determined Workflow Activities.

(** What the activities of one task have in common. *)
Record LoopTask : Type := mkLoopTask {
  lt_task_id : string;
  lt_agent_type : string;
  lt_session : UUID;
  lt_max_agent_steps : option Z;
  lt_max_token_velocity : option Z;
  lt_traceparent : option string
}.

Definition loop_input (t : LoopTask) (ck : option ExecutionCheckpoint) (r : step_req)
    : LoopRecordInput :=
  mkLoopRecord (lt_task_id t) (lt_agent_type t) (uuid_str (lt_session t)) r.1.1 r.1.2 r.2 ck
    (lt_max_agent_steps t) (lt_max_token_velocity t) (lt_traceparent t).

(** The [type] of the [ApplicationError] a breaker is reported with. *)
Definition breaker_type (k : exc_class) : string :=
  match k with
  | TokenVelocityError => "TokenVelocityError"
  | PendingApprovalError => "PendingApprovalError"
  | _ => "LoopDetectedError"
  end.

Section durable.
Context `{Env} `{HasSettings} `{PyText} `{FloatRepr} `{Cryptography} `{Pydantic} `{Jose}.
Context `{UnicodeData} `{KeyGen}.
Context {R : Type} `{!ReplayStore R}.
Implicit Types (s : AState R) (w : World) (c : ExecutionContext).

(** One activity per step, each starting from the checkpoint of the one before. *)
Fixpoint durable_steps (t : LoopTask) (ck : option ExecutionCheckpoint) (l : list step_req)
    : M (AState R) (option ExecutionCheckpoint) :=
  match l with
  | [] => mret ck
  | r :: l =>
      res ← loop_record_step (loop_input t ck r);
      durable_steps t (Some (lw_checkpoint res)) l
  end.

(** The same steps on one detector kept in memory. *)
Definition memory_steps (t : LoopTask) (l : list step_req) : M LoopDetector ExecutionCheckpoint :=
  create_context (lt_session t) (lt_agent_type t) ;;
  run_steps (lt_session t) l ;;
  checkpoint (lt_session t).

(** *** One activity *)

(** The context a step starts from, new or restored, is then the only one of the
    detector. *)
Definition starts_from (t : LoopTask) (ck : option ExecutionCheckpoint) c : Prop :=
  ctx_session_id c = lt_session t /\
  match ck with
  | Some k => k = checkpoint_of c
  | None => c = new_context (lt_session t) (lt_agent_type t)
  end.

Lemma start_run t ck c d w :
  uuid_wf (lt_session t) -> starts_from t ck c ->
  exists c0 w', match ck with
                | None => create_context (lt_session t) (lt_agent_type t)
                | Some k => restore k
                end d w = (Ok c0, (with_context d (lt_session t) c, w')).
Proof.
  intros Hu [Hid Hck]. destruct ck as [k|]; subst.
  - exists c, w. rewrite <- Hid. apply restore_checkpoint_run. by rewrite Hid.
  - unfold create_context, set_context, info. unfold mbind, M_bind, modify at 1.
    edestruct (log_line_run (S := LoopDetector)) as (w' & f & -> & _). eauto.
Qed.

Lemma breaker_tripped_run name type task agent sid exc (st : AState R * LoopDetector) w :
  exists msg, (breaker_tripped name type task agent sid exc st w).1
    = Err (Exn (ApplicationError type) msg (Some exc)).
Proof.
  unfold breaker_tripped, on_fst, on_snd, get_context. run_m.
  edestruct (at_audit_total (R := R)) as (s' & w' & ->). unfold _mark_span_error. run_m. eauto.
Qed.

(** What one step from the context [c] comes to. *)
Definition step_outcome (t : LoopTask) c (r : step_req) (o : result LoopRecordResult) : Prop :=
  let d := LoopDetector_init (lt_max_agent_steps t) (lt_max_token_velocity t) in
  let c' := append_step r.1.1 r.1.2 r.2 c in
  match breaker (_max_agent_steps d) (_max_token_velocity d) (steps c)
          (next_step c r.1.1 r.1.2 r.2) with
  | None => o = Ok (mkLoopRecordResult (checkpoint_of c') (Z.of_nat (length (steps c')))
                      (total_tokens c') (loop_detected c') (intervention_required c'))
  | Some k => exists msg m0,
      o = Err (Exn (ApplicationError (breaker_type k)) msg (Some (Exn k m0 None)))
  end.

Lemma loop_attempt_run t ck r c task s w :
  uuid_wf (lt_session t) -> starts_from t ck c ->
  step_outcome t c r
    (loop_attempt (loop_input t ck r) task (lt_session t)
       (s, LoopDetector_init (lt_max_agent_steps t) (lt_max_token_velocity t)) w).1.
Proof.
  intros Hu Hc. set (d := LoopDetector_init _ _). unfold step_outcome. fold d. cbv zeta.
  destruct (start_run t ck c d w Hu Hc) as (c0 & w1 & Es).
  destruct (record_step_run (lt_session t) r.1.1 r.1.2 r.2 (with_context d (lt_session t) c) w1 c)
    as (o & w2 & Er & Hb); [apply lookup_insert_eq|].
  assert (Est : (match lo_checkpoint (loop_input t ck r) with
                 | None => on_snd (create_context (lt_session t) (lt_agent_type t))
                 | Some ck => on_snd (restore ck)
                 end : M (AState R * LoopDetector) _) (s, d) w
                = (Ok c0, ((s, with_context d (lt_session t) c), w1))).
  { unfold on_snd, zoom. destruct ck; cbn [lo_checkpoint loop_input fst snd];
      rewrite Es; reflexivity. }
  assert (Esnd : on_snd (record_step (lt_session t) r.1.1 r.1.2 r.2)
                   (s, with_context d (lt_session t) c) w1 = (o, ((s, with_context
                     (with_context d (lt_session t) c) (lt_session t) (set_flags (breaker
                      (_max_agent_steps d) (_max_token_velocity d) (steps c)
                      (next_step c r.1.1 r.1.2 r.2)) (append_step r.1.1 r.1.2 r.2 c))), w2))).
  { unfold on_snd, zoom. cbn [fst snd]. rewrite Er. reflexivity. }
  unfold loop_attempt, try_except. rewrite (bind_run _ _ _ _ _ _ _ Est).
  cbn [_max_agent_steps _max_token_velocity with_context] in Hb.
  destruct (breaker _ _ _ _) as [k|] eqn:Eb.
  - destruct Hb as [[m0 ->] _]. rewrite (bind_run_err _ _ _ _ _ _ _ Esnd).
    apply breaker_cases in Eb as [->|[-> | ->]]; simpl;
      match goal with |- context [breaker_tripped ?n ?ty ?tk ?ag ?sid ?e ?st ?w] =>
        destruct (breaker_tripped_run n ty tk ag sid e st w) as [msg ->] end; eauto.
  - destruct Hb as [-> ->]. rewrite (bind_run _ _ _ _ _ _ _ Esnd).
    unfold mbind at 1, M_bind at 1, on_fst, zoom. simpl fst.
    edestruct (at_audit_total (R := R)) as (s' & w' & ->).
    unfold _mark_span_success, on_snd, checkpoint, _get_context. run_m.
    rewrite lookup_insert_eq. reflexivity.
Qed.

Lemma with_local_result {S T A} (x : T) (m : M (S * T) A) y w :
  (with_local x m y w).1 = (m (y, x) w).1.
Proof. unfold with_local. by destruct (m (y, x) w) as [o [st w']]. Qed.

Lemma loop_record_step_run t ck r c s w :
  lt_task_id t <> ""%string -> uuid_wf (lt_session t) -> starts_from t ck c ->
  step_outcome t c r (loop_record_step (loop_input t ck r) s w).1.
Proof.
  intros Ht Hu Hc. set (d := LoopDetector_init (lt_max_agent_steps t) (lt_max_token_velocity t)).
  destruct (activity_run (lt_task_id t) "watchdog.loop-detect" (lt_agent_type t)
    (fun task_id => sid ← uuid_of (uuid_str (lt_session t));
       with_local d (loop_attempt (loop_input t ck r) task_id sid)) s w Ht) as [w1 E].
  change (step_outcome t c r ((task_id ← _require_task_id (lt_task_id t) "watchdog.loop-detect"
     (lt_agent_type t); activity_span "watchdog.loop-detect" task_id (lt_agent_type t)
       (sid ← uuid_of (uuid_str (lt_session t));
        with_local d (loop_attempt (loop_input t ck r) task_id sid))) s w).1).
  rewrite E, (bind_run _ _ _ _ (lt_session t) s w1).
  - rewrite with_local_result. by apply loop_attempt_run.
  - unfold uuid_of. rewrite uuid_parse_str by exact Hu. reflexivity.
Qed.

(** *** The whole task *)

Lemma run_steps_next sid r l (k : M LoopDetector ExecutionCheckpoint) d w o d' w' :
  record_step sid r.1.1 r.1.2 r.2 d w = (o, (d', w')) ->
  ((run_steps sid (r :: l) ;; k) d w).1
  = match o with Ok _ => ((run_steps sid l ;; k) d' w').1 | Err e => Err e end.
Proof.
  destruct r as [[delta sg] desc]. intros E. unfold run_steps. simpl in E |- *.
  unfold mbind, M_bind. rewrite E. by destruct o.
Qed.

Lemma durable_from t l : forall ck c d s w w0,
  lt_task_id t <> ""%string -> uuid_wf (lt_session t) -> starts_from t ck c ->
  _contexts d !! lt_session t = Some c ->
  _max_agent_steps d = default (max_agent_steps settings) (lt_max_agent_steps t) ->
  _max_token_velocity d = default (max_token_velocity settings) (lt_max_token_velocity t) ->
  ck <> None \/ l <> [] ->
  match ((run_steps (lt_session t) l ;; checkpoint (lt_session t)) d w0).1 with
  | Ok k => (durable_steps t ck l s w).1 = Ok (Some k)
  | Err e => exists msg e', (durable_steps t ck l s w).1
      = Err (Exn (ApplicationError (breaker_type (exn_class e))) msg (Some e')) /\
      exn_class e' = exn_class e
  end.
Proof.
  induction l as [|[[delta sg] desc] l IH]; intros ck c d s w w0 Ht Hu Hc Hd Hm Hv Hne.
  - destruct ck as [k|]; [|by destruct Hne].
    unfold run_steps, checkpoint, _get_context. run_m. rewrite Hd. simpl.
    by destruct Hc as [_ ->].
  - set (r := (delta, sg, desc)).
    pose proof (loop_record_step_run t ck r c s w Ht Hu Hc) as Ho. unfold step_outcome in Ho.
    destruct (record_step_run (lt_session t) delta sg desc d w0 c Hd) as (o & w1 & Er & Hb).
    rewrite Hm, Hv in Hb, Er. cbn [durable_steps].
    destruct (loop_record_step (loop_input t ck r) s w) as [q [s1 w2]] eqn:Eq.
    cbv zeta in Ho. cbn [LoopDetector_init _max_agent_steps _max_token_velocity] in Ho.
    rewrite (run_steps_next _ r _ _ _ _ _ _ _ Er). destruct (breaker _ _ _ _) as [k|].
    + destruct Hb as [[m ->] _]. destruct Ho as (msg & m0 & Ho). simpl in Ho. subst q.
      rewrite (bind_run_err _ _ _ _ _ _ _ Eq). simpl. eauto.
    + destruct Hb as [-> ->]. simpl in Ho. subst q. rewrite (bind_run _ _ _ _ _ _ _ Eq).
      cbn [lw_checkpoint]. apply (IH _ (append_step delta sg desc c)); try assumption;
        [split; [apply Hc|reflexivity]|apply lookup_insert_eq|by left].
Qed.

(** C20. Detecting loops across a durable task.  Feeding the checkpoint of each
    LoopRecordStep activity to the next one, with a fresh detector (on any worker)
    every time, is the same as recording the steps on one detector kept in memory:
    the task goes through with the checkpoint the detector would have, or stops at
    the same step with the same breaker, reported as an [ApplicationError] of that
    breaker's name that carries the original error. *)
Theorem durable_loop_detection t l s w w0 :
  lt_task_id t <> ""%string -> uuid_wf (lt_session t) -> l <> [] ->
  let d := LoopDetector_init (lt_max_agent_steps t) (lt_max_token_velocity t) in
  match (memory_steps t l d w0).1 with
  | Ok k => (durable_steps t None l s w).1 = Ok (Some k)
  | Err e => exists msg e', (durable_steps t None l s w).1
      = Err (Exn (ApplicationError (breaker_type (exn_class e))) msg (Some e')) /\
      exn_class e' = exn_class e
  end.
Proof.
  intros Ht Hu Hl d. unfold memory_steps.
  set (c := new_context (lt_session t) (lt_agent_type t)).
  destruct (start_run t None c d w0 Hu) as (c0 & w1 & Es); [done|].
  rewrite (bind_run _ _ _ _ _ _ _ Es).
  apply (durable_from t l None c); auto; [split; reflexivity|apply lookup_insert_eq].
Qed.
End durable.
