(* ===== verification/System.v ===== *)
(** * A task from its start to its answer

    The composition of src/control_plane/scheduler.py as src/control_plane/worker.py
    puts it together: the workflow of Workflow.v asks, the server lets a worker run
    attempts of the activities of Activities.v ([perform]), and the answer of an
    attempt is delivered to the workflow.

    The server and everything else are the adversary.  Between any two moves the
    worker's state and the world may change arbitrarily ([sys_other]: other tasks on
    the worker, another worker taking over, time passing); an attempt may run and
    its answer be lost or refused ([sys_tried]); an activity may be reported failed
    or cancelled at any time; signals arrive at any time.  What is used of the
    server is that it runs at most [maximum_attempts] attempts of a request, counted
    from one, and delivers as completion only what an attempt has returned. *)
From Stdlib Require Import ZArith Lia Ascii String.
From stdpp Require Import base gmap strings list pretty.
From S2P Require Import Prelude PyDecimal PyUuid World Config AuditLogger BudgetEnforcer.
From S2P Require Import LoopDetector PyCrypto ReplayStore Regex Guardrails SessionMgr.
From S2P Require Import PolicyEngine Adapters Determined Workflow WorkflowSafety Activities.

(** ** Moves *)

Inductive move : Type :=
  | Deliver (e : event)                                          (* to the workflow *)
  | Tried {X : Type} (a : activity X) (info : ActivityInfo)      (* answer not used *)
  | Finished {X : Type} (a : activity X) (info : ActivityInfo) (x : X)
  | Other.

(** What the workflow sees of a move. *)
Definition seen (m : move) : list event :=
  match m with
  | Deliver e => [e]
  | Finished a _ x => [EActivity a (Completed x)]
  | _ => []
  end.
Definition log (t : list move) : list event := concat (seen <$> t).

(** The attempts at LLMInvoke, with their input. *)
Definition llm_input {X} (a : activity X) : option LLMInvokeInput :=
  match a with LLMInvoke li => Some li | _ => None end.
Definition llm_attempt (m : move) : option LLMInvokeInput :=
  match m with
  | Tried a _ | Finished a _ _ => llm_input a
  | _ => None
  end.
Definition llm_attempts (t : list move) : list LLMInvokeInput := omap llm_attempt t.

Definition not_completed {X} (r : outcome X) : Prop :=
  match r with Completed _ => False | _ => True end.

(** ** The retry options of the requests *)

(** The options [run] passes to [execute_activity], by activity. *)
Definition options_for {X} (a : activity X) : activity_options :=
  match a with
  | PrePIIScrub _ => scrub_opts
  | PolicyEval _ => policy_opts
  | JITTokenIssue _ => jit_opts
  | BudgetPreCheck _ => precheck_opts
  | LLMInvoke _ => llm_opts
  | BudgetRecordSpend _ => record_opts
  | LoopRecordStep _ => precheck_opts   (* not requested *)
  | PostSanitize _ => post_opts
  | WorkflowAudit _ => audit_opts
  end.

Fixpoint with_options {A} (c : step A) : Prop :=
  match c with
  | Done _ _ => True
  | Activity a o _ k => o = options_for a /\ forall r s, with_options (k r s)
  | Wait _ _ k => forall r s, with_options (k r s)
  | Now _ k => forall t s, with_options (k t s)
  end.

Lemma with_options_bind {A B} (c : step A) (f : A -> WF B) :
  with_options c -> (forall a s, with_options (f a s)) -> with_options (step_bind c f).
Proof.
  intros Hc Hf. induction c as [[e|a] s|X a o s k IH|t s k IH|s k IH]; simpl in *; auto.
  destruct Hc as [Ho Hk]. split; [exact Ho|auto].
Qed.

Lemma with_options_try {A} (c : step A) (f : wf_exn -> WF A) :
  with_options c -> (forall e s, with_options (f e s)) -> with_options (step_try c f).
Proof.
  intros Hc Hf. induction c as [[e|a] s|X a o s k IH|t s k IH|s k IH]; simpl in *; auto.
  destruct Hc as [Ho Hk]. split; [exact Ho|auto].
Qed.

Lemma with_options_activity {X} (a : activity X) s :
  with_options (execute_activity a (options_for a) s).
Proof. split; [reflexivity|]. intros; exact I. Qed.

Lemma with_options_execs {A} (c : step A) es c' :
  execs c es c' -> with_options c -> with_options c'.
Proof.
  induction 1 as [c|c e c1 es c2 Hs He IH]; [auto|]. intros Hc. apply IH.
  destruct Hs; simpl in *; try apply Hc; destruct Hc; auto.
Qed.

Ltac with_options :=
  repeat match goal with
  | |- with_options ((_ ≫= _) _) => apply with_options_bind; [|intros ? ?]
  | |- with_options (wf_try _ _ _) => apply with_options_try; [|intros ? ?]
  | |- with_options (execute_activity ?a _ _) => apply (with_options_activity a)
  | |- with_options (audit_event _ _) => unfold audit_event
  | |- with_options (if ?b then _ else _) => destruct b
  | |- with_options ((if ?b then _ else _) _) => destruct b
  | |- with_options (match ?x with _ => _ end _) => destruct x
  | |- with_options (match ?x with _ => _ end) => destruct x
  | |- with_options (let '(_, _) := ?x in _) => destruct x
  | |- _ => solve [simpl; auto]
  end.

Lemma run_with_options inp s : with_options (run inp s).
Proof.
  unfold run, _await_pending_approval, record_timeout, record_decision, run_cleared, llm_failed,
    decimal. with_options.
Qed.

Section system.
Context `{Env} `{HasSettings} `{PyText} `{FloatRepr} `{Cryptography} `{Pydantic} `{Jose}.
Context `{UnicodeData} `{KeyGen}.
Context {R : Type} `{!ReplayStore R}.
Variables (policy : PolicyEngine) (adapter : BaseAdapter R).

Record system : Type := mkSystem {
  sy_workflow : step WorkflowOutput;
  sy_attempts : Z;            (* made for the pending request *)
  sy_worker : AState R;
  sy_world : World
}.

Inductive sstep : system -> move -> system -> Prop :=
  | sys_signal c g c' n s w :
      wstep c (ESignal g) c' ->
      sstep (mkSystem c n s w) (Deliver (ESignal g)) (mkSystem c' n s w)
  | sys_tried X (a : activity X) o i k n s w info r s' w' :
      n < maximum_attempts (retry_policy o) -> info_attempt info = n + 1 ->
      perform policy adapter info a s w = (r, (s', w')) ->
      sstep (mkSystem (Activity a o i k) n s w) (Tried a info)
            (mkSystem (Activity a o i k) (n + 1) s' w')
  | sys_finished X (a : activity X) o i k n s w info x s' w' :
      n < maximum_attempts (retry_policy o) -> info_attempt info = n + 1 ->
      perform policy adapter info a s w = (Ok x, (s', w')) ->
      sstep (mkSystem (Activity a o i k) n s w) (Finished a info x)
            (mkSystem (k (Completed x) i) 0 s' w')
  | sys_failed X (a : activity X) o i k n s w r :
      not_completed r ->
      sstep (mkSystem (Activity a o i k) n s w) (Deliver (EActivity a r))
            (mkSystem (k r i) 0 s w)
  | sys_wait t i k n s w r :
      wait_ok r i ->
      sstep (mkSystem (Wait t i k) n s w) (Deliver (EWait r)) (mkSystem (k r i) 0 s w)
  | sys_now i k n s w t :
      sstep (mkSystem (Now i k) n s w) (Deliver (ENow t)) (mkSystem (k t i) 0 s w)
  | sys_other c n s w s' w' :
      sstep (mkSystem c n s w) Other (mkSystem c n s' w').

Inductive sexecs : system -> list move -> system -> Prop :=
  | sexecs_refl c : sexecs c [] c
  | sexecs_snoc c t c' m c'' : sexecs c t c' -> sstep c' m c'' -> sexecs c (t ++ [m]) c''.

(** A task submitted to a worker in any state. *)
Definition submitted (inp : WorkflowInput) (s : AState R) (w : World) : system :=
  mkSystem (run inp AgentTaskWorkflow_init) 0 s w.

(** ** What the workflow sees is an execution of the workflow *)

Lemma log_snoc t m : log (t ++ [m]) = log t ++ seen m.
Proof. unfold log. rewrite fmap_app, concat_app. simpl. by rewrite app_nil_r. Qed.

Lemma execs_snoc {A} (c : step A) es c' e c'' :
  execs c es c' -> wstep c' e c'' -> execs c (es ++ [e]) c''.
Proof.
  intros He Hs. induction He as [c|c f c1 es c2 Hf He IH]; simpl.
  - eapply execs_cons; [exact Hs|apply execs_refl].
  - eapply execs_cons; [exact Hf|exact (IH Hs)].
Qed.

Lemma sexecs_execs c t c' :
  sexecs c t c' -> execs (sy_workflow c) (log t) (sy_workflow c').
Proof.
  induction 1 as [c|c t c' m c'' He IH Hs]; [apply execs_refl|]. rewrite log_snoc.
  destruct Hs; simpl in *; rewrite ?app_nil_r; try exact IH;
    eapply execs_snoc; try exact IH; [assumption|constructor; auto..].
Qed.

(** ** Every completion is the work of an activity *)

Definition performed {X} (a : activity X) (x : X) : Prop :=
  exists info s w s' w', perform policy adapter info a s w = (Ok x, (s', w')).

Definition backed (e : event) : Prop :=
  match e with EActivity a (Completed x) => performed a x | _ => True end.

Lemma completions_backed c t c' : sexecs c t c' -> Forall backed (log t).
Proof.
  induction 1 as [c|c t c' m c'' He IH Hs]; [constructor|]. rewrite log_snoc, Forall_app.
  split; [exact IH|].
  destruct Hs as [| |X a o i k n s w info x s' w' ? ? Hp|X a o i k n s w r Hr| | |];
    simpl; repeat constructor; simpl.
  - exists info, s, w, s', w'. exact Hp.
  - by destruct r.
Qed.

Lemma acts_backed h : Forall backed h -> Forall backed (acts h).
Proof.
  unfold acts. induction 1 as [|e h He _ IH]; simpl; [constructor|].
  destruct (is_act e); [by constructor|exact IH].
Qed.

(** ** Governance, end to end *)

(** [s] masked [n] times; a policy that answers "mask" has the prompt masked again. *)
Fixpoint mask_times (n : nat) (s : string) : string :=
  match n with O => s | S n => mask_times n (mr_text (mask_pii s)) end.

Lemma scrub_fields_times fs p ex : exists n, (scrub_fields fs p ex).1 = mask_times n p.
Proof.
  revert p ex. induction fs as [|f fs IH]; intros p ex; simpl; [by exists O|].
  case_bool_decide; [|apply IH].
  destruct (IH (mr_text (mask_pii p)) (ex ++ found_types (mask_pii p))) as [n Hn].
  by exists (S n).
Qed.

(** The prompt [p] may go to the model for the task [inp], after the events [h]. *)
Record prompt_governed (inp : WorkflowInput) (h : list event) (p : string) : Prop := {
  pg_injection : Forall (fun q => ~ occurs q.2 (points (wi_prompt inp))) _INJECTION_PATTERNS;
  pg_masked : exists n, p = mask_times (S n) (wi_prompt inp);
  pg_policy : policy_granted policy
    (policy_eval_input inp (mkScrub (mr_text (mask_pii (wi_prompt inp)))
                              (found_types (mask_pii (wi_prompt inp)))));
  pg_instructed : exists d,
    policy_answered (R := R) policy
      (policy_eval_input inp (mkScrub (mr_text (mask_pii (wi_prompt inp)))
                              (found_types (mask_pii (wi_prompt inp))))) d /\
    p = (instructed d (mr_text (mask_pii (wi_prompt inp)))).1;
  pg_approved : needs_approval inp = true ->
    exists g, ESignal g ∈ h /\ approved (payload g) = true;
  pg_budget : forall sid limit, budget_of inp = Some (sid, limit) ->
    exists r, performed (BudgetPreCheck (precheck_input inp sid limit)) r
}.

(** A decision at the gate was delivered by a signal. *)
Lemma gate_of_signal h d : (gate_of h).2 = Some d -> exists g, ESignal g ∈ h /\ payload g = d.
Proof.
  revert d. induction h as [|e h IH] using rev_ind; [discriminate|]. intros d.
  assert (Hold : (gate_of h).2 = Some d -> exists g, ESignal g ∈ h ++ [e] /\ payload g = d).
  { intros Hd. destruct (IH d Hd) as (g & Hg & Hp). exists g. split; [|exact Hp].
    apply elem_of_app. by left. }
  rewrite gate_of_snoc. destruct (gate_of h) as [st o] eqn:Eg. simpl in Hold.
  destruct st, e as [g|X a r|[| |x]|t], o as [d'|]; simpl; auto; try (by intros [=]);
    intros [= <-]; exists g; (split; [|reflexivity]); apply elem_of_app; right;
    apply list_elem_of_here.
Qed.

Lemma governed_prompt inp h scrub pol token g spent b rest :
  Forall backed h -> acts h = governed inp scrub pol token ++ g ++ b ++ rest ->
  (needs_approval inp = true -> exists x, ESignal x ∈ h /\ approved (payload x) = true) ->
  precheck_log inp spent b -> prompt_governed inp h (pr_sanitized_prompt pol).
Proof.
  intros Hb Ha Hg Hp. apply acts_backed in Hb. rewrite Ha in Hb.
  apply Forall_app in Hb as [Hgov Hb]. apply Forall_app in Hb as [_ Hb].
  apply Forall_app in Hb as [Hb _].
  apply Forall_cons in Hgov as [(i1 & s1 & w1 & s1' & w1' & E1) Hgov].
  apply Forall_cons in Hgov as [(i2 & s2 & w2 & s2' & w2' & E2) _].
  apply pre_pii_scrub_ok in E1 as [Hinj ->].
  apply policy_eval_ok in E2 as (Hpol & _ & _ & d & Hd & Hfields).
  apply (f_equal fst) in Hfields. cbn [fst] in Hfields.
  split; [exact Hinj| |exact Hpol|by exists d|exact Hg|].
  - rewrite Hfields. unfold instructed. case_bool_decide; [|by exists O].
    destruct (scrub_fields_times (fields d) (mr_text (mask_pii (wi_prompt inp))) [])
      as [n Hn]. exists n. exact Hn.
  - intros sid limit Hbud. destruct Hp as [Hn|sid' limit' r Hs]; [congruence|].
    rewrite Hbud in Hs. injection Hs as <- <-. apply Forall_cons in Hb as [Hr _].
    exists r. exact Hr.
Qed.

Lemma cleared_signal inp h g :
  cleared inp h g -> needs_approval inp = true ->
  exists x, ESignal x ∈ h /\ approved (payload x) = true.
Proof.
  unfold cleared. intros Hc Hn. rewrite Hn in Hc. destruct Hc as (d & _ & Hd & Hg).
  destruct (gate_of_signal h d) as (x & Hx & <-); [by rewrite Hg|]. eauto.
Qed.

Lemma prompt_governed_mono inp h e p :
  prompt_governed inp h p -> prompt_governed inp (h ++ e) p.
Proof.
  intros [Hi Hm Hp Hin Ha Hb]. split; auto. intros Hn. destruct (Ha Hn) as (g & Hg & Hd).
  exists g. split; [|exact Hd]. apply elem_of_app. by left.
Qed.

(** A pending LLM request is governed. *)
Lemma pending_governed inp t c X (a : activity X) o i k li :
  Forall backed (log t) -> execs (run inp AgentTaskWorkflow_init) (log t) c ->
  c = Activity a o i k -> llm_input a = Some li ->
  prompt_governed inp (log t) (li_sanitized_prompt li) /\
  exists scrub pol token g spent b, li = llm_invoke_input inp pol token /\
    acts (log t) = governed inp scrub pol token ++ g ++ b /\
    cleared inp (log t) g /\ precheck_log inp spent b.
Proof.
  intros Hb He -> Hl. apply run_requests in He as [_ Hr].
  destruct a; try discriminate Hl. injection Hl as ->.
  destruct Hr as (scrub & pol & token & g & spent & b & Ha & Hc & Hp & ->).
  split; [|by exists scrub, pol, token, g, spent, b].
  apply (governed_prompt inp _ scrub pol token g spent b []); auto.
  - by rewrite app_nil_r.
  - exact (cleared_signal inp _ g Hc).
Qed.

(** ** How often the model is called *)

Definition llm_event (e : event) : bool :=
  match e with EActivity a _ => is_llm a | _ => false end.
Definition has_llm (h : list event) : bool := existsb llm_event h.
Definition llm_request {A} (c : step A) : bool :=
  match c with Activity a _ _ _ => is_llm a | _ => false end.

Lemma llm_input_count {X} (a : activity X) :
  match llm_input a with Some _ => 1%nat | None => 0%nat end
  = if is_llm a then 1%nat else 0%nat.
Proof. by destruct a. Qed.
Lemma llm_max_attempts {X} (a : activity X) :
  is_llm a = true ->
  maximum_attempts (retry_policy (options_for a)) = maximum_attempts LLM_RETRY_POLICY.
Proof. by destruct a. Qed.

Lemma has_llm_acts h : has_llm (acts h) = has_llm h.
Proof.
  unfold has_llm, acts. induction h as [|e h IH]; simpl; [done|].
  destruct e; simpl; by rewrite IH.
Qed.

Lemma has_llm_app h1 h2 : has_llm (h1 ++ h2) = has_llm h1 || has_llm h2.
Proof. apply existsb_app. Qed.

Lemma has_llm_gate inp st d g : gate_log inp st d g -> has_llm g = false.
Proof. by destruct 1. Qed.
Lemma has_llm_cleared inp h g : cleared inp h g -> has_llm g = false.
Proof.
  unfold cleared. destruct (needs_approval inp).
  - intros (d & Hg & _). exact (has_llm_gate _ _ _ _ Hg).
  - by intros [-> _].
Qed.
Lemma has_llm_precheck inp spent b : precheck_log inp spent b -> has_llm b = false.
Proof. by destruct 1. Qed.

(** The pending LLM request is the first. *)
Lemma pending_first inp h c :
  execs (run inp AgentTaskWorkflow_init) h c -> llm_request c = true -> has_llm h = false.
Proof.
  intros He Hl. destruct c as [|X a o i k| |]; try discriminate Hl.
  apply run_requests in He as [_ Hr]. destruct a; try discriminate Hl.
  destruct Hr as (scrub & pol & token & g & spent & b & Ha & Hc & Hp & _).
  by rewrite <- has_llm_acts, Ha, !has_llm_app, (has_llm_cleared _ _ _ Hc),
    (has_llm_precheck _ _ _ Hp).
Qed.

(** The attempts so far: those of the pending request, at most five in all. *)
Record attempts_ok (t : list move) (c : system) : Prop := {
  ao_pending : has_llm (log t) = false ->
    length (llm_attempts t) = if llm_request (sy_workflow c) then Z.to_nat (sy_attempts c) else O;
  ao_bound : Z.of_nat (length (llm_attempts t)) <= maximum_attempts LLM_RETRY_POLICY;
  ao_nonneg : 0 <= sy_attempts c
}.

Lemma attempts_snoc t m :
  length (llm_attempts (t ++ [m]))
  = (length (llm_attempts t) + match llm_attempt m with Some _ => 1 | None => 0 end)%nat.
Proof.
  unfold llm_attempts. rewrite omap_app, length_app. simpl. by destruct (llm_attempt m).
Qed.

Lemma attempts_ok_step inp t c m c' :
  execs (run inp AgentTaskWorkflow_init) (log t) (sy_workflow c) ->
  attempts_ok t c -> sstep c m c' -> attempts_ok (t ++ [m]) c'.
Proof.
  intros Hw [Hp Hb Hn] Hs.
  pose proof (with_options_execs _ _ _ Hw (run_with_options inp _)) as Ho.
  pose proof (pending_first inp _ _ Hw) as Hf.
  destruct Hs as [c g c' n s w Hg|X a o i k n s w info r s' w' Hlt _ _
    |X a o i k n s w info x s' w' Hlt _ _|X a o i k n s w r Hr|tm i k n s w r _|i k n s w tm|c n s w s' w'];
    cbn [sy_workflow sy_attempts llm_request] in *; split;
    rewrite ?attempts_snoc, ?log_snoc, ?has_llm_app;
    cbn [seen has_llm existsb llm_event llm_attempt sy_workflow sy_attempts];
    rewrite ?orb_false_r, ?llm_input_count, ?Nat.add_0_r; cbn [llm_request]; try lia; auto.
  all: try (destruct Ho as [-> _]; pose proof (llm_max_attempts a) as Hm).
  - inversion Hg; subst; exact Hp.
  - destruct (is_llm a); intros He; rewrite (Hp He); lia.
  - destruct (is_llm a); [rewrite Hm in Hlt by done; rewrite Hp by auto|]; lia.
  - destruct (is_llm a); [rewrite orb_true_r; discriminate|]. rewrite orb_false_r. intros He.
    rewrite (Hp He). by destruct (llm_request _).
  - destruct (is_llm a); [rewrite Hm in Hlt by done; rewrite Hp by auto|]; lia.
  - destruct (is_llm a); [rewrite orb_true_r; discriminate|]. rewrite orb_false_r. intros He.
    rewrite (Hp He). by destruct (llm_request _).
  - intros He. rewrite (Hp He). by destruct (llm_request _).
  - intros He. rewrite (Hp He). by destruct (llm_request _).
Qed.

Lemma sexecs_attempts inp s w t c :
  sexecs (submitted inp s w) t c -> attempts_ok t c.
Proof.
  intros He. remember (submitted inp s w) as c0 eqn:E0.
  induction He as [c0|c0 t c' m c'' He IH Hs]; [subst; by split|].
  eapply (attempts_ok_step inp); [|exact (IH E0)|exact Hs].
  apply sexecs_execs in He. by rewrite E0 in He.
Qed.

Lemma attempts_governed inp s w t c :
  sexecs (submitted inp s w) t c ->
  Forall (fun li => prompt_governed inp (log t) (li_sanitized_prompt li)) (llm_attempts t).
Proof.
  intros He. remember (submitted inp s w) as c0 eqn:E0.
  induction He as [c0|c0 t c' m c'' He IH Hs]; [constructor|]. specialize (IH E0).
  unfold llm_attempts. rewrite omap_app, Forall_app, log_snoc. split.
  { eapply Forall_impl; [exact IH|]. intros li Hg. by apply prompt_governed_mono. }
  pose proof (completions_backed _ _ _ He) as Hb. pose proof (sexecs_execs _ _ _ He) as Hw.
  rewrite E0 in Hw.
  destruct Hs as [|X a o i k n s1 w1 info r s2 w2 _ _ _|X a o i k n s1 w1 info x s2 w2 _ _ _| | | |];
    simpl; try exact (Forall_nil_2 _);
    destruct (llm_input a) as [li|] eqn:El; simpl; try exact (Forall_nil_2 _);
    apply Forall_singleton;
    apply prompt_governed_mono, (pending_governed inp t _ X a o i k li Hb Hw eq_refl El).
Qed.

(** C1. Nothing reaches the model ungoverned.  Whatever the server, the other tasks
    and the signals do, every attempt at LLMInvoke of a task (each of which may send
    the prompt to the provider) carries a prompt that went through [mask_pii], of a
    task whose original prompt matches none of the injection patterns, for which
    OPA answered a grant to this agent, requester and model (and the prompt was masked
    again if its decision says so), for which, if the
    projected spend is above $50, an approving signal was delivered, and whose
    budget pre-check, if it has a budget, completed.  (The prompt is the user prompt;
    the system prompt of the task goes along as the caller gave it.) *)
Theorem llm_attempts_governed inp s w t c :
  sexecs (submitted inp s w) t c ->
  Forall (fun li => prompt_governed inp (log t) (li_sanitized_prompt li)) (llm_attempts t).
Proof. apply attempts_governed. Qed.

(** The input of the pending request, if it is for the model. *)
Definition pending_llm {A} (c : step A) : option LLMInvokeInput :=
  match c with Activity a _ _ _ => llm_input a | _ => None end.

Lemma pending_llm_request {A} (c : step A) li : pending_llm c = Some li -> llm_request c = true.
Proof. destruct c as [|X a o i k| |]; simpl; try discriminate. by destruct a. Qed.

Lemma llm_attempts_snoc t m :
  llm_attempts (t ++ [m]) = llm_attempts t ++ option_list (llm_attempt m).
Proof. unfold llm_attempts. rewrite omap_app. simpl. by destruct (llm_attempt m). Qed.

(** All attempts are at one request, the pending one if it is for the model. *)
Lemma sexecs_same inp s w t c :
  sexecs (submitted inp s w) t c ->
  exists li0, Forall (eq li0) (llm_attempts t) /\
    forall li, pending_llm (sy_workflow c) = Some li -> li0 = li.
Proof.
  intros He. remember (submitted inp s w) as c0 eqn:E0.
  induction He as [c0|c0 t c' m c'' He IH Hs].
  { subst. exists (llm_invoke_input inp (mkPolicyEvalResult true "" [] "" [])
      (mkJITTokenResult "" "" None None)). split; [constructor|discriminate]. }
  destruct (IH E0) as (li0 & Hall & Hpend).
  assert (Hnew : sexecs (submitted inp s w) (t ++ [m]) c'')
    by (rewrite <- E0; exact (sexecs_snoc _ _ _ _ _ He Hs)).
  pose proof (sexecs_attempts _ _ _ _ _ Hnew) as [Hlen _ _].
  pose proof (pending_first inp _ _ (sexecs_execs _ _ _ Hnew)) as Hfirst.
  assert (Hfresh : sy_attempts c'' = 0 -> forall li, pending_llm (sy_workflow c'') = Some li ->
            llm_attempts (t ++ [m]) = []).
  { intros Hz li Hp. apply pending_llm_request in Hp. apply nil_length_inv.
    rewrite (Hlen (Hfirst Hp)), Hp, Hz. reflexivity. }
  clear Hnew Hlen Hfirst IH He E0. rewrite llm_attempts_snoc in *.
  assert (Hall' : Forall (eq li0) (llm_attempts t ++ option_list (llm_attempt m))).
  { apply Forall_app. split; [exact Hall|].
    destruct (llm_attempt m) as [li|] eqn:Em; [|constructor]. apply Forall_singleton, Hpend.
    destruct Hs; simpl in *; try discriminate; exact Em. }
  assert (Hzero : sy_attempts c'' = 0 ->
    exists li1, Forall (eq li1) (llm_attempts t ++ option_list (llm_attempt m)) /\
      forall li, pending_llm (sy_workflow c'') = Some li -> li1 = li).
  { intros Hz. destruct (pending_llm (sy_workflow c'')) as [li|] eqn:Ep.
    - exists li. rewrite (Hfresh Hz li eq_refl). split; [constructor|congruence].
    - exists li0. split; [exact Hall'|discriminate]. }
  destruct Hs; try exact (Hzero eq_refl); exists li0; (split; [exact Hall'|]); try exact Hpend.
  simpl in *. intros li Hl. apply Hpend. rewrite <- Hl.
  match goal with Hw : wstep _ _ _ |- _ => inversion Hw; subst; reflexivity end.
Qed.

(** C11. The model is called at most five times for a task (and each of these calls is
    an attempt at one and the same request): the workflow requests LLMInvoke at most
    once, under [LLM_RETRY_POLICY], and a failed call never leads to another
    request. *)
Theorem llm_attempts_bounded inp s w t c :
  sexecs (submitted inp s w) t c ->
  (length (llm_attempts t) <= 5)%nat /\ exists li, Forall (eq li) (llm_attempts t).
Proof.
  intros He. destruct (sexecs_attempts _ _ _ _ _ He) as [_ Hb _].
  destruct (sexecs_same _ _ _ _ _ He) as (li & Hall & _).
  split; [cbn in Hb; lia|by exists li].
Qed.

(** What the answer of a task means. *)
Inductive answer (inp : WorkflowInput) (t : list move) (out : WorkflowOutput) : Prop :=
  | answer_completed md sh w1 resp sw :
      wo_workflow_status out = "completed"%string ->
      prompt_governed inp (log t) (wo_sanitized_prompt out) ->
      complete adapter (mkLLMRequest (wo_sanitized_prompt out) (wi_model inp) (wi_max_tokens inp)
        (wi_temperature inp) (wi_system_prompt inp) md) sh w1 = (Ok resp, sw) ->
      wo_content out = mr_text (mask_pii (content resp)) ->
      wo_tokens_used out = ls_tokens_used resp ->
      answer inp t out
  | answer_refused :
      wo_workflow_status out <> "completed"%string ->
      needs_approval inp = true -> wo_content out = ""%string -> wo_tokens_used out = 0 ->
      llm_attempts t = [] ->
      answer inp t out.

(** C2. From the prompt to the answer.  A task that returns was either completed, and
    then its content is the masked text of the provider's response to a request with
    the governed prompt (the one reported in the output) and the task's own model
    parameters; or it was refused at the approval gate, and then it has no content
    and no attempt at calling the model was ever made. *)
Theorem task_answer_governed inp s w t out i n s' w' :
  sexecs (submitted inp s w) t (mkSystem (Done (inr out) i) n s' w') ->
  answer inp t out.
Proof.
  intros He. pose proof (completions_backed _ _ _ He) as Hb.
  pose proof (sexecs_attempts _ _ _ _ _ He) as [Hatt _ _].
  apply sexecs_execs in He. apply run_ends in He as [_ Hout]. simpl in Hout.
  destruct Hout as [scrub pol token g spent b llm spent' b' po Hc Hp Hr Ha
                   |scrub pol token st d g Hn Hg Hd Hst Ha].
  - pose proof (acts_backed _ Hb) as Hab. rewrite Ha in Hab.
    apply Forall_app in Hab as [_ Hab]. apply Forall_app in Hab as [_ Hab].
    apply Forall_app in Hab as [_ Hab]. apply Forall_app in Hab as [Hllm Hab].
    apply Forall_app in Hab as [_ Hpost].
    apply Forall_singleton in Hllm as (i1 & s1 & w1 & s1' & w1' & E1).
    apply Forall_singleton in Hpost as (i2 & s2 & w2 & s2' & w2' & E2).
    apply llm_invoke_ok in E1 as (tok & proof & sh & w3 & resp & sw & Hcomp & _ & ->).
    apply post_sanitize_ok in E2 as ->.
    eapply answer_completed; [done| |exact Hcomp|done|done].
    eapply governed_prompt; [exact Hb|exact Ha| |exact Hp]. exact (cleared_signal inp _ g Hc).
  - apply answer_refused; auto; [by destruct Hg; simpl; unfold decided; destruct (approved _)|].
    apply nil_length_inv, Hatt.
    rewrite <- has_llm_acts, Ha, has_llm_app, (has_llm_gate _ _ _ _ Hg). reflexivity.
Qed.

(** ** One server *)

(** A server that runs one attempt of every request, reports its error as the
    failure, delivers the signals [gs] at the gate and lets the wait time out when
    none is there. *)
Definition first_attempt : ActivityInfo := mkActivityInfo (Some "workflow"%string) "1" 1.
Definition failure_of (e : exn) : ActivityFailure :=
  mkActivityFailure "Activity task failed" (CauseOther e) "MAXIMUM_ATTEMPTS_REACHED".

Fixpoint drive (gs : list signal) (now : Z) (c : step WorkflowOutput) (s : AState R) (w : World)
    {struct c} : list move * system :=
  match c with
  | Done _ _ => ([], mkSystem c 0 s w)
  | Activity a o i k =>
      match perform policy adapter first_attempt a s w with
      | (Ok x, (s', w')) =>
          if 0 <? maximum_attempts (retry_policy o) then
            let '(t, y) := drive gs now (k (Completed x) i) s' w' in
            (Finished a first_attempt x :: t, y)
          else ([], mkSystem c 0 s w)
      | (Err e, (s', w')) =>
          if 0 <? maximum_attempts (retry_policy o) then
            let '(t, y) := drive gs now (k (Failed (failure_of e)) i) s' w' in
            (Tried a first_attempt :: Deliver (EActivity a (Failed (failure_of e))) :: t, y)
          else ([], mkSystem c 0 s w)
      end
  | Wait _ i k =>
      let i' := handle_all gs i in
      let r := match _approval_signal i' with Some _ => Woken | None => TimedOut end in
      let '(t, y) := drive gs now (k r i') s w in
      (((fun g => Deliver (ESignal g)) <$> gs) ++ Deliver (EWait r) :: t, y)
  | Now i k =>
      let '(t, y) := drive gs now (k now i) s w in (Deliver (ENow now) :: t, y)
  end.

Lemma sexecs_cons c m c' t c'' : sstep c m c' -> sexecs c' t c'' -> sexecs c (m :: t) c''.
Proof.
  intros Hs He. revert c Hs. induction He as [c'|c' t c1 m' c2 He IH Hs']; intros c Hs.
  - apply (sexecs_snoc c [] c); [apply sexecs_refl|exact Hs].
  - apply (sexecs_snoc c (m :: t) c1); [apply IH, Hs|exact Hs'].
Qed.

Lemma sexecs_signals gs tm i k n s w t c :
  sexecs (mkSystem (Wait tm (handle_all gs i) k) n s w) t c ->
  sexecs (mkSystem (Wait tm i k) n s w) (((fun g => Deliver (ESignal g)) <$> gs) ++ t) c.
Proof.
  revert i. induction gs as [|g gs IH]; intros i He; [exact He|].
  eapply sexecs_cons; [apply sys_signal, ws_signal_wait|]. apply IH, He.
Qed.

Lemma drive_sexecs gs now c s w t y :
  drive gs now c s w = (t, y) -> sexecs (mkSystem c 0 s w) t y.
Proof.
  revert s w t. induction c as [r i|X a o i k IH|tm i k IH|i k IH]; intros s w t E; simpl in E.
  - injection E as <- <-. apply sexecs_refl.
  - destruct (perform policy adapter first_attempt a s w) as [[x|e] [s' w']] eqn:Ep;
      destruct (Z.ltb_spec 0 (maximum_attempts (retry_policy o)));
      try (injection E as <- <-; apply sexecs_refl);
      destruct (drive _ _ _ _ _) as [t' y'] eqn:Ed; injection E as <- ->; apply IH in Ed.
    + eapply sexecs_cons; [eapply sys_finished; [..|exact Ep]; [assumption|reflexivity]|exact Ed].
    + eapply sexecs_cons; [eapply sys_tried; [..|exact Ep]; [assumption|reflexivity]|].
      eapply sexecs_cons; [apply sys_failed; exact I|exact Ed].
  - destruct (drive _ _ _ _ _) as [t' y'] eqn:Ed. injection E as <- ->. apply IH in Ed.
    apply sexecs_signals. eapply sexecs_cons; [apply sys_wait|exact Ed].
    by destruct (_approval_signal _) eqn:Eg; simpl; [rewrite Eg; eexists|].
  - destruct (drive _ _ _ _ _) as [t' y'] eqn:Ed. injection E as <- ->. apply IH in Ed.
    eapply sexecs_cons; [apply sys_now|exact Ed].
Qed.
End system.
