(* ===== verification/SystemExamples.v ===== *)
(** * Concrete runs of the durable task

    The process of PipelineExamples.v (a granting policy server, a local model) as
    the worker of a task: the theorems of Activities.v, DurableLoop.v and System.v
    applied to it. *)
From Stdlib Require Import ZArith Lia Ascii String.
From stdpp Require Import base gmap strings list.
From S2P Require Import Prelude PyDecimal PyUuid World Config AuditLogger BudgetEnforcer LoopDetector.
From S2P Require Import PyCrypto ReplayStore Regex Guardrails SessionMgr TokenLibrary PolicyEngine Adapters.
From S2P Require Import PipelineExamples Workflow WorkflowSafety Activities DurableLoop System.

#[local] Existing Instance toy_jose.
#[local] Existing Instance demo_text.
#[local] Existing Instance demo_float_repr.
#[local] Existing Instance demo_crypto.
#[local] Existing Instance demo_pydantic.
#[local] Existing Instance ascii_data.
#[local] Existing Instance pipeline_settings.
#[local] Existing Instance demo_keygen.
#[local] Existing Instance granting.

Definition demo_worker : AState InMemoryDPoPReplayStore :=
  mkAState (mkShared demo_manager AuditLogger_init) (mkEnforcer ∅).
Definition attempt (n : Z) : ActivityInfo := mkActivityInfo (Some "wf"%string) "7" n.

(** *** The budget activities *)

Definition demo_session_id : string := uuid_str (mkUUID 5).
Definition demo_spend : BudgetRecordInput :=
  mkBudgetRecord "t" "finance" demo_session_id "1.00" 10 "0.002"
    [mkHistoryEntry "wf:3" "0.02" 10] None.

(** The second attempt, on a worker that holds another task's budgets, returns the
    ledger of the first, with one more entry. *)
Lemma budget_activities_stateless_witness :
  exists r, (budget_record_spend (attempt 2) demo_spend
               (mkAState (mkShared demo_manager AuditLogger_init) spent_budgets) w_empty).1 = Ok r
    /\ bv_history r = [mkHistoryEntry "wf:3" "0.02" 10; mkHistoryEntry "wf:7" "0.020" 10].
Proof.
  destruct (budget_activities_stateless (attempt 1) (attempt 2) demo_spend
    (mkBudgetPreCheck "t" "finance" demo_session_id "1.00" [] None) eq_refl eq_refl
    demo_worker w_empty
    (mkAState (mkShared demo_manager AuditLogger_init) spent_budgets) w_empty) as (E & _ & Hh).
  assert (Hok : is_ok (budget_record_spend (attempt 1) demo_spend demo_worker w_empty).1 = true)
    by (vm_compute; reflexivity).
  destruct (budget_record_spend (attempt 1) demo_spend demo_worker w_empty).1 as [r|e];
    [|discriminate Hok].
  exists r. split; [exact (eq_sym E)|]. destruct (Hh r eq_refl) as (cost & Hc & ->).
  vm_compute in Hc. injection Hc as <-. vm_compute. reflexivity.
Defined.

Lemma workflow_precheck_iff_witness :
  is_ok (budget_pre_check (precheck_input (demo_input "10.00") demo_session_id "0.01")
    (mkAState (mkShared demo_manager AuditLogger_init) spent_budgets) w_empty).1 = true.
Proof.
  rewrite (workflow_precheck_iff (demo_input "10.00") demo_session_id "0.01" (mkUUID 5)
    (mkDec false 1 (-2)) (mkAState (mkShared demo_manager AuditLogger_init) spent_budgets) w_empty);
    [reflexivity|discriminate|vm_compute; reflexivity|vm_compute; reflexivity].
Defined.

(** *** The loop activity *)

Definition demo_loop : LoopTask := mkLoopTask "t" "finance" (mkUUID 5) (Some 2) (Some 100) None.
Definition idle : step_req := (1, NO_PROGRESS, "idle"%string).
Definition busy : step_req := (1, PROGRESS, "busy"%string).

(** Two idle steps in a row trip the breaker, across activities. *)
Lemma durable_loop_detection_witness :
  exists msg e, (durable_steps demo_loop None [busy; idle; idle; busy] demo_worker w_empty).1
    = Err (Exn (ApplicationError "LoopDetectedError") msg (Some e)).
Proof.
  pose proof (durable_loop_detection demo_loop [busy; idle; idle; busy] demo_worker w_empty w_empty
    ltac:(discriminate) ltac:(vm_compute; split; congruence) ltac:(discriminate)) as Hd.
  cbv zeta in Hd.
  destruct (memory_steps demo_loop _ _ _) as [[k|e] dw] eqn:Em; [vm_compute in Em; discriminate Em|].
  assert (Hk : exn_class e = LoopDetectedError).
  { apply (f_equal (fun x => x.1)) in Em. vm_compute in Em. injection Em as <-. reflexivity. }
  destruct Hd as (msg & e' & Hd & _). rewrite Hk in Hd. eauto.
Defined.

(** *** A whole task *)

Definition demo_task_input (projected : string) : WorkflowInput :=
  mkWorkflowInput "t" "ssn 123-45-6789" "finance" "alice" "llama3" 64 (JInt 0) "" false None
    (Some demo_session_id) (Some "1.00"%string) "0.002" None NO_PROGRESS None None None
    projected 60 None.

Definition demo_drive (projected : string) (gs : list signal) :=
  drive demo_policy demo_adapter gs 7 (run (demo_task_input projected) AgentTaskWorkflow_init)
    demo_worker w_empty.

Definition answer_of (y : system (R := InMemoryDPoPReplayStore)) : option WorkflowOutput :=
  match sy_workflow y with Done (inr out) _ => Some out | _ => None end.

(** An approved task above the threshold: prompt and answer are masked. *)
Example drive_masks :
  (fun out => (wo_sanitized_prompt out, wo_content out, wo_budget_spent_usd out))
    <$> answer_of (demo_drive "75.00" [Approve yes]).2
  = Some ("ssn [REDACTED-SSN]", "mail [REDACTED-EMAIL]", Some "0.024")%string.
Proof. vm_compute. reflexivity. Qed.

Lemma drive_task projected gs :
  sexecs demo_policy demo_adapter (submitted (demo_task_input projected) demo_worker w_empty)
    (demo_drive projected gs).1 (demo_drive projected gs).2.
Proof. apply (drive_sexecs _ _ gs 7). unfold demo_drive. by destruct (drive _ _ _ _ _ _ _). Qed.

(** The drive makes an attempt at the model, with the masked prompt. *)
Lemma llm_attempts_governed_witness :
  exists li, llm_attempts (demo_drive "75.00" [Approve yes]).1 = [li] /\
    prompt_governed demo_policy demo_adapter (demo_task_input "75.00")
      (log (demo_drive "75.00" [Approve yes]).1) (li_sanitized_prompt li).
Proof.
  pose proof (llm_attempts_governed demo_policy demo_adapter _ _ _ _ _
    (drive_task "75.00" [Approve yes])) as Hg.
  destruct (llm_attempts (demo_drive "75.00" [Approve yes]).1) as [|li [|li' l]] eqn:E;
    [vm_compute in E; discriminate E| |vm_compute in E; discriminate E].
  exists li. split; [reflexivity|]. exact (proj1 (proj1 (Forall_cons _ _ _) Hg)).
Defined.

Lemma llm_attempts_bounded_witness :
  length (llm_attempts (demo_drive "75.00" [Approve yes]).1) = 1%nat /\
  (length (llm_attempts (demo_drive "75.00" [Approve yes]).1) <= 5)%nat.
Proof.
  split; [vm_compute; reflexivity|].
  exact (proj1 (llm_attempts_bounded demo_policy demo_adapter _ _ _ _ _
    (drive_task "75.00" [Approve yes]))).
Defined.

(** Nobody answers: the task is refused and the model was not called. *)
Lemma task_answer_governed_witness :
  exists out, answer_of (demo_drive "75.00" []).2 = Some out /\
    wo_workflow_status out = "timed-out"%string /\
    answer demo_policy demo_adapter (demo_task_input "75.00") (demo_drive "75.00" []).1 out.
Proof.
  destruct (answer_of (demo_drive "75.00" []).2) as [out|] eqn:E;
    [|vm_compute in E; discriminate E].
  exists out. split; [reflexivity|]. split.
  - assert (Hs : wo_workflow_status <$> answer_of (demo_drive "75.00" []).2
                 = Some "timed-out"%string) by (vm_compute; reflexivity).
    rewrite E in Hs. injection Hs as Hs. exact Hs.
  - pose proof (drive_task "75.00" []) as Hd. unfold answer_of in E.
    destruct (demo_drive "75.00" []) as [t [c n s w]]. cbn [fst snd sy_workflow] in *.
    destruct c as [[e|o] i| | |]; try discriminate E. injection E as ->.
    exact (task_answer_governed demo_policy demo_adapter _ _ _ _ _ _ _ _ _ Hd).
Defined.
