(* ===== verification/ApprovalService.v ===== *)
(** * src/control_plane/approval_service.py: approving and denying tasks

    [TaskApprovalService] asks a running workflow for its approval status and
    signals decisions to it, by task id.  The Temporal client is a parameter: the
    class [TemporalClient] has the three operations the service uses, arbitrary
    effects on a client state, and [TemporalLaws] says what the service relies on,
    in terms of the workflow a client state holds under an id.  The laws make every call
    atomic, so that a workflow does not move between the query of the service and its
    signal: what happens when the gate closes in between is outside the model.
    [Cluster] is a client that meets the laws, running the workflows of Workflow.v. *)
From Stdlib Require Import ZArith Lia Ascii String.
From stdpp Require Import base gmap strings list pretty.
From S2P Require Import Prelude PyDecimal PyUuid World Workflow.

(** One entry of [client.list_workflows]. *)
Record WorkflowExecution : Type := mkExecution {
  execution_id : string;
  close_time : option Z
}.

Class TemporalClient (C : Type) : Type := {
  query_approval_status : string -> M C ApprovalStatusSnapshot;
  signal_workflow : string -> signal -> M C unit;
  list_workflows : Z -> M C (list WorkflowExecution)
}.

(** The instance of a workflow that can be queried: it is suspended or done. *)
Definition instance_of {A} (c : step A) : option Instance_ :=
  match c with
  | Done _ s | Activity _ _ s _ | Wait _ s _ => Some s
  | Now _ _ => None
  end.

(** [c'] is [c] after the workflow [id] has handled the signal [g]. *)
Definition delivered {C} (at_ : C -> string -> option (step WorkflowOutput)) (id : string)
    (g : signal) (c c' : C) : Prop :=
  exists wf wf', at_ c id = Some wf /\ wstep wf (ESignal g) wf' /\ at_ c' id = Some wf' /\
    forall id', id' <> id -> at_ c' id' = at_ c id'.

Class TemporalLaws (C : Type) `{TemporalClient C} : Type := {
  workflow_at : C -> string -> option (step WorkflowOutput);
  query_reads c w r c' w' id :
    query_approval_status id c w = (r, (c', w')) -> c' = c;
  query_answers c w snap sw id :
    query_approval_status id c w = (Ok snap, sw) ->
    exists wf s, workflow_at c id = Some wf /\ instance_of wf = Some s /\ snap = approval_status s;
  (** an accepted signal reaches the workflow; a refused one may or may not *)
  signal_delivers c w r c' w' id g :
    signal_workflow id g c w = (r, (c', w')) ->
    delivered workflow_at id g c c' \/ (exists e, r = Err e) /\ workflow_at c' = workflow_at c;
  list_reads c w r c' w' n : list_workflows n c w = (r, (c', w')) -> c' = c
}.

Record ApprovalDecisionResult : Type := mkDecisionResult {
  dr_task_id : UUID;
  dr_status : string;
  dr_actor_id : string;
  dr_reason : string
}.

Definition awaiting : string := PendingApprovalState.value PendingApprovalState.AWAITING_APPROVAL.

Section service.
Context {C : Type} `{TemporalClient C}.

Definition get_snapshot (task_id : UUID) : M C ApprovalStatusSnapshot :=
  try_except (query_approval_status (uuid_str task_id))
    [(Exception, fun exc => throw_from PendingApprovalNotFoundError
        ("No active PendingApproval workflow found for task_id=" +:+ uuid_str task_id) exc)].

(** [str(PendingApprovalConflictError(...))] *)
Definition conflict_message (task_id : UUID) (approval_state workflow_status : string) : string :=
  "Task " +:+ uuid_str task_id +:+ " is no longer awaiting approval (approval_state="
  +:+ approval_state +:+ ", workflow_status=" +:+ workflow_status +:+ ")".

Definition get_pending_snapshot (task_id : UUID) : M C ApprovalStatusSnapshot :=
  snapshot ← get_snapshot task_id;
  if negb (bool_decide (st_approval_state snapshot = awaiting)) then
    throw PendingApprovalConflictError
      (conflict_message task_id (st_approval_state snapshot) (st_workflow_status snapshot))
  else mret snapshot.

(** The body of the loop of [list_pending_snapshots]: the snapshot of an open,
    waiting workflow. *)
Definition pending_snapshot (e : WorkflowExecution) : M C (option ApprovalStatusSnapshot) :=
  match close_time e with
  | Some _ => mret None
  | None =>
      o ← try_except (s ← query_approval_status (execution_id e); mret (Some s))
            [(Exception, fun _ => mret None)];
      mret (match o with
            | Some s => if bool_decide (st_approval_state s = awaiting) then Some s else None
            | None => None
            end)
  end.

Fixpoint pending_snapshots (l : list WorkflowExecution) : M C (list ApprovalStatusSnapshot) :=
  match l with
  | [] => mret []
  | e :: l =>
      o ← pending_snapshot e;
      rest ← pending_snapshots l;
      mret (option_list o ++ rest)
  end.

Definition list_pending_snapshots (limit : Z) : M C (list ApprovalStatusSnapshot) :=
  l ← list_workflows limit; pending_snapshots l.

Definition service_approve (task_id : UUID) (approver reason : string)
    : M C ApprovalDecisionResult :=
  get_pending_snapshot task_id ;;
  signal_workflow (uuid_str task_id) (Approve (mkDecision approver reason true)) ;;
  mret (mkDecisionResult task_id (PendingApprovalState.value PendingApprovalState.APPROVED)
          approver reason).

Definition service_deny (task_id : UUID) (approver reason : string)
    : M C ApprovalDecisionResult :=
  get_pending_snapshot task_id ;;
  signal_workflow (uuid_str task_id) (Deny (mkDecision approver reason false)) ;;
  mret (mkDecisionResult task_id (PendingApprovalState.value PendingApprovalState.DENIED)
          approver reason).
End service.

(** ** Properties *)

Section properties.
Context {C : Type} `{TemporalLaws C}.
Implicit Types (c : C) (w : World).

(** The workflow [id] waits for a decision. *)
Definition waits_at c (id : string) : Prop :=
  exists wf s, workflow_at c id = Some wf /\ instance_of wf = Some s /\
    _approval_state s = PendingApprovalState.AWAITING_APPROVAL.

(** ... and has got the decision [d]. *)
Definition decided_at c (id : string) (d : ApprovalSignalPayload) : Prop :=
  exists wf s, workflow_at c id = Some wf /\ instance_of wf = Some s /\
    _approval_state s = PendingApprovalState.AWAITING_APPROVAL /\ _approval_signal s = Some d.

Lemma status_awaiting s :
  st_approval_state (approval_status s) = awaiting <->
  _approval_state s = PendingApprovalState.AWAITING_APPROVAL.
Proof. unfold awaiting. simpl. destruct (_approval_state s); simpl; split; congruence. Qed.

Lemma get_snapshot_run id c w r c' w' :
  get_snapshot id c w = (r, (c', w')) ->
  c' = c /\
  match r with
  | Ok snap => exists wf s, workflow_at c (uuid_str id) = Some wf /\ instance_of wf = Some s /\
                 snap = approval_status s
  | Err e => isinstance e Exception = true -> exn_class e = PendingApprovalNotFoundError
  end.
Proof.
  unfold get_snapshot, try_except. intros E.
  destruct (query_approval_status (uuid_str id) c w) as [[snap|e] [c1 w1]] eqn:Eq;
    pose proof (query_reads _ _ _ _ _ _ Eq) as ->.
  - injection E as <- <- <-. split; [done|]. exact (query_answers _ _ _ _ _ Eq).
  - cbn [dispatch] in E. destruct (isinstance e Exception) eqn:Ei.
    + injection E as <- <- <-. done.
    + injection E as <- <- <-. split; [done|]. congruence.
Qed.

Lemma get_pending_snapshot_run id c w r c' w' :
  get_pending_snapshot id c w = (r, (c', w')) ->
  c' = c /\
  match r with
  | Ok snap => waits_at c (uuid_str id)
  | Err e => isinstance e Exception = true ->
      exn_class e = PendingApprovalNotFoundError \/ exn_class e = PendingApprovalConflictError
  end.
Proof.
  unfold get_pending_snapshot, mbind, M_bind. intros E.
  destruct (get_snapshot id c w) as [[snap|e] [c1 w1]] eqn:Eg;
    apply get_snapshot_run in Eg as [-> Hr].
  - destruct Hr as (wf & s & Hw & Hi & ->).
    destruct (bool_decide_reflect (st_approval_state (approval_status s) = awaiting)) as [Ha|Ha];
      cbn [negb] in E; injection E as <- <- <-; (split; [done|]).
    + apply status_awaiting in Ha. by exists wf, s.
    + by right.
  - injection E as <- <- <-. split; [done|]. intros He. by left; apply Hr.
Qed.

Lemma signal_step_instance {A} (wf wf' : step A) g s :
  wstep wf (ESignal g) wf' -> instance_of wf = Some s -> instance_of wf' = Some (handle g s).
Proof. intros Hs. inversion Hs; subst; simpl; intros [= ->]; reflexivity. Qed.

Lemma delivered_decides c c' id g :
  waits_at c id -> delivered workflow_at id g c c' -> decided_at c' id (payload g).
Proof.
  intros (wf & s & Hw & Hi & Ha) (wf1 & wf' & Hw1 & Hs & Hw' & _).
  rewrite Hw in Hw1. injection Hw1 as <-.
  exists wf', (handle g s). split; [exact Hw'|].
  split; [exact (signal_step_instance _ _ _ _ Hs Hi)|].
  destruct g; simpl; unfold approve, deny; rewrite bool_decide_eq_true_2 by exact Ha;
    split; [exact Ha|reflexivity|exact Ha|reflexivity].
Qed.

(** What a decision call comes to, for either signal. *)
Definition decision_effect (id : string) (g : signal) (c c' : C) {A} (r : result A) : Prop :=
  match r with
  | Ok _ => waits_at c id /\ delivered workflow_at id g c c'
  | Err e => workflow_at c' = workflow_at c \/ waits_at c id /\ delivered workflow_at id g c c'
  end.

Lemma decide_run id g (res : ApprovalDecisionResult) c w r c' w' :
  (get_pending_snapshot id ;; signal_workflow (uuid_str id) g ;; mret res) c w = (r, (c', w')) ->
  decision_effect (uuid_str id) g c c' r /\ (forall x, r = Ok x -> x = res).
Proof.
  intros E. unfold mbind, M_bind in E.
  destruct (get_pending_snapshot id c w) as [[snap|e] [c1 w1]] eqn:Eg;
    apply get_pending_snapshot_run in Eg as [-> Hg].
  - destruct (signal_workflow (uuid_str id) g c w1) as [[[]|e] [c2 w2]] eqn:Es;
      injection E as <- <- <-; (split; [|congruence]);
      destruct (signal_delivers _ _ _ _ _ _ _ Es) as [Hd|[[e' He] Hsame]]; simplify_eq.
    + split; [exact Hg|exact Hd].
    + right. auto.
    + left. exact Hsame.
  - injection E as <- <- <-. split; [by left|discriminate].
Qed.

(** The status of a waiting workflow. *)
Definition pending_status c (id : string) (snap : ApprovalStatusSnapshot) : Prop :=
  exists wf s, workflow_at c id = Some wf /\ instance_of wf = Some s /\
    snap = approval_status s /\ _approval_state s = PendingApprovalState.AWAITING_APPROVAL.

Lemma pending_snapshot_run e c w r c' w' :
  pending_snapshot e c w = (r, (c', w')) ->
  c' = c /\
  match r with
  | Ok (Some snap) => close_time e = None /\ pending_status c (execution_id e) snap
  | Ok None => True
  | Err x => isinstance x Exception = false
  end.
Proof.
  unfold pending_snapshot. destruct (close_time e); [by intros [= <- <- <-]|].
  unfold mbind, M_bind, try_except.
  destruct (query_approval_status (execution_id e) c w) as [[snap|x] [c1 w1]] eqn:Eq;
    pose proof (query_reads _ _ _ _ _ _ Eq) as ->; cbn [mret M_ret dispatch].
  - intros [= <- <- <-]. split; [done|]. case_bool_decide as Ha; [|done]. split; [done|].
    destruct (query_answers _ _ _ _ _ Eq) as (wf & s & Hw & Hi & ->).
    exists wf, s. split_and!; auto. by apply status_awaiting.
  - destruct (isinstance x Exception) eqn:Ei; intros [= <- <- <-]; auto.
Qed.

(** The queries of [c] get through. *)
Definition reachable c : Prop := forall id w wf s,
  workflow_at c id = Some wf -> instance_of wf = Some s ->
  exists w', query_approval_status id c w = (Ok (approval_status s), (c, w')).

Lemma pending_snapshot_found e c w snap :
  reachable c -> close_time e = None -> pending_status c (execution_id e) snap ->
  exists w', pending_snapshot e c w = (Ok (Some snap), (c, w')).
Proof.
  intros Hr Hc (wf & s & Hw & Hi & -> & Ha). destruct (Hr _ w _ _ Hw Hi) as [w' Eq].
  exists w'. unfold pending_snapshot. rewrite Hc. unfold mbind, M_bind, try_except. rewrite Eq.
  cbn [mret M_ret]. by rewrite bool_decide_eq_true_2 by (by apply status_awaiting).
Qed.

Lemma pending_snapshots_run l : forall c w snaps c' w',
  pending_snapshots l c w = (Ok snaps, (c', w')) ->
  c' = c /\
  Forall (fun snap => exists e, e ∈ l /\ close_time e = None /\
                        pending_status c (execution_id e) snap) snaps /\
  (reachable c -> forall e snap, e ∈ l -> close_time e = None ->
     pending_status c (execution_id e) snap -> snap ∈ snaps).
Proof.
  induction l as [|e l IH]; intros c w snaps c' w' E; cbn [pending_snapshots] in E.
  - injection E as <- <- <-. split; [done|]. split; [constructor|].
    intros _ e snap He. by apply not_elem_of_nil in He.
  - apply bind_ok in E as (o & c1 & w1 & Eo & E). apply bind_ok in E as (rest & c2 & w2 & El & E).
    injection E as <- <- <-. pose proof (pending_snapshot_run _ _ _ _ _ _ Eo) as [-> Ho].
    destruct (IH _ _ _ _ _ El) as (-> & Hs & Hc). split; [done|]. split.
    + apply Forall_app. split.
      * destruct o as [snap|]; simpl; constructor; [|constructor].
        exists e. split; [apply list_elem_of_here|exact Ho].
      * eapply Forall_impl; [exact Hs|]. intros snap (e' & He' & Hp). exists e'.
        split; [by apply list_elem_of_further|exact Hp].
    + intros Hr e' snap He' Hcl Hp. apply elem_of_app. apply elem_of_cons in He' as [->|He'].
      * left. destruct (pending_snapshot_found e c w snap Hr Hcl Hp) as [w' Ef].
        rewrite Ef in Eo. injection Eo as <- _. apply list_elem_of_here.
      * right. exact (Hc Hr e' snap He' Hcl Hp).
Qed.

(** The list of pending tasks is right: every snapshot returned is the status of
    an open listed workflow that waits for a decision, and, if the queries get
    through, every such workflow is in the list. *)
Theorem list_pending_exact limit c w snaps c' w' :
  list_pending_snapshots limit c w = (Ok snaps, (c', w')) ->
  exists l w1, list_workflows limit c w = (Ok l, (c, w1)) /\ c' = c /\
    Forall (fun snap => exists e, e ∈ l /\ close_time e = None /\
                          pending_status c (execution_id e) snap) snaps /\
    (reachable c -> forall e snap, e ∈ l -> close_time e = None ->
       pending_status c (execution_id e) snap -> snap ∈ snaps).
Proof.
  intros E. apply bind_ok in E as (l & c1 & w1 & El & E).
  pose proof (list_reads _ _ _ _ _ _ El) as ->.
  destruct (pending_snapshots_run l _ _ _ _ _ E) as (-> & Hs & Hc). eauto 8.
Qed.
End properties.

(** ** A client *)

(** A cluster is the workflows it runs, by id; every call reaches it. *)
Record Cluster : Type := mkCluster { cluster_workflows : gmap string (step WorkflowOutput) }.

Definition is_closed {A} (wf : step A) : bool := match wf with Done r _ => closes r | _ => false end.

(** The coroutine has not ended. *)
Definition is_running {A} (wf : step A) : bool := match wf with Done _ _ => false | _ => true end.

(** A running workflow handles a signal at once; others refuse it. *)
Definition deliver_signal {A} (g : signal) (wf : step A) : option (step A) :=
  match wf with
  | Activity a o s k => Some (Activity a o (handle g s) k)
  | Wait t s k => Some (Wait t (handle g s) k)
  | _ => None
  end.

Definition rpc_error : exn := Exn (OtherException "RPCError") "workflow not found" None.

#[global] Instance cluster_client : TemporalClient Cluster := {
  query_approval_status id := fun c w =>
    (match cluster_workflows c !! id ≫= instance_of with
     | Some s => Ok (approval_status s)
     | None => Err rpc_error
     end, (c, w));
  signal_workflow id g := fun c w =>
    match cluster_workflows c !! id ≫= deliver_signal g with
    | Some wf => (Ok tt, (mkCluster (<[id := wf]> (cluster_workflows c)), w))
    | None => (Err rpc_error, (c, w))
    end;
  list_workflows n := fun c w =>
    (Ok (take (Z.to_nat n) ((fun p => mkExecution p.1 (if is_closed p.2 then Some 0 else None))
                              <$> map_to_list (cluster_workflows c))), (c, w))
}.

#[global, refine] Instance cluster_laws : TemporalLaws Cluster := {
  workflow_at c id := cluster_workflows c !! id
}.
Proof.
  - intros c w r c' w' id E. by injection E as _ <- _.
  - intros c w snap sw id E. cbn in E. destruct (cluster_workflows c !! id) as [wf|]; [|discriminate].
    cbn in E. destruct (instance_of wf) as [s|] eqn:Hi; [|discriminate]. injection E as <- _. eauto.
  - intros c w r c' w' id g E. cbn in E.
    destruct (cluster_workflows c !! id) as [wf|] eqn:Hw; cbn in E;
      [|injection E as <- <- <-; right; eauto].
    destruct (deliver_signal g wf) as [wf'|] eqn:Hd;
      [|injection E as <- <- <-; right; eauto].
    injection E as <- <- <-. left. exists wf, wf'. split; [exact Hw|].
    split; [destruct wf; try discriminate Hd; injection Hd as <-; constructor|]. cbn.
    split; [apply lookup_insert_eq|]. intros id' Hne. by apply lookup_insert_ne.
  - intros c w r c' w' n E. by injection E as _ <- _.
Defined.

(** ** Two decisions *)

Lemma cluster_decide c w id g res wf s :
  cluster_workflows c !! uuid_str id = Some wf -> is_running wf = true ->
  instance_of wf = Some s -> _approval_state s = PendingApprovalState.AWAITING_APPROVAL ->
  exists wf', deliver_signal g wf = Some wf' /\
    (get_pending_snapshot id ;; signal_workflow (uuid_str id) g ;; mret (res : ApprovalDecisionResult))
      c w = (Ok res, (mkCluster (<[uuid_str id := wf']> (cluster_workflows c)), w)).
Proof.
  intros Hw Hc Hi Ha.
  assert (Hd : exists wf', deliver_signal g wf = Some wf') by (destruct wf; by eauto).
  destruct Hd as [wf' Hd]. exists wf'. split; [exact Hd|].
  unfold get_pending_snapshot, get_snapshot, try_except, mbind, M_bind. cbn.
  rewrite Hw. cbn. rewrite Hi. cbn [mret M_ret].
  rewrite bool_decide_eq_true_2 by (by apply status_awaiting). cbn. by rewrite Hw; cbn; rewrite Hd.
Qed.

(** Between an accepted decision and the moment the workflow acts on it, another one is
    accepted as well and replaces it: both callers are told that their decision
    counts. *)
Theorem later_decision_wins c w id wf s a1 r1 a2 r2 :
  cluster_workflows c !! uuid_str id = Some wf -> is_running wf = true ->
  instance_of wf = Some s -> _approval_state s = PendingApprovalState.AWAITING_APPROVAL ->
  exists c1 c2,
    service_approve id a1 r1 c w = (Ok (mkDecisionResult id "approved" a1 r1), (c1, w)) /\
    service_deny id a2 r2 c1 w = (Ok (mkDecisionResult id "denied" a2 r2), (c2, w)) /\
    decided_at c2 (uuid_str id) (mkDecision a2 r2 false).
Proof.
  intros Hw Hc Hi Ha. set (g1 := Approve (mkDecision a1 r1 true)).
  set (g2 := Deny (mkDecision a2 r2 false)).
  destruct (cluster_decide c w id g1 (mkDecisionResult id "approved" a1 r1) wf s Hw Hc Hi Ha)
    as (wf1 & Hd1 & E1).
  assert (H1 : instance_of wf1 = Some (handle g1 s) /\ is_running wf1 = true).
  { destruct wf; try discriminate Hd1; injection Hd1 as <-; injection Hi as ->; by split. }
  destruct H1 as [Hi1 Hc1].
  assert (Ha1 : _approval_state (handle g1 s) = PendingApprovalState.AWAITING_APPROVAL)
    by (cbn; unfold approve; by rewrite bool_decide_eq_true_2).
  set (c1 := mkCluster (<[uuid_str id := wf1]> (cluster_workflows c))) in *.
  assert (Hw1 : cluster_workflows c1 !! uuid_str id = Some wf1) by apply lookup_insert_eq.
  destruct (cluster_decide c1 w id g2 (mkDecisionResult id "denied" a2 r2) wf1 _ Hw1 Hc1 Hi1 Ha1)
    as (wf2 & Hd2 & E2).
  do 2 eexists. split; [exact E1|]. split; [exact E2|].
  exists wf2, (handle g2 (handle g1 s)). split; [apply lookup_insert_eq|].
  split; [destruct wf1; try discriminate Hd2; injection Hd2 as <-; by injection Hi1 as ->|].
  unfold handle at 1 3. unfold deny. rewrite bool_decide_eq_true_2 by exact Ha1.
  split; [exact Ha1|reflexivity].
Qed.
