(* ===== verification/Router.v ===== *)
(** * src/control_plane/router.py: the HTTP interface

    The handlers behind POST /tasks, /tasks/execute, /tasks/{id}/approve and
    /tasks/{id}/deny.  The module-level instances the application configures at
    start-up are the state; a handler returns its response model or raises
    [HTTPException], the answer FastAPI sends.  Request bodies arrive parsed by
    pydantic ([TaskRequest], [ExecuteRequest]) or raw (approve, deny). *)
From Stdlib Require Import ZArith Lia Ascii String.
From stdpp Require Import base gmap strings list pretty.
From S2P Require Import Prelude PyDecimal PyUuid World Config AuditLogger BudgetEnforcer LoopDetector.
From S2P Require Import PyCrypto ReplayStore Regex Guardrails SessionMgr PolicyEngine Adapters.
From S2P Require Import Orchestrator Workflow ApprovalService.

Inductive AgentType : Type := FINANCE | HR | IT | LEGAL | GENERAL.
Definition AgentType_value (a : AgentType) : string :=
  match a with
  | FINANCE => "finance" | HR => "hr" | IT => "it" | LEGAL => "legal" | GENERAL => "general"
  end.

Record TaskRequest : Type := mkTaskRequest {
  tr_task_id : UUID;
  tr_prompt : string;
  tr_description : string;
  tr_agent_type : AgentType;
  tr_requester_id : string;
  tr_model : string;
  tr_max_tokens : Z;
  tr_temperature : json;
  tr_system_prompt : string;
  tr_metadata : list (string * string);
  tr_protect_outbound_request : bool
}.

Record TaskResponse : Type := mkTaskResponse {
  ts_task_id : UUID;
  ts_agent_type : AgentType;
  ts_session_token : string;
  ts_message : string;
  ts_tokens_used : Z;
  ts_model : string;
  ts_pii_found : list string
}.

Record ExecuteRequest : Type := mkExecuteRequest {
  er_task_id : UUID;
  er_prompt : string;
  er_agent_type : AgentType;
  er_requester_id : string;
  er_session_token : option string;
  er_model : string;
  er_max_tokens : Z;
  er_temperature : json;
  er_system_prompt : string;
  er_metadata : list (string * string);
  er_protect_outbound_request : bool
}.

Record ApprovalDecisionRequest : Type := mkDecisionRequest {
  adr_approver_id : string;
  adr_reason : string
}.

Record ApprovalDecisionResponse : Type := mkDecisionResponse {
  adp_task_id : UUID;
  adp_status : string;
  adp_actor_id : string;
  adp_timestamp : datetime
}.

(** The instances injected at start-up. *)
Record Orchestrator_ (R : Type) : Type := mkOrchestrator {
  orc_policy : PolicyEngine;
  orc_adapter : BaseAdapter R;
  orc_state : OState R
}.
Arguments mkOrchestrator {R} _ _ _.
Arguments orc_policy {R} _.
Arguments orc_adapter {R} _.
Arguments orc_state {R} _.

Record HitlControls (R C : Type) : Type := mkHitl {
  _approval_service : C;
  _approval_policy_engine : PolicyEngine;
  _approval_session_mgr : SessionManager R
}.
Arguments mkHitl {R C} _ _ _.
Arguments _approval_service {R C} _.
Arguments _approval_policy_engine {R C} _.
Arguments _approval_session_mgr {R C} _.

Record RouterState (R C : Type) : Type := mkRouter {
  _orchestrator : option (Orchestrator_ R);
  _hitl : option (HitlControls R C)
}.
Arguments mkRouter {R C} _ _.
Arguments _orchestrator {R C} _.
Arguments _hitl {R C} _.

Definition http_error {S A} (status : Z) (detail : string) (cause : option exn) : M S A :=
  raise (Exn (HTTPException status (Detail detail)) "" cause).

Definition _error_response (status : Z) (code message : string) (task_id : UUID) (cause : exn)
    : exn :=
  Exn (HTTPException status (ErrorDetail code message (uuid_str task_id))) "" (Some cause).

(** [authorization.partition(" ")] *)
Fixpoint partition_space (s : string) : string * string :=
  match s with
  | EmptyString => (""%string, ""%string)
  | String a s =>
      if bool_decide (a = " "%char) then (""%string, s)
      else let '(x, y) := partition_space s in (String a x, y)
  end.

(** [list(dict.fromkeys(l))] *)
Fixpoint fromkeys (l : list string) : list string :=
  match l with
  | [] => []
  | x :: l => x :: filter (fun y => y <> x) (fromkeys l)
  end.

Section router.
Context `{Env} `{HasSettings} `{PyText} `{FloatRepr} `{Cryptography} `{Pydantic} `{Jose}.
Context `{UnicodeData} `{KeyGen}.
Context {R : Type} `{!ReplayStore R} {C : Type} `{TemporalClient C}.
Abbreviation RM := (M (RouterState R C)).

Definition configure_orchestrator (orc : Orchestrator_ R) : RM unit :=
  modify (fun s => mkRouter (Some orc) (_hitl s)).
Definition configure_hitl_controls (service : C) (policy : PolicyEngine) (mgr : SessionManager R)
    : RM unit :=
  modify (fun s => mkRouter (_orchestrator s) (Some (mkHitl service policy mgr))).

Definition _require_orchestrator : RM (Orchestrator_ R) :=
  o ← gets _orchestrator;
  of_option o RuntimeError ("Orchestrator has not been configured.  "
                            +:+ "Call configure_orchestrator() during app startup.").
Definition _require_hitl_controls : RM (HitlControls R C) :=
  o ← gets _hitl;
  of_option o RuntimeError ("HITL controls have not been configured. "
                            +:+ "Call configure_hitl_controls() during app startup.").

(** Calls on the configured instances. *)
Definition on_hitl {A} (m : M (HitlControls R C) A) : RM A :=
  h ← _require_hitl_controls;
  zoom (fun s => default h (_hitl s)) (fun h s => mkRouter (_orchestrator s) (Some h)) m.
Definition on_service {A} (m : M C A) : M (HitlControls R C) A :=
  zoom _approval_service
    (fun c h => mkHitl c (_approval_policy_engine h) (_approval_session_mgr h)) m.
Definition on_session_mgr {A} (m : M (SessionManager R) A) : M (HitlControls R C) A :=
  zoom _approval_session_mgr
    (fun t h => mkHitl (_approval_service h) (_approval_policy_engine h) t) m.
Definition orchestrate (r : OrchestratorRequest) : RM OrchestratorResult :=
  orc ← _require_orchestrator;
  zoom (fun s => orc_state (default orc (_orchestrator s)))
       (fun t s => mkRouter (Some (mkOrchestrator (orc_policy orc) (orc_adapter orc) t)) (_hitl s))
       (Orchestrator.run (orc_policy orc) (orc_adapter orc) r).

Definition _extract_bearer_token {S} (authorization : option string) : M S string :=
  match authorization with
  | None => http_error 401 "Missing Authorization header" None
  | Some a =>
      let '(scheme, token) := partition_space a in
      if negb (bool_decide (str_lower scheme = "bearer"%string)) || bool_decide (token = ""%string)
      then http_error 401 "Invalid Authorization header" None
      else mret token
  end.

(** [_logger.warning(event, task_id=str(task_id), action=action, ...)] *)
Definition warn_action {S} (event : string) (task_id : UUID) (action : string)
    (kw : list (string * json)) : M S unit :=
  warning event ([("task_id", JStr (uuid_str task_id)); ("action", JStr action)]%string ++ kw).

(** The [try] around the token. *)
Definition checked_claims (task_id : UUID) (action token : string)
    : M (HitlControls R C) TokenClaims :=
  try_except
    (claims ← on_session_mgr (validate_token token);
     on_session_mgr (ensure_action_allowed claims ("hitl:" +:+ action)) ;;
     mret claims)
    [(TokenExpiredError, fun exc =>
        warn_action "jit.expired" task_id action [] ;;
        http_error 401 "JIT token expired" (Some exc));
     (TokenRevokedError, fun exc =>
        warn_action "jit.revoked" task_id action [] ;;
        http_error 401 "JIT token revoked" (Some exc));
     (TokenActionError, fun exc =>
        warn_action "jit.action_denied" task_id action [] ;;
        http_error 403 (exn_str exc) (Some exc));
     (JWTError, fun exc =>
        warn_action "jit.invalid" task_id action [] ;;
        http_error 401 "Malformed or invalid JIT token" (Some exc))].

(** The token and the task belong to different sessions. *)
Definition cross_session (claims : TokenClaims) (snapshot : ApprovalStatusSnapshot) : bool :=
  match tc_session_id claims, st_session_id snapshot with
  | Some a, Some b => negb (bool_decide (a = b))
  | _, _ => false
  end.

Definition hitl_policy_input (claims : TokenClaims) (snapshot : ApprovalStatusSnapshot)
    (action : string) : PolicyInput :=
  mkPolicyInput (st_agent_type snapshot) (sub claims) action "workflow:pending_approval"
    (SessionMgr.metadata claims) (role claims) false.

(** The part of [_authorize_hitl_action] after the header has been read. *)
Definition authorize_token (policy_engine : PolicyEngine) (task_id : UUID) (action token : string)
    : M (HitlControls R C) (PolicyInput * string) :=
  claims ← checked_claims task_id action token;
  snapshot ← on_service (get_snapshot task_id);
  if cross_session claims snapshot then
    warn_action "audit.cross_session_attempt" task_id action
      [("token_session_id", jstr_opt (tc_session_id claims));
       ("workflow_session_id", jstr_opt (st_session_id snapshot))]%string ;;
    http_error 403 "Token session does not match task session" None
  else
    let policy_input := hitl_policy_input claims snapshot action in
    result ← evaluate policy_engine "agent_access" policy_input;
    if negb (allowed result) then
      warn_action "hitl.rbac_denied" task_id action
        [("role", JStr (default ""%string (role claims))); ("reasons", jstrs (reasons result))]%string ;;
      http_error 403 "OPA denied HITL action" None
    else mret (policy_input, sub claims).

Definition _authorize_hitl_action (task_id : UUID) (action : string)
    (authorization : option string) : RM (PolicyInput * string) :=
  controls ← _require_hitl_controls;
  token ← _extract_bearer_token authorization;
  on_hitl (authorize_token (_approval_policy_engine controls) task_id action token).

(** [ApprovalDecisionRequest.model_validate]: both fields are strings of at least
    one character, with a maximal length in characters. *)
Definition bounded_str (max : Z) (j : option json) : option string :=
  match j with
  | Some (JStr s) =>
      let n := Z.of_nat (length (points s)) in
      if (1 <=? n) && (n <=? max) then Some s else None
  | _ => None
  end.
Definition decision_request (raw : list (string * json)) : option ApprovalDecisionRequest :=
  match bounded_str 256 (assoc "approver_id" raw), bounded_str 4096 (assoc "reason" raw) with
  | Some a, Some r => Some (mkDecisionRequest a r)
  | _, _ => None
  end.

Definition _parse_approval_request {S} (raw : list (string * json)) (task_id : UUID)
    : M S ApprovalDecisionRequest :=
  match decision_request raw with
  | Some req => mret req
  | None =>
      let errors := validation_message "ApprovalDecisionRequest" raw in
      raise (_error_response 400 "invalid_request"
               ("Invalid approval request body: " +:+ errors) task_id
               (Exn ValidationError errors None))
  end.

(** The [except] clauses of a pipeline call. *)
Definition pipeline_errors {A} (event : string) (task_id : UUID)
    : list (exc_class * (exn -> RM A)) :=
  [(BudgetLimitError, fun exc => http_error 429 (exn_str exc) (Some exc));
   (PermissionError, fun exc => http_error 403 (exn_str exc) (Some exc));
   (ValueError, fun exc => http_error 400 (exn_str exc) (Some exc));
   (Exception, fun exc =>
      error event [("task_id", JStr (uuid_str task_id)); ("error", JStr (exn_str exc))]%string ;;
      http_error 500 "Internal pipeline error" (Some exc))].

Definition task_pipeline_request (r : TaskRequest) : OrchestratorRequest :=
  mkRequest (Some (tr_task_id r)) (tr_prompt r) (AgentType_value (tr_agent_type r))
    (tr_requester_id r) None (tr_model r) (tr_max_tokens r) (tr_temperature r)
    (tr_system_prompt r) (tr_metadata r) (tr_protect_outbound_request r) None
    DEFAULT_COST_PER_TOKEN None NO_PROGRESS None.

Definition request_fields (task_id : UUID) (a : AgentType) (requester : string)
    : list (string * json) :=
  [("task_id", JStr (uuid_str task_id)); ("agent_type", JStr (AgentType_value a));
   ("requester_id", JStr requester)]%string.

Definition route_task (r : TaskRequest) : RM TaskResponse :=
  _require_orchestrator ;;
  info "task.routing" (request_fields (tr_task_id r) (tr_agent_type r) (tr_requester_id r)) ;;
  result ← try_except (orchestrate (task_pipeline_request r))
             (pipeline_errors "task.error" (tr_task_id r));
  info "task.routed" [("task_id", JStr (uuid_str (tr_task_id r)));
                      ("agent_type", JStr (AgentType_value (tr_agent_type r)))]%string ;;
  mret (mkTaskResponse (res_task_id result) (tr_agent_type r) (res_session_token result)
          (content (response result)) (ls_tokens_used (response result))
          (ls_model (response result))
          (fromkeys (pii_found_in_prompt result ++ pii_found_in_response result))).

Definition execute_pipeline_request (r : ExecuteRequest) : OrchestratorRequest :=
  mkRequest (Some (er_task_id r)) (er_prompt r) (AgentType_value (er_agent_type r))
    (er_requester_id r) (er_session_token r) (er_model r) (er_max_tokens r) (er_temperature r)
    (er_system_prompt r) (er_metadata r) (er_protect_outbound_request r) None
    DEFAULT_COST_PER_TOKEN None NO_PROGRESS None.

Definition execute_task (r : ExecuteRequest) : RM OrchestratorResult :=
  _require_orchestrator ;;
  info "task.execute" (request_fields (er_task_id r) (er_agent_type r) (er_requester_id r)) ;;
  try_except (orchestrate (execute_pipeline_request r))
    (pipeline_errors "task.execute.error" (er_task_id r)).

Definition get_task_status (task_id : UUID) : RM (list (string * string)) :=
  mret [("task_id", uuid_str task_id); ("status", "pending")]%string.

(** The [except] clauses of a decision. *)
Definition decision_errors {A} (task_id : UUID) : list (exc_class * (exn -> RM A)) :=
  [(PendingApprovalConflictError, fun exc =>
      raise (_error_response 409 "pending_approval_conflict" (exn_str exc) task_id exc));
   (PendingApprovalNotFoundError, fun exc =>
      raise (_error_response 404 "pending_approval_not_found" (exn_str exc) task_id exc))].

(** [approve_task] and [deny_task] differ in the action and the service call. *)
Definition decide_task (action : string)
    (call : UUID -> string -> string -> M C ApprovalDecisionResult) (task_id : UUID)
    (raw : list (string * json)) (authorization : option string)
    : RM ApprovalDecisionResponse :=
  _require_hitl_controls ;;
  request ← _parse_approval_request raw task_id;
  result ← try_except
    (_authorize_hitl_action task_id action authorization ;;
     on_hitl (on_service (call task_id (adr_approver_id request) (adr_reason request))))
    (decision_errors task_id);
  now ← utc_now;
  mret (mkDecisionResponse task_id (dr_status result) (dr_actor_id result)
          (mkDatetime now (Some 0))).

Definition approve_task : UUID -> list (string * json) -> option string
    -> RM ApprovalDecisionResponse := decide_task "approve" service_approve.
Definition deny_task : UUID -> list (string * json) -> option string
    -> RM ApprovalDecisionResponse := decide_task "deny" service_deny.
End router.

(** ** Properties *)

Section theorems.
Context `{Env} `{HasSettings} `{PyText} `{FloatRepr} `{Cryptography} `{Pydantic} `{Jose}.
Context `{UnicodeData} `{KeyGen}.
Context {R : Type} `{!ReplayStore R} {C : Type} `{TemporalLaws C}.
Implicit Types (s : RouterState R C) (w : World).

(** *** Errors of the pipeline *)

(** The answer to a request whose pipeline raised [e]. *)
Definition pipeline_answer (e : exn) : exn :=
  let answer st d := Exn (HTTPException st (Detail d)) "" (Some e) in
  if isinstance e BudgetLimitError then answer 429 (exn_str e)
  else if isinstance e PermissionError then answer 403 (exn_str e)
  else if isinstance e ValueError then answer 400 (exn_str e)
  else if isinstance e Exception then answer 500 "Internal pipeline error"%string
  else e.

(** The watchdog's errors. *)
Definition watchdog_error (e : exn) : bool :=
  isinstance e BudgetLimitError || isinstance e LoopHaltError || isinstance e LoopVelocityError
  || isinstance e LoopApprovalError.

(** [e'] is an HTTP answer to [e]; the status and text are fixed except for the watchdog's
    errors. *)
Record answers (e e' : exn) : Prop := {
  answers_http : isinstance e Exception = true ->
    exists st d, e' = Exn (HTTPException st (Detail d)) "" (Some e);
  answers_refused : watchdog_error e = false -> isinstance e PermissionError = true ->
    e' = Exn (HTTPException 403 (Detail (exn_str e))) "" (Some e);
  answers_bad : watchdog_error e = false -> isinstance e ValueError = true ->
    e' = Exn (HTTPException 400 (Detail (exn_str e))) "" (Some e);
  answers_other : watchdog_error e = false -> isinstance e Exception = true ->
    isinstance e PermissionError = false -> isinstance e ValueError = false ->
    e' = Exn (HTTPException 500 (Detail "Internal pipeline error")) "" (Some e);
  answers_base : isinstance e Exception = false -> e' = e
}.

(** No class is below both [PermissionError] and [ValueError], and all below these or
    [BudgetLimitError] are below [Exception]. *)
Lemma answer_classes e :
  (isinstance e ValueError = true -> isinstance e PermissionError = false) /\
  (isinstance e Exception = false -> isinstance e BudgetLimitError = false /\
     isinstance e PermissionError = false /\ isinstance e ValueError = false).
Proof. destruct e as [[] m k]; vm_compute; auto; split; congruence. Qed.

Lemma pipeline_answers e : answers e (pipeline_answer e).
Proof.
  destruct (answer_classes e) as [Hv Hb]. unfold pipeline_answer.
  assert (Hw : watchdog_error e = false -> isinstance e BudgetLimitError = false)
    by (unfold watchdog_error; by destruct (isinstance e BudgetLimitError)).
  split.
  - intros Hx. rewrite Hx. repeat case_match; eauto.
  - intros Hn Hp. by rewrite (Hw Hn), Hp.
  - intros Hn Hp. by rewrite (Hw Hn), (Hv Hp), Hp.
  - intros Hn Hx Hp Hval. by rewrite (Hw Hn), Hp, Hval, Hx.
  - intros Hx. destruct (Hb Hx) as (-> & -> & ->). by rewrite Hx.
Qed.

Lemma bind_ret {S A} (m : M S A) (x : S) w : (m ≫= mret) x w = m x w.
Proof. unfold mbind, M_bind. by destruct (m x w) as [[a|e] [y w']]. Qed.

Lemma log_line_total {S} lv ev kw (s : S) w :
  exists w', log_line lv ev kw s w = (Ok tt, (s, w')).
Proof. destruct (log_line_run lv ev kw s w) as (w' & f & E & _). eauto. Qed.

Lemma pipeline_errors_run {A} event task (m : M (RouterState R C) A) s w e s' w' :
  m s w = (Err e, (s', w')) ->
  exists w'', try_except m (pipeline_errors event task) s w
              = (Err (pipeline_answer e), (s', w'')).
Proof.
  intros E. unfold try_except. rewrite E. unfold pipeline_answer.
  cbn [dispatch pipeline_errors].
  destruct (isinstance e BudgetLimitError); [unfold http_error, raise; eauto|].
  destruct (isinstance e PermissionError); [unfold http_error, raise; eauto|].
  destruct (isinstance e ValueError); [unfold http_error, raise; eauto|].
  destruct (isinstance e Exception); [|unfold raise; eauto].
  unfold error. edestruct (log_line_total (S := RouterState R C)) as [w1 El].
  rewrite (bind_run _ _ _ _ _ _ _ El). unfold http_error, raise. eauto.
Qed.

Lemma orchestrate_run orc r s w :
  _orchestrator s = Some orc ->
  orchestrate r s w
  = let '(o, (t, w')) := Orchestrator.run (orc_policy orc) (orc_adapter orc) r (orc_state orc) w in
    (o, (mkRouter (Some (mkOrchestrator (orc_policy orc) (orc_adapter orc) t)) (_hitl s), w')).
Proof.
  intros Ho. unfold orchestrate, _require_orchestrator. run_m. rewrite Ho. simpl. rewrite Ho. reflexivity.
Qed.

(** The router after the pipeline left the orchestrator in [t]. *)
Definition after_run (orc : Orchestrator_ R) (t : OState R) s : RouterState R C :=
  mkRouter (Some (mkOrchestrator (orc_policy orc) (orc_adapter orc) t)) (_hitl s).

Lemma handled_run {A} orc req event task (k : OrchestratorResult -> M (RouterState R C) A) s w :
  _orchestrator s = Some orc ->
  match Orchestrator.run (orc_policy orc) (orc_adapter orc) req (orc_state orc) w with
  | (Ok res, (t, w')) =>
      (try_except (orchestrate req) (pipeline_errors event task) ≫= k) s w
      = k res (after_run orc t s) w'
  | (Err e, (t, w')) => exists w1,
      (try_except (orchestrate req) (pipeline_errors event task) ≫= k) s w
      = (Err (pipeline_answer e), (after_run orc t s, w1))
  end.
Proof.
  intros Ho. pose proof (orchestrate_run orc req s w Ho) as Er.
  destruct (Orchestrator.run _ _ _ _ _) as [[res|e] [t w']].
  - apply bind_run. unfold try_except. rewrite Er. reflexivity.
  - destruct (pipeline_errors_run event task _ _ _ _ _ _ Er) as [w1 E1].
    exists w1. exact (bind_run_err _ _ _ _ _ _ _ E1).
Qed.

Lemma logged_run {A} lv ev kw (m : M (RouterState R C) A) orc s w :
  _orchestrator s = Some orc ->
  exists w0, log_only w w0 /\
    (_require_orchestrator ;; log_line lv ev kw ;; m) s w = m s w0.
Proof.
  intros Ho. destruct (log_line_run lv ev kw s w) as (w0 & f & El & _ & Hl & _).
  exists w0. split; [exact Hl|].
  rewrite (bind_run _ _ _ _ orc s w) by (unfold _require_orchestrator; run_m; by rewrite Ho).
  by rewrite (bind_run _ _ _ _ _ _ _ El).
Qed.

Definition task_response (r : TaskRequest) (res : OrchestratorResult) : TaskResponse :=
  mkTaskResponse (res_task_id res) (tr_agent_type r) (res_session_token res)
    (content (response res)) (ls_tokens_used (response res)) (ls_model (response res))
    (fromkeys (pii_found_in_prompt res ++ pii_found_in_response res)).


(** *** Human decisions *)

(** The caller may take [action] on the task. *)
Definition authorized (h : HitlControls R C) (task_id : UUID) (action : string)
    (authorization : option string) w : Prop :=
  exists a scheme token claims sm w1 wf i,
    authorization = Some a /\ partition_space a = (scheme, token) /\
    str_lower scheme = "bearer"%string /\
    validate_token token (_approval_session_mgr h) w = (Ok claims, (sm, w1)) /\
    ("hitl:" +:+ action)%string ∈ allowed_actions claims /\
    workflow_at (_approval_service h) (uuid_str task_id) = Some wf /\ instance_of wf = Some i /\
    (forall x y, tc_session_id claims = Some x -> _session_id i = Some y -> x = y) /\
    exists w2 resp body,
      opa_answer (_approval_policy_engine h) "agent_access"
        (hitl_policy_input claims (approval_status i) action) w2 = Ok resp /\
      hs_json resp = Ok body /\ grants body.

(** [h] with another state of its session manager. *)
Definition with_mgr (h : HitlControls R C) (sm : SessionManager R) : HitlControls R C :=
  mkHitl (_approval_service h) (_approval_policy_engine h) sm.

Lemma http_after_log {A} ev id action kw st d x (h : HitlControls R C) w :
  exists w', (warn_action ev id action kw ;; http_error st d x : M _ A) h w
    = (Err (Exn (HTTPException st (Detail d)) "" x), (h, w')).
Proof.
  unfold warn_action, warning. edestruct (log_line_total (S := HitlControls R C)) as [w1 El].
  rewrite (bind_run _ _ _ _ _ _ _ El). unfold http_error, raise. eauto.
Qed.

Lemma checked_claims_run id action token h w r h' w' :
  checked_claims (C := C) id action token h w = (r, (h', w')) ->
  (exists sm, h' = with_mgr h sm) /\
  (forall claims, r = Ok claims ->
     (exists sm w1, validate_token token (_approval_session_mgr h) w = (Ok claims, (sm, w1))) /\
     ("hitl:" +:+ action)%string ∈ allowed_actions claims).
Proof.
  unfold checked_claims, try_except. intros E.
  match type of E with (let (_, _) := ?m h w in _) = _ =>
    assert (Hb : exists sm w1 o, m h w = (o, (with_mgr h sm, w1)) /\
      (forall claims, o = Ok claims ->
        (exists sm w1, validate_token token (_approval_session_mgr h) w = (Ok claims, (sm, w1))) /\
        ("hitl:" +:+ action)%string ∈ allowed_actions claims)) end.
  { unfold on_session_mgr, zoom, mbind, M_bind.
    destruct (validate_token token (_approval_session_mgr h) w) as [[claims|e] [sm w1]] eqn:Ev.
    - unfold ensure_action_allowed. simpl. case_bool_decide as Ha; simpl.
      + exists sm, w1, (Ok claims). split; [reflexivity|]. intros ? [= <-]. eauto.
      + exists sm, w1. eexists. split; [reflexivity|discriminate].
    - exists sm, w1. eexists. split; [reflexivity|discriminate]. }
  destruct Hb as (sm & w1 & o & Em & Ho). rewrite Em in E. destruct o as [claims|e].
  - injection E as <- <- <-. eauto.
  - assert (Herr : exists e', r = Err e' /\ h' = with_mgr h sm).
    { cbn [dispatch] in E.
      repeat match type of E with
      | (if ?b then _ else _) _ _ = _ => destruct b
      end;
      try (match type of E with (warn_action ?ev ?a ?b ?kw ;; http_error ?st ?d ?x) ?y ?z = _ =>
             destruct (http_after_log (A := TokenClaims) ev a b kw st d x y z) as [w2 E2] end;
           rewrite E2 in E; injection E as <- <- <-; eauto).
      injection E as <- <- <-. eauto. }
    destruct Herr as (e' & -> & ->). split; [eauto|discriminate].
Qed.

Lemma on_hitl_run {A} (m : M (HitlControls R C) A) s w h :
  _hitl s = Some h ->
  on_hitl m s w = let '(r, (h', w')) := m h w in (r, (mkRouter (_orchestrator s) (Some h'), w')).
Proof.
  intros Hh. unfold on_hitl, _require_hitl_controls. run_m. rewrite Hh. simpl. rewrite Hh.
  reflexivity.
Qed.

Lemma require_hitl_run s w h :
  _hitl s = Some h -> _require_hitl_controls s w = (Ok h, (s, w)).
Proof. intros Hh. unfold _require_hitl_controls. run_m. by rewrite Hh. Qed.

Lemma bearer_run {S} auth (x : S) w r sw :
  _extract_bearer_token auth x w = (r, sw) ->
  sw = (x, w) /\
  (forall token, r = Ok token -> exists a scheme, auth = Some a /\
     partition_space a = (scheme, token) /\ str_lower scheme = "bearer"%string).
Proof.
  unfold _extract_bearer_token. destruct auth as [a|]; [|intros [= <- <-]; by split].
  destruct (partition_space a) as [scheme token] eqn:Ep.
  destruct (bool_decide_reflect (str_lower scheme = "bearer"%string)) as [Hb|Hb]; cbn [negb orb];
    [case_bool_decide as Ht|]; intros [= <- <-]; (split; [reflexivity|]); try discriminate.
  intros ? [= <-]. eauto.
Qed.

Lemma authorize_token_run id action token h w r h' w' :
  authorize_token (C := C) (_approval_policy_engine h) id action token h w = (r, (h', w')) ->
  (exists sm, h' = with_mgr h sm) /\
  (forall x, r = Ok x -> forall a scheme, partition_space a = (scheme, token) ->
     str_lower scheme = "bearer"%string -> authorized h id action (Some a) w).
Proof.
  unfold authorize_token. intros E.
  destruct (checked_claims id action token h w) as [[claims|e] [h1 w1]] eqn:Ec;
    [rewrite (bind_run _ _ _ _ _ _ _ Ec) in E|rewrite (bind_run_err _ _ _ _ _ _ _ Ec) in E];
    apply checked_claims_run in Ec as [[sm1 ->] Hc];
    [|injection E as <- <- <-; split; [eauto|discriminate]].
  destruct (Hc claims eq_refl) as [(sm & w0 & Hv) Hact]. clear Hc.
  assert (Es : exists o w2, on_service (get_snapshot id) (with_mgr h sm1) w1
                 = (o, (with_mgr h sm1, w2)) /\
    match o with
    | Ok snap => exists wf i, workflow_at (_approval_service h) (uuid_str id) = Some wf /\
                   instance_of wf = Some i /\ snap = approval_status i
    | Err _ => True
    end).
  { unfold on_service, zoom. cbn [_approval_service with_mgr].
    destruct (get_snapshot id (_approval_service h) w1) as [o [c2 w2]] eqn:Eg.
    apply get_snapshot_run in Eg as [-> Hg]. exists o, w2. split; [reflexivity|]. by destruct o. }
  destruct Es as (o & w2 & Eo & Ho). destruct o as [snap|e];
    [rewrite (bind_run _ _ _ _ _ _ _ Eo) in E|rewrite (bind_run_err _ _ _ _ _ _ _ Eo) in E;
     injection E as <- <- <-; split; [eauto|discriminate]].
  destruct Ho as (wf & i & Hw & Hi & ->).
  destruct (cross_session claims (approval_status i)) eqn:Hx.
  { edestruct (http_after_log (A := PolicyInput * string)) as [w3 E3]. rewrite E3 in E.
    injection E as <- <- <-. split; [eauto|discriminate]. }
  pose proof (evaluate_run (_approval_policy_engine h) "agent_access"
    (hitl_policy_input claims (approval_status i) action) (with_mgr h sm1) w2) as He.
  cbv zeta in E.
  destruct (evaluate _ _ _ (with_mgr h sm1) w2) as [[d|e] [h3 w3]] eqn:Ee;
    [rewrite (bind_run _ _ _ _ _ _ _ Ee) in E|rewrite (bind_run_err _ _ _ _ _ _ _ Ee) in E;
     subst h3; injection E as <- <- <-; split; [eauto|discriminate]].
  destruct He as (-> & _ & resp & body & Hopa & Hbody & Hgrant).
  destruct (allowed d) eqn:Ha; cbn [negb] in E.
  - injection E as <- <- <-. split; [eauto|]. intros _ _ a scheme Hp Hl.
    exists a, scheme, token, claims, sm, w0, wf, i. split_and!; auto.
    + intros x y Hx1 Hy1. unfold cross_session in Hx. simpl in Hx. rewrite Hx1, Hy1 in Hx.
      by destruct (bool_decide_reflect (x = y)).
    + exists w2, resp, body. split_and!; auto. by apply Hgrant.
  - edestruct (http_after_log (A := PolicyInput * string)) as [w4 E4]. rewrite E4 in E.
    injection E as <- <- <-. split; [eauto|discriminate].
Qed.

Lemma authorize_run id action auth s w h r s' w' :
  _hitl s = Some h -> _authorize_hitl_action id action auth s w = (r, (s', w')) ->
  (exists sm, s' = mkRouter (_orchestrator s) (Some (with_mgr h sm))) /\
  (forall x, r = Ok x -> authorized h id action auth w).
Proof.
  intros Hh E. unfold _authorize_hitl_action in E.
  rewrite (bind_run _ _ _ _ _ _ _ (require_hitl_run s w h Hh)) in E.
  assert (Hs : s = mkRouter (_orchestrator s) (Some (with_mgr h (_approval_session_mgr h))))
    by (destruct s as [o hh], h; simpl in *; by rewrite Hh).
  unfold mbind at 1, M_bind at 1 in E.
  destruct (_extract_bearer_token auth s w) as [[token|e] [s1 w1]] eqn:Eb;
    apply bearer_run in Eb as [[= -> ->] Hb]; cbn beta iota in E;
    [|injection E as <- <- <-; split; [eauto|discriminate]].
  destruct (Hb token eq_refl) as (a & scheme & -> & Hp & Hl). clear Hb.
  rewrite (on_hitl_run _ _ _ _ Hh) in E.
  destruct (authorize_token _ _ _ _ h w) as [o [h' w2]] eqn:Ea. injection E as <- <- <-.
  apply authorize_token_run in Ea as [[sm ->] Ho]. split; [eauto|].
  intros x ->. exact (Ho x eq_refl a scheme Hp Hl).
Qed.

(** What a call of [approve_task] or [deny_task] that signals [g] comes to. *)
Definition decision_outcome (task_id : UUID) (action : string)
    (mk : ApprovalDecisionRequest -> signal) (raw : list (string * json))
    (authorization : option string) (h : HitlControls R C) s s' w
    (r : result ApprovalDecisionResponse) : Prop :=
  _orchestrator s' = _orchestrator s /\
  exists h', _hitl s' = Some h' /\
  ((workflow_at (_approval_service h') = workflow_at (_approval_service h) /\ exists e, r = Err e)
   \/ exists req, decision_request raw = Some req /\ authorized h task_id action authorization w /\
       waits_at (_approval_service h) (uuid_str task_id) /\
       delivered workflow_at (uuid_str task_id) (mk req)
         (_approval_service h) (_approval_service h')).

Lemma authorized_call_run {A} id action auth g (m : M C A) h s w o s1 w1 :
  _hitl s = Some h ->
  (forall c w r c' w', m c w = (r, (c', w')) -> decision_effect (uuid_str id) g c c' r) ->
  (_authorize_hitl_action id action auth ;; on_hitl (on_service m)) s w = (o, (s1, w1)) ->
  _orchestrator s1 = _orchestrator s /\ exists h1, _hitl s1 = Some h1 /\
  ((workflow_at (_approval_service h1) = workflow_at (_approval_service h) /\ exists e, o = Err e)
   \/ authorized h id action auth w /\ waits_at (_approval_service h) (uuid_str id) /\
       delivered workflow_at (uuid_str id) g (_approval_service h) (_approval_service h1)).
Proof.
  intros Hh Hm E.
  destruct (_authorize_hitl_action id action auth s w) as [[x|e] [s2 w2]] eqn:Ea;
    [rewrite (bind_run _ _ _ _ _ _ _ Ea) in E|rewrite (bind_run_err _ _ _ _ _ _ _ Ea) in E];
    apply (authorize_run _ _ _ _ _ h) in Ea as [[sm ->] Hauth]; try exact Hh.
  2: { injection E as <- <- <-. split; [done|]. eexists. split; [reflexivity|]. left. eauto. }
  specialize (Hauth x eq_refl).
  rewrite (on_hitl_run _ _ _ (with_mgr h sm)) in E by reflexivity. unfold on_service, zoom in E.
  cbn [_approval_service with_mgr _orchestrator] in E.
  destruct (m (_approval_service h) w2) as [q [c' w3]] eqn:Em. injection E as <- <- <-.
  split; [done|]. eexists. split; [reflexivity|]. cbn [_approval_service].
  pose proof (Hm _ _ _ _ _ Em) as Hd. destruct q as [y|e]; cbn in Hd.
  - destruct Hd. auto.
  - destruct Hd as [Hd|[Hd1 Hd2]]; [left; eauto|auto].
Qed.

Lemma decide_task_run id action call mk raw auth h s w r s' w' :
  _hitl s = Some h ->
  (forall req c w r c' w',
     call id (adr_approver_id req) (adr_reason req) c w = (r, (c', w')) ->
     decision_effect (uuid_str id) (mk req) c c' r) ->
  decide_task action call id raw auth s w = (r, (s', w')) ->
  decision_outcome id action mk raw auth h s s' w r.
Proof.
  intros Hh Hcall E. unfold decide_task in E.
  rewrite (bind_run _ _ _ _ _ _ _ (require_hitl_run s w h Hh)) in E.
  unfold _parse_approval_request in E. destruct (decision_request raw) as [req|] eqn:Er.
  2: { erewrite bind_run_err in E by reflexivity. injection E as <- <- <-.
       split; [done|]. exists h. split; [exact Hh|]. left. eauto. }
  rewrite (bind_run _ _ _ _ req s w eq_refl) in E.
  set (m := _ ;; _ : M (RouterState R C) ApprovalDecisionResult) in E.
  destruct (m s w) as [o [s1 w1]] eqn:Em.
  destruct (authorized_call_run id action auth (mk req) _ h s w o s1 w1 Hh (Hcall req) Em)
    as (Horc & h1 & Hh1 & Hout).
  assert (Ht : exists w2 q, try_except m (decision_errors id) s w = (q, (s1, w2)) /\
            ((exists x, q = Ok x /\ o = Ok x) \/ exists e e', q = Err e /\ o = Err e')).
  { unfold try_except. rewrite Em. destruct o as [x|e]; [eauto 8|].
    cbn [dispatch decision_errors].
    destruct (isinstance e PendingApprovalConflictError); [unfold raise; eauto 8|].
    destruct (isinstance e PendingApprovalNotFoundError); unfold raise; eauto 8. }
  destruct Ht as (w2 & q & Et & Hq). clearbody m.
  assert (Hs : s' = s1 /\ ((exists e e', r = Err e /\ o = Err e') \/ exists x, o = Ok x)).
  { destruct Hq as [(x & -> & ->)|(e & e' & -> & ->)].
    - rewrite (bind_run _ _ _ _ _ _ _ Et) in E. injection E as <- <- <-. eauto.
    - rewrite (bind_run_err _ _ _ _ _ _ _ Et) in E. injection E as <- <- <-. split; [done|]. eauto. }
  destruct Hs as [-> Hr]. split; [exact Horc|]. exists h1. split; [exact Hh1|].
  destruct Hout as [[Hsame [e ->]]|Hgo]; [left|right; eauto].
  split; [exact Hsame|]. destruct Hr as [(e1 & e2 & -> & _)|[x Hx]]; [eauto|discriminate Hx].
Qed.

(** C12. Only authorised people decide.  Whatever a call of POST /tasks/{id}/approve or
    /deny does and however it ends, either it raised and no workflow has changed, or:
    the bearer token validated with the HITL session manager, its claims allow
    "hitl:approve" (or "hitl:deny"), its session is the task's if both have one, OPA
    granted the action to the token's subject and role, the workflow of this task was
    waiting for a decision, and the one signal delivered is this decision, to this
    workflow only. *)
Theorem decision_authorized id raw auth h s w r s' w' :
  _hitl s = Some h ->
  (approve_task id raw auth s w = (r, (s', w')) ->
   decision_outcome id "approve"
     (fun q => Approve (mkDecision (adr_approver_id q) (adr_reason q) true)) raw auth h s s' w r) /\
  (deny_task id raw auth s w = (r, (s', w')) ->
   decision_outcome id "deny"
     (fun q => Deny (mkDecision (adr_approver_id q) (adr_reason q) false)) raw auth h s s' w r).
Proof.
  intros Hh. split; intros E; eapply (decide_task_run _ _ _ _ _ _ _ _ _ _ _ _ Hh); try exact E;
    intros req c w0 r0 c' w1 Ed; exact (proj1 (decide_run _ _ _ _ _ _ _ _ Ed)).
Qed.
End theorems.
