(* ===== verification/DeployedPolicy.v ===== *)
(** * The control plane in front of its own policy

    The components that ask OPA (the orchestrator, the workflow's PolicyEval activity
    and the approval endpoints), with an OPA server that has loaded
    policies/agent_access.rego ([ServesPolicy]): what the theorems of Orchestrator.v,
    System.v and Router.v, which hold for every server, come to in the deployment. *)
From Stdlib Require Import ZArith Lia Ascii String.
From stdpp Require Import base gmap strings list pretty.
From S2P Require Import Prelude PyDecimal PyUuid World Config AuditLogger BudgetEnforcer LoopDetector.
From S2P Require Import PyCrypto ReplayStore Regex Guardrails SessionMgr PolicyEngine AccessPolicy.
From S2P Require Import Adapters Orchestrator Determined Workflow WorkflowSafety Activities System.
From S2P Require Import ApprovalService Router.

(** ** Model calls *)

(** Computations that agree step by step. *)
Section agree.
Context {S : Type}.
Lemma bind_ext {A B} (m : M S A) (k k' : A -> M S B) s w :
  (forall a s w, k' a s w = k a s w) -> (m ≫= k') s w = (m ≫= k) s w.
Proof. intros Hk. unfold mbind, M_bind. destruct (m s w) as [[a|e] [s1 w1]]; [apply Hk|done]. Qed.
Lemma bind_ext_head {A B} (m m' : M S A) (k : A -> M S B) s w :
  m' s w = m s w -> (m' ≫= k) s w = (m ≫= k) s w.
Proof. intros Hm. unfold mbind, M_bind. by rewrite Hm. Qed.
Lemma with_span_ext {A} n (m m' : M S A) s w :
  (forall s w, m' s w = m s w) -> with_span n m' s w = with_span n m s w.
Proof. intros Hm. unfold with_span. by rewrite Hm. Qed.
Lemma try_ext {A} (m m' : M S A) hs s w :
  m' s w = m s w -> try_except m' hs s w = try_except m hs s w.
Proof. intros Hm. unfold try_except. by rewrite Hm. Qed.
Lemma zoom_ext {T A} (view : S -> T) update (m m' : M T A) s w :
  m' (view s) w = m (view s) w -> zoom view update m' s w = zoom view update m s w.
Proof. intros Hm. unfold zoom. by rewrite Hm. Qed.
End agree.

(** A prompt is masked once, and once more for a sensitive agent type. *)
Definition deployed_prompt `{UnicodeData} (agent p : string) : string :=
  mask_times (if bool_decide (agent ∈ AgentAccess.sensitive_agent_types) then 2 else 1) p.

Section model_calls.
Context `{Env} `{HasSettings} `{PyText} `{FloatRepr} `{Cryptography} `{Pydantic} `{Jose}.
Context `{UnicodeData} `{KeyGen}.
Context {R : Type} `{!ReplayStore R}.
Context (policy : PolicyEngine) `{!ServesPolicy policy} (adapter : BaseAdapter R).

(** The decision on a model call that is not a rejection. *)
Lemma model_call_decision agent who model md :
  let i := mkPolicyInput agent who "llm.complete" ("model:" +:+ model) md None false in
  access_action i <> "reject"%string ->
  agent ∈ AgentAccess.registered_agent_types /\
  access_action i = (if bool_decide (agent ∈ AgentAccess.sensitive_agent_types)
                     then "mask" else "allow")%string /\
  access_fields i = (if bool_decide (agent ∈ AgentAccess.sensitive_agent_types)
                     then ["prompt"%string] else []).
Proof.
  intros i Hr. unfold access_fields. unfold access_action in *. unfold sensitive.
  destruct (bool_decide_reflect (permitted i)) as [Hp|]; [|done].
  split; [by apply model_call_permitted in Hp|]. cbn [pi_agent_type i].
  by destruct (bool_decide (agent ∈ _)).
Qed.

Lemma deployed_cleared r s w p pii token proof :
  Orchestrator.cleared (R := R) policy r s w p pii token proof ->
  or_agent_type r ∈ AgentAccess.registered_agent_types /\
  p = deployed_prompt (or_agent_type r) (prompt r).
Proof.
  intros (_ & (pr & resp & body & Hev & _ & _ & _ & Ha & Hp) & _).
  rewrite evaluate_served in Hev by exact _. injection Hev as <-.
  apply model_call_decision in Ha as (Hreg & Hact & Hf). split; [exact Hreg|].
  apply (f_equal fst) in Hp. cbn [fst] in Hp. rewrite Hp.
  unfold prompt_after_mask, deployed_prompt. cbn [action fields access_decision].
  unfold policy_input. rewrite Hact, Hf. by destruct (bool_decide _).
Qed.

(** Whatever comes of the request, the adapter sees this prompt or nothing. *)
Lemma deployed_run r s w :
  (forall a', same_face adapter a' ->
     Orchestrator.run policy a' r s w = Orchestrator.run policy adapter r s w) \/
  or_agent_type r ∈ AgentAccess.registered_agent_types /\
  exists tok proof sh w1,
    consults_once policy adapter r s w
      (Orchestrator.llm_request r (deployed_prompt (or_agent_type r) (prompt r)) (llm_metadata tok proof)) sh w1 /\
    forall res s' w', Orchestrator.run policy adapter r s w = (Ok res, (s', w')) ->
      sanitized_prompt res = deployed_prompt (or_agent_type r) (prompt r).
Proof.
  destruct (run_adapter policy adapter r s w)
    as [[Hn _]|(p & pii & token & tok & proof & sh & w1 & Hc & Honce & Hres)]; [by left|right].
  apply deployed_cleared in Hc as [Hreg ->]. split; [exact Hreg|].
  exists tok, proof, sh, w1. split; [exact Honce|]. intros res s' w' E. by apply (Hres _ _ _ E).
Qed.

(** An attempt consults the adapter only with the prompt of its input. *)
Lemma attempt_consults info li (a a' : BaseAdapter R) s w :
  same_face a a' ->
  (forall q, lr_prompt q = li_sanitized_prompt li -> forall sh w1, complete a' q sh w1 = complete a q sh w1) ->
  llm_invoke a' info li s w = llm_invoke a info li s w.
Proof.
  intros [Hn Hb] Hc. unfold llm_invoke, bind_invocation, activity_span. rewrite Hn, Hb.
  apply bind_ext. intros task s1 w1. apply with_span_ext. intros s2 w2.
  apply bind_ext. intros _ s3 w3. apply try_ext.
  apply bind_ext. intros token s4 w4. apply bind_ext. intros [t p] s5 w5.
  apply bind_ext_head. apply zoom_ext. apply Hc. reflexivity.
Qed.

Lemma deployed_attempt inp p h :
  prompt_governed policy adapter inp h p ->
  wi_agent_type inp ∈ AgentAccess.registered_agent_types /\
  p = deployed_prompt (wi_agent_type inp) (wi_prompt inp).
Proof.
  intros [_ _ (w1 & resp & body & Ho & Hb & Hg) (d & (s & w & sw & Hev) & ->) _ _].
  rewrite evaluate_served in Hev by exact _. injection Hev as <- _.
  assert (Hp : permitted (eval_policy_input (policy_eval_input inp
    (mkScrub (mr_text (mask_pii (wi_prompt inp))) (found_types (mask_pii (wi_prompt inp)))))))
    by exact (granted_permitted policy _ _ _ _ Ho Hb Hg).
  match type of Hp with permitted ?i =>
    assert (Ha : access_action i <> "reject"%string)
      by (unfold access_action; rewrite bool_decide_eq_true_2 by exact Hp; by destruct (sensitive i)) end.
  apply model_call_decision in Ha as (Hreg & Hact & Hf). split; [exact Hreg|].
  unfold instructed, deployed_prompt. cbn [action fields access_decision].
  unfold eval_policy_input. rewrite Hact, Hf. cbn [pv_agent_type policy_eval_input].
  by destruct (bool_decide _).
Qed.

(** C3. Which prompts reach the model's adapter.  With the repository's policy loaded:
    (1) a request to the orchestrator, whatever comes of it, either never consults the
    adapter, or is for an agent type of the permission table and consults the adapter
    once, with the masked prompt, masked once, and a second time for finance, hr and
    legal, as the policy's "mask" instruction demands, and with nothing else (another
    adapter that answers this one call alike gives the same run); a result reports that
    prompt.  (2) Every attempt of a durable task at calling the model is for an agent
    type of the table and carries the prompt masked in this way, and the attempt hands
    the adapter no other prompt. *)
Theorem deployed_governance :
  (forall r s w,
     (forall a', same_face adapter a' ->
        Orchestrator.run policy a' r s w = Orchestrator.run policy adapter r s w) \/
     or_agent_type r ∈ AgentAccess.registered_agent_types /\
     exists tok proof sh w1,
       consults_once policy adapter r s w
         (Orchestrator.llm_request r (deployed_prompt (or_agent_type r) (prompt r)) (llm_metadata tok proof))
         sh w1 /\
       forall res s' w', Orchestrator.run policy adapter r s w = (Ok res, (s', w')) ->
         sanitized_prompt res = deployed_prompt (or_agent_type r) (prompt r)) /\
  (forall inp s w t c, sexecs policy adapter (submitted inp s w) t c ->
     Forall (fun li => wi_agent_type inp ∈ AgentAccess.registered_agent_types /\
       li_sanitized_prompt li = deployed_prompt (wi_agent_type inp) (wi_prompt inp))
       (llm_attempts t)) /\
  (forall info li a' s w, same_face adapter a' ->
     (forall q, lr_prompt q = li_sanitized_prompt li ->
        forall sh w1, complete a' q sh w1 = complete adapter q sh w1) ->
     llm_invoke a' info li s w = llm_invoke adapter info li s w).
Proof.
  split; [exact deployed_run|]. split; [|intros info li a' s w; apply attempt_consults].
  intros inp s w t c He.
  eapply Forall_impl; [exact (attempts_governed policy adapter inp s w t c He)|].
  intros li Hg. exact (deployed_attempt inp _ _ Hg).
Qed.
End model_calls.

(** ** Human decisions *)

Section decisions.
Context `{Env} `{HasSettings} `{PyText} `{FloatRepr} `{Cryptography} `{Pydantic} `{Jose}.
Context `{UnicodeData} `{KeyGen}.
Context {R : Type} `{!ReplayStore R} {C : Type} `{TemporalLaws C}.
Implicit Types (h : HitlControls R C) (s : RouterState R C) (w : World).

(** The header carries a valid token of an administrator that allows [action]. *)
Definition admin_token h (action : string) (authorization : option string) w : Prop :=
  exists a scheme token claims sm w1,
    authorization = Some a /\ partition_space a = (scheme, token) /\
    str_lower scheme = "bearer"%string /\
    validate_token token (_approval_session_mgr h) w = (Ok claims, (sm, w1)) /\
    role claims = Some "admin"%string /\ ("hitl:" +:+ action)%string ∈ allowed_actions claims.

Lemma authorized_admin h `{!ServesPolicy (_approval_policy_engine h)} id action auth w :
  action ∈ ["approve"; "deny"]%string -> authorized h id action auth w ->
  admin_token h action auth w.
Proof.
  intros Hact (a & scheme & token & claims & sm & w1 & wf & i & Ha & Hp & Hl & Hv & Hal & _ & _ & _
               & w2 & resp & body & Ho & Hb & Hg).
  exists a, scheme, token, claims, sm, w1. split_and!; try done.
  exact (decision_by_admin _ (granted_permitted _ _ _ _ _ Ho Hb Hg) eq_refl Hact).
Qed.

(** POST /tasks/{id}/approve or /deny. *)
Definition decide_endpoint (approve : bool) : UUID -> list (string * json) -> option string
    -> M (RouterState R C) ApprovalDecisionResponse :=
  if approve then approve_task else deny_task.
Definition decision_action (approve : bool) : string := if approve then "approve" else "deny".
Definition decision_signal (approve : bool) (q : ApprovalDecisionRequest) : signal :=
  let d := mkDecision (adr_approver_id q) (adr_reason q) approve in
  if approve then Approve d else Deny d.
Definition decision_status (approve : bool) : string :=
  PendingApprovalState.value
    (if approve then PendingApprovalState.APPROVED else PendingApprovalState.DENIED).

Lemma decide_endpoint_run approve id raw auth h s w r s' w' :
  _hitl s = Some h -> decide_endpoint approve id raw auth s w = (r, (s', w')) ->
  decision_outcome id (decision_action approve) (decision_signal approve) raw auth h s s' w r.
Proof.
  intros Hh E. destruct approve; eapply (decide_task_run _ _ _ _ _ _ _ _ _ _ _ _ Hh); try exact E;
    intros req c w0 r0 c' w1 Ed; exact (proj1 (decide_run _ _ _ _ _ _ _ _ Ed)).
Qed.

(** C4. Only administrators decide.  With the repository's policy loaded, a call of
    POST /tasks/{id}/approve or /deny either raises and leaves every workflow as it
    was, or its header carries a token that the session manager validates, with the
    role "admin" and the action among its allowed ones; the workflow was waiting, and
    it gets exactly the decision of the request body. *)
Theorem only_admins_decide approve id raw auth h `{!ServesPolicy (_approval_policy_engine h)}
    s w r s' w' :
  _hitl s = Some h -> decide_endpoint approve id raw auth s w = (r, (s', w')) ->
  exists h', _hitl s' = Some h' /\
  ((workflow_at (_approval_service h') = workflow_at (_approval_service h) /\ exists e, r = Err e)
   \/ admin_token h (decision_action approve) auth w /\
      exists req, decision_request raw = Some req /\
        waits_at (_approval_service h) (uuid_str id) /\
        delivered workflow_at (uuid_str id) (decision_signal approve req)
          (_approval_service h) (_approval_service h')).
Proof.
  intros Hh E. destruct (decide_endpoint_run _ _ _ _ _ _ _ _ _ _ Hh E)
    as (_ & h' & Hh' & [Hsame|(req & Hq & Hauth & Hw & Hd)]); exists h'; split; auto.
  right. split; [|eauto]. eapply authorized_admin; [exact _|destruct approve; set_solver|exact Hauth].
Qed.

(** *** Decisions that go through *)

(** The workflows that wait take signals. *)
Definition takes_signals (c : C) : Prop := forall id g w, waits_at c id ->
  exists c' w', signal_workflow id g c w = (Ok tt, (c', w')).

Lemma checked_claims_ok id action token h w claims sm w1 :
  validate_token token (_approval_session_mgr h) w = (Ok claims, (sm, w1)) ->
  ("hitl:" +:+ action)%string ∈ allowed_actions claims ->
  checked_claims (C := C) id action token h w = (Ok claims, (with_mgr h sm, w1)).
Proof.
  intros Hv Ha. unfold checked_claims, try_except, on_session_mgr, zoom, mbind, M_bind.
  rewrite Hv. unfold ensure_action_allowed. cbn. by rewrite bool_decide_eq_true_2.
Qed.

Lemma get_snapshot_ok c id w wf i :
  reachable c -> workflow_at c (uuid_str id) = Some wf -> instance_of wf = Some i ->
  exists w', get_snapshot id c w = (Ok (approval_status i), (c, w')).
Proof.
  intros Hr Hw Hi. destruct (Hr _ w _ _ Hw Hi) as [w' Eq]. exists w'.
  unfold get_snapshot, try_except. by rewrite Eq.
Qed.

Lemma authorize_token_ok id action token h `{!ServesPolicy (_approval_policy_engine h)}
    w claims sm w1 wf i :
  validate_token token (_approval_session_mgr h) w = (Ok claims, (sm, w1)) ->
  ("hitl:" +:+ action)%string ∈ allowed_actions claims -> role claims = Some "admin"%string ->
  action ∈ ["approve"; "deny"]%string ->
  reachable (_approval_service h) ->
  workflow_at (_approval_service h) (uuid_str id) = Some wf -> instance_of wf = Some i ->
  cross_session claims (approval_status i) = false ->
  exists x w2, authorize_token (_approval_policy_engine h) id action token h w
               = (Ok x, (with_mgr h sm, w2)).
Proof.
  intros Hv Ha Hrole Hact Hreach Hw Hi Hx. unfold authorize_token.
  rewrite (bind_run _ _ _ _ _ _ _ (checked_claims_ok _ _ _ _ _ _ _ _ Hv Ha)).
  destruct (get_snapshot_ok _ id w1 _ _ Hreach Hw Hi) as [w2 Es].
  rewrite (bind_run _ _ _ _ (approval_status i) (with_mgr h sm) w2)
    by (unfold on_service, zoom; cbn [_approval_service with_mgr]; by rewrite Es).
  rewrite Hx. cbv zeta. erewrite bind_run by (apply evaluate_served; exact _).
  cbn [allowed access_decision]. rewrite bool_decide_eq_true_2.
  - cbn [negb]. do 2 eexists. reflexivity.
  - apply (permitted_hitl _ "admin"); [done|done|exact Hrole|]. left. split; [done|]. cbn. set_solver.
Qed.

Lemma bearer_ok {S} token (x : S) w :
  token <> ""%string ->
  _extract_bearer_token (Some ("Bearer " +:+ token)%string) x w = (Ok token, (x, w)).
Proof.
  intros Ht. unfold _extract_bearer_token.
  change (partition_space ("Bearer " +:+ token)) with ("Bearer"%string, token).
  change (str_lower "Bearer") with "bearer"%string. cbn beta iota.
  rewrite bool_decide_eq_true_2 by done. by rewrite bool_decide_eq_false_2.
Qed.

Lemma service_decides c id g (res : ApprovalDecisionResult) w wf i :
  reachable c -> takes_signals c ->
  workflow_at c (uuid_str id) = Some wf -> instance_of wf = Some i ->
  _approval_state i = PendingApprovalState.AWAITING_APPROVAL ->
  exists c' w', (get_pending_snapshot id ;; signal_workflow (uuid_str id) g ;; mret res) c w
                = (Ok res, (c', w')) /\ delivered workflow_at (uuid_str id) g c c'.
Proof.
  intros Hr Ht Hw Hi Ha. destruct (get_snapshot_ok c id w _ _ Hr Hw Hi) as [w1 Es].
  destruct (Ht (uuid_str id) g w1) as (c' & w2 & Eg); [by exists wf, i|].
  exists c', w2. split.
  - unfold get_pending_snapshot, mbind, M_bind. rewrite Es.
    rewrite bool_decide_eq_true_2 by (by apply status_awaiting). cbn [negb]. cbn. by rewrite Eg.
  - destruct (signal_delivers _ _ _ _ _ _ _ Eg) as [Hd|[[e [=]] _]]. exact Hd.
Qed.

(** A header with a valid administrator's token, on a task that waits. *)
Lemma decision_goes_through approve id raw req token claims h
    `{!ServesPolicy (_approval_policy_engine h)} s w sm w1 wf i :
  _hitl s = Some h -> decision_request raw = Some req -> token <> ""%string ->
  validate_token token (_approval_session_mgr h) w = (Ok claims, (sm, w1)) ->
  ("hitl:" +:+ decision_action approve)%string ∈ allowed_actions claims ->
  role claims = Some "admin"%string ->
  reachable (_approval_service h) -> takes_signals (_approval_service h) ->
  workflow_at (_approval_service h) (uuid_str id) = Some wf -> instance_of wf = Some i ->
  _approval_state i = PendingApprovalState.AWAITING_APPROVAL ->
  cross_session claims (approval_status i) = false ->
  exists resp s' w' c',
    decide_endpoint approve id raw (Some ("Bearer " +:+ token)%string) s w = (Ok resp, (s', w')) /\
    adp_status resp = decision_status approve /\ adp_actor_id resp = adr_approver_id req /\
    s' = mkRouter (_orchestrator s) (Some (mkHitl c' (_approval_policy_engine h) sm)) /\
    delivered workflow_at (uuid_str id) (decision_signal approve req) (_approval_service h) c'.
Proof.
  intros Hh Hq Ht Hv Hal Hrole Hreach Hsig Hw Hi Ha Hx.
  destruct (authorize_token_ok id (decision_action approve) token h w claims sm w1 wf i Hv Hal Hrole)
    as (x & w2 & Eauth); try done; [destruct approve; set_solver|].
  set (res := mkDecisionResult id (decision_status approve) (adr_approver_id req) (adr_reason req)).
  destruct (service_decides (_approval_service h) id (decision_signal approve req) res w2 wf i)
    as (c' & w3 & Es & Hd); try done.
  set (call := if approve then service_approve else service_deny : UUID -> string -> string -> M C _).
  assert (Ecall : call id (adr_approver_id req) (adr_reason req) (_approval_service h) w2
                  = (Ok res, (c', w3))) by (destruct approve; exact Es).
  assert (Edec : decide_endpoint approve id raw = decide_task (decision_action approve) call id raw)
    by (by destruct approve).
  set (s' := mkRouter (_orchestrator s) (Some (mkHitl c' (_approval_policy_engine h) sm))).
  assert (Em : (_authorize_hitl_action id (decision_action approve) (Some ("Bearer " +:+ token)%string) ;;
                on_hitl (on_service (call id (adr_approver_id req) (adr_reason req)))) s w
               = (Ok res, (s', w3))).
  { erewrite bind_run.
    2: { unfold _authorize_hitl_action. rewrite (bind_run _ _ _ _ _ _ _ (require_hitl_run s w h Hh)).
         rewrite (bind_run _ _ _ _ _ _ _ (bearer_ok token s w Ht)).
         rewrite (on_hitl_run _ _ _ _ Hh), Eauth. reflexivity. }
    rewrite (on_hitl_run _ _ _ (with_mgr h sm)) by reflexivity. unfold on_service, zoom.
    cbn [_approval_service with_mgr]. rewrite Ecall. reflexivity. }
  rewrite Edec. unfold decide_task.
  rewrite (bind_run _ _ _ _ _ _ _ (require_hitl_run s w h Hh)).
  rewrite (bind_run _ _ _ _ req s w) by (unfold _parse_approval_request; by rewrite Hq).
  rewrite (bind_run _ _ _ _ res s' w3) by (unfold try_except; by rewrite Em).
  unfold utc_now, mbind, M_bind. cbn. do 4 eexists. split; [reflexivity|]. by split_and!.
Qed.
End decisions.

(** *** From the token to the decision *)

Section admin.
Context `{Env} `{HasSettings} `{PyText} `{FloatRepr} `{Cryptography} `{Pydantic} `{JoseLaws}.
Context `{UnicodeData} `{KeyGen}.
Context {R : Type} `{!ReplayStore R, !ReplaySafe R} {C : Type} `{TemporalLaws C}.

Lemma purge_none now (m : gmap string Z) j : m !! j = None -> purge_expired now m !! j = None.
Proof. intros Hm. unfold purge_expired. apply map_lookup_filter_None. by left. Qed.

Lemma admin_decides approve rq th (m0 : SessionManager R) w0 :
  keys_configured (R := R) -> request_ok (R := R) rq th -> rq_role rq = Some "admin"%string ->
  ("hitl:" +:+ decision_action approve)%string ∈ default [] (rq_allowed_actions rq) ->
  exists token m1 w1, issue_token rq m0 w0 = (Ok token, (m1, w1)) /\
  forall id raw req (h : HitlControls R C) (s : RouterState R C) w wf i,
    ServesPolicy (_approval_policy_engine h) ->
    _hitl s = Some h -> decision_request raw = Some req -> token <> ""%string ->
    let jti := uuid_str (uuid_supply (w_uuids w0)) in
    let claims := claims_of rq jti (clock (w_clock w0)) th in
    utc_clock (w_utc w) / 1000000 <= whole_secs (expires_at claims) ->
    _revoked_jtis (_approval_session_mgr h) !! jti = None ->
    reachable (_approval_service h) -> takes_signals (_approval_service h) ->
    workflow_at (_approval_service h) (uuid_str id) = Some wf -> instance_of wf = Some i ->
    _approval_state i = PendingApprovalState.AWAITING_APPROVAL ->
    (forall x y, rq_session_id rq = Some x -> _session_id i = Some y -> x = y) ->
    exists resp s' w' h',
      decide_endpoint approve id raw (Some ("Bearer " +:+ token)%string) s w
        = (Ok resp, (s', w')) /\
      adp_status resp = decision_status approve /\ adp_actor_id resp = adr_approver_id req /\
      _hitl s' = Some h' /\
      delivered workflow_at (uuid_str id) (decision_signal approve req)
        (_approval_service h) (_approval_service h').
Proof.
  intros Hk Hr Hrole Hal. destruct (issued_then_validated rq th m0 w0 Hk Hr)
    as (token & m1 & w1 & Ei & Hval). exists token, m1, w1. split; [exact Ei|].
  intros id raw req h s w wf i Hserves Hh Hq Ht jti claims Hexp Hrev Hreach Hsig Hw Hi Ha Hses.
  specialize (Hval (_approval_session_mgr h) w). cbv zeta in Hval. fold jti claims in Hval.
  destruct (_ <? _) eqn:El in Hval; [apply Z.ltb_lt in El; lia|].
  rewrite bool_decide_eq_false_2 in Hval
    by (rewrite !purge_none by (try apply purge_none; exact Hrev); by intros [? [=]]).
  destruct (validate_token token (_approval_session_mgr h) w) as [v [sm w2]] eqn:Ev.
  cbn [fst] in Hval. subst v.
  destruct (decision_goes_through approve id raw req token claims h s w sm w2 wf i)
    as (resp & s' & w' & c' & E & Hst & Hact & -> & Hd); try done.
  - unfold cross_session. cbn. destruct (rq_session_id rq) as [x|]; [|done].
    destruct (_session_id i) as [y|]; [|done]. by rewrite bool_decide_eq_true_2 by auto.
  - do 4 eexists. split; [exact E|]. split_and!; [done|done|reflexivity|exact Hd].
Qed.

(** C5. An administrator's decision goes through.  With matching keys, a token issued
    for the role "admin" (by whichever process, from whichever state) that allows the
    action is good for a decision: as long as it is not expired and not revoked at the
    router, its session is the task's if both have one, the policy is loaded and the
    cluster answers, POST /tasks/{id}/approve or /deny on a waiting task returns the
    decision's status, under the approver of the body, and the workflow has got it. *)
Theorem admin_decision_delivered approve rq th (m0 : SessionManager R) w0 :
  keys_configured (R := R) -> request_ok (R := R) rq th -> rq_role rq = Some "admin"%string ->
  ("hitl:" +:+ decision_action approve)%string ∈ default [] (rq_allowed_actions rq) ->
  exists token m1 w1, issue_token rq m0 w0 = (Ok token, (m1, w1)) /\
  forall id raw req (h : HitlControls R C) (s : RouterState R C) w wf i,
    ServesPolicy (_approval_policy_engine h) ->
    _hitl s = Some h -> decision_request raw = Some req -> token <> ""%string ->
    let jti := uuid_str (uuid_supply (w_uuids w0)) in
    let claims := claims_of rq jti (clock (w_clock w0)) th in
    utc_clock (w_utc w) / 1000000 <= whole_secs (expires_at claims) ->
    _revoked_jtis (_approval_session_mgr h) !! jti = None ->
    reachable (_approval_service h) -> takes_signals (_approval_service h) ->
    workflow_at (_approval_service h) (uuid_str id) = Some wf -> instance_of wf = Some i ->
    _approval_state i = PendingApprovalState.AWAITING_APPROVAL ->
    (forall x y, rq_session_id rq = Some x -> _session_id i = Some y -> x = y) ->
    exists resp s' w' h',
      decide_endpoint approve id raw (Some ("Bearer " +:+ token)%string) s w
        = (Ok resp, (s', w')) /\
      adp_status resp = decision_status approve /\ adp_actor_id resp = adr_approver_id req /\
      _hitl s' = Some h' /\
      delivered workflow_at (uuid_str id) (decision_signal approve req)
        (_approval_service h) (_approval_service h').
Proof. exact (admin_decides approve rq th m0 w0). Qed.
End admin.
