(* ===== verification/DataConverter.v ===== *)
(** * src/control_plane/data_converter.py: encrypted workflow history

    The payload codec of the Temporal client and worker.  [cryptography.fernet] is a
    parameter: a key is accepted or not, the n-th encryption of a codec has its own
    randomness, decryption gives the data or [InvalidToken]; [FernetLaws] is what its
    documentation promises.  Byte strings are Rocq strings, the metadata of a payload
    (a protobuf map) a finite map. *)
From Stdlib Require Import ZArith Lia Ascii String.
From stdpp Require Import base gmap strings list.
From S2P Require Import Prelude PyDecimal World PyCrypto.

Class Fernet : Type := {
  fernet_key_ok : string -> bool;
  fernet_encrypt : string -> nat -> string -> string;
  fernet_decrypt : string -> string -> option string
}.
Class FernetLaws `{Fernet} : Prop := {
  decrypt_encrypt k n d :
    fernet_key_ok k = true -> fernet_decrypt k (fernet_encrypt k n d) = Some d
}.

Record Payload : Type := mkPayload {
  pl_metadata : gmap string string;
  pl_data : string
}.
#[global] Instance Payload_eq_dec : EqDecision Payload.
Proof. solve_decision. Defined.

Definition _ENCRYPTED_ENCODING : string := "binary/aegis-encrypted".
Definition _ORIGINAL_ENCODING_KEY : string := "aegis/original-encoding".
Definition _DEV_KEY : string :=
  string_of_list_ascii (urlsafe_b64encode (str_bytes "aegis-dev-only-32byte-key-x12345")).

Record EncryptedPayloadCodec : Type := mkCodec {
  _key : string;
  codec_draws : nat                     (* encryptions done *)
}.

Definition labelled (p : Payload) : bool :=
  bool_decide (pl_metadata p !! "encoding"%string = Some _ENCRYPTED_ENCODING).

Section codec.
Context `{Fernet}.
(** [os.environ.get(name)] *)
Variable environ : string -> option string.

(** The argument [key]: [None], or its bytes. *)
Definition codec_key (key : option string) : string :=
  match key with
  | Some k => k
  | None =>
      let raw := default ""%string (environ "AEGIS_TEMPORAL_ENCRYPTION_KEY") in
      if bool_decide (raw = ""%string) then _DEV_KEY else raw
  end.

Definition EncryptedPayloadCodec_init (key : option string) : result EncryptedPayloadCodec :=
  let k := codec_key key in
  if fernet_key_ok k then Ok (mkCodec k 0)
  else Err (Exn ValueError "Fernet key must be 32 url-safe base64-encoded bytes." None).

Definition encrypt (d : string) : M EncryptedPayloadCodec string := fun c w =>
  (Ok (fernet_encrypt (_key c) (codec_draws c) d), (mkCodec (_key c) (S (codec_draws c)), w)).
Definition decrypt (d : string) : M EncryptedPayloadCodec string := fun c w =>
  (match fernet_decrypt (_key c) d with
   | Some x => Ok x
   | None => Err (Exn InvalidToken "" None)
   end, (c, w)).

Definition encode_one (p : Payload) : M EncryptedPayloadCodec Payload :=
  if labelled p then mret p
  else
    let original_encoding := default "json/plain"%string (pl_metadata p !! "encoding"%string) in
    encrypted_data ← encrypt (pl_data p);
    mret (mkPayload {["encoding"%string := _ENCRYPTED_ENCODING;
                      _ORIGINAL_ENCODING_KEY := original_encoding]} encrypted_data).

Definition decode_one (p : Payload) : M EncryptedPayloadCodec Payload :=
  if negb (labelled p) then mret p
  else
    decrypted_data ← try_except (decrypt (pl_data p))
      [(InvalidToken, fun exc => throw_from DataConverterError
          ("Failed to decrypt Temporal payload: key mismatch or corrupted data. "
           +:+ "Verify AEGIS_TEMPORAL_ENCRYPTION_KEY is consistent across all workers.") exc)];
    let original_encoding :=
      default "json/plain"%string (pl_metadata p !! _ORIGINAL_ENCODING_KEY) in
    mret (mkPayload {["encoding"%string := original_encoding]} decrypted_data).

Fixpoint for_payloads (f : Payload -> M EncryptedPayloadCodec Payload) (ps : list Payload)
    : M EncryptedPayloadCodec (list Payload) :=
  match ps with
  | [] => mret []
  | p :: ps => q ← f p; qs ← for_payloads f ps; mret (q :: qs)
  end.

Definition encode : list Payload -> M EncryptedPayloadCodec (list Payload) :=
  for_payloads encode_one.
Definition decode : list Payload -> M EncryptedPayloadCodec (list Payload) :=
  for_payloads decode_one.

Definition create_aegis_data_converter (key : option string) : result EncryptedPayloadCodec :=
  EncryptedPayloadCodec_init key.
End codec.

(** ** Properties *)

Section theorems.
Context `{FernetLaws}.
Implicit Types (c : EncryptedPayloadCodec) (p : Payload) (ps : list Payload) (w : World).

(** What a payload is after a round trip: only the encoding label is left of its
    metadata. *)
Definition restored p : Payload :=
  mkPayload {["encoding"%string :=
               default "json/plain"%string (pl_metadata p !! "encoding"%string)]} (pl_data p).

(** What [encode] makes of a payload that is not yet encrypted, as the [n]-th. *)
Definition sealed (k : string) (n : nat) p : Payload :=
  mkPayload {["encoding"%string := _ENCRYPTED_ENCODING;
              _ORIGINAL_ENCODING_KEY :=
                default "json/plain"%string (pl_metadata p !! "encoding"%string)]}
    (fernet_encrypt k n (pl_data p)).

Lemma sealed_labelled k n p : labelled (sealed k n p) = true.
Proof. apply bool_decide_eq_true_2. reflexivity. Qed.

Lemma encode_one_run p c w :
  encode_one p c w
  = if labelled p then (Ok p, (c, w))
    else (Ok (sealed (_key c) (codec_draws c) p), (mkCodec (_key c) (S (codec_draws c)), w)).
Proof. unfold encode_one. by destruct (labelled p). Qed.

Lemma decode_sealed_run k n p c w :
  fernet_key_ok k = true -> _key c = k -> decode_one (sealed k n p) c w = (Ok (restored p), (c, w)).
Proof.
  intros Hk <-. unfold decode_one. rewrite sealed_labelled. unfold try_except, decrypt.
  unfold mbind, M_bind. cbn [pl_data sealed negb]. by rewrite decrypt_encrypt.
Qed.

(** A labelled payload decodes, or its token is rejected. *)
Lemma decode_one_labelled q c w :
  labelled q = true ->
  match fernet_decrypt (_key c) (pl_data q) with
  | Some _ => exists p, decode_one q c w = (Ok p, (c, w))
  | None => exists msg e, decode_one q c w = (Err (Exn DataConverterError msg (Some e)), (c, w))
  end.
Proof.
  intros Hl. unfold decode_one. rewrite Hl. unfold try_except, decrypt, mbind, M_bind.
  cbn [negb]. destruct (fernet_decrypt _ _); cbn; [eauto|]. unfold throw_from, raise. eauto.
Qed.

(** One rejected token is enough. *)
Lemma decode_rejected qs c w :
  Forall (fun q => labelled q = true) qs ->
  Exists (fun q => fernet_decrypt (_key c) (pl_data q) = None) qs ->
  exists msg e, decode qs c w = (Err (Exn DataConverterError msg (Some e)), (c, w)).
Proof.
  unfold decode. induction 1 as [|q qs Hq Hqs IH]; intros Hx; [by apply Exists_nil in Hx|].
  cbn [for_payloads]. pose proof (decode_one_labelled q c w Hq) as Hd.
  destruct (fernet_decrypt (_key c) (pl_data q)) eqn:Ef.
  - destruct Hd as [p Ep]. rewrite (bind_run _ _ _ _ _ _ _ Ep).
    apply Exists_cons in Hx as [Hx|Hx]; [congruence|]. destruct (IH Hx) as (msg & e & E).
    exists msg, e. exact (bind_run_err _ _ _ _ _ _ _ E).
  - destruct Hd as (msg & e & Ee). exists msg, e. exact (bind_run_err _ _ _ _ _ _ _ Ee).
Qed.

(** The payloads [encode] writes, one by one. *)
Inductive written (k : string) : list Payload -> list Payload -> Prop :=
  | written_nil : written k [] []
  | written_kept p ps qs :
      labelled p = true -> written k ps qs -> written k (p :: ps) (p :: qs)
  | written_sealed n p ps qs :
      labelled p = false -> written k ps qs -> written k (p :: ps) (sealed k n p :: qs).

Lemma encode_run ps : forall c w,
  exists qs n, encode ps c w = (Ok qs, (mkCodec (_key c) n, w)) /\ written (_key c) ps qs.
Proof.
  unfold encode. induction ps as [|p ps IH]; intros c w.
  - exists [], (codec_draws c). split; [by destruct c|constructor].
  - cbn [for_payloads]. unfold mbind at 1, M_bind at 1. rewrite encode_one_run.
    destruct (labelled p) eqn:Hl.
    + destruct (IH c w) as (qs & n & E & Hw). rewrite (bind_run _ _ _ _ _ _ _ E).
      do 2 eexists. split; [reflexivity|by constructor].
    + destruct (IH (mkCodec (_key c) (S (codec_draws c))) w) as (qs & n & E & Hw).
      rewrite (bind_run _ _ _ _ _ _ _ E).
      do 2 eexists. split; [reflexivity|by constructor].
Qed.

Lemma decode_written k ps qs : written k ps qs -> forall c w,
  fernet_key_ok k = true -> _key c = k -> Forall (fun p => labelled p = false) ps ->
  decode qs c w = (Ok (restored <$> ps), (c, w)).
Proof.
  unfold decode. induction 1 as [|p ps qs Hl Hw IH|n p ps qs Hl Hw IH]; intros c w Hk Hc Hps.
  - reflexivity.
  - apply Forall_cons in Hps as [Hp _]. congruence.
  - apply Forall_cons in Hps as [_ Hps]. cbn [for_payloads].
    rewrite (bind_run _ _ _ _ _ _ _ (decode_sealed_run k n p c w Hk Hc)).
    rewrite (bind_run _ _ _ _ _ _ _ (IH c w Hk Hc Hps)). reflexivity.
Qed.

Lemma written_labelled k ps qs : written k ps qs -> Forall (fun q => labelled q = true) qs.
Proof. induction 1; constructor; auto using sealed_labelled. Qed.

Lemma encode_labelled qs : Forall (fun q => labelled q = true) qs -> forall c w,
  encode qs c w = (Ok qs, (c, w)).
Proof.
  unfold encode. induction 1 as [|q qs Hq _ IH]; intros c w; [reflexivity|].
  cbn [for_payloads]. rewrite (bind_run _ _ _ _ q c w) by (by rewrite encode_one_run, Hq).
  rewrite (bind_run _ _ _ _ _ _ _ (IH c w)). reflexivity.
Qed.

Lemma restored_id p :
  restored p = p <-> exists e, pl_metadata p = {["encoding"%string := e]}.
Proof.
  destruct p as [m d]. unfold restored. simpl. split.
  - intros [= <-]. eauto.
  - intros [e ->]. by rewrite lookup_singleton_eq.
Qed.

Lemma restored_ids ps :
  restored <$> ps = ps <-> Forall (fun p => exists e, pl_metadata p = {["encoding"%string := e]}) ps.
Proof.
  induction ps as [|p ps IH]; [by split|]. rewrite fmap_cons, Forall_cons, <- IH, <- restored_id.
  split; [intros [= -> ->]; auto|intros [-> ->]; reflexivity].
Qed.

(** C14. The encrypted history reads back.  Encoding payloads of which none carries the
    label of an encrypted one never fails, labels every payload as encrypted, with the
    ciphertext of its data for data, and encoding the result once more changes nothing.
    A codec with the same key decodes to the original data and encoding label.  A codec
    whose key rejects any of the tokens raises [DataConverterError] and gives out no
    payload, not even those its key opens.  The round trip is exact for the payloads
    whose metadata is the encoding label alone; all other metadata is lost. *)
Theorem codec_roundtrip ps c c2 w :
  fernet_key_ok (_key c) = true -> Forall (fun p => labelled p = false) ps ->
  exists qs c', encode ps c w = (Ok qs, (c', w)) /\
    Forall2 (fun p q => exists n, q = sealed (_key c) n p) ps qs /\
    encode qs c' w = (Ok qs, (c', w)) /\
    (_key c2 = _key c -> decode qs c2 w = (Ok (restored <$> ps), (c2, w))) /\
    (Exists (fun q => fernet_decrypt (_key c2) (pl_data q) = None) qs ->
       exists msg e, decode qs c2 w = (Err (Exn DataConverterError msg (Some e)), (c2, w))) /\
    (restored <$> ps = ps
     <-> Forall (fun p => exists e, pl_metadata p = {["encoding"%string := e]}) ps).
Proof.
  intros Hk Hps. destruct (encode_run ps c w) as (qs & n & E & Hw).
  pose proof (written_labelled _ _ _ Hw) as Hql.
  exists qs, (mkCodec (_key c) n). split; [exact E|].
  split; [|split; [|split; [|split; [|apply restored_ids]]]].
  - clear -Hw Hps. induction Hw; inversion Hps; subst; constructor; eauto; congruence.
  - by apply encode_labelled.
  - intros Hc. exact (decode_written _ _ _ Hw c2 w Hk Hc Hps).
  - by apply decode_rejected.
Qed.
End theorems.

(** ** A concrete codec *)

(** Keys without NUL; a token is the key, a NUL and the data. *)
Fixpoint no_nul (k : string) : bool :=
  match k with
  | EmptyString => true
  | String a k => negb (bool_decide (a = "000"%char)) && no_nul k
  end.
Fixpoint strip_key (k t : string) : option string :=
  match k, t with
  | EmptyString, String a d => if bool_decide (a = "000"%char) then Some d else None
  | String a k, String b t => if bool_decide (a = b) then strip_key k t else None
  | _, _ => None
  end.
#[local] Instance demo_fernet : Fernet := {
  fernet_key_ok := no_nul;
  fernet_encrypt k _ d := k +:+ String "000" d;
  fernet_decrypt := strip_key
}.
#[local] Instance demo_fernet_laws : FernetLaws.
Proof.
  split; cbn. intros k _ d _. induction k as [|a k IH]; [reflexivity|].
  change (strip_key (String a k) (String a (k +:+ String "000" d)) = Some d). cbn [strip_key].
  by rewrite bool_decide_eq_true_2.
Qed.

Definition proto_payload : Payload :=
  mkPayload {["encoding" := "json/protobuf"; "messageType" := "aegis.Task"]}%string "data".

(** The protobuf message type of a payload is gone after the round trip, and another key
    opens nothing. *)
Lemma codec_roundtrip_witness :
  exists qs c', encode [proto_payload] (mkCodec _DEV_KEY 0) w_empty = (Ok qs, (c', w_empty)) /\
    decode qs (mkCodec _DEV_KEY 0) w_empty
      = (Ok [restored proto_payload], (mkCodec _DEV_KEY 0, w_empty)) /\
    restored proto_payload <> proto_payload /\
    exists msg e, decode qs (mkCodec "other" 0) w_empty
      = (Err (Exn DataConverterError msg (Some e)), (mkCodec "other" 0, w_empty)).
Proof.
  assert (Hps : Forall (fun p => labelled p = false) [proto_payload])
    by (constructor; [vm_compute; reflexivity|constructor]).
  assert (Hk : fernet_key_ok (_key (mkCodec _DEV_KEY 0)) = true) by (vm_compute; reflexivity).
  destruct (codec_roundtrip [proto_payload] (mkCodec _DEV_KEY 0) (mkCodec _DEV_KEY 0) w_empty
    Hk Hps) as (qs & c' & E & _ & _ & Hd & _ & Hr).
  destruct (codec_roundtrip [proto_payload] (mkCodec _DEV_KEY 0) (mkCodec "other" 0) w_empty
    Hk Hps) as (qs2 & c2 & E2 & Hs & _ & _ & Hx & _).
  rewrite E in E2. injection E2 as <- <-.
  exists qs, c'. split; [exact E|]. split; [exact (Hd eq_refl)|]. split.
  - intros Heq. discriminate (f_equal (fun p => pl_metadata p !! "messageType"%string) Heq).
  - apply Hx. inversion Hs as [|p q ps qs' (n & ->) Hs' Hp Hq]. subst. left. reflexivity.
Defined.
