(* ===== verification/Main.v ===== *)
(** * src/main.py: the application

    The pending-approval gauge that GET /metrics refreshes, the health route, and the
    start-up and shutdown of the control plane.  What the gauge shows is read off the
    calls on it (Metrics.v); times are in the ticks of World.v. *)
From Stdlib Require Import ZArith Lia Ascii String.
From stdpp Require Import base gmap strings list.
From S2P Require Import Prelude PyDecimal PyUuid World Metrics Config AuditLogger BudgetEnforcer LoopDetector.
From S2P Require Import PyCrypto ReplayStore Regex Guardrails SessionMgr PolicyEngine Adapters.
From S2P Require Import Orchestrator Workflow ApprovalService Router DataConverter.

Definition workflow_labels (id : string) : list (string * string) := [("workflow_id"%string, id)].

Section main.
Context `{Env} `{HasSettings} `{PyText}.
Context {C : Type}.
(** A client with the approval service's workflows, and
    [_tracked_pending_approval_workflow_ids]. *)
Abbreviation AppM := (M (C * gset string)).

(** [for snapshot in snapshots: ...]; returns [current_workflow_ids]. *)
Fixpoint record_ages (now : Z) (snapshots : list ApprovalStatusSnapshot) (current : gset string)
    : AppM (gset string) :=
  match snapshots with
  | [] => mret current
  | snapshot :: snapshots =>
      match st_pending_since snapshot with
      | None => record_ages now snapshots current
      | Some since =>
          let age_seconds := Z.max (now - since) 0 in
          metric (GaugeSetTime "aegis_workflow_pending_approval_seconds"
                    (workflow_labels (st_task_id snapshot)) age_seconds) ;;
          record_ages now snapshots ({[st_task_id snapshot]} ∪ current)
      end
  end.

(** The snapshot source ([PendingApprovalSnapshotSource], if there is one) works on the
    client.  The order in which a set is iterated does not show. *)
Definition refresh_pending_approval_metrics
    (approval_service : option (M C (list ApprovalStatusSnapshot)))
    (now_fn : option (AppM Z)) : AppM unit :=
  snapshots ← match approval_service with
              | None => mret []
              | Some list_pending =>
                  try_except (zoom fst (fun c s => (c, s.2)) list_pending)
                    [(Exception, fun exc =>
                        warning "aegis.hitl_metrics_refresh_failed"
                          [("error"%string, JStr (exn_str exc))] ;;
                        mret [])]
              end;
  now_seconds ← default time_time now_fn;
  current ← record_ages now_seconds snapshots ∅;
  tracked ← gets snd;
  for_each (elements (tracked ∖ current)) (fun workflow_id =>
    metric (GaugeRemove "aegis_workflow_pending_approval_seconds" [workflow_id])) ;;
  modify (fun s => (s.1, current)).

(** The response of a route: body and media type. *)
Record Response : Type := mkResponse { rs_body : string; rs_media_type : string }.

(** [generate_latest] and [CONTENT_TYPE_LATEST] of prometheus_client. *)
Context (generate_latest : list MetricCall -> string) (CONTENT_TYPE_LATEST : string).

Definition metrics (hitl_approval_service : option (M C (list ApprovalStatusSnapshot)))
    : AppM Response :=
  refresh_pending_approval_metrics hitl_approval_service None ;;
  body ← ((fun s w => (Ok (generate_latest (w_metrics w)), (s, w))) : AppM string);
  mret (mkResponse body CONTENT_TYPE_LATEST).

Definition health_check : AppM (list (string * string)) :=
  mret [("status", "ok"); ("service", "aegis-os")]%string.

(** [temporal_client] is [app.state.temporal_client]: absent, or a client with or
    without a callable [close], whose result is awaited if it can be. *)
Definition shutdown_event (temporal_client : option (option (AppM unit))) : AppM unit :=
  match temporal_client with
  | Some (Some close) => close
  | _ => mret tt
  end ;;
  info "aegis.shutdown" [("message"%string, JStr "Aegis-OS Control Plane shutting down")].
End main.

(** ** The gauge *)

(** What the gauge shows for a workflow. *)
Definition pending_shown (id : string) (w : World) : option GaugeValue :=
  gauge_value workflow_pending_approval_seconds (workflow_labels id) (w_metrics w).

(** The gauge has a series for exactly the workflows tracked as pending. *)
Definition gauge_ok (tracked : gset string) (w : World) : Prop :=
  forall id, is_Some (pending_shown id w) <-> id ∈ tracked.

Definition pending_ids (l : list ApprovalStatusSnapshot) : gset string :=
  list_to_set (omap (fun s => (fun _ => st_task_id s) <$> st_pending_since s) l).

(** The age of [id] in [l]: that of its last snapshot with a start time. *)
Fixpoint age_of (now : Z) (l : list ApprovalStatusSnapshot) (id : string) : option Z :=
  match l with
  | [] => None
  | s :: l =>
      match age_of now l id with
      | Some a => Some a
      | None => match st_pending_since s with
                | Some since => if bool_decide (st_task_id s = id)
                                then Some (Z.max (now - since) 0) else None
                | None => None
                end
      end
  end.

Lemma pending_set id id' t w :
  pending_shown id' (w_add_metric (GaugeSetTime "aegis_workflow_pending_approval_seconds"
                                     (workflow_labels id) t) w)
  = if bool_decide (id = id') then Some (GTicks t) else pending_shown id' w.
Proof.
  unfold pending_shown. cbn [w_metrics w_add_metric]. rewrite gauge_value_snoc. cbn [gauge_after].
  unfold workflow_labels. destruct (bool_decide_reflect (id = id')) as [->|Hne].
  - by rewrite bool_decide_eq_true_2.
  - rewrite bool_decide_eq_false_2; [done|]. intros [_ E]. congruence.
Qed.

Lemma pending_removed id id' w :
  pending_shown id' (w_add_metric (GaugeRemove "aegis_workflow_pending_approval_seconds" [id]) w)
  = if bool_decide (id = id') then None else pending_shown id' w.
Proof.
  unfold pending_shown. cbn [w_metrics w_add_metric]. rewrite gauge_value_snoc. cbn [gauge_after].
  destruct (bool_decide_reflect (id = id')) as [->|Hne].
  - by rewrite bool_decide_eq_true_2.
  - rewrite bool_decide_eq_false_2; [done|]. intros [_ E]. cbn in E. congruence.
Qed.

Lemma age_of_pending now l id : is_Some (age_of now l id) <-> id ∈ pending_ids l.
Proof.
  unfold pending_ids. rewrite elem_of_list_to_set. induction l as [|s l IH]; cbn [age_of omap list_omap].
  - rewrite elem_of_nil. split; [by intros [??]|done].
  - destruct (age_of now l id) as [a|].
    + split; [|eauto]. intros _. assert (Hl : is_Some (Some a)) by eauto. apply IH in Hl.
      destruct (st_pending_since s); simpl; [by apply list_elem_of_further|exact Hl].
    + destruct (st_pending_since s) as [since|]; simpl; [|exact IH].
      rewrite elem_of_cons, <- IH. case_bool_decide as Hid.
      * split; [auto|eauto].
      * split; [by intros [??]|]. intros [->|[??]]; [done|discriminate].
Qed.

Section refresh.
Context `{Env} {C : Type}.
Implicit Types (c : C) (w : World) (tracked : gset string).

Lemma record_ages_run now l : forall current (s : C * gset string) w,
  exists w', record_ages now l current s w = (Ok (pending_ids l ∪ current), (s, w')) /\
    forall id, pending_shown id w'
               = match age_of now l id with Some a => Some (GTicks a) | None => pending_shown id w end.
Proof.
  induction l as [|x l IH]; intros current s w; cbn [record_ages age_of].
  - exists w. split; [|done]. unfold pending_ids. cbn. by rewrite union_empty_l_L.
  - unfold pending_ids. cbn [omap list_omap]. destruct (st_pending_since x) as [since|] eqn:Es; cbn.
    + unfold mbind, M_bind. cbn [metric set_world].
      destruct (IH ({[st_task_id x]} ∪ current) s (w_add_metric (GaugeSetTime
        "aegis_workflow_pending_approval_seconds" (workflow_labels (st_task_id x))
        (Z.max (now - since) 0)) w)) as (w' & E & Hg).
      exists w'. split.
      { rewrite E. fold (pending_ids l). by rewrite (assoc_L (∪)), (comm_L (∪) (pending_ids l)). }
      intros id. rewrite Hg, pending_set. destruct (age_of now l id); [done|]. by case_bool_decide.
    + destruct (IH current s w) as (w' & E & Hg). exists w'. split; [exact E|].
      intros id. rewrite Hg. by destruct (age_of now l id).
Qed.

Lemma remove_run ids : forall (s : C * gset string) w,
  exists w', for_each ids (fun id => metric (GaugeRemove "aegis_workflow_pending_approval_seconds" [id]))
               s w = (Ok tt, (s, w')) /\
    forall id, pending_shown id w' = if bool_decide (id ∈ ids) then None else pending_shown id w.
Proof.
  induction ids as [|x ids IH]; intros s w; cbn [for_each].
  - exists w. split; [done|]. intros id. by rewrite bool_decide_eq_false_2 by apply not_elem_of_nil.
  - unfold mbind, M_bind, metric, set_world.
    destruct (IH s (w_add_metric (GaugeRemove "aegis_workflow_pending_approval_seconds" [x]) w))
      as (w' & E & Hg). exists w'. split; [exact E|]. intros id. rewrite Hg, pending_removed.
    repeat case_bool_decide; try done; exfalso; set_solver.
Qed.

(** What the snapshot source answers a refresh, and how it leaves the client. *)
Definition source_answer (svc : option (M C (list ApprovalStatusSnapshot))) c w
    : option (list ApprovalStatusSnapshot) * C :=
  match svc with
  | None => (Some [], c)
  | Some l => match l c w with
              | (Ok snaps, (c', _)) => (Some snaps, c')
              | (Err e, (c', _)) => (if isinstance e Exception then Some [] else None, c')
              end
  end.

(** The source sets no metric. *)
Definition sets_no_metric (svc : option (M C (list ApprovalStatusSnapshot))) : Prop :=
  match svc with Some l => forall c w, w_metrics (l c w).2.2 = w_metrics w | None => True end.

Lemma source_run svc c w snaps c' tracked :
  sets_no_metric svc -> source_answer svc c w = (Some snaps, c') ->
  exists w1, match svc with
     | None => mret []
     | Some list_pending => try_except (zoom fst (fun c s => (c, s.2)) list_pending)
         [(Exception, fun exc => warning "aegis.hitl_metrics_refresh_failed"
             [("error"%string, JStr (exn_str exc))] ;; mret [])]
     end (c, tracked) w = (Ok snaps, ((c', tracked), w1)) /\ w_metrics w1 = w_metrics w.
Proof.
  unfold sets_no_metric, source_answer. intros Hm Hs.
  destruct svc as [l|]; [|injection Hs as <- <-; by eexists].
  unfold try_except, zoom. cbn [fst snd]. specialize (Hm c w).
  destruct (l c w) as [[sn|e] [c1 w1]]; [injection Hs as <- <-; by eexists|].
  cbn [dispatch]. destruct (isinstance e Exception); [|discriminate Hs].
  injection Hs as <- <-. unfold warning.
  edestruct (log_line_run (S := C * gset string)) as (w2 & f & El & _ & [Hl _] & _).
  rewrite (bind_run _ _ _ _ _ _ _ El). eexists. split; [reflexivity|]. by rewrite Hl.
Qed.

(** One refresh, from a gauge that shows the tracked workflows. *)
Lemma refresh_run svc c tracked w snaps c' :
  sets_no_metric svc -> gauge_ok tracked w -> source_answer svc c w = (Some snaps, c') ->
  exists w' now,
    refresh_pending_approval_metrics svc None (c, tracked) w = (Ok tt, ((c', pending_ids snaps), w')) /\
    gauge_ok (pending_ids snaps) w' /\
    (forall id, pending_shown id w' = GTicks <$> age_of now snaps id).
Proof.
  intros Hq Hok Hs. destruct (source_run svc c w snaps c' tracked Hq Hs) as (w1 & Esrc & Hm).
  unfold refresh_pending_approval_metrics. rewrite (bind_run _ _ _ _ _ _ _ Esrc). cbn [default].
  set (now := clock (w_clock w1)). erewrite bind_run by reflexivity. unfold id. fold now.
  match goal with |- context [record_ages now snaps ∅ ≫= ?k] =>
    destruct (record_ages_run now snaps ∅ (c', tracked)
      (mkWorld (w_log w1) (w_metrics w1) (w_spans w1) (w_http w1) (1 + w_clock w1) (w_utc w1) (w_uuids w1)))
      as (w2 & E2 & H2) end.
  rewrite (bind_run _ _ _ _ _ _ _ E2), union_empty_r_L.
  erewrite bind_run by reflexivity. cbn [snd].
  destruct (remove_run (elements (tracked ∖ pending_ids snaps)) (c', tracked) w2) as (w3 & E3 & H3).
  rewrite (bind_run _ _ _ _ _ _ _ E3). exists w3, now. split; [reflexivity|].
  assert (Hshown : forall id, pending_shown id w3 = GTicks <$> age_of now snaps id).
  { intros id. rewrite H3, H2. pose proof (age_of_pending now snaps id) as Hp.
    destruct (age_of now snaps id) as [a|] eqn:Ea; cbn.
    - rewrite bool_decide_eq_false_2; [done|]. rewrite elem_of_elements, elem_of_difference.
      intros [_ Hn]. apply Hn, Hp. eauto.
    - case_bool_decide as Hin; [done|]. rewrite elem_of_elements, elem_of_difference in Hin.
      assert (Hnp : id ∉ pending_ids snaps) by (intros Hin'; apply Hp in Hin' as [? [=]]).
      assert (Hnt : ~ is_Some (pending_shown id w)) by (intros Ht; apply Hok in Ht; auto).
      apply eq_None_not_Some. unfold pending_shown in *. cbn. by rewrite Hm. }
  split; [|exact Hshown]. intros id. rewrite Hshown, fmap_is_Some. apply age_of_pending.
Qed.

(** C15. GET /metrics shows the tasks that wait for approval, and no others.  From a
    gauge that shows exactly the tracked workflows, the handler answers (unless the
    source is cancelled), and what it renders is such a gauge: its series are the tasks
    the source reports as pending since some time, each with its age, which is never
    negative, and those that have been decided since the last refresh are gone; when
    the source fails the gauge is empty. *)
Theorem metrics_show_pending render media svc c tracked w snaps c' :
  sets_no_metric svc -> gauge_ok tracked w -> source_answer svc c w = (Some snaps, c') ->
  exists w' now,
    metrics render media svc (c, tracked) w
      = (Ok (mkResponse (render (w_metrics w')) media), ((c', pending_ids snaps), w')) /\
    gauge_ok (pending_ids snaps) w' /\
    (forall id, pending_shown id w' = GTicks <$> age_of now snaps id) /\
    (forall id age, pending_shown id w' = Some (GTicks age) -> 0 <= age).
Proof.
  intros Hq Hok Hs. destruct (refresh_run svc c tracked w snaps c' Hq Hok Hs) as (w' & now & E & Hg & Ha).
  exists w', now. unfold metrics. rewrite (bind_run _ _ _ _ _ _ _ E).
  split_and!; [done|done|done|]. intros id age. rewrite Ha.
  destruct (age_of now snaps id) as [a|] eqn:Ea; cbn; [|discriminate]. intros [= <-].
  revert a Ea. clear. induction snaps as [|s l IH]; intros a; cbn [age_of]; [discriminate|].
  destruct (age_of now l id); [intros [= <-]; by apply IH|].
  destruct (st_pending_since s); [|discriminate]. case_bool_decide; [|discriminate].
  intros [= <-]. lia.
Qed.
End refresh.

(** ** Start-up *)

(** [_connect_temporal_client] of src/main.py and [connect_temporal_client] of
    src/control_plane/worker.py: [Client.connect] (an argument) to the configured host,
    with the encrypting data converter. *)
Definition connect_temporal_client `{HasSettings} `{Fernet} {S C : Type}
    (environ : string -> option string) (Client_connect : string -> EncryptedPayloadCodec -> M S C)
    : M S C :=
  data_converter ← of_result (create_aegis_data_converter environ None);
  Client_connect (temporal_host settings) data_converter.

Section startup.
Context `{Env} `{HasSettings} `{PyText} `{FloatRepr} `{Cryptography} `{Pydantic} `{Jose}.
Context `{UnicodeData} `{KeyGen} `{Fernet}.
Context {R : Type} `{!ReplayStore R} {C : Type} `{TemporalClient C}.

(** [open_store] opens the replay store that [SessionManager()] selects. *)
Definition startup_event (environ : string -> option string)
    (Client_connect : string -> EncryptedPayloadCodec -> M (RouterState R C) C)
    (open_store : store_choice -> R) : M (RouterState R C) unit :=
  info "aegis.startup" [("message"%string, JStr "Aegis-OS Control Plane starting up")] ;;
  temporal_client ← connect_temporal_client environ Client_connect;
  let hitl_policy_engine := PolicyEngine_init None in
  choice ← of_result _default_replay_store;
  let hitl_session_mgr := SessionManager_init (open_store choice) in
  configure_hitl_controls temporal_client hitl_policy_engine hitl_session_mgr ;;
  info "aegis.hitl_controls_configured"
    [("temporal_host"%string, JStr (temporal_host settings))].

(** The router module before any configuration. *)
Definition router_initial : RouterState R C := mkRouter None None.

(** A started application has its human-in-the-loop endpoints configured, over the
    configured OPA server, but no orchestrator: every POST /tasks and /tasks/execute
    ends in the [RuntimeError] that asks for [configure_orchestrator], which nothing in
    the application calls, before any log line or pipeline stage. *)
Theorem started_app_has_no_orchestrator environ connect store s w r x w1 :
  (forall h c s w o s' w', connect h c s w = (o, (s', w')) -> s' = s) ->
  startup_event environ connect store router_initial w = (Ok tt, (s, w1)) ->
  (exists h, _hitl s = Some h /\ _opa_url (_approval_policy_engine h) = opa_url settings) /\
  (exists msg, route_task r s w1 = (Err (Exn RuntimeError msg None), (s, w1))) /\
  (exists msg, execute_task x s w1 = (Err (Exn RuntimeError msg None), (s, w1))).
Proof.
  intros Hcon E. unfold startup_event, info in E.
  bind_inv E as u s1 w2 E1. edestruct (log_line_run (S := RouterState R C)) as (w3 & f & El & _).
  rewrite El in E1. injection E1 as _ <- <-.
  bind_inv E as c s2 w4 E2. unfold connect_temporal_client in E2. bind_inv E2 as dc s5 w7 E5.
  injection E5 as _ <- <-. apply Hcon in E2 as ->.
  bind_inv E as ch s6 w8 E6. injection E6 as _ <- <-.
  bind_inv E as u2 s3 w5 E3. injection E3 as _ <- <-.
  edestruct (log_line_run (S := RouterState R C)) as (w6 & f2 & El2 & _).
  rewrite El2 in E. injection E as <- <-.
  split; [by eexists|]. split; eexists; reflexivity.
Qed.
End startup.
