(* ===== verification/AgentScheduler.v ===== *)
(** * src/control_plane/scheduler.py: the in-memory scheduler

    [AgentScheduler] hands out mutable [WorkflowHandle] objects and keeps a registry of
    them, so that a handle held by a caller and the registered one are the same object:
    the state is a heap of handles and the registry of their locations.
    [run_workflow] suspends once ([asyncio.sleep(0)]) and is two steps, between which
    anything else may run. *)
From Stdlib Require Import ZArith Lia Ascii String.
From stdpp Require Import base gmap strings list.
From S2P Require Import Prelude PyDecimal PyUuid World AuditLogger Workflow.

Record WorkflowHandle : Type := mkHandle {
  workflow_id : UUID;
  wh_status : WorkflowStatus.t;
  wh_agent_type : string;
  task_description : string;
  step_count : Z;
  token_count : Z
}.
Definition set_handle_status (v : WorkflowStatus.t) (h : WorkflowHandle) : WorkflowHandle :=
  mkHandle (workflow_id h) v (wh_agent_type h) (task_description h) (step_count h) (token_count h).

Abbreviation loc := nat.
Record AgentScheduler : Type := mkScheduler {
  handles : list WorkflowHandle;        (* the objects, by location *)
  _workflows : gmap UUID loc
}.
Definition AgentScheduler_init : AgentScheduler := mkScheduler [] ∅.

Section scheduler.
Context `{Env}.
Abbreviation SchM := (M AgentScheduler).

Definition schedule (agent_type task_description : string) : SchM loc :=
  id ← uuid4;
  l ← gets (fun s => length (handles s));
  modify (fun s => mkScheduler
    (handles s ++ [mkHandle id WorkflowStatus.PENDING agent_type task_description 0 0])
    (<[id := l]> (_workflows s))) ;;
  info "workflow.scheduled" [("workflow_id", JStr (uuid_str id)); ("agent_type", JStr agent_type)]%string ;;
  mret l.

Definition get_handle (id : UUID) : SchM (option loc) := gets (fun s => _workflows s !! id).

(** [handle.status = status] *)
Definition assign_status (l : loc) (v : WorkflowStatus.t) : SchM unit :=
  modify (fun s => mkScheduler (alter (set_handle_status v) l (handles s)) (_workflows s)).

Definition update_status (id : UUID) (v : WorkflowStatus.t) : SchM unit :=
  o ← get_handle id;
  match o with
  | None => throw KeyError ("Workflow " +:+ uuid_str id +:+ " not found")
  | Some l =>
      assign_status l v ;;
      info "workflow.status_updated"
        [("workflow_id", JStr (uuid_str id)); ("status", JStr (WorkflowStatus.value v))]%string
  end.

Definition handle_id (l : loc) : SchM string :=
  gets (fun s => from_option (fun h => uuid_str (workflow_id h)) ""%string (handles s !! l)).
Definition log_handle (event : string) (l : loc) : SchM unit :=
  id ← handle_id l; info event [("workflow_id"%string, JStr id)].

(** [run_workflow] up to and after its suspension. *)
Definition run_workflow_begin (l : loc) : SchM unit :=
  assign_status l WorkflowStatus.RUNNING ;; log_handle "workflow.started" l.
Definition run_workflow_end (l : loc) : SchM loc :=
  assign_status l WorkflowStatus.COMPLETED ;; log_handle "workflow.completed" l ;; mret l.

(** ** Interleavings *)

Inductive scheduler_op : Type :=
  | OpSchedule (agent description : string)
  | OpUpdate (id : UUID) (v : WorkflowStatus.t)
  | OpBegin (l : loc)
  | OpEnd (l : loc).

Definition do_scheduler_op (o : scheduler_op) : SchM unit :=
  match o with
  | OpSchedule a d => schedule a d ;; mret tt
  | OpUpdate id v => update_status id v
  | OpBegin l => run_workflow_begin l
  | OpEnd l => run_workflow_end l ;; mret tt
  end.

Fixpoint do_scheduler_ops (os : list scheduler_op) (s : AgentScheduler) (w : World)
    : AgentScheduler * World :=
  match os with
  | [] => (s, w)
  | o :: os => let '(_, sw) := do_scheduler_op o s w in do_scheduler_ops os sw.1 sw.2
  end.

(** Every registered id leads to the object with that id. *)
Definition registry_consistent (s : AgentScheduler) : Prop :=
  forall id l, _workflows s !! id = Some l ->
    exists h, handles s !! l = Some h /\ workflow_id h = id.

Lemma assign_consistent l v s :
  registry_consistent s ->
  registry_consistent (mkScheduler (alter (set_handle_status v) l (handles s)) (_workflows s)).
Proof.
  intros Hs id l' Hl. cbn in Hl |- *. destruct (Hs id l' Hl) as (h & Hh & Hid).
  destruct (decide (l = l')) as [->|Hne].
  - exists (set_handle_status v h). by rewrite list_lookup_alter, decide_True, Hh.
  - exists h. by rewrite list_lookup_alter_ne.
Qed.

Lemma log_handle_run ev l s w : exists w', log_handle ev l s w = (Ok tt, (s, w')).
Proof.
  unfold log_handle, handle_id, info, gets. unfold mbind at 1, M_bind at 1.
  edestruct (log_line_run (S := AgentScheduler)) as (w' & f & E & _). eauto.
Qed.

Lemma do_op_consistent o s w :
  registry_consistent s -> registry_consistent (do_scheduler_op o s w).2.1.
Proof.
  intros Hs. destruct o as [a d|id v|l|l]; cbn [do_scheduler_op].
  - unfold schedule, info. unfold mbind, M_bind, uuid4, gets, modify.
    edestruct (log_line_run (S := AgentScheduler)) as (w' & f & -> & _). cbn [mret M_ret fst snd].
    intros id l. cbn. rewrite lookup_insert. case_decide as Hid.
    + intros [= <-]. rewrite lookup_app_r, Nat.sub_diag by lia. subst. eauto.
    + intros Hl. destruct (Hs id l Hl) as (h & Hh & Hi). exists h.
      split; [by apply lookup_app_l_Some|exact Hi].
  - unfold update_status, get_handle, gets, info. unfold mbind at 1, M_bind at 1.
    destruct (_workflows s !! id) as [l|]; [|exact Hs].
    unfold assign_status, mbind, M_bind, modify.
    edestruct (log_line_run (S := AgentScheduler)) as (w' & f & -> & _). by apply assign_consistent.
  - unfold run_workflow_begin, assign_status. unfold mbind, M_bind, modify.
    edestruct log_handle_run as [w' ->]. by apply assign_consistent.
  - unfold run_workflow_end, assign_status. unfold mbind, M_bind, modify.
    edestruct log_handle_run as [w' ->]. by apply assign_consistent.
Qed.

(** The registry stays consistent under any interleaving of calls and suspended runs,
    and the end of a run is seen through the registry, whatever happened since it
    began. *)
Theorem scheduler_consistent os id l w :
  let '(s, w') := do_scheduler_ops os AgentScheduler_init w in
  registry_consistent s /\
  (_workflows s !! id = Some l ->
   exists s' h w'', run_workflow_end l s w' = (Ok l, (s', w'')) /\
     _workflows s' !! id = Some l /\ handles s' !! l = Some h /\
     workflow_id h = id /\ wh_status h = WorkflowStatus.COMPLETED).
Proof.
  assert (Hc : forall os s w, registry_consistent s ->
                 registry_consistent (do_scheduler_ops os s w).1).
  { clear. induction os as [|o os IH]; intros s w Hs; [exact Hs|]. cbn [do_scheduler_ops].
    pose proof (do_op_consistent o s w Hs) as Ho.
    destruct (do_scheduler_op o s w) as [r [s1 w1]]. apply IH, Ho. }
  specialize (Hc os AgentScheduler_init w).
  destruct (do_scheduler_ops os AgentScheduler_init w) as [s w'].
  assert (Hs : registry_consistent s)
    by (apply Hc; intros i k Hk; cbn in Hk; by rewrite lookup_empty in Hk).
  split; [exact Hs|]. intros Hl. destruct (Hs id l Hl) as (h & Hh & Hid).
  unfold run_workflow_end, assign_status. unfold mbind, M_bind, modify.
  edestruct log_handle_run as [w'' ->]. do 3 eexists. split; [reflexivity|]. cbn.
  split; [exact Hl|]. rewrite list_lookup_alter, decide_True, Hh by done.
  split; [reflexivity|]. by split.
Qed.
End scheduler.
