(* ===== verification/Worker.v ===== *)
(** * src/control_plane/worker.py: the worker process

    Which adapter the settings select, the objects a new worker shares between its
    activities, and its start up to the polling of the task queue. *)
From Stdlib Require Import ZArith Lia Ascii String.
From stdpp Require Import base gmap strings list.
From S2P Require Import Prelude PyDecimal PyUuid World Config AuditLogger BudgetEnforcer LoopDetector.
From S2P Require Import PyCrypto ReplayStore Regex Guardrails SessionMgr PolicyEngine Adapters.
From S2P Require Import Orchestrator Workflow Activities ApprovalService Router DataConverter Main.

Section worker.
Context `{Env} `{HasSettings} `{PyText} `{FloatRepr} `{Cryptography} `{Pydantic} `{Jose}.
Context `{UnicodeData}.
Context {R : Type} `{!ReplayStore R}.

Definition build_adapter : result (BaseAdapter R) :=
  let provider := llm_provider settings in
  if bool_decide (provider = "openai"%string) then
    if bool_decide (openai_api_key settings = ""%string) then
      Err (Exn RuntimeError "AEGIS_OPENAI_API_KEY is required when AEGIS_LLM_PROVIDER=openai" None)
    else Ok (OpenAIAdapter (openai_api_key settings) "gpt-4o-mini")
  else if bool_decide (provider = "anthropic"%string) then
    if bool_decide (anthropic_api_key settings = ""%string) then
      Err (Exn RuntimeError
             "AEGIS_ANTHROPIC_API_KEY is required when AEGIS_LLM_PROVIDER=anthropic" None)
    else Ok (AnthropicAdapter (anthropic_api_key settings) "claude-3-5-haiku-20241022")
  else if bool_decide (provider = "local_llama"%string) then
    Ok (LocalLlamaAdapter (local_llama_base_url settings) (local_llama_model settings))
  else Err (Exn RuntimeError ("Unsupported AEGIS_LLM_PROVIDER=" +:+ repr_str provider) None).

(** The policy engine, the adapter and the state of a worker that [create_worker] has
    built; one session manager and one audit logger are shared by the adapter and the
    activities.  [open_store] opens the replay store that [SessionManager()] selects. *)
Definition create_worker (open_store : store_choice -> R)
    : result (PolicyEngine * BaseAdapter R * AState R) :=
  match _default_replay_store with
  | Err e => Err e
  | Ok choice =>
      let session_mgr := SessionManager_init (open_store choice) in
      match build_adapter with
      | Err e => Err e
      | Ok adapter =>
          Ok (PolicyEngine_init None, adapter,
              mkAState (mkShared session_mgr AuditLogger_init) BudgetEnforcer_init)
      end
  end.

(** [run_worker] up to the point where the worker polls: connect, then construct. *)
Definition start_worker `{Fernet} {C : Type} (environ : string -> option string)
    (Client_connect : string -> EncryptedPayloadCodec -> M unit C) (open_store : store_choice -> R)
    : M unit (C * (PolicyEngine * BaseAdapter R * AState R)) :=
  client ← connect_temporal_client environ Client_connect;
  worker ← of_result (create_worker open_store);
  mret (client, worker).

(** Production without a shared replay store is refused. *)
Definition store_missing : Prop :=
  dpop_replay_store_url settings = ""%string /\
  str_lower (aegis_env settings) = "production"%string.

(** A worker is constructed exactly when the provider is a known one and has its key
    (and, in production, the shared replay store is configured), and then the adapter
    is that provider's. *)
Theorem create_worker_iff open_store :
  match create_worker open_store with
  | Ok (policy, adapter, _) =>
      provider_name adapter = llm_provider settings /\ _opa_url policy = opa_url settings /\
      ~ store_missing
  | Err e =>
      exn_class e = ValueError /\ store_missing
      \/ exn_class e = RuntimeError /\
         (llm_provider settings ∉ ["openai"; "anthropic"; "local_llama"]%string
          \/ llm_provider settings = "openai"%string /\ openai_api_key settings = ""%string
          \/ llm_provider settings = "anthropic"%string /\ anthropic_api_key settings = ""%string)
  end.
Proof.
  unfold create_worker, _default_replay_store, store_missing.
  assert (Hb : match build_adapter with
    | Ok adapter => provider_name adapter = llm_provider settings
    | Err e => exn_class e = RuntimeError /\
        (llm_provider settings ∉ ["openai"; "anthropic"; "local_llama"]%string
         \/ llm_provider settings = "openai"%string /\ openai_api_key settings = ""%string
         \/ llm_provider settings = "anthropic"%string /\ anthropic_api_key settings = ""%string)
    end).
  { unfold build_adapter. repeat case_bool_decide; simpl; auto. split; [done|]. left.
    rewrite !elem_of_cons, elem_of_nil. tauto. }
  repeat case_bool_decide; cbn; try tauto; destruct build_adapter; cbn; tauto.
Qed.
End worker.
