(* ===== verification/Demo.v ===== *)
(** * scripts/verify_pending_approval_demo.py: the PendingApproval demo

    The script that starts a task which needs approval, waits until the task and its
    metric are visible, decides it over the REST API and waits until the metric is
    gone.  What it talks to (the event loop, Temporal, the HTTP server, the terminal)
    is the class [DemoStack]; [DemoClock] says that time passes while it sleeps. *)
From Stdlib Require Import ZArith Lia Ascii String.
From stdpp Require Import base gmap strings list pretty sorting.
From S2P Require Import Prelude PyDecimal PyUuid World Config AuditLogger BudgetEnforcer LoopDetector.
From S2P Require Import PyCrypto ReplayStore Regex Guardrails SessionMgr PolicyEngine AccessPolicy.
From S2P Require Import Adapters Orchestrator Workflow WorkflowSafety ApprovalService Router.
From S2P Require Import DeployedPolicy DataConverter Main.

(** The answer to a GET. *)
Record HttpText : Type := mkHttpText { ht_status : Z; ht_text : string }.

Class DemoStack (S : Type) : Type := {
  loop_time : M S Z;                                  (* [loop.time()], in ticks *)
  sleep : Z -> M S unit;                              (* [asyncio.sleep], in ticks *)
  client_connect : string -> EncryptedPayloadCodec -> M S unit;
  start_workflow : WorkflowInput -> string -> M S unit;   (* with its task id as id *)
  query_status : string -> M S ApprovalStatusSnapshot;
  workflow_result : string -> M S WorkflowOutput;
  http_get : string -> M S HttpText;
  print : string -> M S unit
}.

Definition _METRIC_NAME : string := "aegis_workflow_pending_approval_seconds".

Inductive DemoAction : Type := ActionApprove | ActionDeny.
Definition DemoAction_str (a : DemoAction) : string :=
  match a with ActionApprove => "approve" | ActionDeny => "deny" end.

(** The parsed arguments and their defaults ([_build_parser]). *)
Record DemoArgs : Type := mkDemoArgs {
  api_base_url : string;
  arg_temporal_host : string;
  task_queue : string;
  demo_action : DemoAction;
  approver_id : string;
  arg_reason : string;
  arg_requester_id : string;
  projected_spend_usd : string;
  timeout_seconds : Z                   (* a float, in ticks *)
}.
Definition default_args `{HasSettings} : DemoArgs :=
  mkDemoArgs "http://localhost:18000" (temporal_host settings) (temporal_task_queue settings)
    ActionDeny "admin-user" "Demo verification completed." "demo-operator" "75.25" (secs 30).

(** ** The metric line *)

(** [[0-9.]]; [\s] is [space] of Guardrails.v. *)
Definition re_numeral (c : Z) : bool := ((48 <=? c) && (c <=? 57)) || (c =? 46).

(** The pattern, with MULTILINE: [^] is "after a newline" in the text with a newline put
    before it, [$] is "no other character than a newline follows". *)
Definition metric_pattern `{UnicodeData} (task_id : string) : regex :=
  RSeqs (RLit 10
         :: (RLit <$> points (_METRIC_NAME +:+ "{workflow_id=" +:+ quote +:+ task_id +:+ quote +:+ "}"))
         ++ [RPlus (RChar space); RPlus (RChar re_numeral);
             RNotAhead (RChar (fun c => negb (c =? 10)))]).

(** [metric_pattern.search(text)]: the text of the match ([group(0)]). *)
Definition metric_match `{UnicodeData} (task_id page : string) : option text :=
  match search_from (metric_pattern task_id) [] (10 :: points page) with
  | Some (x, y) => Some (drop 1 (take (length x.2 - length y.2) x.2))
  | None => None
  end.

(** [json.dumps(v, sort_keys=True)], with the default separators. *)
Fixpoint json_dumps_sorted `{FloatRepr} (j : json) : string :=
  match j with
  | JNull => "null"
  | JBool true => "true"
  | JBool false => "false"
  | JInt z => pretty z
  | JTime t => float_repr t
  | JStr s => json_dumps_str s
  | JList l => "[" +:+ String.concat ", " (json_dumps_sorted <$> l) +:+ "]"
  | JObj fs =>
      "{" +:+ String.concat ", "
        ((fun p : string * string => json_dumps_str p.1 +:+ ": " +:+ p.2)
           <$> merge_sort key_le ((fun p : string * json => (p.1, json_dumps_sorted p.2)) <$> fs))
      +:+ "}"
  end.

(** ** The script *)

Section script.
Context `{Env} `{HasSettings} `{PyText} `{FloatRepr} `{Cryptography} `{Pydantic} `{Jose}.
Context `{UnicodeData} `{Fernet}.
Context {R : Type} `{!ReplayStore R} {S : Type} `{!DemoStack S}.
(** The environment variables, the store a [SessionManager()] opens, and the default
    temperature of a [WorkflowInput] (the float 0.7). *)
Context (environ : string -> option string) (open_store : store_choice -> R)
  (default_temperature : json).

(** [while loop.time() < deadline: ... await asyncio.sleep(interval)] followed by the
    [TimeoutError]; [round] returns a value to leave the loop.  [None]: out of fuel. *)
Fixpoint poll {A} (fuel : nat) (deadline interval : Z) (round : M S (option A)) (msg : string)
    : M S (option A) :=
  match fuel with
  | O => mret None
  | Datatypes.S fuel =>
      t ← loop_time;
      if t <? deadline then
        r ← round;
        match r with
        | Some a => mret (Some a)
        | None => sleep interval ;; poll fuel deadline interval round msg
        end
      else throw TimeoutError msg
  end.

Definition pending_round (task_id : string) : M S (option ApprovalStatusSnapshot) :=
  snapshot ← query_status task_id;
  mret (if bool_decide (st_approval_state snapshot = awaiting) then Some snapshot else None).

Definition _wait_for_pending_state (fuel : nat) (task_id : string) (timeout : Z)
    : M S (option ApprovalStatusSnapshot) :=
  t ← loop_time;
  poll fuel (t + timeout) (secs 1 / 2) (pending_round task_id)
    "Workflow did not reach PendingApproval before timeout".

Definition get_raise_for_status (r : HttpText) : M S unit :=
  if (200 <=? ht_status r) && (ht_status r <? 300) then mret tt
  else throw HTTPStatusError ("HTTP status " +:+ pretty (ht_status r)).

Definition metric_round (url task_id : string) (should_exist : bool) : M S (option text) :=
  response ← http_get (url +:+ "/metrics");
  get_raise_for_status response ;;
  mret (match metric_match task_id (ht_text response), should_exist with
        | Some line, true => Some line
        | None, false => Some (points (ht_text response))
        | _, _ => None
        end).

Definition _wait_for_metric (fuel : nat) (url task_id : string) (should_exist : bool) (timeout : Z)
    : M S (option text) :=
  t ← loop_time;
  poll fuel (t + timeout) (secs 1) (metric_round url task_id should_exist)
    ("PendingApproval metric did not " +:+ (if should_exist then "appear" else "clear")
     +:+ " before timeout").

Definition admin_request (session_id requester_id : string) : TokenRequest :=
  mkTokenRequest "general" requester_id None (Some session_id)
    (Some ["hitl:approve"; "hitl:deny"]%string) (Some "admin"%string) None None None None.

Definition _issue_admin_token (session_id requester_id : string) : M S string :=
  choice ← of_result _default_replay_store;
  let session_mgr := SessionManager_init (open_store choice) in
  zoom (fun _ => session_mgr) (fun _ s => s) (issue_token (admin_request session_id requester_id)).

Definition decision_payload (approver reason : string) : list (string * json) :=
  [("approver_id", JStr approver); ("reason", JStr reason)]%string.

Definition _send_decision (url task_id action approver reason session_id : string) : M S json :=
  token ← _issue_admin_token session_id approver;
  response ← http_post (mkHttpRequest (url +:+ "/api/v1/tasks/" +:+ task_id +:+ "/" +:+ action)
                          (JObj (decision_payload approver reason))
                          [("Authorization"%string, "Bearer " +:+ token)]);
  raise_for_status response ;;
  of_result (hs_json response).

Definition demo_workflow_input (args : DemoArgs) (task_id session_id : string) : WorkflowInput :=
  mkWorkflowInput task_id "Demo PendingApproval verification request." "general"
    (arg_requester_id args) "gpt-4o-mini" 1024 default_temperature "" false (Some session_id)
    None None (dec_str DEFAULT_COST_PER_TOKEN) None NO_PROGRESS None None None
    (projected_spend_usd args) (Z.max (whole_secs (timeout_seconds args)) 5) None.

(** [snapshot.session_id or session_id] *)
Definition or_session (o : option string) (d : string) : string :=
  match o with Some s => if bool_decide (s = ""%string) then d else s | None => d end.

(** [_run]: [None] when a wait ran out of fuel. *)
Definition _run (fuel : nat) (args : DemoArgs) : M S (option Z) :=
  u ← uuid4;
  let task_id := uuid_str u in
  let session_id := "demo-session-" +:+ task_id in
  let workflow_input := demo_workflow_input args task_id session_id in
  data_converter ← of_result (create_aegis_data_converter environ None);
  client_connect (arg_temporal_host args) data_converter ;;
  start_workflow workflow_input (task_queue args) ;;
  o ← _wait_for_pending_state fuel task_id (timeout_seconds args);
  match o with
  | None => mret None
  | Some snapshot =>
      print ("workflow.pending task_id=" +:+ task_id +:+ " session_id=" +:+ session_id) ;;
      o ← _wait_for_metric fuel (api_base_url args) task_id true (timeout_seconds args);
      match o with
      | None => mret None
      | Some metric_line =>
          print ("metrics.visible " +:+ of_points metric_line) ;;
          payload ← _send_decision (api_base_url args) task_id (DemoAction_str (demo_action args))
                      (approver_id args) (arg_reason args)
                      (or_session (st_session_id snapshot) session_id);
          print ("api." +:+ DemoAction_str (demo_action args) +:+ " " +:+ json_dumps_sorted payload) ;;
          o ← _wait_for_metric fuel (api_base_url args) task_id false (timeout_seconds args);
          match o with
          | None => mret None
          | Some _ =>
              print ("metrics.cleared task_id=" +:+ task_id) ;;
              match demo_action args with
              | ActionDeny =>
                  result ← workflow_result task_id;
                  print ("workflow.completed status=" +:+ wo_workflow_status result
                         +:+ " approval_state=" +:+ wo_approval_state result)
              | ActionApprove =>
                  print ("workflow.approve.sent action=approve note=approved workflows continue "
                         +:+ "to the LLM stage and may require a live provider")
              end ;;
              mret (Some 0)
          end
      end
  end.
End script.

(** ** The waits end *)

Class DemoClock (S : Type) `{DemoStack S} : Type := {
  stack_now : S -> World -> Z;
  time_read s w : exists s' w',
    loop_time s w = (Ok (stack_now s' w'), (s', w')) /\ stack_now s w <= stack_now s' w';
  sleep_waits d s w : 0 <= d -> exists s' w',
    sleep d s w = (Ok tt, (s', w')) /\ stack_now s w + d <= stack_now s' w';
  query_forward id s w r s' w' :
    query_status id s w = (r, (s', w')) -> stack_now s w <= stack_now s' w';
  get_forward url s w r s' w' :
    http_get url s w = (r, (s', w')) -> stack_now s w <= stack_now s' w'
}.

Section waits.
Context {S : Type} `{DemoClock S}.

(** Time does not run backwards in a computation. *)
Definition forward {A} (m : M S A) : Prop := forall s w r s' w',
  m s w = (r, (s', w')) -> stack_now s w <= stack_now s' w'.

(** What a wait for a value with [Q] from [start] comes to: such a value, an error of a
    round, or the timeout, not before its time. *)
Definition wait_outcome {A} (Q : A -> Prop) (round : M S (option A)) (timeout : Z) (msg : string)
    (s : S) (w : World) (r : result (option A)) (s' : S) (w' : World) : Prop :=
  match r with
  | Ok (Some a) => Q a
  | Ok None => False
  | Err e => (exists s1 w1 s2 w2, round s1 w1 = (Err e, (s2, w2)))
             \/ e = Exn TimeoutError msg None /\ stack_now s w + timeout <= stack_now s' w'
  end.

Lemma poll_ends {A} (Q : A -> Prop) (round : M S (option A)) interval msg n :
  forward round -> 0 <= interval ->
  (forall s w a s' w', round s w = (Ok (Some a), (s', w')) -> Q a) ->
  forall deadline s w, deadline <= stack_now s w + Z.of_nat n * interval ->
  exists r s' w', poll (Datatypes.S n) deadline interval round msg s w = (r, (s', w')) /\
    match r with
    | Ok (Some a) => Q a
    | Ok None => False
    | Err e => (exists s1 w1 s2 w2, round s1 w1 = (Err e, (s2, w2)))
               \/ e = Exn TimeoutError msg None /\ deadline <= stack_now s' w'
    end.
Proof.
  intros Hf Hi HQ. induction n as [|n IH]; intros deadline s w Hd; cbn [poll];
    destruct (time_read s w) as (s1 & w1 & Et & Hle);
    rewrite (bind_run _ _ _ _ _ _ _ Et);
    destruct (Z.ltb_spec (stack_now s1 w1) deadline) as [Hlt|Hge];
    try (do 3 eexists; split; [reflexivity|by right]); [lia|].
  destruct (round s1 w1) as [[[a|]|e] [s2 w2]] eqn:Er.
  - rewrite (bind_run _ _ _ _ _ _ _ Er). do 3 eexists. split; [reflexivity|]. by eapply HQ.
  - rewrite (bind_run _ _ _ _ _ _ _ Er). pose proof (Hf _ _ _ _ _ Er) as H2.
    destruct (sleep_waits interval s2 w2 Hi) as (s3 & w3 & Es & H3).
    rewrite (bind_run _ _ _ _ _ _ _ Es). apply IH. lia.
  - rewrite (bind_run_err _ _ _ _ _ _ _ Er). do 3 eexists. split; [reflexivity|]. left. eauto.
Qed.

(** A wait with enough fuel for one round per interval. *)
Lemma wait_ends {A} (Q : A -> Prop) (round : M S (option A)) interval timeout msg n s w :
  forward round -> 0 <= interval ->
  (forall s w a s' w', round s w = (Ok (Some a), (s', w')) -> Q a) ->
  timeout <= Z.of_nat n * interval ->
  exists r s' w',
    (t ← loop_time; poll (Datatypes.S n) (t + timeout) interval round msg) s w = (r, (s', w')) /\
    wait_outcome Q round timeout msg s w r s' w'.
Proof.
  intros Hf Hi HQ Ht. destruct (time_read s w) as (s1 & w1 & Et & Hle).
  rewrite (bind_run _ _ _ _ _ _ _ Et).
  destruct (poll_ends Q round interval msg n Hf Hi HQ (stack_now s1 w1 + timeout) s1 w1)
    as (r & s' & w' & E & Hr); [lia|].
  exists r, s', w'. split; [exact E|]. unfold wait_outcome. destruct r as [[a|]|e]; try done.
  destruct Hr as [Hr|[-> Hd]]; [by left|]. right. split; [done|]. lia.
Qed.

Context `{UnicodeData}.

Lemma pending_round_forward id : forward (pending_round id).
Proof.
  intros s w r s' w' E. unfold pending_round, mbind, M_bind in E.
  destruct (query_status id s w) as [[x|e] [s1 w1]] eqn:Eq;
    pose proof (query_forward _ _ _ _ _ _ Eq); by injection E as _ <- <-.
Qed.

Lemma metric_round_forward url id b : forward (metric_round url id b).
Proof.
  intros s w r s' w' E. unfold metric_round, get_raise_for_status, mbind, M_bind in E.
  destruct (http_get _ s w) as [[x|e] [s1 w1]] eqn:Eg;
    pose proof (get_forward _ _ _ _ _ _ Eg); [|by injection E as _ <- <-].
  destruct (_ && _); by injection E as _ <- <-.
Qed.

(** C18. The demo's waits end.  If time passes while the script sleeps, waiting for the
    pending state (every half second) and for the metric (every second) ends after at
    most one round per interval of the timeout and one more: with a snapshot that is
    waiting for approval, or a metric line (or a page without one), or with the error
    of a query or request, or with the [TimeoutError], and then not before the timeout
    has passed. *)
Theorem demo_waits_end task_id url should_exist timeout n s w :
  (timeout <= Z.of_nat n * (secs 1 / 2) ->
   exists r s' w', _wait_for_pending_state (Datatypes.S n) task_id timeout s w = (r, (s', w')) /\
     wait_outcome (fun snap => st_approval_state snap = awaiting) (pending_round task_id) timeout
       "Workflow did not reach PendingApproval before timeout" s w r s' w') /\
  (timeout <= Z.of_nat n * secs 1 ->
   exists r s' w', _wait_for_metric (Datatypes.S n) url task_id should_exist timeout s w
                   = (r, (s', w')) /\
     wait_outcome (fun line => exists page,
         if should_exist then metric_match task_id page = Some line
         else metric_match task_id page = None /\ line = points page)
       (metric_round url task_id should_exist) timeout
       ("PendingApproval metric did not " +:+ (if should_exist then "appear" else "clear")
        +:+ " before timeout") s w r s' w').
Proof.
  split; intros Ht.
  - apply wait_ends; [exact (pending_round_forward task_id)|by vm_compute| |exact Ht].
    intros s0 w0 a s' w' E. unfold pending_round in E. bind_inv E as x s1 w1 Eq.
    injection E as E _ _. case_bool_decide; [|discriminate E]. by injection E as <-.
  - apply wait_ends; [exact (metric_round_forward url task_id should_exist)|by vm_compute
                     | |exact Ht].
    intros s0 w0 a s' w' E. unfold metric_round in E. bind_inv E as x s1 w1 Eq.
    bind_inv E as u s2 w2 Eu. exists (ht_text x). revert E.
    destruct (metric_match task_id (ht_text x)) as [line|], should_exist; try discriminate;
      intros [= <- _ _]; done.
Qed.
End waits.

(** ** The decision the script sends *)

Definition approves (a : DemoAction) : bool :=
  match a with ActionApprove => true | ActionDeny => false end.

Section sent.
Context `{Env} `{HasSettings} `{PyText} `{FloatRepr} `{Cryptography} `{Pydantic} `{JoseLaws}.
Context `{UnicodeData} `{KeyGen}.
Context {R : Type} `{!ReplayStore R, !ReplaySafe R} {C : Type} `{TemporalLaws C}.
Context {S : Type} `{!DemoStack S} (open_store : store_choice -> R).

(** The API accepts it: [_send_decision] posts one request to the task's endpoint, and
    the endpoint behind that URL, given its body and its header, delivers the decision
    to the waiting workflow of the session, provided the deployment shares the token
    keys with the script and serves the policy, and the token has neither expired nor
    been revoked there. *)
Theorem demo_decision_accepted url task action approver reason session choice (s : S) w :
  keys_configured (R := R) -> _default_replay_store = Ok choice -> approver <> ""%string ->
  exists token, w_http (_send_decision open_store url (uuid_str task) (DemoAction_str action)
                          approver reason session s w).2.2
    = w_http w ++ [mkHttpRequest
        (url +:+ "/api/v1/tasks/" +:+ uuid_str task +:+ "/" +:+ DemoAction_str action)
        (JObj (decision_payload approver reason)) [("Authorization"%string, "Bearer " +:+ token)]] /\
  forall req (h : HitlControls R C) (rs : RouterState R C) w' wf i,
    ServesPolicy (_approval_policy_engine h) ->
    _hitl rs = Some h -> decision_request (decision_payload approver reason) = Some req ->
    token <> ""%string ->
    let jti := uuid_str (uuid_supply (w_uuids w)) in
    utc_clock (w_utc w') / 1000000
      <= whole_secs (clock (w_clock w) + secs (token_expiry_seconds settings)) ->
    _revoked_jtis (_approval_session_mgr h) !! jti = None ->
    reachable (_approval_service h) -> takes_signals (_approval_service h) ->
    workflow_at (_approval_service h) (uuid_str task) = Some wf -> instance_of wf = Some i ->
    _approval_state i = PendingApprovalState.AWAITING_APPROVAL ->
    (forall y, _session_id i = Some y -> y = session) ->
    exists resp rs' w'' h',
      decide_endpoint (approves action) task (decision_payload approver reason)
        (Some ("Bearer " +:+ token)%string) rs w' = (Ok resp, (rs', w'')) /\
      adp_status resp = decision_status (approves action) /\ _hitl rs' = Some h' /\
      delivered workflow_at (uuid_str task)
        (decision_signal (approves action) req) (_approval_service h) (_approval_service h').
Proof.
  intros Hk Hc Ha.
  assert (Hr : request_ok (R := R) (admin_request session approver) None) by (by split_and!).
  destruct (admin_decides (C := C) (approves action) (admin_request session approver) None
    (SessionManager_init (open_store choice)) w Hk Hr eq_refl) as (token & m1 & w1 & Ei & Hdec).
  { destruct action; cbn; set_solver. }
  exists token. split.
  - pose proof (quiet_issue_token (R := R) (admin_request session approver)
      (SessionManager_init (open_store choice)) w) as Hq. rewrite Ei in Hq. cbn in Hq.
    unfold _send_decision, _issue_admin_token. rewrite Hc. unfold zoom, mbind, M_bind, of_result.
    rewrite Ei. unfold http_post, raise_for_status. cbn [fst snd].
    destruct (http_answer _ _) as [resp|e]; [|cbn; by rewrite Hq].
    destruct (_ && _); cbn; by rewrite Hq.
  - intros req h rs w' wf i Hs Hh Hreq Ht jti Hexp Hrev Hreach Hsig Hw Hi Hst Hses.
    destruct (Hdec task (decision_payload approver reason) req h rs w' wf i Hs Hh Hreq Ht Hexp Hrev
      Hreach Hsig Hw Hi Hst) as (resp & rs' & w'' & h' & E & Hstat & _ & Hh' & Hd).
    + intros x y [= <-] Hy. symmetry. auto.
    + eauto 10.
Qed.
End sent.
