(* ===== verification/Compliance.v ===== *)
(** * src/audit_vault/compliance.py: compliance reports *)
From Stdlib Require Import ZArith Lia Ascii String.
From stdpp Require Import base gmap strings list pretty.
From S2P Require Import Prelude PyDecimal PyUuid World AuditLogger PyCrypto SessionMgr.

Inductive ComplianceFramework : Type := SOC2 | GDPR.

Record AuditEvent : Type := mkAuditEvent {
  ae_event_id : UUID;
  ae_timestamp : datetime;
  ae_agent_id : string;
  ae_action : string;
  ae_resource : string;
  ae_outcome : string;
  ae_metadata : list (string * string)
}.

Record ComplianceReport : Type := mkReport {
  report_id : UUID;
  framework : ComplianceFramework;
  generated_at : datetime;
  period_start : datetime;
  period_end : datetime;
  total_events : Z;
  events : list AuditEvent;
  summary : string
}.

Record ComplianceReporter : Type := mkReporter { _events : list AuditEvent }.
Definition ComplianceReporter_init : ComplianceReporter := mkReporter [].

(** [a <= b]: naive and aware datetimes do not compare. *)
Definition dt_leb (a b : datetime) : result bool :=
  match dt_offset a, dt_offset b with
  | Some x, Some y => Ok (dt_us a - x <=? dt_us b - y)
  | None, None => Ok (dt_us a <=? dt_us b)
  | _, _ => Err (Exn TypeError "can't compare offset-naive and offset-aware datetimes" None)
  end.

(** [start <= t <= end] *)
Definition within (start stop t : datetime) : result bool :=
  match dt_leb start t with
  | Ok true => dt_leb t stop
  | r => r
  end.

(** [[e for e in events if start <= e.timestamp <= end]] *)
Fixpoint in_period (start stop : datetime) (l : list AuditEvent) : result (list AuditEvent) :=
  match l with
  | [] => Ok []
  | e :: l =>
      match within start stop (ae_timestamp e) with
      | Err x => Err x
      | Ok b => match in_period start stop l with
                | Err x => Err x
                | Ok r => Ok (if b then e :: r else r)
                end
      end
  end.

(** [sub in s] *)
Fixpoint contains (sub s : string) : bool :=
  String.prefix sub s || match s with EmptyString => false | String _ s => contains sub s end.

Section reporter.
Context `{Env} `{PyText}.

Definition record_audit_event (e : AuditEvent) : M ComplianceReporter unit :=
  modify (fun r => mkReporter (_events r ++ [e])).

Definition failed (e : AuditEvent) : bool := bool_decide (ae_outcome e = "failure"%string).
Definition pii_access (e : AuditEvent) : bool := contains "pii" (str_lower (ae_resource e)).

Definition _soc2_summary (l : list AuditEvent) : string :=
  "SOC2 Audit Summary: " +:+ pretty (length l) +:+ " total events, "
  +:+ pretty (length (List.filter failed l)) +:+ " failures recorded.".
Definition _gdpr_summary (l : list AuditEvent) : string :=
  "GDPR Audit Summary: " +:+ pretty (length l) +:+ " total events, "
  +:+ pretty (length (List.filter pii_access l)) +:+ " PII-related access events.".

Definition generate_report (f : ComplianceFramework) (start stop : datetime)
    : M ComplianceReporter ComplianceReport :=
  l ← gets _events;
  in_scope ← of_result (in_period start stop l);
  let text := match f with SOC2 => _soc2_summary in_scope | GDPR => _gdpr_summary in_scope end in
  id ← uuid4;
  now ← utc_now;
  mret (mkReport id f (mkDatetime now (Some 0)) start stop (Z.of_nat (length in_scope)) in_scope
          text).

(** ** A report is the log of its period *)

Definition utc_us (d : datetime) : Z := dt_us d - default 0 (dt_offset d).
Definition in_range (start stop : datetime) (e : AuditEvent) : bool :=
  (utc_us start <=? utc_us (ae_timestamp e)) && (utc_us (ae_timestamp e) <=? utc_us stop).

Definition aware (d : datetime) : Prop := is_Some (dt_offset d).

Lemma in_period_aware start stop l :
  aware start -> aware stop -> Forall (fun e => aware (ae_timestamp e)) l ->
  in_period start stop l = Ok (List.filter (in_range start stop) l).
Proof.
  intros [x Hx] [y Hy]. induction 1 as [|e l [z Hz] _ IH]; [reflexivity|]. cbn [in_period].
  unfold within, dt_leb. rewrite Hx, Hy, Hz, IH. cbn [List.filter].
  assert (Hr : in_range start stop e = (dt_us start - x <=? dt_us (ae_timestamp e) - z)
                 && (dt_us (ae_timestamp e) - z <=? dt_us stop - y))
    by (unfold in_range, utc_us; rewrite Hx, Hy, Hz; reflexivity).
  rewrite Hr. destruct (dt_us start - x <=? _); [|reflexivity]. cbn [andb].
  by destruct (dt_us (ae_timestamp e) - z <=? _).
Qed.

Definition record_all (es : list AuditEvent) : M ComplianceReporter unit :=
  for_each es record_audit_event.

Lemma record_all_run es : forall r w, record_all es r w = (Ok tt, (mkReporter (_events r ++ es), w)).
Proof.
  unfold record_all. induction es as [|e es IH]; intros r w; cbn [for_each].
  - rewrite app_nil_r. by destruct r.
  - rewrite (bind_run _ _ _ _ tt (mkReporter (_events r ++ [e])) w) by reflexivity.
    rewrite IH. cbn. by rewrite <- app_assoc.
Qed.

(** A report over a period lists exactly the events recorded with a time in it (ends
    included), oldest first, and its totals count them. *)
Theorem report_exact es f start stop w :
  aware start -> aware stop -> Forall (fun e => aware (ae_timestamp e)) es ->
  exists rep s w', (record_all es ;; generate_report f start stop) ComplianceReporter_init w
                   = (Ok rep, (s, w')) /\
    events rep = List.filter (in_range start stop) es /\
    total_events rep = Z.of_nat (length (events rep)) /\
    summary rep = (match f with SOC2 => _soc2_summary | GDPR => _gdpr_summary end) (events rep).
Proof.
  intros Hs He Hl. rewrite (bind_run _ _ _ _ _ _ _ (record_all_run es _ w)). cbn [app _events
    ComplianceReporter_init]. unfold generate_report. run_m. rewrite in_period_aware by done.
  do 3 eexists. split; [reflexivity|]. cbn. by destruct f.
Qed.

(** One naive timestamp, reached by a period with an offset, and there is no report. *)
Theorem report_naive_rejected es e es' f start stop w :
  aware start -> aware stop -> Forall (fun e => aware (ae_timestamp e)) es ->
  dt_offset (ae_timestamp e) = None ->
  exists msg s w', (record_all (es ++ e :: es') ;; generate_report f start stop)
    ComplianceReporter_init w = (Err (Exn TypeError msg None), (s, w')).
Proof.
  intros [x Hx] [y Hy] Hl Hn. rewrite (bind_run _ _ _ _ _ _ _ (record_all_run _ _ w)).
  cbn [app _events ComplianceReporter_init]. unfold generate_report. run_m.
  assert (Ei : exists msg, in_period start stop (es ++ e :: es') = Err (Exn TypeError msg None)).
  { induction Hl as [|a es [z Hz] _ [msg IH]]; cbn [app in_period]; unfold within, dt_leb.
    - rewrite Hx, Hn. eauto.
    - rewrite Hx, Hy, Hz, IH. destruct (dt_us start - x <=? dt_us (ae_timestamp a) - z); eauto. }
  destruct Ei as [msg ->]. eauto.
Qed.
End reporter.
