(* ===== verification/ServiceExamples.v ===== *)
(** * Concrete calls of the HTTP interface

    The process of PipelineExamples.v behind the router, with a cluster of one workflow
    that waits for approval: the theorems of Router.v and Main.v applied to it. *)
From Stdlib Require Import ZArith Lia Ascii String.
From stdpp Require Import base gmap strings list.
From S2P Require Import Prelude PyDecimal PyUuid World Metrics Config AuditLogger BudgetEnforcer LoopDetector.
From S2P Require Import PyCrypto ReplayStore Regex Guardrails SessionMgr TokenLibrary PolicyEngine Adapters.
From S2P Require Import Orchestrator PipelineExamples Workflow WorkflowSafety ApprovalService Router DataConverter.
From S2P Require Import Main.

#[local] Existing Instance toy_jose.
#[local] Existing Instance demo_text.
#[local] Existing Instance demo_float_repr.
#[local] Existing Instance demo_crypto.
#[local] Existing Instance demo_pydantic.
#[local] Existing Instance ascii_data.
#[local] Existing Instance pipeline_settings.
#[local] Existing Instance demo_keygen.
#[local] Existing Instance granting.
#[local] Existing Instance demo_fernet.

(** A workflow at its approval gate. *)
Definition waiting_instance : Instance_ :=
  mkInstance (uuid_str demo_task) None "finance" "human-intervention-required"
    PendingApprovalState.AWAITING_APPROVAL None (Some 7).
Definition demo_cluster : Cluster :=
  mkCluster {[uuid_str demo_task :=
                Wait 60 waiting_instance (fun _ s => Done (inl (WfRaised rpc_error)) s)]}.

(** A token of alice's that may approve. *)
Definition approver_request : TokenRequest :=
  mkTokenRequest "finance" "alice" None None (Some ["hitl:approve"%string])
    (Some "approver"%string) None None None None.
Definition approver_token : string :=
  match (issue_token approver_request demo_manager w_empty).1 with Ok t => t | Err _ => "" end.

Definition demo_hitl : HitlControls InMemoryDPoPReplayStore Cluster :=
  mkHitl demo_cluster demo_policy demo_manager.
Definition demo_orchestrator : Orchestrator_ InMemoryDPoPReplayStore :=
  mkOrchestrator demo_policy demo_adapter demo_state.
Definition demo_router : RouterState InMemoryDPoPReplayStore Cluster :=
  mkRouter (Some demo_orchestrator) (Some demo_hitl).

(** Bob's name goes into the decision although the token is alice's. *)
Definition demo_body : list (string * json) :=
  [("approver_id", JStr "bob"); ("reason", JStr "fine")]%string.

Lemma decision_authorized_witness :
  exists r s' w', approve_task demo_task demo_body (Some ("Bearer " +:+ approver_token))
                    demo_router w_empty = (Ok r, (s', w')) /\
    authorized demo_hitl demo_task "approve" (Some ("Bearer " +:+ approver_token)) w_empty.
Proof.
  assert (Hok : is_ok (approve_task demo_task demo_body (Some ("Bearer " +:+ approver_token))
                  demo_router w_empty).1 = true) by (vm_compute; reflexivity).
  destruct (approve_task demo_task demo_body (Some ("Bearer " +:+ approver_token))
              demo_router w_empty) as [[r|e] [s' w']] eqn:E; [|discriminate Hok].
  exists r, s', w'. split; [reflexivity|].
  destruct (decision_authorized demo_task demo_body (Some ("Bearer " +:+ approver_token)) demo_hitl
    demo_router w_empty (Ok r) s' w' eq_refl) as [Ha _].
  destruct (Ha E) as (_ & h' & _ & [[_ [e He]]|(req & _ & Hauth & _)]); [discriminate He|].
  exact Hauth.
Defined.

Definition demo_task_request (p : string) : TaskRequest :=
  mkTaskRequest demo_task p "" FINANCE "alice" "llama3" 64 (JInt 0) "" [] false.
Definition demo_execute_request (p : string) : ExecuteRequest :=
  mkExecuteRequest demo_task p FINANCE "alice" None "llama3" 64 (JInt 0) "" [] false.


(** A jailbreak attempt is answered with 400. *)
Example jailbreak_is_bad_request :
  match (route_task (demo_task_request "jailbreak") demo_router w_empty).1 with
  | Err (Exn (HTTPException st _) _ _) => st = 400
  | _ => False
  end.
Proof. vm_compute. reflexivity. Qed.

(** A gauge that still shows a decided task. *)
Definition old_gauge : World :=
  w_add_metric (GaugeSetTime "aegis_workflow_pending_approval_seconds" (workflow_labels "old") 3)
    w_empty.

Lemma old_gauge_ok : gauge_ok {["old"%string]} old_gauge.
Proof.
  intros id. rewrite elem_of_singleton. unfold old_gauge. rewrite pending_set.
  change (pending_shown id w_empty) with (@None GaugeValue).
  case_bool_decide; split; [done|eauto|by intros [? [=]]|congruence].
Qed.

(** A cluster reports its pending tasks without touching the metrics. *)
Lemma cluster_source_silent n : sets_no_metric (Some (list_pending_snapshots (C := Cluster) n)).
Proof.
  assert (Hp : forall l, emits (fun _ => False) (pending_snapshots (C := Cluster) l)).
  { intros l. induction l as [|x l IH]; cbn [pending_snapshots]; unfold pending_snapshot.
    - emitting.
    - emitting; try exact IH; apply emits_none; intros c w; cbn; by destruct (cluster_workflows c !! execution_id x ≫= instance_of). }
  intros c w. assert (He : emits (fun _ => False) (list_pending_snapshots (C := Cluster) n)).
  { unfold list_pending_snapshots. emitting; first [apply Hp|by apply emits_none]. }
  destruct (He c w) as (cs & -> & Hcs). destruct Hcs; [by rewrite app_nil_r|done].
Qed.

Lemma metrics_show_pending_witness :
  exists body t w', metrics (fun _ => "page"%string) "text/plain" (Some (list_pending_snapshots 200))
                      (demo_cluster, {["old"%string]}) old_gauge = (Ok body, ((demo_cluster, t), w')) /\
    t = {[uuid_str demo_task]} /\ gauge_ok t w'.
Proof.
  assert (Hs : source_answer (Some (list_pending_snapshots 200)) demo_cluster old_gauge
               = (Some [approval_status waiting_instance], demo_cluster))
    by (vm_compute; reflexivity).
  destruct (metrics_show_pending (fun _ => "page"%string) "text/plain"
    (Some (list_pending_snapshots 200)) demo_cluster {["old"%string]} old_gauge _ _
    (cluster_source_silent 200) old_gauge_ok Hs) as (w' & now & E & Hg & _).
  exists (mkResponse "page" "text/plain"), (pending_ids [approval_status waiting_instance]), w'.
  split; [exact E|]. split; [vm_compute; reflexivity|exact Hg].
Defined.

(** A local environment, and a cluster that accepts every connection. *)
Definition no_environ (name : string) : option string := None.
Definition connect_demo (host : string) (codec : EncryptedPayloadCodec)
    : M (RouterState InMemoryDPoPReplayStore Cluster) Cluster := mret demo_cluster.
Definition open_in_memory (c : store_choice) : InMemoryDPoPReplayStore := InMemoryDPoPReplayStore_init.

Lemma started_app_has_no_orchestrator_witness :
  exists s w1 msg, startup_event no_environ connect_demo open_in_memory router_initial w_empty
                   = (Ok tt, (s, w1)) /\
    (route_task (demo_task_request "hello") s w1).1 = Err (Exn RuntimeError msg None).
Proof.
  destruct (startup_event no_environ connect_demo open_in_memory router_initial w_empty)
    as [[[]|e] [s w1]] eqn:E; [|vm_compute in E; discriminate E].
  destruct (started_app_has_no_orchestrator no_environ connect_demo open_in_memory s w_empty
    (demo_task_request "hello") (demo_execute_request "hello") w1) as (_ & [msg Hr] & _);
    [by intros ? ? ? ? ? ? ? [= _ <- _]|exact E|].
  exists s, w1, msg. split; [reflexivity|]. by rewrite Hr.
Defined.
