(* ===== verification/DeploymentExamples.v ===== *)
(** * Concrete runs of the deployment

    The process of PipelineExamples.v with an OPA server that evaluates the repository's
    policy, an administrator's token, the metrics of a run and the demo script's waits:
    the theorems of DeployedPolicy.v, MetricsSafety.v and Demo.v applied to it. *)
From Stdlib Require Import ZArith Lia Ascii String.
From stdpp Require Import base gmap strings list.
From S2P Require Import Prelude PyDecimal PyUuid World Metrics Config AuditLogger BudgetEnforcer LoopDetector.
From S2P Require Import PyCrypto ReplayStore Regex Guardrails SessionMgr TokenLibrary PolicyEngine AccessPolicy.
From S2P Require Import Adapters Orchestrator PipelineExamples Workflow WorkflowSafety Activities.
From S2P Require Import MetricsSafety System ApprovalService Router DeployedPolicy DataConverter Main.
From S2P Require Import Demo ServiceExamples.

#[local] Existing Instance toy_jose.
#[local] Existing Instance toy_jose_laws.
#[local] Existing Instance demo_text.
#[local] Existing Instance demo_float_repr.
#[local] Existing Instance demo_crypto.
#[local] Existing Instance demo_pydantic.
#[local] Existing Instance ascii_data.
#[local] Existing Instance pipeline_settings.
#[local] Existing Instance demo_keygen.

(** An OPA server with policies/agent_access.rego. *)
Definition opa_evaluates (body : json) : HttpResponse :=
  match body with
  | JObj [(_, i)] =>
      match AgentAccess.document (Some i) with
      | Some doc => mkHttpResponse 200 (Ok (JObj [("result"%string, doc)]))
      | None => mkHttpResponse 500 (Ok (JObj []))
      end
  | _ => mkHttpResponse 400 (Ok (JObj []))
  end.
#[local] Instance deployed_env : Env := {|
  clock _ := secs 1700000000;
  utc_clock _ := 1700000000000000;
  uuid_supply n := mkUUID (Z.of_nat n + 1);
  http_answer _ q :=
    Ok (if String.prefix "http://localhost:8181" (hr_url q) then opa_evaluates (hr_json q)
        else mkHttpResponse 200 (Ok (llm_says "mail bob@corp.com")));
  span_context _ := mkSpanContext false 0 0 0;
  counter_inc_error _ := None
|}.
#[local] Instance deployed_serves : ServesPolicy demo_policy.
Proof.
  intros sent i. cbn [http_answer deployed_env hr_url hr_json].
  replace (String.prefix "http://localhost:8181" (policy_url demo_policy "agent_access")) with true
    by (vm_compute; reflexivity).
  cbn [opa_evaluates]. destruct (AgentAccess.document (Some i)) as [doc|]; [|by eexists].
  eexists. split; [reflexivity|]. reflexivity.
Qed.

#[local] Instance hitl_serves : ServesPolicy (_approval_policy_engine demo_hitl) := deployed_serves.

(** The adapter of the examples, out of order. *)
Definition silent_adapter : BaseAdapter InMemoryDPoPReplayStore :=
  mkAdapter (provider_name demo_adapter) (outbound_request_binding demo_adapter)
    (fun _ => throw RuntimeError "out of order").

(** A prompt of finance is masked twice on its way. *)
Lemma deployed_governance_witness :
  exists res s' w', Orchestrator.run demo_policy demo_adapter (demo_req "ssn 123-45-6789" None false None)
                      demo_state w_empty = (Ok res, (s', w')) /\
    sanitized_prompt res = deployed_prompt "finance" "ssn 123-45-6789" /\
    sanitized_prompt res = "ssn [REDACTED-SSN]"%string.
Proof.
  assert (Hok : is_ok (Orchestrator.run demo_policy demo_adapter (demo_req "ssn 123-45-6789" None false None)
                  demo_state w_empty).1 = true) by (vm_compute; reflexivity).
  destruct (Orchestrator.run demo_policy demo_adapter (demo_req "ssn 123-45-6789" None false None)
              demo_state w_empty) as [[res|e] [s' w']] eqn:E; [|discriminate Hok].
  exists res, s', w'. split; [reflexivity|].
  destruct (deployed_governance demo_policy demo_adapter) as [Hg _].
  destruct (Hg (demo_req "ssn 123-45-6789" None false None) demo_state w_empty)
    as [Hsame|(_ & tok & proof & sh & w1 & _ & Hr)].
  - exfalso. specialize (Hsame silent_adapter ltac:(by split)). rewrite E in Hsame.
    assert (Hno : is_ok (Orchestrator.run demo_policy silent_adapter
      (demo_req "ssn 123-45-6789" None false None) demo_state w_empty).1 = false)
      by (vm_compute; reflexivity).
    rewrite Hsame in Hno. discriminate Hno.
  - rewrite (Hr _ _ _ E). split; [reflexivity|]. vm_compute. reflexivity.
Defined.

(** ** Decisions *)

(** A token of the role "admin" that allows both decisions. *)
Definition admin_rq : TokenRequest :=
  mkTokenRequest "general" "alice" None None (Some ["hitl:approve"; "hitl:deny"]%string)
    (Some "admin"%string) None None None None.
Definition admin_jwt : string :=
  match (issue_token admin_rq demo_manager w_empty).1 with Ok t => t | Err _ => "" end.

Lemma only_admins_decide_witness :
  exists resp s' w', decide_endpoint false demo_task demo_body (Some ("Bearer " +:+ admin_jwt))
                       demo_router w_empty = (Ok resp, (s', w')) /\
    admin_token demo_hitl "deny" (Some ("Bearer " +:+ admin_jwt)) w_empty.
Proof.
  assert (Hok : is_ok (decide_endpoint false demo_task demo_body (Some ("Bearer " +:+ admin_jwt))
                  demo_router w_empty).1 = true) by (vm_compute; reflexivity).
  destruct (decide_endpoint false demo_task demo_body (Some ("Bearer " +:+ admin_jwt))
              demo_router w_empty) as [[resp|e] [s' w']] eqn:E; [|discriminate Hok].
  exists resp, s', w'. split; [reflexivity|].
  destruct (only_admins_decide false demo_task demo_body (Some ("Bearer " +:+ admin_jwt)) demo_hitl
    demo_router w_empty (Ok resp) s' w' eq_refl E) as (h' & _ & [[_ [e He]]|[Ha _]]);
    [discriminate He|].
  exact Ha.
Defined.
(** An approver's token is not enough. *)
Example approver_refused :
  is_ok (decide_endpoint true demo_task demo_body (Some ("Bearer " +:+ approver_token))
           demo_router w_empty).1 = false.
Proof. vm_compute. reflexivity. Qed.

Lemma deployed_keys : keys_configured (R := InMemoryDPoPReplayStore).
Proof.
  exists (token_secret_key settings), (token_secret_key settings). split; [reflexivity|].
  split; reflexivity.
Qed.


Lemma demo_cluster_reachable : reachable demo_cluster.
Proof.
  intros id w wf s Hw Hi. exists w. cbn in Hw |- *. rewrite Hw. cbn. by rewrite Hi.
Qed.
Lemma demo_cluster_signals : takes_signals demo_cluster.
Proof.
  intros id g w (wf & s & Hw & Hi & Ha). unfold demo_cluster in Hw. cbn in Hw.
  apply lookup_singleton_Some in Hw as [<- <-]. do 2 eexists. vm_compute. reflexivity.
Qed.

Lemma admin_decision_delivered_witness :
  exists resp s' w' h', decide_endpoint false demo_task demo_body (Some ("Bearer " +:+ admin_jwt))
                       demo_router w_empty = (Ok resp, (s', w')) /\
    adp_status resp = "denied"%string /\ _hitl s' = Some h' /\
    delivered workflow_at (uuid_str demo_task) (Deny (mkDecision "bob" "fine" false))
      demo_cluster (_approval_service h').
Proof.
  destruct (admin_decision_delivered (C := Cluster) false admin_rq None demo_manager w_empty deployed_keys)
    as (token & m1 & w1 & Ei & Hd); [by split_and!|reflexivity|cbn; set_solver|].
  assert (Et : token = admin_jwt) by (unfold admin_jwt; by rewrite Ei). rewrite Et in Hd.
  destruct (Hd demo_task demo_body (mkDecisionRequest "bob" "fine") demo_hitl demo_router w_empty
    (Wait 60 waiting_instance (fun _ s => Done (inl (WfRaised rpc_error)) s)) waiting_instance)
    as (resp & s' & w' & h' & E & Hst & _ & Hh & Hdel); try reflexivity.
  - exact hitl_serves.
  - vm_compute. discriminate.
  - vm_compute. discriminate.
  - exact demo_cluster_reachable.
  - exact demo_cluster_signals.
  - intros x y [=].
  - exists resp, s', w', h'. split_and!; [exact E|exact Hst|exact Hh|exact Hdel].
Defined.

(** ** Metrics *)

Lemma in_memory_silent j ttl :
  emits (fun c => call_typed c = true) (register_if_unused (R := InMemoryDPoPReplayStore) j ttl).
Proof. unfold register_if_unused, in_memory_store, in_memory_register. emitting. Qed.

(** A refused prompt counts one error. *)
Lemma metric_calls_typed_witness :
  exists cs, w_metrics (Orchestrator.run demo_policy demo_adapter
                          (demo_req "jailbreak" None false None) demo_state w_empty).2.2 = cs /\
    length cs = 1%nat /\ Forall (fun c => call_typed c = true) cs.
Proof.
  destruct (metric_calls_typed demo_adapter in_memory_silent (is_llama _ _)) as [Hr _].
  destruct (Hr demo_policy (demo_req "jailbreak" None false None) demo_state w_empty)
    as (cs & E & HP).
  exists cs. cbn [w_empty w_metrics app] in E. split; [exact E|]. split; [|exact HP].
  rewrite <- E. vm_compute. reflexivity.
Defined.

(** A session, a spend and a spend that goes over the limit. *)
Definition demo_ops : list budget_op :=
  [OpCreate demo_task "finance" (LimitDecimal (mkDec false 100 (-2)));
   OpSpend demo_task (mkDec false 25 (-2)) None; OpSpend demo_task (mkDec false 90 (-2)) None].

Lemma budget_gauge_faithful_witness :
  let '(b, w') := BudgetEnforcer.do_ops demo_ops BudgetEnforcer_init w_empty in
  exists s v, be_sessions b !! demo_task = Some s /\
    remaining_shown demo_task w' = Some (GDecimal v) /\ shows s v.
Proof.
  pose proof (budget_gauge_faithful demo_ops w_empty) as Hg.
  assert (Hw : Forall op_ids_wf demo_ops)
    by (apply Forall_cons_2; [split; vm_compute; [discriminate|reflexivity]|];
        repeat apply Forall_cons_2; try apply Forall_nil_2; exact I).
  specialize (Hg Hw).
  assert (Hs : is_Some (be_sessions (BudgetEnforcer.do_ops demo_ops BudgetEnforcer_init w_empty).1
                          !! demo_task)) by (eexists; vm_compute; reflexivity).
  destruct (BudgetEnforcer.do_ops demo_ops BudgetEnforcer_init w_empty) as [b w'].
  destruct Hs as [s Hs]. destruct (Hg _ _ Hs) as (v & Hv & Hsh). exists s, v.
  split; [exact Hs|split; [exact Hv|exact Hsh]].
Defined.

(** ** The demo script *)

(** A stack with the time as its state: a workflow that never waits and a page without
    the metric. *)
Definition idle_snapshot : ApprovalStatusSnapshot :=
  approval_status (mkInstance "t-1" None "general" "running" PendingApprovalState.NOT_REQUIRED None None).
#[local] Instance idle_stack : DemoStack Z := {
  loop_time := get;
  sleep d := modify (Z.add d);
  client_connect _ _ := mret tt;
  start_workflow _ _ := mret tt;
  query_status _ := mret idle_snapshot;
  workflow_result _ := throw TimeoutError "never";
  http_get _ := mret (mkHttpText 200 "up 1");
  print _ := mret tt
}.
#[local, refine] Instance idle_clock : DemoClock Z := { stack_now s _ := s }.
Proof.
  - intros s w. exists s, w. by split.
  - intros d s w Hd. do 2 eexists. split; [reflexivity|]. lia.
  - intros id s w r s' w' E. injection E as _ <- _. lia.
  - intros url s w r s' w' E. injection E as _ <- _. lia.
Defined.

(** The wait for the pending state of a workflow that needs no approval times out, two
    seconds later. *)
Lemma demo_waits_end_witness :
  exists s' w', _wait_for_pending_state (S := Z) 5 "t-1" (secs 2) 0 w_empty
      = (Err (Exn TimeoutError "Workflow did not reach PendingApproval before timeout" None), (s', w')) /\
    secs 2 <= s'.
Proof.
  destruct (demo_waits_end (S := Z) "t-1" "http://localhost" true (secs 2) 4 0 w_empty) as [Hp _].
  destruct Hp as (r & s' & w' & E & Ho); [by vm_compute|].
  exists s', w'. destruct r as [[a|]|e]; [|done|].
  - vm_compute in E. discriminate E.
  - destruct Ho as [(s1 & w1 & s2 & w2 & Er)|[-> Hle]]; [discriminate Er|]. split; [exact E|exact Hle].
Defined.
